(** * Monte Carlo tree search of askcos-core (retrosynthetic/mcts/v2/tree_builder.py)

    A shallow embedding of the [MCTS] class: the networkx graph it grows, the
    node factory, the done propagation, UCB selection, expansion, back-update,
    the driver loop and the extraction of buyable paths.

    Modelling conventions.
    - Python floats are binary64 values: [PrimFloat.float].  Comparisons and
      arithmetic are the primitive ones, in the order the source writes them.
    - Exceptions are values of [exn]; a method that may raise returns a
      [result].  Python's [and], [or] and [all] short-circuit, and so do their
      counterparts here.
    - The graph is typed: a node is a chemical or a reaction, with the
      attributes the source gives to that kind.  Reading an attribute that the
      kind does not have raises [KeyError].  networkx merges attribute
      dictionaries when [add_node] is given an identifier that is already
      present; the model replaces the node.  The two differ only when a
      chemical identifier is also a reaction identifier.
    - Dictionaries whose iteration order the source relies on ([templates],
      successor lists) are kept in insertion order. *)

From Stdlib Require Import ZArith String List Floats Lia.
From stdpp Require Import base gmap strings list.

(* Decimal literals such as 0.1 denote the nearest binary64 value, as they do
   in Python. *)
#[local] Set Warnings "-inexact-float".

Local Open Scope string_scope.
Local Open Scope list_scope.

(** ** Exceptions and results *)

Inductive exn : Type :=
| KeyError (key : string)
| IndexError
| ValueError (msg : string)
| AssertionError (msg : string)
| HasACycle
| OutOfFuel.

Inductive result (A : Type) : Type :=
| Ok (a : A)
| Raise (e : exn).
Arguments Ok {A} a.
Arguments Raise {A} e.

Definition bind {A B : Type} (m : result A) (k : A -> result B) : result B :=
  match m with
  | Ok a => k a
  | Raise e => Raise e
  end.

Notation "x <- m ;; k" := (bind m (fun x => k))
  (at level 100, m at next level, right associativity).

Definition is_ok {A : Type} (r : result A) : bool :=
  match r with Ok _ => true | Raise _ => false end.

(** [all(f(x) for x in l)]: stops at the first false value, so that an
    exception behind it is never raised. *)
Fixpoint all_m {A : Type} (f : A -> result bool) (l : list A) : result bool :=
  match l with
  | [] => Ok true
  | x :: l' => b <- f x ;; if b then all_m f l' else Ok false
  end.

(** ** Numbers *)

Definition float_of_nat (n : nat) : float :=
  PrimFloat.of_uint63 (Uint63.of_Z (Z.of_nat n)).

(** Python's [max(a, b)]: the first argument unless the second is greater. *)
Definition py_max (a b : float) : float :=
  if (a <? b)%float then b else a.

(** [sum(l)], from the left. *)
Definition py_sum (l : list float) : float :=
  fold_left (fun acc x => (acc + x)%float) l 0%float.

(** The values [is_terminal] can return: [ppg and (ppg <= max_ppg)] is [ppg]
    itself when [ppg] is falsy ([None], [0.0]) and a boolean otherwise. *)
Inductive pyval : Type :=
| PyNone
| PyBool (b : bool)
| PyFloat (f : float).

Definition truthy (v : pyval) : bool :=
  match v with
  | PyNone => false
  | PyBool b => b
  | PyFloat f => negb (f =? 0)%float
  end.

(** ** Ordered dictionaries keyed by template index *)

Fixpoint dict_get {V : Type} (k : Z) (d : list (Z * V)) : option V :=
  match d with
  | [] => None
  | (k', v) :: d' => if (k =? k')%Z then Some v else dict_get k d'
  end.

Fixpoint dict_set {V : Type} (k : Z) (v : V) (d : list (Z * V)) : list (Z * V) :=
  match d with
  | [] => [(k, v)]
  | (k', v') :: d' =>
      if (k =? k')%Z then (k, v) :: d' else (k', v') :: dict_set k v d'
  end.

(** [{i: p for i, p in pairs}] *)
Definition dict_of_pairs {V : Type} (pairs : list (Z * V)) : list (Z * V) :=
  fold_left (fun d kv => dict_set (fst kv) (snd kv) d) pairs [].

Definition dict_keys {V : Type} (d : list (Z * V)) : list Z := map fst d.

Definition mem_Z (x : Z) (l : list Z) : bool := existsb (Z.eqb x) l.
Definition mem_str (x : string) (l : list string) : bool := existsb (String.eqb x) l.

(** ** Nodes *)

Record chemical : Type := Chem {
  explored : list Z;
  min_depth : option nat;
  purchase_price : option float;
  reward_avg : float;
  reward_tot : float;
  templates : list (Z * float);
  terminal : pyval;
  done : option bool;          (* absent until [is_chemical_done] sets it *)
  visit_count : nat
}.

Record reaction : Type := Rxn {
  fast_filter_score : float;
  rxn_reward_avg : float;
  rxn_reward_tot : float;
  template_score : float;
  rxn_templates : list Z;
  rxn_visit_count : nat
}.

Inductive node : Type :=
| Chemical (c : chemical)
| Reaction (r : reaction).

Definition set_explored (l : list Z) (c : chemical) : chemical :=
  Chem l (min_depth c) (purchase_price c) (reward_avg c) (reward_tot c)
       (templates c) (terminal c) (done c) (visit_count c).
Definition set_min_depth (m : option nat) (c : chemical) : chemical :=
  Chem (explored c) m (purchase_price c) (reward_avg c) (reward_tot c)
       (templates c) (terminal c) (done c) (visit_count c).
Definition set_terminal (t : pyval) (c : chemical) : chemical :=
  Chem (explored c) (min_depth c) (purchase_price c) (reward_avg c) (reward_tot c)
       (templates c) t (done c) (visit_count c).
Definition set_done (d : option bool) (c : chemical) : chemical :=
  Chem (explored c) (min_depth c) (purchase_price c) (reward_avg c) (reward_tot c)
       (templates c) (terminal c) d (visit_count c).
Definition set_visit_count (n : nat) (c : chemical) : chemical :=
  Chem (explored c) (min_depth c) (purchase_price c) (reward_avg c) (reward_tot c)
       (templates c) (terminal c) (done c) n.

Definition set_rxn_templates (l : list Z) (r : reaction) : reaction :=
  Rxn (fast_filter_score r) (rxn_reward_avg r) (rxn_reward_tot r)
      (template_score r) l (rxn_visit_count r).
Definition set_template_score (x : float) (r : reaction) : reaction :=
  Rxn (fast_filter_score r) (rxn_reward_avg r) (rxn_reward_tot r)
      x (rxn_templates r) (rxn_visit_count r).
Definition set_rxn_visit_count (n : nat) (r : reaction) : reaction :=
  Rxn (fast_filter_score r) (rxn_reward_avg r) (rxn_reward_tot r)
      (template_score r) (rxn_templates r) n.

(** ** The directed graph ([nx.DiGraph]) *)

Record DiGraph : Type := Graph {
  g_nodes : gmap string node;
  g_succ : gmap string (list string)     (* successors, in insertion order *)
}.

Definition empty_graph : DiGraph := Graph ∅ ∅.

Definition successors (g : DiGraph) (n : string) : list string :=
  default [] (g_succ g !! n).

Definition out_degree (g : DiGraph) (n : string) : nat :=
  length (successors g n).

Definition add_node (g : DiGraph) (n : string) (d : node) : DiGraph :=
  Graph (<[n := d]> (g_nodes g)) (g_succ g).

(** [add_edge] is only called on identifiers that are already nodes (the
    target's attributes were just read, the reaction was just registered and
    every reactant is in [chemicals]), so only the adjacency changes.  Adding
    an edge that exists keeps its position. *)
Definition add_edge (g : DiGraph) (u v : string) : DiGraph :=
  if mem_str v (successors g u) then g
  else Graph (g_nodes g) (<[u := successors g u ++ [v]]> (g_succ g)).

(** ** Configuration, collaborators and the engine state *)

Record Config : Type := {
  template_max_count : nat;
  template_max_cum_prob : float;
  fast_filter_threshold : float;
  max_branching : nat;
  max_depth : nat;
  exploration_weight : float;
  max_ppg : option float;
  expansion_time : float;
  max_chemicals : option nat;
  max_reactions : option nat
}.

(** The values [__init__] assigns. *)
Definition default_config : Config := {|
  template_max_count := 100;
  template_max_cum_prob := 0.995%float;
  fast_filter_threshold := 0.75%float;
  max_branching := 10;
  max_depth := 3;
  exploration_weight := 1%float;
  max_ppg := Some 10%float;
  expansion_time := 20%float;
  max_chemicals := None;
  max_reactions := None
|}.

(** The pricer and the retro transformer, as the functions the engine calls.
    [template_ok idx] is false when [rdchiralReaction] rejects the SMARTS of
    template [idx] with a [ValueError]. *)
Record Adapters : Type := {
  lookup_smiles : string -> option float;
  predict : string -> nat -> float -> list float * list Z;
  fast_filter : string -> string -> float;
  template_ok : Z -> bool;
  apply_one_template : string -> Z -> list (list string)
}.

Record MCTS : Type := Engine {
  config : Config;
  adapters : Adapters;
  tree : DiGraph;
  target : option string;
  chemicals : list string;
  reactions : list string
}.

Definition with_tree (g : DiGraph) (s : MCTS) : MCTS :=
  Engine (config s) (adapters s) g (target s) (chemicals s) (reactions s).
Definition with_target (t : option string) (s : MCTS) : MCTS :=
  Engine (config s) (adapters s) (tree s) t (chemicals s) (reactions s).
Definition with_chemicals (l : list string) (s : MCTS) : MCTS :=
  Engine (config s) (adapters s) (tree s) (target s) l (reactions s).
Definition with_reactions (l : list string) (s : MCTS) : MCTS :=
  Engine (config s) (adapters s) (tree s) (target s) (chemicals s) l.

(** [MCTS.__init__] *)
Definition MCTS_init (cfg : Config) (ad : Adapters) : MCTS :=
  Engine cfg ad empty_graph None [] [].

(** [MCTS.clear] *)
Definition clear (s : MCTS) : MCTS :=
  with_reactions [] (with_chemicals [] (with_tree empty_graph s)).

(** [self.tree.nodes[smiles]] read as a chemical, resp. as a reaction. *)
Definition chem_data (s : MCTS) (smiles : string) : result chemical :=
  match g_nodes (tree s) !! smiles with
  | Some (Chemical c) => Ok c
  | _ => Raise (KeyError smiles)
  end.

Definition rxn_data (s : MCTS) (smiles : string) : result reaction :=
  match g_nodes (tree s) !! smiles with
  | Some (Reaction r) => Ok r
  | _ => Raise (KeyError smiles)
  end.

Definition put_node (s : MCTS) (smiles : string) (d : node) : MCTS :=
  with_tree (add_node (tree s) smiles d) s.

(** ** Done propagation *)

(** [is_chemical_done(smiles)] with [update=False]: the cached attribute. *)
Definition is_chemical_done (s : MCTS) (smiles : string) : result bool :=
  c <- chem_data s smiles ;;
  match done c with
  | Some b => Ok b
  | None => Raise (KeyError "done")
  end.

(** [is_reaction_done] *)
Definition is_reaction_done (s : MCTS) (smiles : string) : result bool :=
  if (0 <? out_degree (tree s) smiles)%nat
  then all_m (is_chemical_done s) (successors (tree s) smiles)
  else Ok false.

(** The value [is_chemical_done(smiles, update=True)] computes for [done]. *)
Definition compute_done (s : MCTS) (smiles : string) (data : chemical) : result bool :=
  if truthy (terminal data) then Ok true
  else if (length (templates data) =? 0)%nat then Ok true
  else if match min_depth data with
          | Some d => (max_depth (config s) <=? d)%nat
          | None => false
          end then Ok true
  else if (max_branching (config s) <=? out_degree (tree s) smiles)%nat
          || (length (explored data) =? length (templates data))%nat
       then all_m (is_reaction_done s) (successors (tree s) smiles)
  else Ok false.

(** [is_chemical_done(smiles, update=True)]: the new value and the state in
    which it is cached. *)
Definition is_chemical_done_update (s : MCTS) (smiles : string) : result (bool * MCTS) :=
  data <- chem_data s smiles ;;
  d <- compute_done s smiles data ;;
  Ok (d, put_node s smiles (Chemical (set_done (Some d) data))).

(** ** Node factory *)

(** [is_terminal(smiles, ppg)] *)
Definition is_terminal (s : MCTS) (smiles : string) (ppg : option float) : pyval :=
  match max_ppg (config s) with
  | Some m =>
      match ppg with
      | None => PyNone
      | Some p => if truthy (PyFloat p) then PyBool (p <=? m)%float else PyFloat p
      end
  | None => PyBool false
  end.

(** [create_chemical_node] *)
Definition create_chemical_node (s : MCTS) (smiles : string) : result MCTS :=
  let '(probs, indices) :=
    predict (adapters s) smiles (template_max_count (config s))
            (template_max_cum_prob (config s)) in
  let templates := dict_of_pairs (combine indices probs) in
  let purchase_price := lookup_smiles (adapters s) smiles in
  let terminal := is_terminal s smiles purchase_price in
  let s1 := with_chemicals (chemicals s ++ [smiles]) s in
  let s2 := put_node s1 smiles
              (Chemical (Chem [] None purchase_price 0%float 0%float
                              templates terminal None 0)) in
  updated <- is_chemical_done_update s2 smiles ;;
  let '(_, s3) := updated in
  Ok s3.

(** [_initialize] *)
Definition _initialize (s : MCTS) (tgt : string) : result MCTS :=
  let s0 := with_target (Some tgt) s in
  s1 <- create_chemical_node s0 tgt ;;
  c <- chem_data s1 tgt ;;
  let c1 := set_terminal (PyBool false) c in
  let c2 := set_done (Some false) c1 in
  let c3 := set_visit_count (visit_count c2 + 1) c2 in
  Ok (put_node s1 tgt (Chemical c3)).

(** ** Selection policy (UCB) *)

Fixpoint fold_m {A B : Type} (f : A -> B -> result A) (l : list B) (a : A) : result A :=
  match l with
  | [] => Ok a
  | x :: l' => a' <- f a x ;; fold_m f l' a'
  end.

Fixpoint map_m {A B : Type} (f : A -> result B) (l : list A) : result (list B) :=
  match l with
  | [] => Ok []
  | x :: l' => y <- f x ;; ys <- map_m f l' ;; Ok (y :: ys)
  end.

(** [list.sort(key=lambda x: x[0], reverse=True)]: stable, highest score
    first; among equal scores the earlier element stays in front. *)
Fixpoint insert_desc {T : Type} (x : float * T) (l : list (float * T)) : list (float * T) :=
  match l with
  | [] => [x]
  | y :: l' => if (fst x <? fst y)%float then y :: insert_desc x l' else x :: l
  end.

Definition sort_desc {T : Type} (l : list (float * T)) : list (float * T) :=
  fold_right insert_desc [] l.

(** [len(set(a) & set(b)) > 0] *)
Definition intersects (a b : list string) : bool :=
  existsb (fun x => mem_str x b) a.

Definition template_prob (templates : list (Z * float)) (t : Z) : result float :=
  match dict_get t templates with
  | Some p => Ok p
  | None => Raise (KeyError "template")
  end.

(** A reaction child is skipped when it is done or leads back into the path. *)
Definition ucb_skips (s : MCTS) (path : list string) (rxn : string) : result bool :=
  d <- is_reaction_done s rxn ;;
  Ok (d || intersects (successors (tree s) rxn) path).

(** One turn of the loop over the reaction children; the accumulator holds
    [max_average_reward] and [reaction_options]. *)
Definition ucb_reaction (s : MCTS) (templates : list (Z * float)) (visit_count : nat)
    (path : list string) (exploration_weight : float)
    (acc : float * list (float * string)) (rxn : string)
    : result (float * list (float * string)) :=
  rd <- rxn_data s rxn ;;
  skip <- ucb_skips s path rxn ;;
  if skip then Ok acc
  else
    let average_reward := rxn_reward_avg rd in
    let max_average_reward := py_max (fst acc) average_reward in
    let q_sa := (- average_reward)%float in
    probs <- map_m (template_prob templates) (rxn_templates rd) ;;
    let template_probability := py_sum probs in
    let u_sa := (template_probability * float_of_nat visit_count
                 / float_of_nat (1 + rxn_visit_count rd))%float in
    let score := (q_sa + exploration_weight * u_sa)%float in
    Ok (max_average_reward, snd acc ++ [(score, rxn)]).

(** The score of a template that was not applied yet. *)
Definition template_score_ucb (max_average_reward exploration_weight p : float)
    (visit_count : nat) : float :=
  let q_sa := (- (max_average_reward + 0.1))%float in
  let u_sa := (p * (1 + PrimFloat.sqrt (float_of_nat visit_count)))%float in
  (q_sa + exploration_weight * u_sa)%float.

(** The loop over [templates]; a dictionary has each key once, so walking the
    pairs reads [templates[template]]. *)
Definition ucb_templates (templates : list (Z * float)) (explored : list Z)
    (max_average_reward exploration_weight : float) (visit_count : nat)
    : list (float * Z) :=
  map (fun tp => (template_score_ucb max_average_reward exploration_weight
                                     (snd tp) visit_count, fst tp))
      (List.filter (fun tp => negb (mem_Z (fst tp) explored)) templates).

(** [ucb]: the reaction options and the template options, each sorted.  The
    debugger stop on two empty lists returns them as they are. *)
Definition ucb (s : MCTS) (node : string) (path : list string)
    (exploration_weight : float)
    : result (list (float * string) * list (float * Z)) :=
  c <- chem_data s node ;;
  acc <- fold_m (ucb_reaction s (templates c) (visit_count c) path exploration_weight)
                (successors (tree s) node) (0%float, []) ;;
  let template_options :=
    ucb_templates (templates c) (explored c) (fst acc) exploration_weight
                  (visit_count c) in
  Ok (sort_desc (snd acc), sort_desc template_options).

(** ** Selection walk *)

(** What an option stands for: a reaction to descend into (a [str] in the
    source) or a template index to apply. *)
Inductive task : Type :=
| Descend (rxn : string)
| Apply (template : Z).

Definition last_of (l : list string) : result string :=
  match rev l with
  | x :: _ => Ok x
  | [] => Raise IndexError
  end.

(** [visit_count] is an attribute of both kinds of node. *)
Definition node_visit_count (s : MCTS) (n : string) : result nat :=
  match g_nodes (tree s) !! n with
  | Some (Chemical c) => Ok (visit_count c)
  | Some (Reaction r) => Ok (rxn_visit_count r)
  | None => Raise (KeyError n)
  end.

(** [min(candidates, key=visit_count)] over the successors that are not done;
    the first of the smallest. *)
Fixpoint min_precursor (s : MCTS) (cands : list string) (best : option (string * nat))
    : result (option (string * nat)) :=
  match cands with
  | [] => Ok best
  | c :: rest =>
      d <- is_chemical_done s c ;;
      if d then min_precursor s rest best
      else
        v <- node_visit_count s c ;;
        match best with
        | Some (b, vb) =>
            if (v <? vb)%nat then min_precursor s rest (Some (c, v))
            else min_precursor s rest best
        | None => min_precursor s rest (Some (c, v))
        end
  end.

(** The options a leaf offers: reactions always, templates only below the
    branching cap. *)
Definition select_options (s : MCTS) (leaf : string)
    (options : list (float * string)) (template_opt : list (float * Z))
    : list (float * task) :=
  map (fun o => (fst o, Descend (snd o))) options
  ++ (if (out_degree (tree s) leaf <? max_branching (config s))%nat
      then map (fun o => (fst o, Apply (snd o))) template_opt
      else []).

(** The [while template is None] loop.  Every turn appends a chemical that is
    not on the path yet, so the number of nodes bounds the number of turns.
    On an empty list of options the source stops in the debugger and, once
    resumed, fails on [sorted(options)[0]] with [IndexError]. *)
Fixpoint select_loop (fuel : nat) (s : MCTS) (chem_path rxn_path : list string)
    : result (list string * list string * Z) :=
  match fuel with
  | O => Raise OutOfFuel
  | S fuel' =>
      leaf <- last_of chem_path ;;
      scored <- ucb s leaf chem_path (exploration_weight (config s)) ;;
      let '(options, template_opt) := scored in
      match sort_desc (select_options s leaf options template_opt) with
      | [] => Raise IndexError
      | (_, Apply template) :: _ => Ok (chem_path, rxn_path, template)
      | (_, Descend rxn) :: _ =>
          best <- min_precursor s (successors (tree s) rxn) None ;;
          match best with
          | None => Raise (ValueError "min() arg is an empty sequence")
          | Some (precursor, _) =>
              select_loop fuel' s (chem_path ++ [precursor]) (rxn_path ++ [rxn])
          end
      end
  end.

(** [_select] *)
Definition _select (s : MCTS) : result (list string * list string * Z) :=
  match target s with
  | None => Raise (KeyError "None")
  | Some t => select_loop (S (size (g_nodes (tree s)))) s [t] []
  end.

(** ** Expansion *)

(** [_get_precursors]: the SMILES handling of RDKit and the application of
    the template are the collaborators'; a template that [rdchiralReaction]
    rejects gives no precursor. *)
Definition _get_precursors (s : MCTS) (chemical : string) (template_idx : Z)
    : list (list string) :=
  if template_ok (adapters s) template_idx
  then apply_one_template (adapters s) chemical template_idx
  else [].

(** The inner [for reactant in reactant_list] loop; the boolean is false when
    the loop was left by [break]. *)
Fixpoint register_reactants (s : MCTS) (reactant_list path : list string)
    : result (bool * MCTS) :=
  match reactant_list with
  | [] => Ok (true, s)
  | reactant :: rest =>
      if mem_str reactant path then Ok (false, s)
      else
        s' <- (if mem_str reactant (chemicals s) then Ok s
               else create_chemical_node s reactant) ;;
        register_reactants s' rest path
  end.

(** The branch taken when the reaction identifier is already registered. *)
Definition merge_reaction (s : MCTS) (reaction_smiles : string) (template : Z)
    (tscore : float) : result MCTS :=
  rd <- rxn_data s reaction_smiles ;;
  let rd1 := set_rxn_templates (rxn_templates rd ++ [template]) rd in
  let rd2 := set_template_score (py_max (template_score rd1) tscore) rd1 in
  Ok (put_node s reaction_smiles (Reaction rd2)).

(** The branch that creates a reaction node. *)
Definition new_reaction (s : MCTS) (reaction_smiles : string) (template : Z)
    (tscore score : float) : MCTS :=
  put_node (with_reactions (reactions s ++ [reaction_smiles]) s) reaction_smiles
           (Reaction (Rxn score 0%float 0%float tscore [template] 0)).

Definition connect (g : DiGraph) (tgt reaction_smiles : string)
    (reactant_list : list string) : DiGraph :=
  fold_left (fun g' reactant => add_edge g' reaction_smiles reactant)
            reactant_list (add_edge g tgt reaction_smiles).

(** The body of the loop over [precursors]. *)
Definition process_outcome (tgt : string) (template : Z) (path : list string)
    (s : MCTS) (reactant_list : list string) : result MCTS :=
  let reactant_smiles := String.concat "." reactant_list in
  let score := fast_filter (adapters s) reactant_smiles tgt in
  if (score <? fast_filter_threshold (config s))%float then Ok s
  else
    registered <- register_reactants s reactant_list path ;;
    let '(completed, s1) := registered in
    if completed then
      let reaction_smiles := reactant_smiles +:+ ">>" +:+ tgt in
      tdata <- chem_data s1 tgt ;;
      tscore <- template_prob (templates tdata) template ;;
      s2 <- (if mem_str reaction_smiles (reactions s1)
             then merge_reaction s1 reaction_smiles template tscore
             else Ok (new_reaction s1 reaction_smiles template tscore score)) ;;
      Ok (with_tree (connect (tree s2) tgt reaction_smiles reactant_list) s2)
    else Ok s1.

(** [_process_precursors] *)
Definition _process_precursors (s : MCTS) (tgt : string) (template : Z)
    (precursors : list (list string)) (path : list string) : result MCTS :=
  fold_m (process_outcome tgt template path) precursors s.

(** [_expand] *)
Definition _expand (s : MCTS) (chem_path : list string) (template : Z) : result MCTS :=
  leaf <- last_of chem_path ;;
  c <- chem_data s leaf ;;
  if mem_Z template (explored c) then Ok s
  else
    let s1 := put_node s leaf (Chemical (set_explored (explored c ++ [template]) c)) in
    let precursors := _get_precursors s1 leaf template in
    _process_precursors s1 leaf template precursors chem_path.

(** ** Back-update *)

(** [itertools.zip_longest] of two lists. *)
Fixpoint zip_longest {A B : Type} (a : list A) (b : list B) : list (option A * option B) :=
  match a with
  | [] => map (fun y => (None, Some y)) b
  | x :: a' =>
      match b with
      | [] => (Some x, None) :: zip_longest a' []
      | y :: b' => (Some x, Some y) :: zip_longest a' b'
      end
  end.

Definition bump_visit_count (s : MCTS) (n : string) : result MCTS :=
  match g_nodes (tree s) !! n with
  | Some (Chemical c) => Ok (put_node s n (Chemical (set_visit_count (visit_count c + 1) c)))
  | Some (Reaction r) => Ok (put_node s n (Reaction (set_rxn_visit_count (rxn_visit_count r + 1) r)))
  | None => Raise (KeyError n)
  end.

(** One turn of the loop of [_update]: [i] and [chem] come from two sequences
    of the same length and are paired; [rxn] is absent at the root. *)
Definition update_step (s : MCTS) (item : option (nat * string) * option string)
    : result MCTS :=
  match fst item with
  | None => Raise (KeyError "None")
  | Some (i, chem) =>
      c <- chem_data s chem ;;
      let c1 := set_visit_count (visit_count c + 1) c in
      let c2 := set_min_depth (match min_depth c1 with
                               | Some d => Some (Nat.min d i)
                               | None => Some i
                               end) c1 in
      let s1 := put_node s chem (Chemical c2) in
      updated <- is_chemical_done_update s1 chem ;;
      let '(_, s2) := updated in
      match snd item with
      | Some rxn => bump_visit_count s2 rxn
      | None => Ok s2
      end
  end.

(** [_update] *)
Definition _update (s : MCTS) (chem_path rxn_path : list string) : result MCTS :=
  match chem_path with
  | [] => Raise IndexError
  | root :: _ =>
      if negb (match target s with Some t => String.eqb root t | None => false end)
      then Raise (AssertionError "Chemical path should start at the root node.")
      else
        fold_m update_step
               (zip_longest (combine (rev (seq 0 (length chem_path))) (rev chem_path))
                            (rev rxn_path))
               s
  end.

(** ** Rollout and driver *)

(** [_rollout] *)
Definition _rollout (s : MCTS) : result MCTS :=
  selected <- _select s ;;
  let '(paths, template) := selected in
  s1 <- _expand s (fst paths) template ;;
  _update s1 (fst paths) (snd paths).

Definition cap_reached (cap : option nat) (n : nat) : bool :=
  match cap with
  | Some m => (m <=? n)%nat
  | None => false
  end.

(** The [done] property of the engine. *)
Definition MCTS_done (s : MCTS) : result bool :=
  match target s with
  | None => Raise (KeyError "None")
  | Some t =>
      d <- is_chemical_done s t ;;
      Ok (d || cap_reached (max_chemicals (config s)) (length (chemicals s))
            || cap_reached (max_reactions (config s)) (length (reactions s)))
  end.

(** The [while] loop of [build_tree].  [clock k] is what the [k]-th call of
    [time.time()] returns; the first component of the result counts the
    rollouts that were started. *)
Fixpoint expansion_loop (fuel : nat) (clock : nat -> float) (k : nat)
    (start_time elapsed_time : float) (s : MCTS) (rollouts : nat)
    : nat * result MCTS :=
  match fuel with
  | O => (rollouts, Raise OutOfFuel)
  | S fuel' =>
      if (elapsed_time <? expansion_time (config s))%float then
        match MCTS_done s with
        | Raise e => (rollouts, Raise e)
        | Ok true => (rollouts, Ok s)
        | Ok false =>
            match _rollout s with
            | Raise e => (S rollouts, Raise e)
            | Ok s' =>
                expansion_loop fuel' clock (S k) start_time
                               (clock k - start_time)%float s' (S rollouts)
            end
        end
      else (rollouts, Ok s)
  end.

(** [build_tree] *)
Definition build_tree (fuel : nat) (clock : nat -> float) (s : MCTS) (tgt : string)
    : nat * result MCTS :=
  match _initialize s tgt with
  | Raise e => (0, Raise e)
  | Ok s1 =>
      let start_time := clock 0 in
      let elapsed_time := (clock 1%nat - start_time)%float in
      expansion_loop fuel clock 2 start_time elapsed_time s1 0
  end.

(** ** Path extraction *)

(** A tree over the graph: a node of the branching, or of a path cut out of
    it.  [source] is the identifier of the graph node it stands for and
    [attrs] the attributes copied from it. *)
Inductive btree : Type :=
| BNode (source : string) (attrs : node) (children : list btree).

Definition bsource (t : btree) : string :=
  match t with BNode src _ _ => src end.
Definition battrs (t : btree) : node :=
  match t with BNode _ d _ => d end.
Definition bchildren (t : btree) : list btree :=
  match t with BNode _ _ cs => cs end.

(** The unfolding of the graph from a node, as deep as [fuel] allows. *)
Fixpoint unfold (fuel : nat) (g : DiGraph) (n : string) : result btree :=
  match fuel with
  | O => Raise HasACycle
  | S fuel' =>
      match g_nodes g !! n with
      | None => Raise (KeyError n)
      | Some d =>
          cs <- map_m (unfold fuel' g) (successors g n) ;;
          Ok (BNode n d cs)
      end
  end.

Definition node_ids (g : DiGraph) : list string :=
  map fst (map_to_list (g_nodes g)).

(** A path of an acyclic graph visits every node at most once, so an
    unfolding that needs more fuel than there are nodes has met a cycle. *)
Definition has_cycle (g : DiGraph) : bool :=
  existsb (fun n => match unfold (size (g_nodes g)) g n with
                    | Raise HasACycle => true
                    | _ => false
                    end)
          (node_ids g).

(** [to_branching] and the lookup of the target in its result.
    [nx.dag_to_branching] refuses a graph with a cycle and otherwise returns
    the forest of the unfoldings of the graph from its sources, each node
    carrying the attributes of its [source].  Every occurrence of a graph node
    in that forest carries the same subtree, the unfolding of the graph from
    that node; the occurrence of the target that the lookup picks is therefore
    this unfolding.  The lookup fails with [IndexError] when the target is not
    a node of the graph. *)
Definition to_branching_target (s : MCTS) : result btree :=
  if has_cycle (tree s) then Raise HasACycle
  else
    match target s with
    | None => Raise IndexError
    | Some t =>
        match g_nodes (tree s) !! t with
        | None => Raise IndexError
        | Some _ => unfold (size (g_nodes (tree s))) (tree s) t
        end
    end.

(** A generator that was run to its end: what it yielded and the exception
    that stopped it, if one did. *)
Definition gen (A : Type) : Type := (list A * option exn)%type.

(** [for g in gs: yield from g] *)
Fixpoint gen_chain {A : Type} (gs : list (gen A)) : gen A :=
  match gs with
  | [] => ([], None)
  | (items, Some e) :: _ => (items, Some e)
  | (items, None) :: rest =>
      let r := gen_chain rest in (items ++ fst r, snd r)
  end.

(** The pools [itertools.product] builds: each generator is exhausted in
    turn, and the first exception leaves the call. *)
Fixpoint pools_of {A : Type} (gs : list (gen A)) : result (list (list A)) :=
  match gs with
  | [] => Ok []
  | (_, Some e) :: _ => Raise e
  | (items, None) :: rest => ps <- pools_of rest ;; Ok (items :: ps)
  end.

(** [itertools.product] of the pools, the last pool running fastest. *)
Fixpoint product {A : Type} (pools : list (list A)) : list (list A) :=
  match pools with
  | [] => [[]]
  | p :: rest => flat_map (fun x => map (cons x) (product rest)) p
  end.

Definition depth_reached (max_depth : option nat) (_depth : nat) : bool :=
  match max_depth with
  | Some m => (m <=? _depth)%nat
  | None => false
  end.

(** [get_chem_paths] and [get_rxn_paths] of [get_paths].  [nx.union_all]
    fails on the empty combination, the only one a reaction without
    successors has. *)
Fixpoint get_chem_paths (max_depth : option nat) (_node : btree) (_depth : nat)
    {struct _node} : gen btree :=
  match _node with
  | BNode src d children =>
      if (length children =? 0)%nat || depth_reached max_depth _depth
      then ([BNode src d []], None)
      else
        gen_chain
          (map (fun rxn =>
                  let sub := get_rxn_paths max_depth rxn (_depth + 1) in
                  (map (fun sub_path => BNode src d [sub_path]) (fst sub), snd sub))
               children)
  end
with get_rxn_paths (max_depth : option nat) (_node : btree) (_depth : nat)
    {struct _node} : gen btree :=
  match _node with
  | BNode src d children =>
      match pools_of (map (fun c => get_chem_paths max_depth c _depth) children) with
      | Raise e => ([], Some e)
      | Ok pools =>
          match children with
          | [] => ([], Some (ValueError "cannot apply union_all to an empty list"))
          | _ => (map (fun path_combo => BNode src d path_combo) (product pools), None)
          end
      end
  end.

(** [get_paths] *)
Definition get_paths (tree : btree) (max_depth : option nat) : gen btree :=
  get_chem_paths max_depth tree 0.

(** The nodes of out-degree 0 of a path. *)
Fixpoint leaves (p : btree) : list btree :=
  match p with
  | BNode _ _ [] => [p]
  | BNode _ _ cs => flat_map leaves cs
  end.

Definition leaf_terminal (v : btree) : result bool :=
  match battrs v with
  | Chemical c => Ok (truthy (terminal c))
  | Reaction _ => Raise (KeyError "terminal")
  end.

(** [_validate_path] *)
Definition _validate_path (_path : btree) : result bool :=
  all_m leaf_terminal (leaves _path).

(** Running [(path for path in paths if _validate_path(path))] to its end. *)
Fixpoint run_validated (items : list btree) (stop : option exn) : result (list btree) :=
  match items with
  | [] => match stop with
          | None => Ok []
          | Some e => Raise e
          end
  | p :: rest =>
      v <- _validate_path p ;;
      r <- run_validated rest stop ;;
      Ok (if v then p :: r else r)
  end.

(** The nested dictionaries of [nx.tree_data]. *)
Inductive json : Type :=
| JNode (id : string) (attrs : node) (children : list json).

Fixpoint tree_data (p : btree) : json :=
  match p with
  | BNode src d cs => JNode src d (map tree_data cs)
  end.

Inductive buyable_paths : Type :=
| JsonPaths (l : list json)
| GraphPaths (l : list btree).

(** [get_buyable_paths].  The generator of validated paths is only run by the
    two recognised formats. *)
Definition get_buyable_paths (s : MCTS) (fmt : string) : result buyable_paths :=
  root <- to_branching_target s ;;
  let paths := get_paths root (Some (max_depth (config s))) in
  if String.eqb fmt "json" then
    l <- run_validated (fst paths) (snd paths) ;; Ok (JsonPaths (map tree_data l))
  else if String.eqb fmt "graph" then
    l <- run_validated (fst paths) (snd paths) ;; Ok (GraphPaths l)
  else Raise (ValueError ("Unrecognized format type " +:+ fmt)).

Definition max_of (l : list nat) : nat := fold_right Nat.max 0 l.

(** The number of reaction steps under a chemical node of a path. *)
Fixpoint chem_depth (p : btree) : nat :=
  match p with
  | BNode _ _ rs =>
      max_of (map (fun r => S (max_of (map chem_depth (bchildren r)))) rs)
  end.

(** ** The best average reward [ucb] compares new templates with *)

(** The rewards that reach [max_average_reward]: those of the reaction
    children the loop does not skip. *)
Fixpoint eligible_rewards (s : MCTS) (path rxns : list string) : result (list float) :=
  match rxns with
  | [] => Ok []
  | rxn :: rest =>
      rd <- rxn_data s rxn ;;
      skip <- ucb_skips s path rxn ;;
      rs <- eligible_rewards s path rest ;;
      Ok (if skip then rs else rxn_reward_avg rd :: rs)
  end.


(** [max(0, max(rewards))], taken from the left as the loop does. *)
Definition max_reward (rewards : list float) : float :=
  fold_left py_max rewards 0%float.

(** ** Collaborators and states used in the examples *)

(** One second between two readings of the clock. *)
Definition clock_ticks (k : nat) : float := float_of_nat k.

(** A purchasable target: ["CC"] costs 1.0; its only template, 7, yields no
    outcome. *)
Definition ad_buyable : Adapters := {|
  lookup_smiles := fun smiles => if String.eqb smiles "CC" then Some 1%float else None;
  predict := fun smiles _ _ =>
    if String.eqb smiles "CC" then ([1%float], [7%Z]) else ([], []);
  fast_filter := fun _ _ => 0.9%float;
  template_ok := fun _ => true;
  apply_one_template := fun _ _ => []
|}.

(** No template is predicted for any molecule and nothing can be bought. *)
Definition ad_no_templates : Adapters := {|
  lookup_smiles := fun _ => None;
  predict := fun _ _ _ => ([], []);
  fast_filter := fun _ _ => 0.9%float;
  template_ok := fun _ => true;
  apply_one_template := fun _ _ => []
|}.

(** The price list quotes 0.0 for ["CC"]. *)
Definition ad_zero_price : Adapters := {|
  lookup_smiles := fun smiles => if String.eqb smiles "CC" then Some 0%float else None;
  predict := fun _ _ _ => ([], []);
  fast_filter := fun _ _ => 0.9%float;
  template_ok := fun _ => true;
  apply_one_template := fun _ _ => []
|}.

(** The engine after [r], or [s0] when [r] ended in an exception. *)
Definition state_after (r : nat * result MCTS) (s0 : MCTS) : MCTS :=
  match snd r with
  | Ok s => s
  | Raise _ => s0
  end.

(** A one-step route: template 7 turns ["X"] into ["A"], which costs 5. *)
Definition ad_one_step : Adapters := {|
  lookup_smiles := fun smiles => if String.eqb smiles "A" then Some 5%float else None;
  predict := fun smiles _ _ =>
    if String.eqb smiles "X" then ([1%float], [7%Z]) else ([], []);
  fast_filter := fun _ _ => 0.9%float;
  template_ok := fun _ => true;
  apply_one_template := fun smiles _ =>
    if String.eqb smiles "X" then [["A"]] else []
|}.

Definition one_step_state : MCTS :=
  state_after (build_tree 10 clock_ticks (MCTS_init default_config ad_one_step) "X")
              (MCTS_init default_config ad_one_step).

(** Template 1 turns ["X"] into ["A"] and ["X"] itself: the second reactant
    closes a cycle. *)
Definition ad_partial_cycle : Adapters := {|
  lookup_smiles := fun _ => None;
  predict := fun smiles _ _ =>
    if String.eqb smiles "X" then ([1%float], [1%Z]) else ([], []);
  fast_filter := fun _ _ => 0.9%float;
  template_ok := fun _ => true;
  apply_one_template := fun smiles _ =>
    if String.eqb smiles "X" then [["A"; "X"]] else []
|}.

(** The same outcome with the reactants in the other order. *)
Definition ad_cycle_first : Adapters := {|
  lookup_smiles := fun _ => None;
  predict := fun smiles _ _ =>
    if String.eqb smiles "X" then ([1%float], [1%Z]) else ([], []);
  fast_filter := fun _ _ => 0.9%float;
  template_ok := fun _ => true;
  apply_one_template := fun smiles _ =>
    if String.eqb smiles "X" then [["X"; "A"]] else []
|}.

(** Template 7 gives eleven outcomes for ["X"], one reactant each. *)
Definition ad_fan_out : Adapters := {|
  lookup_smiles := fun _ => None;
  predict := fun smiles _ _ =>
    if String.eqb smiles "X" then ([1%float], [7%Z]) else ([], []);
  fast_filter := fun _ _ => 0.9%float;
  template_ok := fun _ => true;
  apply_one_template := fun smiles _ =>
    if String.eqb smiles "X"
    then [["A1"]; ["A2"]; ["A3"]; ["A4"]; ["A5"]; ["A6"];
          ["A7"]; ["A8"]; ["A9"]; ["A10"]; ["A11"]]
    else []
|}.

(** Templates 7 and 8 both turn ["X"] into ["A"], which costs 5. *)
Definition ad_two_templates : Adapters := {|
  lookup_smiles := fun smiles => if String.eqb smiles "A" then Some 5%float else None;
  predict := fun smiles _ _ =>
    if String.eqb smiles "X" then ([0.6%float; 0.4%float], [7%Z; 8%Z]) else ([], []);
  fast_filter := fun _ _ => 0.9%float;
  template_ok := fun _ => true;
  apply_one_template := fun smiles _ =>
    if String.eqb smiles "X" then [["A"]] else []
|}.

(** The engine after initialisation and [n] rollouts, as far as they go. *)
Fixpoint rollouts (n : nat) (s : MCTS) : MCTS :=
  match n with
  | O => s
  | S n' => match _rollout s with
            | Ok s' => rollouts n' s'
            | Raise _ => s
            end
  end.

Definition initialized (cfg : Config) (ad : Adapters) (tgt : string) : MCTS :=
  match _initialize (MCTS_init cfg ad) tgt with
  | Ok s => s
  | Raise _ => MCTS_init cfg ad
  end.

(** ["X"] after template 7 was applied: the reaction ["A>>X"] exists. *)
Definition two_templates_state : MCTS :=
  rollouts 1 (initialized default_config ad_two_templates "X").

(** ** Reachability *)

Definition g_edge (g : DiGraph) (u v : string) : Prop := In v (successors g u).

Definition edge (s : MCTS) (u v : string) : Prop := g_edge (tree s) u v.

Definition reachable (s : MCTS) (r n : string) : Prop := rtc (edge s) r n.

(** Every end of an edge is a node, as in networkx. *)
Definition closed (g : DiGraph) : Prop :=
  forall u v, g_edge g u v -> is_Some (g_nodes g !! v).

(** A walk up the graph: [anc] lists the ancestors of [n] that were walked
    through, the nearest first. *)
Fixpoint rchain (g : DiGraph) (n : string) (anc : list string) : Prop :=
  match anc with
  | [] => True
  | p :: rest => g_edge g p n /\ rchain g p rest
  end.

(** The two layers of the graph: the successors of a chemical are reactions,
    and a reaction has successors, all chemicals. *)
Definition layered (g : DiGraph) : Prop :=
  forall n,
    match g_nodes g !! n with
    | Some (Chemical _) =>
        forall r, g_edge g n r -> exists rd, g_nodes g !! r = Some (Reaction rd)
    | Some (Reaction _) =>
        successors g n <> []
        /\ forall c, g_edge g n c -> exists cd, g_nodes g !! c = Some (Chemical cd)
    | None => True
    end.

(** The same layers on a tree. *)
Inductive chem_tree : btree -> Prop :=
| chem_tree_intro src c rs :
    Forall rxn_tree rs -> chem_tree (BNode src (Chemical c) rs)
with rxn_tree : btree -> Prop :=
| rxn_tree_intro src r cs :
    cs <> [] -> Forall chem_tree cs -> rxn_tree (BNode src (Reaction r) cs).

Definition chemical_leaves (p : btree) : Prop :=
  forall v, In v (leaves p) -> exists c, battrs v = Chemical c.

(** Checkers for the two hypotheses on a given graph. *)
Definition is_chemical_node (g : DiGraph) (n : string) : bool :=
  match g_nodes g !! n with Some (Chemical _) => true | _ => false end.
Definition is_reaction_node (g : DiGraph) (n : string) : bool :=
  match g_nodes g !! n with Some (Reaction _) => true | _ => false end.

Definition closedb (g : DiGraph) : bool :=
  forallb (fun kv => forallb (fun v => is_chemical_node g v || is_reaction_node g v) (snd kv))
          (map_to_list (g_succ g)).

Definition layeredb (g : DiGraph) : bool :=
  forallb (fun kv =>
             match snd kv with
             | Chemical _ => forallb (is_reaction_node g) (successors g (fst kv))
             | Reaction _ =>
                 (0 <? out_degree g (fst kv))%nat
                 && forallb (is_chemical_node g) (successors g (fst kv))
             end)
          (map_to_list (g_nodes g)).

(** ** Fuel *)

(** Whether a run of the model stopped for lack of fuel. *)
Definition out_of_fuel {A : Type} (r : result A) : bool :=
  match r with
  | Raise OutOfFuel => true
  | _ => false
  end.

(** ** Rollouts as sequences of writes, and what they keep *)

(** The descent of the selection walk: from chemical [from] through the
    reactions [rxns] to the chemicals [chems], one reaction and one of its
    successors that is not done at a time. *)
Fixpoint descent (s : MCTS) (from : string) (rxns chems : list string) : Prop :=
  match rxns, chems with
  | [], [] => True
  | r :: rxns', c :: chems' =>
      edge s from r /\ edge s r c /\ is_chemical_done s c = Ok false
      /\ descent s c rxns' chems'
  | _, _ => False
  end.

(** The last element of [l], or [d] when [l] is empty. *)
Definition last_or (d : string) (l : list string) : string := List.last l d.

(** An identifier that occurs in an outcome of a template. *)
Definition reactant (ad : Adapters) (n : string) : Prop :=
  exists chem t rl, In rl (apply_one_template ad chem t) /\ In n rl.

(** An identifier of the form [reactants>>product]. *)
Definition reaction_id (rid : string) : Prop :=
  exists joined tgt, rid = joined +:+ ">>" +:+ tgt.

(** Template [t] is a template of the chemical that the reaction identifier
    [rid] names as its product. *)
Definition parent_of (s : MCTS) (rid : string) (t : Z) : Prop :=
  exists joined tgt c,
    rid = joined +:+ ">>" +:+ tgt /\ chem_data s tgt = Ok c
    /\ In t (dict_keys (templates c)).

(** The writes a rollout is made of, each with what the code has checked
    when it performs it. *)
Inductive step : MCTS -> MCTS -> Prop :=
| step_explore s n c t :
    chem_data s n = Ok c ->
    In t (dict_keys (templates c)) -> mem_Z t (explored c) = false ->
    (target s = Some n \/ is_chemical_done s n = Ok false) ->
    step s (put_node s n (Chemical (set_explored (explored c ++ [t]) c)))
| step_create s n s' :
    reactant (adapters s) n ->
    mem_str n (chemicals s) = false ->
    create_chemical_node s n = Ok s' ->
    step s s'
| step_new_reaction s rid t tscore score :
    reaction_id rid ->
    mem_str rid (reactions s) = false ->
    parent_of s rid t ->
    step s (new_reaction s rid t tscore score)
| step_merge s rid t tscore s' :
    mem_str rid (reactions s) = true ->
    merge_reaction s rid t tscore = Ok s' ->
    parent_of s rid t ->
    step s s'
| step_edge_out s u rid c r root :
    chem_data s u = Ok c -> rxn_data s rid = Ok r ->
    (target s = Some u \/ is_chemical_done s u = Ok false) ->
    target s = Some root -> rtc (edge s) root u ->
    (exists joined, rid = joined +:+ ">>" +:+ u) ->
    step s (with_tree (add_edge (tree s) u rid) s)
| step_edge_in s rid v r root :
    rxn_data s rid = Ok r -> In v (chemicals s) ->
    target s = Some root -> v <> root -> rtc (edge s) root rid ->
    step s (with_tree (add_edge (tree s) rid v) s)
| step_visit s n c i :
    chem_data s n = Ok c ->
    step s (put_node s n
              (Chemical (set_min_depth
                           (match min_depth c with
                            | Some d => Some (Nat.min d i)
                            | None => Some i
                            end)
                           (set_visit_count (visit_count c + 1) c))))
| step_done s n d s' :
    is_chemical_done_update s n = Ok (d, s') ->
    step s s'
| step_bump s n s' :
    bump_visit_count s n = Ok s' ->
    step s s'.

(** What the loop over the outcomes relies on and keeps true of the chemical
    it expands. *)
Definition expandable (s : MCTS) (root tgt : string) : Prop :=
  target s = Some root
  /\ (root = tgt \/ is_chemical_done s tgt = Ok false)
  /\ rtc (edge s) root tgt.

(** The attributes [create_chemical_node] gives a chemical before it computes
    [done]. *)
Definition fresh_chemical (s : MCTS) (smiles : string) : chemical :=
  let pr := predict (adapters s) smiles (template_max_count (config s))
                    (template_max_cum_prob (config s)) in
  Chem [] None (lookup_smiles (adapters s) smiles) 0%float 0%float
       (dict_of_pairs (combine (snd pr) (fst pr)))
       (is_terminal s smiles (lookup_smiles (adapters s) smiles)) None 0.

(** The writes to a chemical that exists. *)
Inductive chem_write (s : MCTS) (n : string) (c : chemical) : chemical -> Prop :=
| cw_explore t :
    In t (dict_keys (templates c)) -> mem_Z t (explored c) = false ->
    (target s = Some n \/ is_chemical_done s n = Ok false) ->
    chem_write s n c (set_explored (explored c ++ [t]) c)
| cw_visit i :
    chem_write s n c
      (set_min_depth (match min_depth c with
                      | Some d => Some (Nat.min d i)
                      | None => Some i
                      end)
                     (set_visit_count (visit_count c + 1) c))
| cw_done d :
    compute_done s n c = Ok d -> chem_write s n c (set_done (Some d) c)
| cw_bump : chem_write s n c (set_visit_count (visit_count c + 1) c).

(** The writes to a reaction that exists. *)
Inductive rxn_write (s : MCTS) (rid : string) (r : reaction) : reaction -> Prop :=
| rw_merge t tscore :
    parent_of s rid t ->
    rxn_write s rid r (set_template_score
                         (py_max (template_score r) tscore)
                         (set_rxn_templates (rxn_templates r ++ [t]) r))
| rw_bump : rxn_write s rid r (set_rxn_visit_count (rxn_visit_count r + 1) r).

(** A step by the state it gives. *)
Inductive shape (s : MCTS) : MCTS -> Prop :=
| sh_chem n c c' :
    chem_data s n = Ok c -> chem_write s n c c' ->
    shape s (put_node s n (Chemical c'))
| sh_create n d :
    reactant (adapters s) n ->
    mem_str n (chemicals s) = false ->
    compute_done (put_node (with_chemicals (chemicals s ++ [n]) s) n
                           (Chemical (fresh_chemical s n)))
                 n (fresh_chemical s n) = Ok d ->
    shape s (put_node (with_chemicals (chemicals s ++ [n]) s) n
                      (Chemical (set_done (Some d) (fresh_chemical s n))))
| sh_new rid t tscore score :
    reaction_id rid ->
    mem_str rid (reactions s) = false ->
    parent_of s rid t ->
    shape s (new_reaction s rid t tscore score)
| sh_rxn rid r r' :
    rxn_data s rid = Ok r -> rxn_write s rid r r' ->
    shape s (put_node s rid (Reaction r'))
| sh_edge_out u rid c r root :
    chem_data s u = Ok c -> rxn_data s rid = Ok r ->
    (target s = Some u \/ is_chemical_done s u = Ok false) ->
    target s = Some root -> rtc (edge s) root u ->
    (exists joined, rid = joined +:+ ">>" +:+ u) ->
    shape s (with_tree (add_edge (tree s) u rid) s)
| sh_edge_in rid v r root :
    rxn_data s rid = Ok r -> In v (chemicals s) ->
    target s = Some root -> v <> root -> rtc (edge s) root rid ->
    shape s (with_tree (add_edge (tree s) rid v) s).

(** The two registries and the graph agree. *)
Record registry (s : MCTS) : Prop := {
  reg_chem_nodup : List.NoDup (chemicals s);
  reg_rxn_nodup : List.NoDup (reactions s);
  reg_nodes : forall n,
    is_Some (g_nodes (tree s) !! n) <-> In n (chemicals s) \/ In n (reactions s);
  reg_edges : forall u v,
    edge s u v -> is_Some (g_nodes (tree s) !! u) /\ is_Some (g_nodes (tree s) !! v);
  reg_chem : forall n c, g_nodes (tree s) !! n = Some (Chemical c) -> In n (chemicals s);
  reg_rxn : forall n r, g_nodes (tree s) !! n = Some (Reaction r) -> In n (reactions s);
  reg_target : forall r, target s = Some r -> In r (chemicals s)
}.

(** No reward was recorded on any node. *)
Definition rewards_zero (s : MCTS) : Prop :=
  forall n,
    match g_nodes (tree s) !! n with
    | Some (Chemical c) => reward_avg c = 0%float /\ reward_tot c = 0%float
    | Some (Reaction r) => rxn_reward_avg r = 0%float /\ rxn_reward_tot r = 0%float
    | None => True
    end.

(** The explored templates of a chemical are templates of it, each listed
    once, and [templates] has each key once. *)
Definition explored_ok (s : MCTS) : Prop :=
  forall n c, g_nodes (tree s) !! n = Some (Chemical c) ->
    List.NoDup (explored c) /\ incl (explored c) (dict_keys (templates c))
    /\ List.NoDup (dict_keys (templates c)).

(** The attributes that come from the collaborators are those the factory
    gave, except [terminal] on the target, which [_initialize] resets. *)
Definition attrs_ok (s : MCTS) : Prop :=
  forall n c, g_nodes (tree s) !! n = Some (Chemical c) ->
    purchase_price c = purchase_price (fresh_chemical s n)
    /\ templates c = templates (fresh_chemical s n)
    /\ (target s = Some n -> terminal c = PyBool false)
    /\ (target s <> Some n -> terminal c = terminal (fresh_chemical s n)).

(** A terminal chemical is done and was never expanded. *)
Definition terminal_leaf (s : MCTS) : Prop :=
  forall n c, g_nodes (tree s) !! n = Some (Chemical c) ->
    ~ In n (reactions s) -> truthy (terminal c) = true ->
    done c = Some true /\ successors (tree s) n = [] /\ explored c = [].

(** A node that has a successor can be reached from the target. *)
Definition parents_reachable (s : MCTS) : Prop :=
  forall root, target s = Some root ->
    forall u v, edge s u v -> rtc (edge s) root u.

(** No edge ends on the target. *)
Definition root_no_parent (s : MCTS) : Prop :=
  forall root c, target s = Some root ->
    g_nodes (tree s) !! root = Some (Chemical c) ->
    forall u, ~ edge s u root.

(** What every write of a rollout keeps. *)
Record inv (s : MCTS) : Prop := {
  inv_registry : registry s;
  inv_rewards : rewards_zero s;
  inv_explored : explored_ok s;
  inv_attrs : attrs_ok s;
  inv_terminal : terminal_leaf s;
  inv_reach : parents_reachable s;
  inv_root : root_no_parent s
}.

(** [n] calls of [_rollout], stopped by the first exception. *)
Fixpoint run_rollouts (n : nat) (s : MCTS) : result MCTS :=
  match n with
  | O => Ok s
  | S n' => s' <- run_rollouts n' s ;; _rollout s'
  end.

(** A new engine after [_initialize] and [n] rollouts. *)
Definition engine_after (cfg : Config) (ad : Adapters) (tgt : string) (n : nat)
    : result MCTS :=
  s0 <- _initialize (MCTS_init cfg ad) tgt ;; run_rollouts n s0.

(** The chemicals registered in [s] are still registered in [s'], with the
    node they had unless a reaction took their identifier. *)
Definition old_kept (s s' : MCTS) : Prop :=
  forall m, In m (chemicals s) ->
    In m (chemicals s')
    /\ (g_nodes (tree s') !! m = g_nodes (tree s) !! m
        \/ exists r, g_nodes (tree s') !! m = Some (Reaction r)).

(** Three chemicals that give each other: template 1 turns ["A"] into ["B"]
    and, as a second outcome, into ["C"]; template 2 turns ["B"] into ["C"]
    and template 3 turns ["C"] into ["B"]. *)
Definition ad_cross : Adapters := {|
  lookup_smiles := fun _ => None;
  predict := fun smiles _ _ =>
    if String.eqb smiles "A" then ([1%float], [1%Z])
    else if String.eqb smiles "B" then ([1%float], [2%Z])
    else if String.eqb smiles "C" then ([1%float], [3%Z])
    else ([], []);
  fast_filter := fun _ _ => 0.9%float;
  template_ok := fun _ => true;
  apply_one_template := fun smiles _ =>
    if String.eqb smiles "A" then [["B"]; ["C"]]
    else if String.eqb smiles "B" then [["C"]]
    else if String.eqb smiles "C" then [["B"]]
    else []
|}.

(** The engine after two rollouts on these: ["A"] gives ["B"] and ["C"],
    and ["B"] gives ["C"]. *)
Definition cross_state : MCTS :=
  match engine_after default_config ad_cross "A" 2 with
  | Ok s => s
  | Raise _ => MCTS_init default_config ad_cross
  end.

(** [s'] has the nodes of [s], and its successor lists and registries are
    those of [s] with elements appended. *)
Definition grows (s s' : MCTS) : Prop :=
  (forall m, is_Some (g_nodes (tree s) !! m) -> is_Some (g_nodes (tree s') !! m))
  /\ (forall u, exists l, successors (tree s') u = successors (tree s) u ++ l)
  /\ (exists l, chemicals s' = chemicals s ++ l)
  /\ (exists l, reactions s' = reactions s ++ l).

(** A route through the tree under a chemical at depth [dep]: the chemical
    alone when it has no reaction or the depth is reached; otherwise the
    chemical with one of its reactions and, under this reaction, a route for
    each of its reactants. *)
Inductive chem_route (md : option nat) : nat -> btree -> btree -> Prop :=
| route_leaf dep src d cs :
    (length cs =? 0)%nat || depth_reached md dep = true ->
    chem_route md dep (BNode src d cs) (BNode src d [])
| route_step dep src d cs rsrc rd rcs qs :
    (length cs =? 0)%nat || depth_reached md dep = false ->
    In (BNode rsrc rd rcs) cs ->
    rcs <> [] ->
    Forall2 (chem_route md (dep + 1)) rcs qs ->
    chem_route md dep (BNode src d cs) (BNode src d [BNode rsrc rd qs]).

Definition rxn_route (md : option nat) (dep : nat) (t q : btree) : Prop :=
  exists qs,
    q = BNode (bsource t) (battrs t) qs
    /\ bchildren t <> []
    /\ Forall2 (chem_route md dep) (bchildren t) qs.

(** An identifier that cannot be mistaken for that of a reaction. *)
Definition arrowless (x : string) : Prop :=
  forall a b, x <> a +:+ ">>" +:+ b.

(** The registries by the form of the identifiers, and the edges by the
    registries of their ends. *)
Record typed (s : MCTS) : Prop := {
  ty_chem : forall n, In n (chemicals s) -> arrowless n;
  ty_rxn : forall n, In n (reactions s) -> reaction_id n;
  ty_edges : forall u v, edge s u v ->
    (In u (chemicals s) /\ In v (reactions s))
    \/ (In u (reactions s) /\ In v (chemicals s))
}.

(** Every reaction node has a successor. *)
Definition rxn_linked (s : MCTS) : Prop :=
  forall m r, rxn_data s m = Ok r -> successors (tree s) m <> [].

(** How the attributes of a chemical can change: visits are added,
    templates are appended to [explored], [min_depth] can only go down once
    it is known, and what came from the collaborators stays. *)
Definition chem_mono (c c' : chemical) : Prop :=
  visit_count c <= visit_count c'
  /\ (exists l, explored c' = explored c ++ l)
  /\ (forall d, min_depth c = Some d -> exists d', min_depth c' = Some d' /\ d' <= d)
  /\ purchase_price c' = purchase_price c
  /\ templates c' = templates c
  /\ terminal c' = terminal c.

(** The default configuration with [max_depth] set to 1. *)
Definition shallow_config : Config := {|
  template_max_count := 100;
  template_max_cum_prob := 0.995%float;
  fast_filter_threshold := 0.75%float;
  max_branching := 10;
  max_depth := 1;
  exploration_weight := 1%float;
  max_ppg := Some 10%float;
  expansion_time := 20%float;
  max_chemicals := None;
  max_reactions := None
|}.

(** Where the depth bound stands between two rollouts: a chemical whose
    [min_depth] is not known was never expanded; one whose [min_depth]
    reaches [max_depth] is done and, unless it is the target, was expanded at
    most once. *)
Definition depth_ok (s : MCTS) : Prop :=
  forall m c, chem_data s m = Ok c ->
    (min_depth c = None -> explored c = [])
    /\ (forall d, min_depth c = Some d -> max_depth (config s) <= d ->
          done c = Some true
          /\ (target s <> Some m -> length (explored c) <= 1)).

(** The chemicals registered between [s] and [s'] are not on the path and
    are as the factory made them. *)
Definition fresh_kept (path : list string) (s s' : MCTS) : Prop :=
  forall m, In m (chemicals s') -> ~ In m (chemicals s) ->
    ~ In m path
    /\ forall c', chem_data s' m = Ok c' -> min_depth c' = None /\ explored c' = [].

(** A chemical the back-update did not go through. *)
Definition same3 (c c' : chemical) : Prop :=
  min_depth c' = min_depth c /\ done c' = done c /\ explored c' = explored c.

(** A chemical the back-update went through. *)
Definition touched (cfg : Config) (c c' : chemical) : Prop :=
  explored c' = explored c
  /\ exists d, min_depth c' = Some d
       /\ (forall d0, min_depth c = Some d0 -> d <= d0)
       /\ (max_depth cfg <= d -> done c' = Some true).

(** The chemicals of the items of the back-update. *)
Definition chems_of (items : list (option (nat * string) * option string)) : list string :=
  flat_map (fun item => match fst item with
                        | Some (_, chem) => [chem]
                        | None => []
                        end) items.

(** An identifier in which the character [>] does not occur. *)
Definition gt_free (x : string) : Prop :=
  forall a b, x <> a +:+ ">" +:+ b.

(** The test of it. *)
Fixpoint no_gt (x : string) : bool :=
  match x with
  | EmptyString => true
  | String c x' => negb (String.eqb (String c EmptyString) ">") && no_gt x'
  end.

(** What the reads of a rollout rely on: the chemicals are named without
    [>], every chemical has a value of [done], a reaction under a chemical
    names this chemical as its product, and the templates of a reaction are
    templates of its product. *)
Record sound (s : MCTS) : Prop := {
  so_gt : forall n, In n (chemicals s) -> gt_free n;
  so_done : forall n c, g_nodes (tree s) !! n = Some (Chemical c) -> is_Some (done c);
  so_edge : forall u rid, In u (chemicals s) -> edge s u rid ->
    exists joined, rid = joined +:+ ">>" +:+ u;
  so_parent : forall rid rd t, rxn_data s rid = Ok rd -> In t (rxn_templates rd) ->
    parent_of s rid t
}.

(** The collaborators give reactants named without [>], and no empty
    outcome. *)
Definition plain_outcomes (ad : Adapters) : Prop :=
  forall chem t rl, In rl (apply_one_template ad chem t) ->
    rl <> [] /\ forall x, In x rl -> gt_free x.

(** The result is a value or the [IndexError] of an empty list of options. *)
Definition ok_or_index {A : Type} (r : result A) : Prop :=
  match r with
  | Ok _ => True
  | Raise e => e = IndexError
  end.

(** The three groups of invariants together. *)
Definition good (s : MCTS) : Prop := inv s /\ typed s /\ sound s.

(** A chemical that selection can reach: the target, or one that is not
    done. *)
Definition live (s : MCTS) (n : string) : Prop :=
  target s = Some n \/ is_chemical_done s n = Ok false.

(** A chemical other than the target that is marked done would be found done
    if its value were computed again. *)
Definition flags_sound (s : MCTS) : Prop :=
  forall m c, chem_data s m = Ok c -> done c = Some true -> target s <> Some m ->
    compute_done s m c = Ok true.

(** Two routes of two steps: templates 1 and 2 turn ["X"] into ["A"] and
    into ["D"], template 3 turns ["A"] into ["B"] and template 4 turns ["D"]
    into ["E"]; nothing can be bought. *)
Definition ad_chain : Adapters := {|
  lookup_smiles := fun _ => None;
  predict := fun smiles _ _ =>
    if String.eqb smiles "X" then ([0.6%float; 0.4%float], [1%Z; 2%Z])
    else if String.eqb smiles "A" then ([1%float], [3%Z])
    else if String.eqb smiles "D" then ([1%float], [4%Z])
    else ([], []);
  fast_filter := fun _ _ => 0.9%float;
  template_ok := fun _ => true;
  apply_one_template := fun smiles t =>
    if String.eqb smiles "X" then (if (t =? 1)%Z then [["A"]] else [["D"]])
    else if String.eqb smiles "A" then [["B"]]
    else if String.eqb smiles "D" then [["E"]]
    else []
|}.

(** * Properties *)

(** ** Results, lookups and frames *)

Lemma bind_ok {A B : Type} (m : result A) (k : A -> result B) (b : B) :
  bind m k = Ok b -> exists a, m = Ok a /\ k a = Ok b.
Proof. destruct m as [a|e]; simpl; [eauto | discriminate]. Qed.

Ltac inv_bind H :=
  let a := fresh "a" in
  let Ha := fresh "Ha" in
  apply bind_ok in H; destruct H as (a & Ha & H).

Tactic Notation "bind_inv" hyp(H) "as" ident(a) ident(Ha) :=
  apply bind_ok in H; destruct H as (a & Ha & H).

Lemma chem_data_put_eq s n c : chem_data (put_node s n (Chemical c)) n = Ok c.
Proof. unfold chem_data, put_node; simpl. by rewrite lookup_insert_eq. Qed.

Lemma chem_data_put_ne s n m d : n <> m -> chem_data (put_node s n d) m = chem_data s m.
Proof. intros Hne. unfold chem_data, put_node; simpl. by rewrite lookup_insert_ne. Qed.

Lemma rxn_data_put_eq s n r : rxn_data (put_node s n (Reaction r)) n = Ok r.
Proof. unfold rxn_data, put_node; simpl. by rewrite lookup_insert_eq. Qed.

Lemma rxn_data_put_ne s n m d : n <> m -> rxn_data (put_node s n d) m = rxn_data s m.
Proof. intros Hne. unfold rxn_data, put_node; simpl. by rewrite lookup_insert_ne. Qed.

Lemma successors_put s n d m : successors (tree (put_node s n d)) m = successors (tree s) m.
Proof. reflexivity. Qed.

Lemma chem_data_inv s n c :
  chem_data s n = Ok c -> g_nodes (tree s) !! n = Some (Chemical c).
Proof.
  unfold chem_data. destruct (g_nodes (tree s) !! n) as [[c'|r]|]; intros H;
    inversion H; reflexivity.
Qed.

Lemma rxn_data_inv s n r :
  rxn_data s n = Ok r -> g_nodes (tree s) !! n = Some (Reaction r).
Proof.
  unfold rxn_data. destruct (g_nodes (tree s) !! n) as [[c'|r']|]; intros H;
    inversion H; reflexivity.
Qed.

(** [is_chemical_done(update=True)] returns [compute_done] and only rewrites
    the [done] attribute of its node. *)
Lemma is_chemical_done_update_ok s n d s' :
  is_chemical_done_update s n = Ok (d, s') ->
  exists c, chem_data s n = Ok c /\ compute_done s n c = Ok d
            /\ s' = put_node s n (Chemical (set_done (Some d) c)).
Proof.
  unfold is_chemical_done_update. intros H.
  inv_bind H. inv_bind H. inversion H; subst. eauto.
Qed.

(** ** The node factory *)

(** What [create_chemical_node] stores under the new identifier. *)
Lemma create_chemical_node_data s smiles s' :
  create_chemical_node s smiles = Ok s' ->
  exists c, chem_data s' smiles = Ok c
    /\ terminal c = is_terminal s smiles (lookup_smiles (adapters s) smiles)
    /\ purchase_price c = lookup_smiles (adapters s) smiles
    /\ explored c = [] /\ min_depth c = None /\ visit_count c = 0
    /\ templates c
       = dict_of_pairs
           (combine (snd (predict (adapters s) smiles (template_max_count (config s))
                                  (template_max_cum_prob (config s))))
                    (fst (predict (adapters s) smiles (template_max_count (config s))
                                  (template_max_cum_prob (config s)))))
    /\ exists d, done c = Some d.
Proof.
  unfold create_chemical_node.
  destruct (predict _ _ _ _) as [probs indices]. simpl. intros H.
  inv_bind H. destruct a as [d s3]. inversion H; subst s3; clear H.
  apply is_chemical_done_update_ok in Ha. destruct Ha as (c & Hc & _ & ->).
  rewrite chem_data_put_eq in Hc. inversion Hc; subst c; clear Hc.
  eexists. split; [apply chem_data_put_eq|]. simpl. repeat split; eauto.
Qed.

(** What [create_chemical_node] leaves alone. *)
Lemma create_chemical_node_frame s smiles s' :
  create_chemical_node s smiles = Ok s' ->
  target s' = target s /\ config s' = config s /\ adapters s' = adapters s
  /\ reactions s' = reactions s /\ chemicals s' = chemicals s ++ [smiles]
  /\ g_succ (tree s') = g_succ (tree s)
  /\ (forall m, m <> smiles -> g_nodes (tree s') !! m = g_nodes (tree s) !! m).
Proof.
  unfold create_chemical_node.
  destruct (predict _ _ _ _) as [probs indices]. simpl. intros H.
  inv_bind H. destruct a as [d s3]. inversion H; subst s3; clear H.
  apply is_chemical_done_update_ok in Ha. destruct Ha as (c & _ & _ & ->).
  simpl. repeat split; try reflexivity.
  intros m Hm. rewrite !lookup_insert_ne by congruence. reflexivity.
Qed.

Lemma compute_done_no_successors s n c :
  successors (tree s) n = [] -> exists d, compute_done s n c = Ok d.
Proof.
  intros Hs. unfold compute_done. rewrite Hs. simpl.
  repeat (match goal with |- context [if ?b then _ else _] => destruct b end; eauto).
Qed.

(** On an engine that was just built, the factory never raises. *)
Lemma create_chemical_node_fresh cfg ad tgt smiles :
  exists s', create_chemical_node (with_target tgt (MCTS_init cfg ad)) smiles = Ok s'
    /\ (forall n, successors (tree s') n = [])
    /\ chemicals s' = [smiles] /\ reactions s' = []
    /\ config s' = cfg /\ adapters s' = ad /\ target s' = tgt
    /\ size (g_nodes (tree s')) = 1.
Proof.
  unfold create_chemical_node. simpl.
  destruct (predict _ _ _ _) as [probs indices].
  unfold is_chemical_done_update. rewrite chem_data_put_eq. simpl.
  match goal with
  | |- context [compute_done ?S ?n ?C] =>
      destruct (compute_done_no_successors S n C) as [d Hd]; [reflexivity | rewrite Hd]
  end.
  simpl. eexists. split; [reflexivity|]. simpl.
  repeat split; try reflexivity.
  rewrite insert_insert_eq. rewrite map_size_insert_None by apply lookup_empty.
  reflexivity.
Qed.

(** ** Initialisation and the driver *)

(** Whatever the factory computed, [_initialize] leaves the root neither
    terminal nor done, with one visit. *)
Lemma initialize_root_flags s tgt s' :
  _initialize s tgt = Ok s' ->
  exists c, chem_data s' tgt = Ok c
    /\ terminal c = PyBool false /\ done c = Some false /\ visit_count c = 1
    /\ target s' = Some tgt /\ config s' = config s
    /\ purchase_price c = lookup_smiles (adapters s) tgt.
Proof.
  unfold _initialize. intros H.
  inv_bind H. rename a into s1. inv_bind H. rename a into c.
  inversion H; subst s'; clear H.
  pose proof (create_chemical_node_data _ _ _ Ha) as (c' & Hc' & _ & Hp & _ & _ & Hv & _).
  rewrite Hc' in Ha0. inversion Ha0; subst c'; clear Ha0.
  apply create_chemical_node_frame in Ha. destruct Ha as (Ht & Hcfg & _).
  eexists. split; [apply chem_data_put_eq|]. simpl.
  rewrite Hv. repeat split; assumption.
Qed.

Lemma expansion_loop_counts fuel : forall clock k st el s n,
  n <= fst (expansion_loop fuel clock k st el s n).
Proof.
  induction fuel as [|fuel IH]; intros clock k st el s n; simpl; [lia|].
  destruct (el <? expansion_time (config s))%float; simpl; [|lia].
  destruct (MCTS_done s) as [[|]|e]; simpl; try lia.
  destruct (_rollout s) as [s'|e]; simpl; [|lia].
  specialize (IH clock (S k) st (clock k - st)%float s' (S n)). lia.
Qed.

(** C1 (as the code has it).  [_initialize] resets the root: whatever the
    price of the target, after initialisation it is neither terminal nor
    done and has one visit.  The loop of [build_tree] therefore starts a
    rollout as soon as time is left and no cap on chemicals or reactions is
    reached. *)
Theorem initialize_resets_root s tgt s' (H : _initialize s tgt = Ok s') :
  (exists c, chem_data s' tgt = Ok c
     /\ purchase_price c = lookup_smiles (adapters s) tgt
     /\ terminal c = PyBool false /\ done c = Some false /\ visit_count c = 1)
  /\ (forall fuel clock,
        (clock 1%nat - clock 0%nat <? expansion_time (config s'))%float = true ->
        cap_reached (max_chemicals (config s')) (length (chemicals s')) = false ->
        cap_reached (max_reactions (config s')) (length (reactions s')) = false ->
        MCTS_done s' = Ok false
        /\ 1 <= fst (build_tree (S fuel) clock s tgt)).
Proof.
  destruct (initialize_root_flags _ _ _ H) as (c & Hc & Ht & Hd & Hv & Htg & Hcfg & Hp).
  split; [exists c; repeat split; assumption|].
  intros fuel clock Htime Hchem Hrxn.
  assert (Hdone : MCTS_done s' = Ok false).
  { unfold MCTS_done. rewrite Htg. unfold is_chemical_done. rewrite Hc. simpl.
    rewrite Hd, Hchem, Hrxn. reflexivity. }
  split; [assumption|].
  unfold build_tree. rewrite H. cbv zeta. simpl expansion_loop.
  rewrite Htime, Hdone.
  destruct (_rollout s') as [s2|e]; simpl; [|lia].
  match goal with |- _ <= fst (expansion_loop ?f ?c ?k ?st ?el ?s ?n) =>
    pose proof (expansion_loop_counts f c k st el s n) end.
  lia.
Qed.

Lemma initialize_resets_root_witness :
  exists s', _initialize (MCTS_init default_config ad_buyable) "CC" = Ok s'
    /\ (exists c, chem_data s' "CC" = Ok c
          /\ purchase_price c = Some 1%float
          /\ terminal c = PyBool false /\ done c = Some false /\ visit_count c = 1)
    /\ 1 <= fst (build_tree 1 clock_ticks (MCTS_init default_config ad_buyable) "CC").
Proof.
  eexists. split; [vm_compute; reflexivity|].
  match goal with
  | |- (exists c, chem_data ?s' _ = _ /\ _) /\ _ =>
      destruct (initialize_resets_root (MCTS_init default_config ad_buyable) "CC" s')
        as [Hroot Hloop]; [vm_compute; reflexivity|]
  end.
  split; [exact Hroot|].
  apply (Hloop 0 clock_ticks); vm_compute; reflexivity.
Defined.

(** C1 as stated fails: ["CC"] costs 1.0, below the default [max_ppg] of 10,
    and yet the root is neither terminal nor done after initialisation, and
    [build_tree] runs a rollout. *)
Lemma buyable_target_still_expanded :
  lookup_smiles ad_buyable "CC" = Some 1%float
  /\ (1 <=? 10)%float = true
  /\ exists s c,
       _initialize (MCTS_init default_config ad_buyable) "CC" = Ok s
       /\ chem_data s "CC" = Ok c
       /\ truthy (terminal c) = false
       /\ done c = Some false
       /\ is_ok (snd (build_tree 10 clock_ticks (MCTS_init default_config ad_buyable) "CC")) = true
       /\ fst (build_tree 10 clock_ticks (MCTS_init default_config ad_buyable) "CC") = 1.
Proof.
  split; [reflexivity|]. split; [reflexivity|].
  eexists. eexists. split; [vm_compute; reflexivity|].
  split; [vm_compute; reflexivity|].
  repeat split; vm_compute; reflexivity.
Qed.

(** ** Terminal chemicals *)

Lemma is_terminal_truthy s smiles ppg :
  truthy (is_terminal s smiles ppg) = true <->
  exists p m, ppg = Some p /\ max_ppg (config s) = Some m
              /\ (p =? 0)%float = false /\ (p <=? m)%float = true.
Proof.
  unfold is_terminal. split.
  - destruct (max_ppg (config s)) as [m|]; [|discriminate].
    destruct ppg as [p|]; [|discriminate].
    simpl. destruct (p =? 0)%float eqn:Hz; simpl.
    + rewrite Hz. discriminate.
    + intros Hle. exists p, m. repeat split; assumption.
  - intros (p & m & -> & -> & Hz & Hle). simpl. rewrite Hz. simpl. assumption.
Qed.

Lemma is_terminal_true s smiles ppg :
  truthy (is_terminal s smiles ppg) = true -> is_terminal s smiles ppg = PyBool true.
Proof.
  unfold is_terminal.
  destruct (max_ppg (config s)) as [m|]; [|discriminate].
  destruct ppg as [p|]; [|discriminate].
  simpl. destruct (p =? 0)%float eqn:Hz; simpl.
  - rewrite Hz. discriminate.
  - intros ->. reflexivity.
Qed.

(** C3 (as the code has it).  The [terminal] attribute of a chemical made by
    [create_chemical_node] is true exactly when [max_ppg] is set and the
    pricer returned a price that is not [None], not zero, and at most
    [max_ppg]; [ppg and (ppg <= max_ppg)] keeps a price of 0 as it is, a
    false value. *)
Theorem terminal_iff_nonzero_price_within_max_ppg s smiles s'
    (H : create_chemical_node s smiles = Ok s') :
  exists c, chem_data s' smiles = Ok c
    /\ (truthy (terminal c) = true <->
        exists p m, lookup_smiles (adapters s) smiles = Some p
                    /\ max_ppg (config s) = Some m
                    /\ (p =? 0)%float = false /\ (p <=? m)%float = true)
    /\ (truthy (terminal c) = true -> terminal c = PyBool true).
Proof.
  destruct (create_chemical_node_data _ _ _ H) as (c & Hc & Ht & _).
  exists c. split; [assumption|]. rewrite Ht. split.
  - apply is_terminal_truthy.
  - apply is_terminal_true.
Qed.

Lemma terminal_iff_nonzero_price_within_max_ppg_witness :
  exists s' c,
    create_chemical_node (MCTS_init default_config ad_buyable) "CC" = Ok s'
    /\ chem_data s' "CC" = Ok c
    /\ terminal c = PyBool true.
Proof.
  eexists.
  match goal with
  | |- exists c, create_chemical_node ?s ?n = Ok ?s' /\ _ =>
      assert (Hc : create_chemical_node s n = Ok s') by (vm_compute; reflexivity);
      destruct (terminal_iff_nonzero_price_within_max_ppg s n s' Hc)
        as (c & Hd & Hiff & Htrue)
  end.
  exists c. split; [exact Hc|]. split; [exact Hd|].
  apply Htrue. apply Hiff. exists 1%float, 10%float.
  repeat split; reflexivity.
Defined.

(** C3 as stated fails at a price of 0: it is not [None] and it is below
    [max_ppg], and the chemical is not terminal. *)
Lemma zero_price_is_not_terminal :
  lookup_smiles ad_zero_price "CC" = Some 0%float
  /\ max_ppg default_config = Some 10%float
  /\ (0 <=? 10)%float = true
  /\ exists s' c,
       create_chemical_node (MCTS_init default_config ad_zero_price) "CC" = Ok s'
       /\ chem_data s' "CC" = Ok c
       /\ terminal c = PyFloat 0%float
       /\ truthy (terminal c) = false.
Proof.
  repeat split; try reflexivity.
  eexists. eexists. split; [vm_compute; reflexivity|].
  split; [vm_compute; reflexivity|]. split; reflexivity.
Qed.

(** ** A target without templates *)

(** The state [_initialize] builds on a new engine. *)
Lemma initialize_fresh cfg ad tgt :
  exists s c,
    _initialize (MCTS_init cfg ad) tgt = Ok s
    /\ chem_data s tgt = Ok c
    /\ terminal c = PyBool false /\ done c = Some false /\ visit_count c = 1
    /\ explored c = []
    /\ templates c
       = dict_of_pairs
           (combine (snd (predict ad tgt (template_max_count cfg) (template_max_cum_prob cfg)))
                    (fst (predict ad tgt (template_max_count cfg) (template_max_cum_prob cfg))))
    /\ (forall n, successors (tree s) n = [])
    /\ chemicals s = [tgt] /\ reactions s = []
    /\ config s = cfg /\ adapters s = ad /\ target s = Some tgt.
Proof.
  unfold _initialize.
  destruct (create_chemical_node_fresh cfg ad (Some tgt) tgt)
    as (s1 & Hs1 & Hsucc & Hch & Hrx & Hcfg & Had & Htg & _).
  rewrite Hs1. simpl.
  destruct (create_chemical_node_data _ _ _ Hs1)
    as (c & Hc & _ & _ & He & _ & Hv & Htpl & _).
  rewrite Hc. simpl.
  eexists. eexists. split; [reflexivity|].
  split; [apply chem_data_put_eq|]. simpl.
  rewrite Hv, He, Htpl. repeat split; try assumption; try reflexivity.
Qed.

Lemma sort_desc_nil {T : Type} : sort_desc (@nil (float * T)) = [].
Proof. reflexivity. Qed.

(** C4 (as the code has it).  For a target without templates the factory
    computes [done = True], and [_initialize] resets it like for any root:
    after initialisation the target is not done.  No template is applied:
    at the root [ucb] offers neither a reaction nor a template, so selection
    returns nothing that expansion could work on. *)
Theorem empty_templates_root_not_done cfg ad tgt
    (H : dict_of_pairs
           (combine (snd (predict ad tgt (template_max_count cfg) (template_max_cum_prob cfg)))
                    (fst (predict ad tgt (template_max_count cfg) (template_max_cum_prob cfg))))
         = []) :
  (exists s1, create_chemical_node (with_target (Some tgt) (MCTS_init cfg ad)) tgt = Ok s1
              /\ is_chemical_done s1 tgt = Ok true)
  /\ exists s c,
       _initialize (MCTS_init cfg ad) tgt = Ok s
       /\ chem_data s tgt = Ok c
       /\ templates c = [] /\ done c = Some false
       /\ is_chemical_done s tgt = Ok false
       /\ ucb s tgt [tgt] (exploration_weight cfg) = Ok ([], [])
       /\ is_ok (_select s) = false
       /\ is_ok (_rollout s) = false.
Proof.
  split.
  - destruct (create_chemical_node_fresh cfg ad (Some tgt) tgt) as (s1 & Hs1 & _).
    exists s1. split; [assumption|].
    pose proof Hs1 as Hs1'. unfold create_chemical_node in Hs1'. simpl in Hs1'.
    destruct (predict ad tgt _ _) as [probs indices] eqn:Hp. simpl in *.
    inv_bind Hs1'. destruct a as [d s3]. inversion Hs1'; subst s3; clear Hs1'.
    apply is_chemical_done_update_ok in Ha. destruct Ha as (c & Hc & Hd & ->).
    rewrite chem_data_put_eq in Hc. inversion Hc; subst c; clear Hc.
    unfold is_chemical_done. rewrite chem_data_put_eq. simpl.
    unfold compute_done in Hd. simpl in Hd. rewrite H in Hd. simpl in Hd.
    destruct (truthy _) in Hd; inversion Hd; reflexivity.
  - destruct (initialize_fresh cfg ad tgt)
      as (s & c & Hi & Hc & _ & Hd & _ & He & Htpl & Hsucc & _ & _ & Hcfg & _ & Htg).
    rewrite H in Htpl.
    assert (Hucb : ucb s tgt [tgt] (exploration_weight cfg) = Ok ([], [])).
    { unfold ucb. rewrite Hc. simpl. rewrite Hsucc. simpl.
      rewrite Htpl. reflexivity. }
    assert (Hsel : is_ok (_select s) = false).
    { unfold _select. rewrite Htg. simpl. rewrite Hcfg, Hucb. simpl.
      unfold select_options. simpl.
      destruct (_ <? _)%nat; reflexivity. }
    exists s, c. repeat split; try assumption.
    + unfold is_chemical_done. rewrite Hc. simpl. rewrite Hd. reflexivity.
    + unfold _rollout. destruct (_select s); [discriminate | reflexivity].
Qed.

Lemma empty_templates_root_not_done_witness :
  exists s,
    _initialize (MCTS_init default_config ad_no_templates) "CC" = Ok s
    /\ is_chemical_done s "CC" = Ok false
    /\ is_ok (_select s) = false.
Proof.
  destruct (empty_templates_root_not_done default_config ad_no_templates "CC")
    as [_ (s & c & Hi & _ & _ & _ & Hd & _ & Hsel & _)]; [reflexivity|].
  exists s. repeat split; assumption.
Defined.

(** C4 as stated fails: the target has no template and is not done after
    the initialisation of [build_tree]; the loop starts a rollout. *)
Lemma empty_templates_target_is_not_done :
  predict ad_no_templates "CC" (template_max_count default_config)
          (template_max_cum_prob default_config) = ([], [])
  /\ exists s,
       _initialize (MCTS_init default_config ad_no_templates) "CC" = Ok s
       /\ is_chemical_done s "CC" = Ok false
       /\ MCTS_done s = Ok false
       /\ fst (build_tree 10 clock_ticks (MCTS_init default_config ad_no_templates) "CC") = 1.
Proof.
  split; [reflexivity|].
  eexists. split; [vm_compute; reflexivity|].
  repeat split; vm_compute; reflexivity.
Qed.

(** ** Done propagation *)

Section all_m_transfer.
Context {A : Type} (f f' : A -> result bool).

Lemma all_m_true_transfer l :
  (forall x, f x = Ok true -> f' x = Ok true) ->
  all_m f l = Ok true -> all_m f' l = Ok true.
Proof.
  intros Hf. induction l as [|x l IH]; simpl; [reflexivity|].
  destruct (f x) as [[|]|e] eqn:Hx; simpl; try discriminate.
  intros Hl. rewrite (Hf x Hx). simpl. auto.
Qed.

Lemma all_m_true_defined l :
  (forall x, f x = Ok true -> exists b, f' x = Ok b) ->
  all_m f l = Ok true -> exists b, all_m f' l = Ok b.
Proof.
  intros Hf. induction l as [|x l IH]; simpl; [eauto|].
  destruct (f x) as [[|]|e] eqn:Hx; simpl; try discriminate.
  intros Hl. destruct (Hf x Hx) as [[|] ->]; simpl; eauto.
Qed.

Lemma all_m_false_transfer l :
  (forall x, f x = Ok true -> exists b, f' x = Ok b) ->
  (forall x, f x = Ok false -> f' x = Ok false) ->
  all_m f l = Ok false -> all_m f' l = Ok false.
Proof.
  intros Ht Hf. induction l as [|x l IH]; simpl; [discriminate|].
  destruct (f x) as [[|]|e] eqn:Hx; simpl; try discriminate.
  - intros Hl. destruct (Ht x Hx) as [[|] ->]; simpl; auto.
  - intros _. rewrite (Hf x Hx). reflexivity.
Qed.
End all_m_transfer.

(** The cached answer after [done] of [n] was overwritten with [d]. *)
Lemma is_chemical_done_put s n c d m :
  is_chemical_done (put_node s n (Chemical (set_done (Some d) c))) m
  = if decide (n = m) then Ok d else is_chemical_done s m.
Proof.
  unfold is_chemical_done. destruct (decide (n = m)) as [->|Hne].
  - rewrite chem_data_put_eq. reflexivity.
  - rewrite chem_data_put_ne by assumption. reflexivity.
Qed.

Lemma is_reaction_done_put_true s n c r :
  is_reaction_done s r = Ok true ->
  is_reaction_done (put_node s n (Chemical (set_done (Some true) c))) r = Ok true.
Proof.
  unfold is_reaction_done, out_degree. rewrite !successors_put.
  destruct (0 <? _)%nat; [|discriminate].
  apply all_m_true_transfer. intros x Hx.
  rewrite is_chemical_done_put. destruct (decide (n = x)); auto.
Qed.

Lemma is_reaction_done_put_false_defined s n c r :
  is_reaction_done s r = Ok true ->
  exists b, is_reaction_done (put_node s n (Chemical (set_done (Some false) c))) r = Ok b.
Proof.
  unfold is_reaction_done, out_degree. rewrite !successors_put.
  destruct (0 <? _)%nat; [|eauto].
  apply all_m_true_defined. intros x Hx.
  rewrite is_chemical_done_put. destruct (decide (n = x)); eauto.
Qed.

Lemma is_reaction_done_put_false s n c r :
  is_reaction_done s r = Ok false ->
  is_reaction_done (put_node s n (Chemical (set_done (Some false) c))) r = Ok false.
Proof.
  unfold is_reaction_done, out_degree. rewrite !successors_put.
  destruct (0 <? _)%nat; [|auto].
  apply all_m_false_transfer; intros x Hx;
    rewrite is_chemical_done_put; destruct (decide (n = x)); eauto.
Qed.

(** Caching the value that was just computed does not change what is
    computed next. *)
Lemma compute_done_stable s n c d :
  compute_done s n c = Ok d ->
  compute_done (put_node s n (Chemical (set_done (Some d) c))) n (set_done (Some d) c)
  = Ok d.
Proof.
  unfold compute_done, out_degree. rewrite !successors_put.
  change (terminal (set_done (Some d) c)) with (terminal c).
  change (templates (set_done (Some d) c)) with (templates c).
  change (min_depth (set_done (Some d) c)) with (min_depth c).
  change (explored (set_done (Some d) c)) with (explored c).
  change (config (put_node s n (Chemical (set_done (Some d) c)))) with (config s).
  destruct (truthy (terminal c)); [auto|].
  destruct (length (templates c) =? 0)%nat; [auto|].
  destruct (match min_depth c with Some d0 => _ | None => false end); [auto|].
  destruct (_ || _); [|auto].
  destruct d; intros H.
  - revert H. apply all_m_true_transfer. intros r. apply is_reaction_done_put_true.
  - revert H. apply all_m_false_transfer; intros r.
    + apply is_reaction_done_put_false_defined.
    + apply is_reaction_done_put_false.
Qed.

Lemma put_node_put_node s n d1 d2 :
  put_node (put_node s n d1) n d2 = put_node s n d2.
Proof.
  unfold put_node, with_tree, add_node; simpl. by rewrite insert_insert_eq.
Qed.

(** C8.  Running [is_chemical_done] with [update=True] a second time, with
    no change of the graph in between, returns the same value and leaves
    every attribute as the first run left it. *)
Theorem is_chemical_done_update_idempotent s smiles d s1
    (H : is_chemical_done_update s smiles = Ok (d, s1)) :
  is_chemical_done_update s1 smiles = Ok (d, s1).
Proof.
  apply is_chemical_done_update_ok in H. destruct H as (c & Hc & Hd & ->).
  unfold is_chemical_done_update.
  rewrite chem_data_put_eq. simpl.
  rewrite (compute_done_stable _ _ _ _ Hd). simpl.
  rewrite put_node_put_node. reflexivity.
Qed.

Lemma is_chemical_done_update_idempotent_witness :
  exists s1,
    is_chemical_done_update one_step_state "X" = Ok (true, s1)
    /\ is_chemical_done_update s1 "X" = Ok (true, s1).
Proof.
  eexists.
  match goal with
  | |- ?P /\ _ => assert (H : P) by (vm_compute; reflexivity)
  end.
  split; [exact H|].
  exact (is_chemical_done_update_idempotent _ _ _ _ H).
Defined.

(** ** UCB scores of new templates *)

Lemma In_insert_desc {T : Type} (x y : float * T) l :
  In x (insert_desc y l) <-> x = y \/ In x l.
Proof.
  induction l as [|z l IH]; simpl.
  - intuition congruence.
  - destruct (fst y <? fst z)%float; simpl; rewrite ?IH; intuition congruence.
Qed.

Lemma In_sort_desc {T : Type} (x : float * T) l :
  In x (sort_desc l) <-> In x l.
Proof.
  induction l as [|y l IH]; simpl; [reflexivity|].
  rewrite In_insert_desc, IH. intuition congruence.
Qed.

(** The accumulator of the loop over the reaction children ends on the
    maximum of the rewards that were not skipped. *)
Lemma ucb_reaction_fold s tpl vc path w : forall rxns acc acc',
  fold_m (ucb_reaction s tpl vc path w) rxns acc = Ok acc' ->
  exists rewards, eligible_rewards s path rxns = Ok rewards
    /\ fst acc' = fold_left py_max rewards (fst acc).
Proof.
  induction rxns as [|rxn rest IH]; intros acc acc' H; simpl in *.
  - inversion H; subst. exists []. split; reflexivity.
  - inv_bind H. rename a into acc1. unfold ucb_reaction in Ha.
    inv_bind Ha. rename a into rd. inv_bind Ha. rename a into skip.
    rewrite Ha0, Ha1. simpl.
    destruct (IH _ _ H) as (rewards & Hr & Hm). rewrite Hr. simpl.
    destruct skip.
    + inversion Ha; subst acc1. exists rewards. split; [reflexivity | assumption].
    + inv_bind Ha. inversion Ha; subst acc1; clear Ha. simpl in Hm.
      exists (rxn_reward_avg rd :: rewards). split; [reflexivity | assumption].
Qed.

Lemma In_ucb_templates tpl expl m w vc score t :
  In (score, t) (ucb_templates tpl expl m w vc) <->
  exists p, In (t, p) tpl /\ mem_Z t expl = false
            /\ score = template_score_ucb m w p vc.
Proof.
  unfold ucb_templates. rewrite in_map_iff. split.
  - intros ([t' p] & Heq & Hin). simpl in Heq. inversion Heq; subst; clear Heq.
    apply filter_In in Hin. destruct Hin as [Hin Hne]. simpl in Hne.
    exists p. split; [assumption|]. split; [|reflexivity].
    destruct (mem_Z t expl); [discriminate | reflexivity].
  - intros (p & Hin & Hne & ->). exists (t, p). simpl. split; [reflexivity|].
    apply filter_In. split; [assumption|]. simpl. rewrite Hne. reflexivity.
Qed.

(** On any graph, [ucb] scores every template of [c] that is not in
    [explored], and nothing else, as
    [-(m + 0.1) + w * (templates(c)[t] * (1 + sqrt(visit_count(c))))], where
    [m] is the maximum of 0 and the [reward_avg] of the reaction children
    that the loop does not skip: those that are not done and have no
    successor on the path. *)
Lemma ucb_template_scores s node path w reaction_options template_options
    (H : ucb s node path w = Ok (reaction_options, template_options)) :
  exists c rewards,
    chem_data s node = Ok c
    /\ eligible_rewards s path (successors (tree s) node) = Ok rewards
    /\ forall score t,
         In (score, t) template_options <->
         exists p, In (t, p) (templates c) /\ mem_Z t (explored c) = false
           /\ score = (- (max_reward rewards + 0.1)
                       + w * (p * (1 + PrimFloat.sqrt (float_of_nat (visit_count c)))))%float.
Proof.
  unfold ucb in H. inv_bind H. rename a into c. inv_bind H. rename a into acc.
  inversion H; subst; clear H.
  destruct (ucb_reaction_fold _ _ _ _ _ _ _ _ Ha0) as (rewards & Hr & Hm).
  exists c, rewards. repeat split; try assumption.
  - intros Hin. apply (proj1 (In_sort_desc _ _)) in Hin.
    apply (proj1 (In_ucb_templates _ _ _ _ _ _ _)) in Hin.
    destruct Hin as (p & Hin & Hne & ->). exists p. repeat split; try assumption.
    unfold template_score_ucb, max_reward. rewrite Hm. reflexivity.
  - intros (p & Hin & Hne & ->). apply (proj2 (In_sort_desc _ _)).
    apply (proj2 (In_ucb_templates _ _ _ _ _ _ _)).
    exists p. repeat split; try assumption.
    unfold template_score_ucb, max_reward. rewrite Hm. reflexivity.
Qed.

(** ** Outcomes abandoned on a cycle *)

(** C2, at its failing input.  Template 1 gives the outcome [A, X] for the
    target ["X"].  The loop over the reactants creates the node ["A"] before
    it meets ["X"] on the path and breaks; no reaction and no edge is made.
    ["A"] stays in the graph and in [chemicals], out of reach of the root.
    With the reactants in the order [X, A] the loop breaks at once and the
    same outcome leaves nothing behind. *)
Theorem abandoned_outcome_leaves_unreachable_node :
  (exists s,
     build_tree 10 clock_ticks (MCTS_init default_config ad_partial_cycle) "X" = (1, Ok s)
     /\ target s = Some "X"
     /\ chemicals s = ["X"; "A"]
     /\ reactions s = []
     /\ is_ok (chem_data s "A") = true
     /\ g_succ (tree s) = ∅
     /\ ~ reachable s "X" "A")
  /\ (exists s,
       build_tree 10 clock_ticks (MCTS_init default_config ad_cycle_first) "X" = (1, Ok s)
       /\ chemicals s = ["X"]
       /\ reactions s = []
       /\ g_nodes (tree s) !! "A" = None).
Proof.
  split.
  - eexists. split; [vm_compute; reflexivity|].
    repeat split; try (vm_compute; reflexivity).
    unfold reachable. intros Hr. inversion Hr as [|x y z Hxy Hyz]; subst.
    unfold edge, g_edge, successors in Hxy. simpl in Hxy.
    change (In y []) in Hxy. destruct Hxy.
  - eexists. split; [vm_compute; reflexivity|].
    repeat split; vm_compute; reflexivity.
Qed.

(** ** Expansion: edges and merged reactions *)

Lemma mem_str_In x l : mem_str x l = true <-> In x l.
Proof.
  unfold mem_str. rewrite existsb_exists. split.
  - intros (y & Hin & Heq). apply String.eqb_eq in Heq. subst. assumption.
  - intros Hin. exists x. split; [assumption | apply String.eqb_refl].
Qed.

Lemma mem_str_false x l : mem_str x l = false <-> ~ In x l.
Proof.
  rewrite <- mem_str_In. destruct (mem_str x l); split; congruence.
Qed.

Lemma add_edge_nodes g u v : g_nodes (add_edge g u v) = g_nodes g.
Proof. unfold add_edge. destruct (mem_str v (successors g u)); reflexivity. Qed.

Lemma add_edge_keeps g a b u v :
  In v (successors g u) -> In v (successors (add_edge g a b) u).
Proof.
  intros Hin. unfold add_edge. destruct (mem_str b (successors g a)); [assumption|].
  unfold successors at 1. simpl. destruct (decide (a = u)) as [->|Hne].
  - rewrite lookup_insert_eq. simpl. apply in_or_app. left. assumption.
  - rewrite lookup_insert_ne by assumption. assumption.
Qed.

Lemma add_edge_adds g u v : In v (successors (add_edge g u v) u).
Proof.
  unfold add_edge. destruct (mem_str v (successors g u)) eqn:Hm.
  - apply mem_str_In. assumption.
  - unfold successors at 1. simpl. rewrite lookup_insert_eq. simpl.
    apply in_or_app. right. left. reflexivity.
Qed.

Lemma connect_nodes g tgt rid rl : g_nodes (connect g tgt rid rl) = g_nodes g.
Proof.
  unfold connect.
  assert (H : forall l g0, g_nodes (fold_left (fun g' reactant => add_edge g' rid reactant) l g0)
                           = g_nodes g0).
  { induction l as [|x l IH]; intros g0; simpl; [reflexivity|].
    rewrite IH. apply add_edge_nodes. }
  rewrite H. apply add_edge_nodes.
Qed.

Lemma connect_has_edge g tgt rid rl : In rid (successors (connect g tgt rid rl) tgt).
Proof.
  unfold connect.
  assert (H : forall l g0, In rid (successors g0 tgt) ->
            In rid (successors (fold_left (fun g' reactant => add_edge g' rid reactant) l g0) tgt)).
  { induction l as [|x l IH]; intros g0 Hin; simpl; [assumption|].
    apply IH. apply add_edge_keeps. assumption. }
  apply H. apply add_edge_adds.
Qed.

(** The loop over the reactants runs to its end when none is on the path. *)
Lemma register_reactants_completed rl path : forall s b s1,
  (forall x, In x rl -> mem_str x path = false) ->
  register_reactants s rl path = Ok (b, s1) -> b = true.
Proof.
  induction rl as [|x rl IH]; intros s b s1 Hpath H; simpl in H.
  - inversion H. reflexivity.
  - rewrite (Hpath x (or_introl eq_refl)) in H.
    inv_bind H. eapply IH; [|exact H]. intros y Hy. apply Hpath. right. assumption.
Qed.

(** It only adds chemical nodes, under the identifiers of the reactants. *)
Lemma register_reactants_frame rl path : forall s b s1,
  register_reactants s rl path = Ok (b, s1) ->
  reactions s1 = reactions s /\ config s1 = config s /\ adapters s1 = adapters s
  /\ target s1 = target s /\ g_succ (tree s1) = g_succ (tree s)
  /\ (forall m, ~ In m rl -> g_nodes (tree s1) !! m = g_nodes (tree s) !! m).
Proof.
  induction rl as [|x rl IH]; intros s b s1 H; simpl in H.
  - inversion H; subst. repeat split; reflexivity.
  - destruct (mem_str x path).
    + inversion H; subst. repeat split; reflexivity.
    + inv_bind H. rename a into s0.
      destruct (IH _ _ _ H) as (Hr & Hc & Ha' & Ht & Hs & Hn).
      destruct (mem_str x (chemicals s)).
      * inversion Ha; subst s0. repeat split; try assumption.
        intros m Hm. apply Hn. intros Hin. apply Hm. right. assumption.
      * apply create_chemical_node_frame in Ha.
        destruct Ha as (Ht0 & Hc0 & Ha0 & Hr0 & _ & Hs0 & Hn0).
        repeat split; try congruence.
        intros m Hm. rewrite Hn by (intros Hin; apply Hm; right; assumption).
        apply Hn0. intros ->. apply Hm. left. reflexivity.
Qed.

Lemma string_length_app (a b : string) :
  String.length (a +:+ b) = String.length a + String.length b.
Proof. induction a as [|c a IH]; simpl; [reflexivity | rewrite IH; reflexivity]. Qed.

Lemma string_length_concat sep rl a :
  In a rl -> String.length a <= String.length (String.concat sep rl).
Proof.
  induction rl as [|x rl IH]; intros Hin; [destruct Hin|].
  destruct Hin as [->|Hin].
  - destruct rl as [|y rl]; simpl; [lia|].
    change (String.concat sep (a :: y :: rl))
      with (a +:+ (sep +:+ String.concat sep (y :: rl))).
    rewrite string_length_app. lia.
  - specialize (IH Hin). destruct rl as [|y rl]; [destruct Hin|].
    change (String.concat sep (x :: y :: rl))
      with (x +:+ (sep +:+ String.concat sep (y :: rl))).
    rewrite !string_length_app. lia.
Qed.

(** The identifier of a reaction is longer than each of its reactants, so it
    is none of them. *)
Lemma reaction_smiles_not_reactant rl tgt :
  ~ In (String.concat "." rl +:+ ">>" +:+ tgt) rl.
Proof.
  intros Hin. apply (string_length_concat ".") in Hin.
  rewrite !string_length_app in Hin. simpl in Hin. lia.
Qed.

Lemma target_not_reaction_smiles joined tgt : joined +:+ ">>" +:+ tgt <> tgt.
Proof.
  intros Heq. apply (f_equal String.length) in Heq.
  rewrite !string_length_app in Heq. simpl in Heq. lia.
Qed.

(** C10.  When an accepted outcome gives a reaction identifier that is
    already registered, the reaction node gets the template appended to
    [templates] and [template_score] raised to the maximum of its value and
    the relevance of the template; [fast_filter_score], [visit_count],
    [reward_avg] and [reward_tot] stay as they were, and the score the fast
    filter just returned is not stored. *)
Theorem merged_reaction_keeps_scores tgt template path s reactant_list s' rd
    (Haccepted : (fast_filter (adapters s) (String.concat "." reactant_list) tgt
                  <? fast_filter_threshold (config s))%float = false)
    (Hnocycle : forall x, In x reactant_list -> mem_str x path = false)
    (Hregistered : In (String.concat "." reactant_list +:+ ">>" +:+ tgt) (reactions s))
    (Hnode : rxn_data s (String.concat "." reactant_list +:+ ">>" +:+ tgt) = Ok rd)
    (H : process_outcome tgt template path s reactant_list = Ok s') :
  exists rd' tdata tscore,
    rxn_data s' (String.concat "." reactant_list +:+ ">>" +:+ tgt) = Ok rd'
    /\ chem_data s' tgt = Ok tdata
    /\ dict_get template (templates tdata) = Some tscore
    /\ rxn_templates rd' = rxn_templates rd ++ [template]
    /\ template_score rd' = py_max (template_score rd) tscore
    /\ fast_filter_score rd' = fast_filter_score rd
    /\ rxn_visit_count rd' = rxn_visit_count rd
    /\ rxn_reward_avg rd' = rxn_reward_avg rd
    /\ rxn_reward_tot rd' = rxn_reward_tot rd
    /\ reactions s' = reactions s.
Proof.
  unfold process_outcome in H. cbv zeta in H. rewrite Haccepted in H.
  set (rid := String.concat "." reactant_list +:+ ">>" +:+ tgt) in *.
  inv_bind H. destruct a as [completed s1].
  pose proof (register_reactants_completed _ _ _ _ _ Hnocycle Ha) as ->.
  destruct (register_reactants_frame _ _ _ _ _ Ha) as (Hr & _ & _ & _ & _ & Hn).
  inv_bind H. rename a into tdata. inv_bind H. rename a into tscore.
  inv_bind H. rename a into s2. inversion H; subst s'; clear H.
  rewrite Hr in Ha2.
  rewrite (proj2 (mem_str_In rid (reactions s)) Hregistered) in Ha2.
  unfold merge_reaction in Ha2. inv_bind Ha2. rename a into rd0.
  inversion Ha2; subst s2; clear Ha2.
  assert (rd0 = rd) as ->.
  { apply rxn_data_inv in Ha3. apply rxn_data_inv in Hnode.
    rewrite Hn in Ha3 by apply reaction_smiles_not_reactant.
    rewrite Hnode in Ha3. inversion Ha3. reflexivity. }
  exists (set_template_score
            (py_max (template_score (set_rxn_templates (rxn_templates rd ++ [template]) rd))
                    tscore)
            (set_rxn_templates (rxn_templates rd ++ [template]) rd)), tdata, tscore.
  split.
  { unfold rxn_data. simpl. rewrite connect_nodes. simpl.
    rewrite lookup_insert_eq. reflexivity. }
  split.
  { unfold chem_data. simpl. rewrite connect_nodes. simpl.
    rewrite lookup_insert_ne by apply target_not_reaction_smiles.
    apply chem_data_inv in Ha0. rewrite Ha0. reflexivity. }
  split.
  { unfold template_prob in Ha1. destruct (dict_get template (templates tdata));
      inversion Ha1; reflexivity. }
  simpl. repeat split; try reflexivity. assumption.
Qed.

Lemma merged_reaction_keeps_scores_witness :
  exists s' rd',
    process_outcome "X" 8%Z ["X"] two_templates_state ["A"] = Ok s'
    /\ rxn_data s' "A>>X" = Ok rd'
    /\ rxn_templates rd' = [7%Z; 8%Z]
    /\ template_score rd' = py_max 0.6%float 0.4%float
    /\ fast_filter_score rd' = 0.9%float
    /\ rxn_visit_count rd' = 0.
Proof.
  eexists.
  match goal with
  | |- exists rd', ?P /\ _ => assert (H : P) by (vm_compute; reflexivity)
  end.
  assert (Hacc : (fast_filter (adapters two_templates_state) (String.concat "." ["A"]) "X"
                  <? fast_filter_threshold (config two_templates_state))%float = false)
    by (vm_compute; reflexivity).
  assert (Hnc : forall x, In x ["A"] -> mem_str x ["X"] = false)
    by (intros x [<-|[]]; reflexivity).
  assert (Hreg : In (String.concat "." ["A"] +:+ ">>" +:+ "X") (reactions two_templates_state))
    by (vm_compute; left; reflexivity).
  assert (Hnode : rxn_data two_templates_state (String.concat "." ["A"] +:+ ">>" +:+ "X")
                  = Ok (Rxn 0.9%float 0%float 0%float 0.6%float [7%Z] 0))
    by (vm_compute; reflexivity).
  destruct (merged_reaction_keeps_scores "X" 8%Z ["X"] two_templates_state ["A"] _ _
              Hacc Hnc Hreg Hnode H)
    as (rd' & tdata & tscore & Hrd & Htd & Hts & Htpl & Hsc & Hff & Hvc & _).
  exists rd'. split; [exact H|]. split; [exact Hrd|].
  assert (tscore = 0.4%float) as ->.
  { vm_compute in Htd. inversion Htd; subst tdata. vm_compute in Hts.
    inversion Hts. reflexivity. }
  repeat split; assumption.
Defined.

(** Over a whole call of [_process_precursors], a reaction that was there
    before keeps the same four attributes, merged into or not, as long as
    no reactant bears its identifier. *)
Lemma process_outcome_reaction_frame tgt template path s rl s' r rd :
  process_outcome tgt template path s rl = Ok s' ->
  In r (reactions s) -> rxn_data s r = Ok rd -> ~ In r rl ->
  exists rd', rxn_data s' r = Ok rd' /\ In r (reactions s')
    /\ fast_filter_score rd' = fast_filter_score rd
    /\ rxn_visit_count rd' = rxn_visit_count rd
    /\ rxn_reward_avg rd' = rxn_reward_avg rd
    /\ rxn_reward_tot rd' = rxn_reward_tot rd.
Proof.
  intros H Hin Hrd Hnot. unfold process_outcome in H. cbv zeta in H.
  destruct (_ <? _)%float.
  { inversion H; subst. exists rd. repeat split; assumption. }
  set (rid := String.concat "." rl +:+ ">>" +:+ tgt) in *.
  inv_bind H. destruct a as [completed s1].
  destruct (register_reactants_frame _ _ _ _ _ Ha) as (Hr & _ & _ & _ & _ & Hn).
  assert (Hrd1 : rxn_data s1 r = Ok rd).
  { unfold rxn_data. rewrite (Hn r Hnot). apply rxn_data_inv in Hrd.
    rewrite Hrd. reflexivity. }
  destruct completed.
  2:{ inversion H; subst. exists rd. rewrite Hr. repeat split; assumption. }
  inv_bind H. inv_bind H. inv_bind H. rename a1 into s2.
  inversion H; subst s'; clear H.
  assert (Hs2 : exists rd', rxn_data s2 r = Ok rd' /\ In r (reactions s2)
            /\ fast_filter_score rd' = fast_filter_score rd
            /\ rxn_visit_count rd' = rxn_visit_count rd
            /\ rxn_reward_avg rd' = rxn_reward_avg rd
            /\ rxn_reward_tot rd' = rxn_reward_tot rd).
  { destruct (mem_str rid (reactions s1)) eqn:Hmem.
    - unfold merge_reaction in Ha2. inv_bind Ha2. rename a1 into rd0.
      inversion Ha2; subst s2; clear Ha2. simpl. rewrite Hr.
      destruct (decide (rid = r)) as [Heq|Hne].
      + rewrite Heq in *. rewrite Hrd1 in Ha3. inversion Ha3; subst rd0.
        eexists. split; [apply rxn_data_put_eq|]. simpl. repeat split; assumption.
      + exists rd. rewrite rxn_data_put_ne by assumption. repeat split; assumption.
    - inversion Ha2; subst s2; clear Ha2. unfold new_reaction. simpl.
      assert (Hne : rid <> r).
      { intros Heq. apply mem_str_false in Hmem. apply Hmem. rewrite Hr, Heq. assumption. }
      exists rd. split.
      + unfold rxn_data. simpl. rewrite lookup_insert_ne by assumption.
        apply rxn_data_inv in Hrd1. rewrite Hrd1. reflexivity.
      + split; [rewrite Hr; apply in_or_app; left; assumption|].
        repeat split; reflexivity. }
  destruct Hs2 as (rd' & Hrd' & Hin' & Hattrs).
  exists rd'. split.
  - unfold rxn_data. simpl. rewrite connect_nodes. apply rxn_data_inv in Hrd'.
    rewrite Hrd'. reflexivity.
  - split; assumption.
Qed.

Lemma process_precursors_reaction_frame tgt template path r : forall precursors s s' rd,
  _process_precursors s tgt template precursors path = Ok s' ->
  In r (reactions s) -> rxn_data s r = Ok rd ->
  (forall rl, In rl precursors -> ~ In r rl) ->
  exists rd', rxn_data s' r = Ok rd' /\ In r (reactions s')
    /\ fast_filter_score rd' = fast_filter_score rd
    /\ rxn_visit_count rd' = rxn_visit_count rd
    /\ rxn_reward_avg rd' = rxn_reward_avg rd
    /\ rxn_reward_tot rd' = rxn_reward_tot rd.
Proof.
  unfold _process_precursors.
  induction precursors as [|rl rest IH]; intros s s' rd H Hin Hrd Hnot; simpl in H.
  - inversion H; subst. exists rd. repeat split; assumption.
  - inv_bind H. rename a into s1.
    destruct (process_outcome_reaction_frame _ _ _ _ _ _ _ _ Ha Hin Hrd
                (Hnot rl (or_introl eq_refl)))
      as (rd1 & Hrd1 & Hin1 & Hf & Hv & Hra & Hrt).
    destruct (IH _ _ _ H Hin1 Hrd1 (fun rl' Hrl' => Hnot rl' (or_intror Hrl')))
      as (rd' & Hrd' & Hin' & Hf' & Hv' & Hra' & Hrt').
    exists rd'. repeat split; try assumption; congruence.
Qed.

(** ** The branching cap *)

Lemma In_select_options_apply s leaf options template_opt score t :
  In (score, Apply t) (select_options s leaf options template_opt) <->
  (out_degree (tree s) leaf < max_branching (config s) /\ In (score, t) template_opt).
Proof.
  unfold select_options. rewrite in_app_iff, in_map_iff. split.
  - intros [(o & Heq & _)|Hin]; [discriminate|].
    destruct (Nat.ltb_spec (out_degree (tree s) leaf) (max_branching (config s)))
      as [Hlt|Hge]; [|destruct Hin].
    apply in_map_iff in Hin. destruct Hin as ([sc t'] & Heq & Hin).
    simpl in Heq. inversion Heq; subst. split; assumption.
  - intros [Hlt Hin]. right.
    destruct (Nat.ltb_spec (out_degree (tree s) leaf) (max_branching (config s)))
      as [_|Hge]; [|lia].
    apply in_map_iff. exists (score, t). split; [reflexivity | assumption].
Qed.

Lemma In_select_options_descend s leaf options template_opt score rxn :
  In (score, Descend rxn) (select_options s leaf options template_opt) <->
  In (score, rxn) options.
Proof.
  unfold select_options. rewrite in_app_iff, in_map_iff. split.
  - intros [([sc r] & Heq & Hin)|Hin].
    + simpl in Heq. inversion Heq; subst. assumption.
    + destruct (_ <? _)%nat; [|destruct Hin].
      apply in_map_iff in Hin. destruct Hin as (o & Heq & _). discriminate.
  - intros Hin. left. exists (score, rxn). split; [reflexivity | assumption].
Qed.

(** An accepted outcome always ends with the edge from the expanded chemical
    to the reaction, whatever the out-degree of the chemical. *)
Lemma process_outcome_adds_edge tgt template path s rl s' :
  (fast_filter (adapters s) (String.concat "." rl) tgt
   <? fast_filter_threshold (config s))%float = false ->
  (forall x, In x rl -> mem_str x path = false) ->
  process_outcome tgt template path s rl = Ok s' ->
  In (String.concat "." rl +:+ ">>" +:+ tgt) (successors (tree s') tgt).
Proof.
  intros Hacc Hnc H. unfold process_outcome in H. cbv zeta in H. rewrite Hacc in H.
  inv_bind H. destruct a as [completed s1].
  pose proof (register_reactants_completed _ _ _ _ _ Hnc Ha) as ->.
  inv_bind H. inv_bind H. inv_bind H. inversion H; subst s'; clear H.
  simpl. apply connect_has_edge.
Qed.

(** C9.  The cap [max_branching] enters selection only: template options
    are offered exactly while the out-degree of the leaf is below it, and
    reaction options always.  Expansion connects every accepted outcome
    without looking at the cap, so that one template with eleven accepted
    outcomes takes a chemical to out-degree 11 in a single rollout, above
    the default cap of 10. *)
Theorem branching_cap_only_gates_selection :
  (forall s leaf options template_opt score t,
     In (score, Apply t) (select_options s leaf options template_opt) <->
     (out_degree (tree s) leaf < max_branching (config s) /\ In (score, t) template_opt))
  /\ (forall s leaf options template_opt score rxn,
        In (score, Descend rxn) (select_options s leaf options template_opt) <->
        In (score, rxn) options)
  /\ (forall tgt template path s rl s',
        (fast_filter (adapters s) (String.concat "." rl) tgt
         <? fast_filter_threshold (config s))%float = false ->
        (forall x, In x rl -> mem_str x path = false) ->
        process_outcome tgt template path s rl = Ok s' ->
        In (String.concat "." rl +:+ ">>" +:+ tgt) (successors (tree s') tgt))
  /\ exists s s',
       _initialize (MCTS_init default_config ad_fan_out) "X" = Ok s
       /\ out_degree (tree s) "X" = 0
       /\ _rollout s = Ok s'
       /\ max_branching (config s') = 10
       /\ out_degree (tree s') "X" = 11.
Proof.
  split; [exact In_select_options_apply|].
  split; [exact In_select_options_descend|].
  split; [exact process_outcome_adds_edge|].
  eexists. eexists. split; [vm_compute; reflexivity|].
  split; [vm_compute; reflexivity|].
  split; [vm_compute; reflexivity|].
  split; vm_compute; reflexivity.
Qed.

Lemma branching_cap_only_gates_selection_witness :
  exists s',
    process_outcome "X" 8%Z ["X"] two_templates_state ["A"] = Ok s'
    /\ In "A>>X" (successors (tree s') "X").
Proof.
  eexists.
  match goal with
  | |- ?P /\ _ => assert (H : P) by (vm_compute; reflexivity)
  end.
  split; [exact H|].
  destruct branching_cap_only_gates_selection as (_ & _ & Hedge & _).
  apply (Hedge "X" 8%Z ["X"] two_templates_state ["A"] _).
  - vm_compute. reflexivity.
  - intros x [<-|[]]. reflexivity.
  - exact H.
Defined.

(** ** Buyable paths *)

Lemma btree_ind_forall (P : btree -> Prop) :
  (forall src d cs, Forall P cs -> P (BNode src d cs)) -> forall t, P t.
Proof.
  intros Hnode. fix IH 1. intros [src d cs]. apply Hnode.
  induction cs as [|c cs IHcs]; constructor; [apply IH | exact IHcs].
Qed.

Lemma get_chem_paths_eq md src d children dep :
  get_chem_paths md (BNode src d children) dep
  = if (length children =? 0)%nat || depth_reached md dep
    then ([BNode src d []], None)
    else gen_chain
           (map (fun rxn =>
                   let sub := get_rxn_paths md rxn (dep + 1) in
                   (map (fun sub_path => BNode src d [sub_path]) (fst sub), snd sub))
                children).
Proof. reflexivity. Qed.

Lemma get_rxn_paths_eq md src d children dep :
  get_rxn_paths md (BNode src d children) dep
  = match pools_of (map (fun c => get_chem_paths md c dep) children) with
    | Raise e => ([], Some e)
    | Ok pools =>
        match children with
        | [] => ([], Some (ValueError "cannot apply union_all to an empty list"))
        | _ => (map (fun path_combo => BNode src d path_combo) (product pools), None)
        end
    end.
Proof. reflexivity. Qed.

Lemma In_gen_chain {A : Type} (x : A) (gs : list (gen A)) :
  In x (fst (gen_chain gs)) -> exists g, In g gs /\ In x (fst g).
Proof.
  induction gs as [|[items [e|]] gs IH]; simpl; intros Hin.
  - destruct Hin.
  - exists (items, Some e). split; [left; reflexivity | assumption].
  - apply in_app_or in Hin. destruct Hin as [Hin|Hin].
    + exists (items, None). split; [left; reflexivity | assumption].
    + destruct (IH Hin) as (g & Hg & Hx). exists g. split; [right|]; assumption.
Qed.

Lemma pools_of_ok {A : Type} (gs : list (gen A)) pools :
  pools_of gs = Ok pools -> pools = map fst gs.
Proof.
  revert pools. induction gs as [|[items [e|]] gs IH]; simpl; intros pools H.
  - inversion H. reflexivity.
  - discriminate.
  - inv_bind H. inversion H; subst. rewrite (IH _ Ha). reflexivity.
Qed.

Lemma In_product {A : Type} (pools : list (list A)) : forall combo,
  In combo (product pools) -> Forall2 (fun x pool => In x pool) combo pools.
Proof.
  induction pools as [|p pools IH]; simpl; intros combo Hin.
  - destruct Hin as [<-|[]]. constructor.
  - apply in_flat_map in Hin. destruct Hin as (x & Hx & Hin).
    apply in_map_iff in Hin. destruct Hin as (rest & <- & Hrest).
    constructor; [assumption | apply IH; assumption].
Qed.

(** A combination takes its [i]-th element from the [i]-th pool. *)
Lemma combo_in_pools {A B : Type} (f : B -> list A) (P : A -> Prop) (Q : B -> Prop) :
  forall children combo,
    Forall2 (fun x pool => In x pool) combo (map f children) ->
    Forall Q children ->
    (forall ch x, Q ch -> In x (f ch) -> P x) ->
    forall c, In c combo -> P c.
Proof.
  induction children as [|ch children IH]; intros combo H2 HQ Hstep c Hc; simpl in H2.
  - inversion H2; subst. destruct Hc.
  - inversion H2 as [|x pool combo' pools Hx Hrest]; subst.
    inversion HQ as [|? ? Hch Hrest']; subst.
    destruct Hc as [<-|Hc].
    + eapply Hstep; eassumption.
    + eapply IH; eassumption.
Qed.

Lemma max_of_le l b : (forall x, In x l -> x <= b) -> max_of l <= b.
Proof.
  unfold max_of. induction l as [|x l IH]; simpl; intros H; [lia|].
  pose proof (H x (or_introl eq_refl)).
  pose proof (IH (fun y Hy => H y (or_intror Hy))). lia.
Qed.

Lemma chem_depth_eq src d rs :
  chem_depth (BNode src d rs)
  = max_of (map (fun r => S (max_of (map chem_depth (bchildren r)))) rs).
Proof. reflexivity. Qed.

(** Every path the enumeration yields under a chemical at depth [dep] goes
    at most [m - dep] reactions deeper. *)
Lemma get_paths_depth m : forall t,
  (forall dep p, dep <= m -> In p (fst (get_chem_paths (Some m) t dep)) ->
                 chem_depth p <= m - dep)
  /\ (forall dep p, dep <= m -> In p (fst (get_rxn_paths (Some m) t dep)) ->
                    forall c, In c (bchildren p) -> chem_depth c <= m - dep).
Proof.
  apply btree_ind_forall. intros src d cs IH. split.
  - intros dep p Hdep. rewrite get_chem_paths_eq.
    destruct ((length cs =? 0)%nat || depth_reached (Some m) dep) eqn:Hleaf.
    + intros [<-|[]]. rewrite chem_depth_eq. simpl. lia.
    + apply orb_false_elim in Hleaf. destruct Hleaf as [_ Hdr]. simpl in Hdr.
      apply Nat.leb_gt in Hdr.
      intros Hin. apply In_gen_chain in Hin. destruct Hin as (g & Hg & Hp).
      apply in_map_iff in Hg. destruct Hg as (rxn & <- & Hrxn).
      simpl in Hp. apply in_map_iff in Hp. destruct Hp as (sub & <- & Hsub).
      rewrite List.Forall_forall in IH. destruct (IH rxn Hrxn) as [_ IHr].
      rewrite chem_depth_eq. simpl.
      assert (Hb : max_of (map chem_depth (bchildren sub)) <= m - (dep + 1)).
      { apply max_of_le. intros x Hx. apply in_map_iff in Hx.
        destruct Hx as (c & <- & Hc). apply (IHr (dep + 1) sub); [lia | assumption | assumption]. }
      lia.
  - intros dep p Hdep. rewrite get_rxn_paths_eq.
    destruct (pools_of _) as [pools|e] eqn:Hpools; [|intros []].
    apply pools_of_ok in Hpools. destruct cs as [|c0 cs]; [intros []|].
    simpl fst. intros Hin. apply in_map_iff in Hin.
    destruct Hin as (combo & <- & Hcombo). simpl.
    apply In_product in Hcombo. subst pools.
    intros c Hc. rewrite map_map in Hcombo.
    eapply (combo_in_pools (fun ch => fst (get_chem_paths (Some m) ch dep))
                           (fun x => chem_depth x <= m - dep));
      [exact Hcombo | exact IH | | exact Hc].
    intros ch x [Hchem _] Hx. exact (Hchem dep x Hdep Hx).
Qed.

Lemma all_m_true_In {A : Type} (f : A -> result bool) l :
  all_m f l = Ok true -> forall x, In x l -> f x = Ok true.
Proof.
  induction l as [|y l IH]; simpl; intros H x Hx; [destruct Hx|].
  destruct (f y) as [[|]|e] eqn:Hy; simpl in H; try discriminate.
  destruct Hx as [<-|Hx]; [assumption | apply IH; assumption].
Qed.

(** What the filter lets through was yielded and passed [_validate_path]. *)
Lemma run_validated_ok items stop : forall l,
  run_validated items stop = Ok l ->
  forall p, In p l -> In p items /\ _validate_path p = Ok true.
Proof.
  induction items as [|q items IH]; simpl; intros l H p Hp.
  - destruct stop; inversion H; subst. destruct Hp.
  - inv_bind H. rename a into v. inv_bind H. rename a into r.
    inversion H; subst l; clear H.
    destruct v.
    + destruct Hp as [<-|Hp].
      * split; [left; reflexivity | assumption].
      * destruct (IH _ Ha0 p Hp). split; [right|]; assumption.
    + destruct (IH _ Ha0 p Hp). split; [right|]; assumption.
Qed.

Lemma validated_leaves_terminal p :
  _validate_path p = Ok true ->
  forall v, In v (leaves p) ->
    exists c, battrs v = Chemical c /\ truthy (terminal c) = true.
Proof.
  unfold _validate_path. intros H v Hv.
  pose proof (all_m_true_In _ _ H v Hv) as Ht. unfold leaf_terminal in Ht.
  destruct (battrs v) as [c|r]; [|discriminate].
  exists c. split; [reflexivity|]. inversion Ht. reflexivity.
Qed.

Lemma get_buyable_paths_ok s fmt out :
  get_buyable_paths s fmt = Ok out ->
  exists root l,
    to_branching_target s = Ok root
    /\ run_validated (fst (get_paths root (Some (max_depth (config s)))))
                     (snd (get_paths root (Some (max_depth (config s))))) = Ok l
    /\ ((fmt = "json" /\ out = JsonPaths (map tree_data l))
        \/ (fmt = "graph" /\ out = GraphPaths l)).
Proof.
  unfold get_buyable_paths. intros H. inv_bind H. rename a into root.
  exists root. destruct (String.eqb_spec fmt "json") as [->|Hj].
  - inv_bind H. inversion H; subst. eauto 8.
  - destruct (String.eqb_spec fmt "graph") as [->|Hg]; [|discriminate].
    inv_bind H. inversion H; subst. eauto 8.
Qed.

(** C6.  Whatever [get_buyable_paths] returns, in either format, every leaf
    of every path is a chemical whose [terminal] attribute is true, and no
    path goes deeper than [max_depth] reactions below the target. *)
Theorem buyable_paths_leaves_terminal_and_depth_bounded s fmt out
    (H : get_buyable_paths s fmt = Ok out) :
  exists l,
    (out = GraphPaths l \/ out = JsonPaths (map tree_data l))
    /\ forall p, In p l ->
         (forall v, In v (leaves p) ->
            exists c, battrs v = Chemical c /\ truthy (terminal c) = true)
         /\ chem_depth p <= max_depth (config s).
Proof.
  apply get_buyable_paths_ok in H. destruct H as (root & l & _ & Hrun & Hout).
  exists l. split; [destruct Hout as [[_ ->]|[_ ->]]; auto|].
  intros p Hp. destruct (run_validated_ok _ _ _ Hrun p Hp) as [Hin Hval].
  split; [apply validated_leaves_terminal; assumption|].
  unfold get_paths in Hin.
  destruct (get_paths_depth (max_depth (config s)) root) as [Hchem _].
  specialize (Hchem 0 p (Nat.le_0_l _) Hin). lia.
Qed.

Lemma buyable_paths_leaves_terminal_and_depth_bounded_witness :
  exists p,
    get_buyable_paths one_step_state "graph" = Ok (GraphPaths [p])
    /\ (forall v, In v (leaves p) ->
          exists c, battrs v = Chemical c /\ truthy (terminal c) = true)
    /\ chem_depth p <= 3.
Proof.
  eexists.
  match goal with
  | |- ?P /\ _ => assert (H : P) by (vm_compute; reflexivity)
  end.
  split; [exact H|].
  destruct (buyable_paths_leaves_terminal_and_depth_bounded _ _ _ H)
    as (l & [Hl|Hl] & Hall); [|discriminate].
  inversion Hl; subst l. apply Hall. left. reflexivity.
Defined.

(** ** The fuel of the selection walk *)

Lemma bind_fuel {A B : Type} (m : result A) (k : A -> result B) :
  out_of_fuel m = false ->
  (forall a, m = Ok a -> out_of_fuel (k a) = false) ->
  out_of_fuel (bind m k) = false.
Proof. destruct m as [a|e]; simpl; intros Hm Hk; [apply Hk; reflexivity | exact Hm]. Qed.

Lemma chem_data_fuel s n : out_of_fuel (chem_data s n) = false.
Proof. unfold chem_data. destruct (g_nodes (tree s) !! n) as [[c|r]|]; reflexivity. Qed.

Lemma rxn_data_fuel s n : out_of_fuel (rxn_data s n) = false.
Proof. unfold rxn_data. destruct (g_nodes (tree s) !! n) as [[c|r]|]; reflexivity. Qed.

Lemma is_chemical_done_fuel s n : out_of_fuel (is_chemical_done s n) = false.
Proof.
  unfold is_chemical_done. apply bind_fuel; [apply chem_data_fuel|].
  intros c _. destruct (done c); reflexivity.
Qed.

Lemma all_m_fuel {A : Type} (f : A -> result bool) l :
  (forall x, out_of_fuel (f x) = false) -> out_of_fuel (all_m f l) = false.
Proof.
  intros Hf. induction l as [|x l IH]; simpl; [reflexivity|].
  apply bind_fuel; [apply Hf|]. intros [|] _; [exact IH | reflexivity].
Qed.

Lemma is_reaction_done_fuel s n : out_of_fuel (is_reaction_done s n) = false.
Proof.
  unfold is_reaction_done. destruct (0 <? _)%nat; [|reflexivity].
  apply all_m_fuel. apply is_chemical_done_fuel.
Qed.

Lemma map_m_fuel {A B : Type} (f : A -> result B) l :
  (forall x, out_of_fuel (f x) = false) -> out_of_fuel (map_m f l) = false.
Proof.
  intros Hf. induction l as [|x l IH]; simpl; [reflexivity|].
  apply bind_fuel; [apply Hf|]. intros y _.
  apply bind_fuel; [exact IH|]. reflexivity.
Qed.

Lemma fold_m_fuel {A B : Type} (f : A -> B -> result A) l :
  (forall a x, out_of_fuel (f a x) = false) ->
  forall a, out_of_fuel (fold_m f l a) = false.
Proof.
  intros Hf. induction l as [|x l IH]; intros a; simpl; [reflexivity|].
  apply bind_fuel; [apply Hf|]. intros a' _. apply IH.
Qed.

Lemma ucb_fuel s n path w : out_of_fuel (ucb s n path w) = false.
Proof.
  unfold ucb. apply bind_fuel; [apply chem_data_fuel|]. intros c _.
  apply bind_fuel; [|reflexivity].
  apply fold_m_fuel. intros acc rxn. unfold ucb_reaction.
  apply bind_fuel; [apply rxn_data_fuel|]. intros rd _.
  apply bind_fuel.
  { unfold ucb_skips. apply bind_fuel; [apply is_reaction_done_fuel | reflexivity]. }
  intros [|] _; [reflexivity|].
  apply bind_fuel; [|reflexivity].
  apply map_m_fuel. intros t. unfold template_prob.
  destruct (dict_get t (templates c)); reflexivity.
Qed.

Lemma min_precursor_fuel s cands : forall best,
  out_of_fuel (min_precursor s cands best) = false.
Proof.
  induction cands as [|c rest IH]; intros best; simpl; [reflexivity|].
  apply bind_fuel; [apply is_chemical_done_fuel|]. intros [|] _; [apply IH|].
  apply bind_fuel.
  { unfold node_visit_count. destruct (g_nodes (tree s) !! c) as [[?|?]|]; reflexivity. }
  intros v _. destruct best as [[b vb]|]; [destruct (v <? vb)%nat|]; apply IH.
Qed.

(** Reactions that make it into the options lead to no chemical on the path. *)
Lemma ucb_reaction_options s tpl vc path w : forall rxns acc acc',
  fold_m (ucb_reaction s tpl vc path w) rxns acc = Ok acc' ->
  forall o, In o (snd acc') ->
    In o (snd acc) \/ intersects (successors (tree s) (snd o)) path = false.
Proof.
  induction rxns as [|rxn rest IH]; intros acc acc' H o Ho; simpl in H.
  - inversion H; subst. left. assumption.
  - inv_bind H. rename a into acc1. destruct (IH _ _ H o Ho) as [Hin|Hi]; [|right; exact Hi].
    unfold ucb_reaction in Ha. bind_inv Ha as rd Hrd. bind_inv Ha as skip Hskip.
    destruct skip.
    + inversion Ha; subst. left. assumption.
    + bind_inv Ha as probs Hprobs. inversion Ha; subst acc1; clear Ha. simpl in Hin.
      apply in_app_or in Hin. destruct Hin as [Hin|[<-|[]]]; [left; assumption|].
      right. cbn [snd]. unfold ucb_skips in Hskip. bind_inv Hskip as dn Hdn.
      injection Hskip as Hs. apply orb_false_elim in Hs. exact (proj2 Hs).
Qed.

Lemma sort_desc_head {T : Type} (l : list (float * T)) x rest :
  sort_desc l = x :: rest -> In x l.
Proof. intros H. apply (proj1 (In_sort_desc x l)). rewrite H. left. reflexivity. Qed.

Lemma min_precursor_some s cands : forall best p v,
  min_precursor s cands best = Ok (Some (p, v)) ->
  best = Some (p, v) \/ (In p cands /\ is_chemical_done s p = Ok false).
Proof.
  induction cands as [|c rest IH]; intros best p v H; simpl in H.
  - inversion H. left. reflexivity.
  - bind_inv H as d Hd. destruct d.
    + destruct (IH _ _ _ H) as [Hb|[Hin Hd']]; [left; assumption|].
      right. split; [right|]; assumption.
    + bind_inv H as vc Hvc.
      assert (Hcase : forall b, min_precursor s rest b = Ok (Some (p, v)) ->
                (b = best \/ b = Some (c, vc)) ->
                best = Some (p, v) \/ (In p (c :: rest) /\ is_chemical_done s p = Ok false)).
      { intros b Hb Hor. destruct (IH _ _ _ Hb) as [Heq|[Hin Hd']].
        - destruct Hor as [->| ->]; [left; assumption|].
          inversion Heq; subst. right. split; [left; reflexivity | assumption].
        - right. split; [right|]; assumption. }
      destruct best as [[b vb]|]; [destruct (vc <? vb)%nat|];
        eapply Hcase; eauto.
Qed.

Lemma length_le_size (m : gmap string node) (l : list string) :
  List.NoDup l -> (forall x, In x l -> is_Some (m !! x)) -> length l <= size m.
Proof.
  intros Hnd Hin.
  rewrite <- (size_dom (D := gset string)).
  rewrite <- (size_list_to_set (C := gset string) l) by (apply NoDup_ListNoDup; exact Hnd).
  apply subseteq_size. intros x Hx. apply elem_of_list_to_set in Hx.
  apply elem_of_dom. apply Hin. apply list_elem_of_In. exact Hx.
Qed.

Lemma intersects_false a b x :
  intersects a b = false -> In x a -> ~ In x b.
Proof.
  unfold intersects. intros H Ha Hb.
  assert (existsb (fun y => mem_str y b) a = true); [|congruence].
  apply existsb_exists. exists x. split; [assumption|]. apply mem_str_In. assumption.
Qed.

Lemma select_loop_fuel : forall fuel s pre leaf rxn_path,
  List.NoDup (pre ++ [leaf]) ->
  (forall x, In x pre -> is_Some (g_nodes (tree s) !! x)) ->
  size (g_nodes (tree s)) < fuel + length pre ->
  out_of_fuel (select_loop fuel s (pre ++ [leaf]) rxn_path) = false.
Proof.
  induction fuel as [|fuel IH]; intros s pre leaf rxn_path Hnd Hdom Hfuel.
  - exfalso. apply List.NoDup_remove_1 with (l' := []) in Hnd. rewrite app_nil_r in Hnd.
    pose proof (length_le_size _ _ Hnd Hdom). simpl in Hfuel. lia.
  - simpl. unfold last_of. rewrite rev_app_distr. simpl.
    destruct (ucb s leaf (pre ++ [leaf]) (exploration_weight (config s)))
      as [[options template_opt]|e] eqn:Hucb.
    2:{ pose proof (ucb_fuel s leaf (pre ++ [leaf]) (exploration_weight (config s))) as Hf.
        rewrite Hucb in Hf. exact Hf. }
    simpl.
    destruct (sort_desc (select_options s leaf options template_opt))
      as [|[score [rxn|template]] rest] eqn:Hsort; try reflexivity.
    apply bind_fuel; [apply min_precursor_fuel|].
    intros [[precursor v]|] Hmin; [|reflexivity].
    apply sort_desc_head in Hsort.
    apply (proj1 (In_select_options_descend _ _ _ _ _ _)) in Hsort.
    unfold ucb in Hucb. bind_inv Hucb as c Hc. bind_inv Hucb as acc Hacc.
    inversion Hucb; subst options template_opt; clear Hucb.
    apply (proj1 (In_sort_desc _ _)) in Hsort.
    destruct (ucb_reaction_options _ _ _ _ _ _ _ _ Hacc _ Hsort) as [[]|Hint].
    cbn [snd] in Hint.
    destruct (min_precursor_some _ _ _ _ _ Hmin) as [Hb|[Hin Hd]]; [discriminate|].
    rewrite <- app_assoc. change ([leaf] ++ [precursor]) with ([leaf; precursor]).
    replace (pre ++ [leaf; precursor]) with ((pre ++ [leaf]) ++ [precursor])
      by (rewrite <- app_assoc; reflexivity).
    apply IH.
    + apply List.NoDup_rev in Hnd.
      rewrite <- (rev_involutive ((pre ++ [leaf]) ++ [precursor])).
      apply List.NoDup_rev. rewrite rev_app_distr. simpl. constructor; [|exact Hnd].
      rewrite <- in_rev. eapply intersects_false; eassumption.
    + intros x Hx. apply in_app_or in Hx. destruct Hx as [Hx|[<-|[]]]; [apply Hdom; exact Hx|].
      apply chem_data_inv in Hc. rewrite Hc. eauto.
    + rewrite length_app. simpl. lia.
Qed.

(** The fuel [_select] gives to its loop is never used up. *)
Lemma select_never_out_of_fuel s : out_of_fuel (_select s) = false.
Proof.
  unfold _select. destruct (target s) as [t|]; [|reflexivity].
  apply (select_loop_fuel _ s [] t []).
  - constructor; [intros [] | constructor].
  - intros x [].
  - simpl. lia.
Qed.

(** ** Cycles and the unfolding of the graph *)

Lemma rchain_tc g : forall anc n y, rchain g n anc -> In y anc -> tc (g_edge g) y n.
Proof.
  induction anc as [|p rest IH]; intros n y Hc Hy; [destruct Hy|].
  destruct Hc as [He Hc]. destruct Hy as [<-|Hy].
  - apply tc_once. exact He.
  - eapply tc_r; [apply (IH p y Hc Hy) | exact He].
Qed.

Lemma rchain_NoDup g : (forall n, ~ tc (g_edge g) n n) ->
  forall anc n, rchain g n anc -> List.NoDup (n :: anc).
Proof.
  intros Hacyc. induction anc as [|p rest IH]; intros n Hc.
  - constructor; [intros [] | constructor].
  - constructor.
    + intros Hin. apply (Hacyc n). eapply rchain_tc; eassumption.
    + apply IH. apply Hc.
Qed.

Lemma map_m_raise {A B : Type} (f : A -> result B) l e :
  map_m f l = Raise e -> exists x, In x l /\ f x = Raise e.
Proof.
  induction l as [|x l IH]; simpl; [discriminate|].
  destruct (f x) as [y|e'] eqn:Hx; simpl.
  - destruct (map_m f l) as [ys|e'']; simpl; [discriminate|].
    intros H. inversion H; subst. destruct IH as (z & Hz & Hfz); [reflexivity|].
    exists z. split; [right|]; assumption.
  - intros H. inversion H; subst. exists x. split; [left; reflexivity | assumption].
Qed.

Lemma map_m_ok_all {A B : Type} (f : A -> result B) l ys :
  map_m f l = Ok ys -> forall x, In x l -> is_ok (f x) = true.
Proof.
  revert ys. induction l as [|x l IH]; simpl; intros ys H z Hz; [destruct Hz|].
  bind_inv H as y Hy. bind_inv H as ys' Hys.
  destruct Hz as [<-|Hz]; [rewrite Hy; reflexivity | eapply IH; eassumption].
Qed.

(** On an acyclic graph the unfolding never runs out of fuel. *)
Lemma unfold_acyclic g :
  closed g -> (forall n, ~ tc (g_edge g) n n) ->
  forall fuel n anc,
    rchain g n anc ->
    (forall x, In x (n :: anc) -> is_Some (g_nodes g !! x)) ->
    size (g_nodes g) <= fuel + length anc ->
    is_ok (unfold fuel g n) = true.
Proof.
  intros Hclosed Hacyc. induction fuel as [|fuel IH]; intros n anc Hc Hdom Hfuel.
  - exfalso. pose proof (length_le_size _ _ (rchain_NoDup g Hacyc anc n Hc) Hdom) as Hlen.
    simpl in Hlen, Hfuel. lia.
  - simpl. destruct (Hdom n (or_introl eq_refl)) as [d Hd]. rewrite Hd.
    destruct (map_m (unfold fuel g) (successors g n)) as [cs|e] eqn:Hm; [reflexivity|].
    exfalso. apply map_m_raise in Hm. destruct Hm as (c & Hcin & Hraise).
    assert (Hok : is_ok (unfold fuel g c) = true).
    { apply (IH c (n :: anc)).
      - split; assumption.
      - intros x [<-|Hx]; [eapply Hclosed; exact Hcin | apply Hdom; exact Hx].
      - simpl. lia. }
    rewrite Hraise in Hok. discriminate.
Qed.

(** On a closed graph the only exception of the unfolding is [HasACycle]. *)
Lemma unfold_raise g : closed g ->
  forall fuel n e, is_Some (g_nodes g !! n) -> unfold fuel g n = Raise e -> e = HasACycle.
Proof.
  intros Hclosed. induction fuel as [|fuel IH]; intros n e [d Hd] H; simpl in H.
  - inversion H. reflexivity.
  - rewrite Hd in H.
    destruct (map_m (unfold fuel g) (successors g n)) as [cs|e'] eqn:Hm; simpl in H;
      [discriminate|].
    inversion H; subst e'. apply map_m_raise in Hm. destruct Hm as (c & Hcin & Hraise).
    eapply IH; [|exact Hraise]. eapply Hclosed. exact Hcin.
Qed.

Lemma tc_first_step {A : Type} (R : relation A) x z :
  tc R x z -> exists y, R x y /\ rtc R y z.
Proof.
  intros H. inversion H as [? ? Hxz|? y ? Hxy Hyz]; subst.
  - exists z. split; [assumption | apply rtc_refl].
  - exists y. split; [assumption | apply tc_rtc; assumption].
Qed.

Lemma tc_last_step {A : Type} (R : relation A) x z :
  tc R x z -> exists y, R y z.
Proof. induction 1 as [x z Hxz|x y z Hxy Hyz IH]; [eauto | exact IH]. Qed.

(** From a node that leads into a cycle the unfolding fails with any fuel. *)
Lemma unfold_cycle g : forall fuel n m,
  rtc (g_edge g) n m -> tc (g_edge g) m m -> is_ok (unfold fuel g n) = false.
Proof.
  induction fuel as [|fuel IH]; intros n m Hnm Hmm; simpl; [reflexivity|].
  destruct (g_nodes g !! n) as [d|]; [|reflexivity].
  assert (Hstep : exists n', g_edge g n n' /\ rtc (g_edge g) n' m).
  { apply rtc_inv in Hnm. destruct Hnm as [->|(n' & He & Hr)]; [|eauto].
    apply tc_first_step. exact Hmm. }
  destruct Hstep as (n' & He & Hr).
  destruct (map_m (unfold fuel g) (successors g n)) as [cs|e] eqn:Hm; [|reflexivity].
  pose proof (map_m_ok_all _ _ _ Hm n' He) as Hok.
  rewrite (IH n' m Hr Hmm) in Hok. discriminate.
Qed.

Lemma In_node_ids g n : In n (node_ids g) <-> is_Some (g_nodes g !! n).
Proof.
  unfold node_ids. rewrite in_map_iff. split.
  - intros ([k d] & <- & Hin). apply list_elem_of_In in Hin.
    apply elem_of_map_to_list in Hin. simpl. eauto.
  - intros [d Hd]. exists (n, d). split; [reflexivity|].
    apply list_elem_of_In. apply elem_of_map_to_list. exact Hd.
Qed.

(** [has_cycle] is false exactly on the graphs without a cycle. *)
Lemma has_cycle_false_iff g : closed g ->
  (has_cycle g = false <-> forall n, ~ tc (g_edge g) n n).
Proof.
  intros Hclosed. split.
  - intros H n Hn.
    assert (Hdom : is_Some (g_nodes g !! n)).
    { destruct (tc_last_step _ _ _ Hn) as (y & Hy). eapply Hclosed. exact Hy. }
    pose proof (unfold_cycle g (size (g_nodes g)) n n (rtc_refl _ _) Hn) as Hfail.
    destruct (unfold (size (g_nodes g)) g n) as [t|e] eqn:Hu; [discriminate|].
    pose proof (unfold_raise g Hclosed _ _ _ Hdom Hu) as ->.
    assert (Ht : has_cycle g = true); [|congruence].
    unfold has_cycle. apply existsb_exists. exists n.
    split; [apply In_node_ids; exact Hdom | rewrite Hu; reflexivity].
  - intros Hacyc. unfold has_cycle.
    destruct (existsb _ _) eqn:He; [|reflexivity].
    exfalso. apply existsb_exists in He. destruct He as (n & Hn & Hraise).
    apply In_node_ids in Hn.
    assert (Hok : is_ok (unfold (size (g_nodes g)) g n) = true).
    { apply (unfold_acyclic g Hclosed Hacyc _ n []).
      - exact I.
      - intros x [<-|[]]. exact Hn.
      - simpl. lia. }
    destruct (unfold (size (g_nodes g)) g n); discriminate.
Qed.

(** ** The extraction returns on well-formed graphs *)

Lemma map_m_ok_Forall2 {A B : Type} (f : A -> result B) : forall l ys,
  map_m f l = Ok ys -> Forall2 (fun x y => f x = Ok y) l ys.
Proof.
  induction l as [|x l IH]; simpl; intros ys H.
  - inversion H. constructor.
  - bind_inv H as y Hy. bind_inv H as ys' Hys. inversion H; subst.
    constructor; [assumption | apply IH; assumption].
Qed.

Lemma unfold_layered g : layered g ->
  forall fuel n t, unfold fuel g n = Ok t ->
    match g_nodes g !! n with
    | Some (Chemical _) => chem_tree t
    | Some (Reaction _) => rxn_tree t
    | None => True
    end.
Proof.
  intros Hlay. induction fuel as [|fuel IH]; intros n t H; simpl in H; [discriminate|].
  pose proof (Hlay n) as Hn.
  destruct (g_nodes g !! n) as [d|] eqn:Hd; [|discriminate].
  bind_inv H as cs Hcs. inversion H; subst t; clear H.
  apply map_m_ok_Forall2 in Hcs.
  destruct d as [c|r].
  - constructor. apply List.Forall_forall. intros t Ht.
    assert (Hex : exists m, In m (successors g n) /\ unfold fuel g m = Ok t).
    { clear -Hcs Ht. induction Hcs as [|x y l ys Hxy Hrest IHr]; [destruct Ht|].
      destruct Ht as [<-|Ht]; [exists x; split; [left; reflexivity | assumption]|].
      destruct (IHr Ht) as (m & Hm & Hu). exists m. split; [right|]; assumption. }
    destruct Hex as (m & Hm & Hu). destruct (Hn m Hm) as (rd & Hrd).
    specialize (IH m t Hu). rewrite Hrd in IH. exact IH.
  - destruct Hn as [Hne Hch]. constructor.
    + intros ->. inversion Hcs as [Hnil|]. apply Hne. symmetry. exact Hnil.
    + apply List.Forall_forall. intros t Ht.
      assert (Hex : exists m, In m (successors g n) /\ unfold fuel g m = Ok t).
      { clear -Hcs Ht. induction Hcs as [|x y l ys Hxy Hrest IHr]; [destruct Ht|].
        destruct Ht as [<-|Ht]; [exists x; split; [left; reflexivity | assumption]|].
        destruct (IHr Ht) as (m & Hm & Hu). exists m. split; [right|]; assumption. }
      destruct Hex as (m & Hm & Hu). destruct (Hch m Hm) as (cd & Hcd).
      specialize (IH m t Hu). rewrite Hcd in IH. exact IH.
Qed.

Lemma gen_chain_none {A : Type} (gs : list (gen A)) :
  (forall g, In g gs -> snd g = None) -> snd (gen_chain gs) = None.
Proof.
  induction gs as [|[items [e|]] gs IH]; simpl; intros H; [reflexivity| |].
  - specialize (H _ (or_introl eq_refl)). discriminate.
  - apply IH. intros g Hg. apply H. right. exact Hg.
Qed.

Lemma pools_of_none {A : Type} (gs : list (gen A)) :
  (forall g, In g gs -> snd g = None) -> pools_of gs = Ok (map fst gs).
Proof.
  induction gs as [|[items [e|]] gs IH]; simpl; intros H; [reflexivity| |].
  - specialize (H _ (or_introl eq_refl)). discriminate.
  - rewrite IH by (intros g Hg; apply H; right; exact Hg). reflexivity.
Qed.

Lemma leaves_node src d cs :
  cs <> [] -> leaves (BNode src d cs) = flat_map leaves cs.
Proof. destruct cs; [congruence | reflexivity]. Qed.

(** On a layered tree the enumeration raises nothing, and the leaves of the
    paths it yields are chemicals. *)
Lemma get_paths_total md : forall t,
  (chem_tree t -> forall dep,
     snd (get_chem_paths md t dep) = None
     /\ forall p, In p (fst (get_chem_paths md t dep)) -> chemical_leaves p)
  /\ (rxn_tree t -> forall dep,
        snd (get_rxn_paths md t dep) = None
        /\ forall p, In p (fst (get_rxn_paths md t dep)) ->
             bchildren p <> [] /\ forall c, In c (bchildren p) -> chemical_leaves c).
Proof.
  apply btree_ind_forall. intros src d cs IH. split.
  - intros Ht dep. inversion Ht as [src' c rs Hrs]; subst.
    rewrite get_chem_paths_eq.
    destruct ((length cs =? 0)%nat || depth_reached md dep).
    + split; [reflexivity|]. intros p [<-|[]] v [<-|[]]. simpl. eauto.
    + rewrite List.Forall_forall in IH, Hrs. split.
      * apply gen_chain_none. intros g Hg. apply in_map_iff in Hg.
        destruct Hg as (rxn & <- & Hrxn). simpl.
        apply (proj2 (IH rxn Hrxn) (Hrs rxn Hrxn)).
      * intros p Hp. apply In_gen_chain in Hp. destruct Hp as (g & Hg & Hp).
        apply in_map_iff in Hg. destruct Hg as (rxn & <- & Hrxn). simpl in Hp.
        apply in_map_iff in Hp. destruct Hp as (sub & <- & Hsub).
        destruct (proj2 (IH rxn Hrxn) (Hrs rxn Hrxn) (dep + 1)) as [_ Hall].
        destruct (Hall sub Hsub) as [Hne Hch].
        intros v Hv. simpl in Hv. rewrite app_nil_r in Hv.
        destruct sub as [ssrc sd scs]. simpl in Hne, Hch.
        rewrite leaves_node in Hv by assumption.
        apply in_flat_map in Hv. destruct Hv as (c0 & Hc0 & Hv).
        exact (Hch c0 Hc0 v Hv).
  - intros Ht dep. inversion Ht as [src' r cs' Hne Hcs]; subst.
    rewrite get_rxn_paths_eq. rewrite List.Forall_forall in IH, Hcs.
    rewrite pools_of_none.
    2:{ intros g Hg. apply in_map_iff in Hg. destruct Hg as (c & <- & Hc).
        apply (proj1 (IH c Hc) (Hcs c Hc)). }
    remember (map fst (map (fun c => get_chem_paths md c dep) cs)) as pools eqn:Hpools.
    destruct cs as [|c0 cs]; [congruence|]. split; [reflexivity|].
    intros p Hp. cbn [fst] in Hp. apply in_map_iff in Hp.
    destruct Hp as (combo & <- & Hcombo). cbn [bchildren].
    apply In_product in Hcombo. subst pools. rewrite map_map in Hcombo. split.
    + intros ->. inversion Hcombo.
    + intros c Hc.
      eapply (combo_in_pools (fun ch => fst (get_chem_paths md ch dep)) chemical_leaves
                (fun ch => In ch (c0 :: cs)));
        [exact Hcombo | apply List.Forall_forall; auto | | exact Hc].
      intros ch x Hch Hx.
      exact (proj2 (proj1 (IH ch Hch) (Hcs ch Hch) dep) x Hx).
Qed.

Lemma all_m_defined {A : Type} (f : A -> result bool) l :
  (forall x, In x l -> exists b, f x = Ok b) -> exists b, all_m f l = Ok b.
Proof.
  induction l as [|x l IH]; simpl; intros H; [eauto|].
  destruct (H x (or_introl eq_refl)) as [[|] ->]; simpl; [|eauto].
  apply IH. intros y Hy. apply H. right. exact Hy.
Qed.

Lemma run_validated_total items :
  (forall p, In p items -> chemical_leaves p) ->
  exists l, run_validated items None = Ok l.
Proof.
  induction items as [|p items IH]; simpl; intros H; [eauto|].
  destruct (all_m_defined leaf_terminal (leaves p)) as [b Hb].
  { intros v Hv. destruct (H p (or_introl eq_refl) v Hv) as (c & Hc).
    unfold leaf_terminal. rewrite Hc. eauto. }
  unfold _validate_path. rewrite Hb. simpl.
  destruct IH as [l Hl]; [intros q Hq; apply H; right; exact Hq|].
  rewrite Hl. simpl. eauto.
Qed.

(** On a graph without a cycle, whose edges end on nodes and respect the two
    layers, and whose target is a chemical node, the extraction returns. *)
Lemma extraction_total s t c :
  closed (tree s) -> layered (tree s) -> (forall n, ~ tc (g_edge (tree s)) n n) ->
  target s = Some t -> g_nodes (tree s) !! t = Some (Chemical c) ->
  exists root l,
    to_branching_target s = Ok root
    /\ run_validated (fst (get_paths root (Some (max_depth (config s)))))
                     (snd (get_paths root (Some (max_depth (config s))))) = Ok l.
Proof.
  intros Hclosed Hlay Hacyc Ht Hc.
  unfold to_branching_target.
  rewrite (proj2 (has_cycle_false_iff _ Hclosed) Hacyc), Ht, Hc.
  destruct (unfold (size (g_nodes (tree s))) (tree s) t) as [root|e] eqn:Hu.
  2:{ pose proof (unfold_acyclic _ Hclosed Hacyc (size (g_nodes (tree s))) t []) as Hok.
      rewrite Hu in Hok. simpl in Hok. exfalso.
      assert (false = true); [|discriminate]. apply Hok.
      - exact I.
      - intros x [<-|[]]. rewrite Hc. eauto.
      - lia. }
  pose proof (unfold_layered _ Hlay _ _ _ Hu) as Hroot. rewrite Hc in Hroot.
  destruct (proj1 (get_paths_total (Some (max_depth (config s))) root) Hroot 0)
    as [Hnone Hleaves].
  destruct (run_validated_total _ Hleaves) as [l Hl].
  exists root, l. split; [reflexivity|].
  unfold get_paths. rewrite Hnone. exact Hl.
Qed.

Lemma closedb_sound g : closedb g = true -> closed g.
Proof.
  unfold closedb, closed, g_edge, successors. intros H u v Hin.
  destruct (g_succ g !! u) as [vs|] eqn:Hu; simpl in Hin; [|destruct Hin].
  rewrite forallb_forall in H.
  assert (Hkv : In (u, vs) (map_to_list (g_succ g))).
  { apply list_elem_of_In. apply elem_of_map_to_list. exact Hu. }
  specialize (H _ Hkv). simpl in H. rewrite forallb_forall in H.
  specialize (H v Hin). unfold is_chemical_node, is_reaction_node in H.
  destruct (g_nodes g !! v) as [[?|?]|]; [eauto | eauto | discriminate].
Qed.

Lemma layeredb_sound g : layeredb g = true -> layered g.
Proof.
  unfold layeredb, layered. intros H n.
  destruct (g_nodes g !! n) as [d|] eqn:Hd; [|exact I].
  rewrite forallb_forall in H.
  assert (Hkv : In (n, d) (map_to_list (g_nodes g))).
  { apply list_elem_of_In. apply elem_of_map_to_list. exact Hd. }
  specialize (H _ Hkv). simpl in H. destruct d as [c|r].
  - rewrite forallb_forall in H. intros r Hr. specialize (H r Hr).
    unfold is_reaction_node in H.
    destruct (g_nodes g !! r) as [[?|rd]|]; try discriminate. eauto.
  - apply andb_prop in H. destruct H as [Hdeg H]. split.
    + unfold out_degree in Hdeg. intros Hnil. rewrite Hnil in Hdeg. discriminate.
    + rewrite forallb_forall in H. intros c Hc. specialize (H c Hc).
      unfold is_chemical_node in H.
      destruct (g_nodes g !! c) as [[cd|?]|]; try discriminate. eauto.
Qed.


(** A generator that ends without an exception leaves, in their order, the
    paths that [_validate_path] accepts. *)
Lemma run_validated_filter items : forall l,
  run_validated items None = Ok l ->
  l = List.filter (fun p => match _validate_path p with
                            | Ok true => true
                            | _ => false
                            end) items.
Proof.
  induction items as [|p items IH]; simpl; intros l H.
  - inversion H. reflexivity.
  - bind_inv H as v Hv. bind_inv H as r Hr. inversion H; subst l; clear H.
    rewrite Hv. rewrite (IH r Hr). destruct v; reflexivity.
Qed.

(** On a graph with a cycle the branching is refused. *)
Lemma to_branching_target_cycle s :
  closed (tree s) -> (exists n, tc (g_edge (tree s)) n n) ->
  to_branching_target s = Raise HasACycle.
Proof.
  intros Hclosed [n Hn]. unfold to_branching_target.
  destruct (has_cycle (tree s)) eqn:Hc; [reflexivity|].
  exfalso. exact (proj1 (has_cycle_false_iff _ Hclosed) Hc n Hn).
Qed.

(** C7 (as the code has it).  [get_buyable_paths] builds the branching and
    looks the target up in it before it reads the format: an exception of
    that step, [HasACycle] on a graph with a cycle, leaves the call whatever
    the format is.  Once that step succeeded, any format other than ['json']
    and ['graph'] raises [ValueError('Unrecognized format type ...')]
    without running the enumeration, and ['json'] and ['graph'] return the
    validated paths, as nested data and as trees.  On every graph without a
    cycle whose edges end on nodes and respect the two layers and whose
    target is a chemical node they do return: the paths of [get_paths], in
    their order, that [_validate_path] accepts. *)
Theorem get_buyable_paths_formats s fmt :
  (forall e, to_branching_target s = Raise e -> get_buyable_paths s fmt = Raise e)
  /\ (closed (tree s) -> (exists n, tc (g_edge (tree s)) n n) ->
      get_buyable_paths s fmt = Raise HasACycle)
  /\ (fmt <> "json" -> fmt <> "graph" ->
      is_ok (get_buyable_paths s fmt) = false
      /\ (forall root, to_branching_target s = Ok root ->
            get_buyable_paths s fmt
            = Raise (ValueError ("Unrecognized format type " +:+ fmt))))
  /\ (forall root l,
        to_branching_target s = Ok root ->
        run_validated (fst (get_paths root (Some (max_depth (config s)))))
                      (snd (get_paths root (Some (max_depth (config s))))) = Ok l ->
        get_buyable_paths s "json" = Ok (JsonPaths (map tree_data l))
        /\ get_buyable_paths s "graph" = Ok (GraphPaths l))
  /\ (forall t c,
        closed (tree s) -> layered (tree s) ->
        (forall n, ~ tc (g_edge (tree s)) n n) ->
        target s = Some t -> g_nodes (tree s) !! t = Some (Chemical c) ->
        exists root l,
          to_branching_target s = Ok root
          /\ l = List.filter (fun p => match _validate_path p with
                                       | Ok true => true
                                       | _ => false
                                       end)
                             (fst (get_paths root (Some (max_depth (config s)))))
          /\ get_buyable_paths s "json" = Ok (JsonPaths (map tree_data l))
          /\ get_buyable_paths s "graph" = Ok (GraphPaths l)).
Proof.
  assert (Hknown : forall root l,
    to_branching_target s = Ok root ->
    run_validated (fst (get_paths root (Some (max_depth (config s)))))
                  (snd (get_paths root (Some (max_depth (config s))))) = Ok l ->
    get_buyable_paths s "json" = Ok (JsonPaths (map tree_data l))
    /\ get_buyable_paths s "graph" = Ok (GraphPaths l)).
  { intros root l Hroot Hrun. unfold get_buyable_paths. rewrite Hroot. simpl.
    rewrite Hrun. simpl. split; reflexivity. }
  assert (Hraise : forall e, to_branching_target s = Raise e ->
                     get_buyable_paths s fmt = Raise e).
  { intros e He. unfold get_buyable_paths. rewrite He. reflexivity. }
  split; [exact Hraise|]. split; [|split; [|split; [exact Hknown|]]].
  - intros Hclosed Hcyc. apply Hraise. apply to_branching_target_cycle; assumption.
  - intros Hj Hg. unfold get_buyable_paths.
    apply String.eqb_neq in Hj. apply String.eqb_neq in Hg.
    split.
    + destruct (to_branching_target s); simpl; [rewrite Hj, Hg|]; reflexivity.
    + intros root ->. simpl. rewrite Hj, Hg. reflexivity.
  - intros t c Hclosed Hlay Hacyc Ht Hc.
    destruct (extraction_total s t c Hclosed Hlay Hacyc Ht Hc) as (root & l & Hroot & Hrun).
    exists root, l. split; [exact Hroot|]. split; [|exact (Hknown root l Hroot Hrun)].
    pose proof (unfold_layered (tree s) Hlay) as Hul.
    assert (Hnone : snd (get_paths root (Some (max_depth (config s)))) = None).
    { unfold to_branching_target in Hroot.
      destruct (has_cycle (tree s)); [discriminate|]. rewrite Ht, Hc in Hroot.
      pose proof (Hul _ _ _ Hroot) as Hr. rewrite Hc in Hr.
      apply (proj1 (get_paths_total (Some (max_depth (config s))) root) Hr 0). }
    rewrite Hnone in Hrun. apply run_validated_filter. exact Hrun.
Qed.

Lemma get_buyable_paths_formats_witness :
  get_buyable_paths one_step_state "xml"
  = Raise (ValueError "Unrecognized format type xml")
  /\ exists root l,
       to_branching_target one_step_state = Ok root
       /\ l = List.filter (fun p => match _validate_path p with
                                    | Ok true => true
                                    | _ => false
                                    end)
                          (fst (get_paths root (Some (max_depth (config one_step_state)))))
       /\ l <> []
       /\ get_buyable_paths one_step_state "json" = Ok (JsonPaths (map tree_data l))
       /\ get_buyable_paths one_step_state "graph" = Ok (GraphPaths l).
Proof.
  destruct (get_buyable_paths_formats one_step_state "xml")
    as (_ & _ & Hother & _ & Htotal).
  assert (Hclosed : closed (tree one_step_state))
    by (apply closedb_sound; vm_compute; reflexivity).
  split.
  - destruct Hother as [_ Hraise]; [discriminate | discriminate |].
    destruct (to_branching_target one_step_state) as [root|e] eqn:Hroot;
      [|vm_compute in Hroot; discriminate].
    exact (Hraise root eq_refl).
  - destruct (Htotal "X" (Chem [7%Z] (Some 0) None 0%float 0%float [(7%Z, 1%float)]
                               (PyBool false) (Some true) 2))
      as (root & l & Hroot & Hl & Hjson & Hgraph).
    + exact Hclosed.
    + apply layeredb_sound. vm_compute. reflexivity.
    + apply (proj1 (has_cycle_false_iff _ Hclosed)). vm_compute. reflexivity.
    + vm_compute. reflexivity.
    + vm_compute. reflexivity.
    + exists root, l. split; [exact Hroot|]. split; [exact Hl|].
      split; [|split; assumption].
      intros Hnil. rewrite Hnil in Hgraph. vm_compute in Hgraph. discriminate Hgraph.
Defined.

(** C7 as stated fails on a graph the engine builds: with templates that
    turn ["A"] into ["B"] or ["C"], ["B"] into ["C"] and ["C"] into ["B"],
    three rollouts close a cycle, and from then on ['json'] and ['graph']
    return nothing and any other format fails with the exception of
    [dag_to_branching], not with the error for the format. *)
Lemma buyable_paths_fail_on_a_cycle_for_every_format :
  exists s,
    engine_after default_config ad_cross "A" 3 = Ok s
    /\ get_buyable_paths s "json" = Raise HasACycle
    /\ get_buyable_paths s "graph" = Raise HasACycle
    /\ get_buyable_paths s "xml" = Raise HasACycle.
Proof.
  eexists. split; [vm_compute; reflexivity|].
  split; [vm_compute; reflexivity|]. split; vm_compute; reflexivity.
Qed.

(** * The states a new engine reaches *)

(** ** What selection returns *)

(** The reactions that enter the options are successors that are not
    skipped. *)
Lemma ucb_reaction_sources s tpl vc path w : forall rxns acc acc',
  fold_m (ucb_reaction s tpl vc path w) rxns acc = Ok acc' ->
  forall o, In o (snd acc') ->
    In o (snd acc)
    \/ (In (snd o) rxns /\ ucb_skips s path (snd o) = Ok false).
Proof.
  induction rxns as [|rxn rest IH]; intros acc acc' H o Ho; simpl in H.
  - inversion H; subst. left. assumption.
  - bind_inv H as acc1 Ha. destruct (IH _ _ H o Ho) as [Hin|[Hin Hsk]].
    2:{ right. split; [right|]; assumption. }
    unfold ucb_reaction in Ha. bind_inv Ha as rd Hrd. bind_inv Ha as skip Hskip.
    destruct skip.
    + inversion Ha; subst. left. assumption.
    + bind_inv Ha as probs Hprobs. inversion Ha; subst acc1; clear Ha. simpl in Hin.
      apply in_app_or in Hin. destruct Hin as [Hin|[<-|[]]]; [left; assumption|].
      right. cbn [snd]. split; [left; reflexivity | exact Hskip].
Qed.

Lemma last_cons_default (l : list string) : forall a d d',
  List.last (a :: l) d = List.last (a :: l) d'.
Proof.
  induction l as [|b l IH]; intros a d d'; [reflexivity|].
  change (List.last (b :: l) d = List.last (b :: l) d'). apply IH.
Qed.

Lemma descent_app s : forall rxns chems from r c,
  length rxns = length chems ->
  descent s from rxns chems ->
  edge s (last_or from chems) r -> edge s r c -> is_chemical_done s c = Ok false ->
  descent s from (rxns ++ [r]) (chems ++ [c]).
Proof.
  induction rxns as [|r0 rxns IH]; intros chems from r c Hlen Hd He1 He2 Hdone;
    destruct chems as [|c0 chems]; simpl in *; try discriminate; try lia.
  - repeat split; assumption.
  - destruct Hd as (H1 & H2 & H3 & H4). repeat split; try assumption.
    apply IH; try assumption; [lia|].
    unfold last_or in *. destruct chems as [|c1 chems]; [exact He1|].
    rewrite (last_cons_default chems c1 c0 from).
    change (List.last (c0 :: c1 :: chems) from) with (List.last (c1 :: chems) from) in He1.
    exact He1.
Qed.

Lemma last_of_cons root pre : last_of (root :: pre) = Ok (last_or root pre).
Proof.
  unfold last_of, last_or.
  destruct (rev (root :: pre)) as [|x l] eqn:Hrev.
  - apply (f_equal (@length string)) in Hrev. rewrite length_rev in Hrev. discriminate.
  - apply (f_equal (@rev string)) in Hrev. rewrite rev_involutive in Hrev.
    simpl in Hrev. f_equal.
    assert (Hlast : List.last (root :: pre) root = x) by (rewrite Hrev; apply last_last).
    rewrite <- Hlast. destruct pre; reflexivity.
Qed.

(** What the loop of [_select] returns: the path it was given, extended by a
    descent through reactions and chemicals that are not done, without
    meeting a chemical twice, and a template of the last chemical that was
    not applied to it yet; that chemical is below the branching cap. *)
Lemma select_loop_spec : forall fuel s root pre rxn_pre chem_path rxn_path template,
  select_loop fuel s (root :: pre) rxn_pre = Ok (chem_path, rxn_path, template) ->
  List.NoDup (root :: pre) ->
  length rxn_pre = length pre ->
  descent s root rxn_pre pre ->
  exists chems c,
    chem_path = root :: chems
    /\ length rxn_path = length chems
    /\ List.NoDup (root :: chems)
    /\ descent s root rxn_path chems
    /\ chem_data s (last_or root chems) = Ok c
    /\ In template (dict_keys (templates c))
    /\ mem_Z template (explored c) = false
    /\ out_degree (tree s) (last_or root chems) < max_branching (config s).
Proof.
  induction fuel as [|fuel IH];
    intros s root pre rxn_pre chem_path rxn_path template H Hnd Hlen Hdesc;
    simpl in H; [discriminate|].
  rewrite last_of_cons in H. simpl in H.
  bind_inv H as scored Hucb.
  destruct scored as [options template_opt].
  destruct (sort_desc (select_options s (last_or root pre) options template_opt))
    as [|[score [rxn|t]] rest] eqn:Hsort; [discriminate| |].
  - bind_inv H as best Hmin. destruct best as [[precursor v]|]; [|discriminate].
    apply sort_desc_head in Hsort.
    apply (proj1 (In_select_options_descend _ _ _ _ _ _)) in Hsort.
    unfold ucb in Hucb. bind_inv Hucb as c Hc. bind_inv Hucb as acc Hacc.
    inversion Hucb; subst options template_opt; clear Hucb.
    apply (proj1 (In_sort_desc _ _)) in Hsort.
    destruct (ucb_reaction_sources _ _ _ _ _ _ _ _ Hacc _ Hsort) as [[]|[Hsucc Hskip]].
    cbn [snd] in Hsucc, Hskip.
    unfold ucb_skips in Hskip. bind_inv Hskip as dn Hdn. injection Hskip as Hs.
    apply orb_false_elim in Hs. destruct Hs as [-> Hint].
    destruct (min_precursor_some _ _ _ _ _ Hmin) as [Hb|[Hin Hd]]; [discriminate|].
    change ((root :: pre) ++ [precursor]) with (root :: (pre ++ [precursor])) in H.
    apply IH in H.
    + exact H.
    + change (root :: pre ++ [precursor]) with ((root :: pre) ++ [precursor]).
      apply List.NoDup_rev in Hnd.
      rewrite <- (rev_involutive ((root :: pre) ++ [precursor])).
      apply List.NoDup_rev. rewrite rev_app_distr.
      change (rev [precursor] ++ rev (root :: pre)) with (precursor :: rev (root :: pre)).
      constructor; [|exact Hnd].
      rewrite <- in_rev. eapply intersects_false; eassumption.
    + rewrite !length_app. simpl. lia.
    + apply descent_app; assumption.
  - inversion H; subst chem_path rxn_path template; clear H.
    apply sort_desc_head in Hsort.
    apply (proj1 (In_select_options_apply _ _ _ _ _ _)) in Hsort.
    destruct Hsort as [Hdeg Hin].
    unfold ucb in Hucb. bind_inv Hucb as c Hc. bind_inv Hucb as acc Hacc.
    inversion Hucb; subst options template_opt; clear Hucb.
    apply (proj1 (In_sort_desc _ _)) in Hin.
    apply (proj1 (In_ucb_templates _ _ _ _ _ _ _)) in Hin.
    destruct Hin as (p & Hp & Hne & _).
    exists pre, c. repeat split; try assumption.
    unfold dict_keys. apply in_map_iff. exists (t, p). split; [reflexivity | exact Hp].
Qed.


(** ** What a step leaves alone *)

Lemma step_frame s s' :
  step s s' ->
  config s' = config s /\ adapters s' = adapters s /\ target s' = target s.
Proof.
  destruct 1; try (repeat split; reflexivity).
  - apply create_chemical_node_frame in H1. tauto.
  - unfold merge_reaction in H0. bind_inv H0 as rd Hrd. inversion H0; subst.
    repeat split; reflexivity.
  - apply is_chemical_done_update_ok in H. destruct H as (c & _ & _ & ->).
    repeat split; reflexivity.
  - unfold bump_visit_count in H.
    destruct (g_nodes (tree s) !! n) as [[c|r]|]; inversion H; subst;
      repeat split; reflexivity.
Qed.

Lemma step_succ s s' :
  step s s' -> forall u v, edge s u v -> edge s' u v.
Proof.
  destruct 1; intros a b Hab; try exact Hab.
  - apply create_chemical_node_frame in H1.
    destruct H1 as (_ & _ & _ & _ & _ & Hs & _).
    unfold edge, g_edge, successors in *. rewrite Hs. exact Hab.
  - unfold merge_reaction in H0. bind_inv H0 as rd Hrd. inversion H0; subst. exact Hab.
  - unfold edge, g_edge in *. simpl. apply add_edge_keeps. exact Hab.
  - unfold edge, g_edge in *. simpl. apply add_edge_keeps. exact Hab.
  - apply is_chemical_done_update_ok in H. destruct H as (c & _ & _ & ->). exact Hab.
  - unfold bump_visit_count in H.
    destruct (g_nodes (tree s) !! n) as [[c|r]|]; inversion H; subst; exact Hab.
Qed.

Lemma rtc_step_frame s s' :
  rtc step s s' ->
  config s' = config s /\ adapters s' = adapters s /\ target s' = target s.
Proof.
  induction 1 as [|s s1 s2 H1 _ IH]; [repeat split; reflexivity|].
  apply step_frame in H1. destruct H1 as (? & ? & ?), IH as (? & ? & ?).
  repeat split; congruence.
Qed.

Lemma rtc_step_succ s s' :
  rtc step s s' -> forall u v, edge s u v -> edge s' u v.
Proof.
  induction 1 as [|s s1 s2 H1 _ IH]; intros u v Huv; [exact Huv|].
  apply IH. eapply step_succ; eassumption.
Qed.

Lemma rtc_transitive_step (a b c : MCTS) :
  rtc step a b -> rtc step b c -> rtc step a c.
Proof. intros Hab Hbc. induction Hab; [exact Hbc|]. eapply rtc_l; eauto. Qed.

Lemma reach_mono s s' (Hsub : forall u v, edge s u v -> edge s' u v) a b :
  rtc (edge s) a b -> rtc (edge s') a b.
Proof.
  induction 1 as [|x y z Hxy _ IH]; [apply rtc_refl|].
  eapply rtc_l; [apply Hsub; exact Hxy | exact IH].
Qed.

(** ** A rollout is a sequence of steps *)

Lemma last_or_cons from c chems : last_or from (c :: chems) = last_or c chems.
Proof.
  unfold last_or. destruct chems as [|c1 chems]; [reflexivity|].
  change (List.last (c :: c1 :: chems) from) with (List.last (c1 :: chems) from).
  apply last_cons_default.
Qed.

Lemma descent_reach s : forall rxns chems from,
  descent s from rxns chems -> rtc (edge s) from (last_or from chems).
Proof.
  induction rxns as [|r rxns IH]; intros [|c chems] from Hd; simpl in Hd;
    try destruct Hd; [apply rtc_refl|].
  destruct H0 as (H2 & _ & H4).
  eapply rtc_l; [exact H|]. eapply rtc_l; [exact H2|].
  rewrite last_or_cons. apply IH. exact H4.
Qed.

Lemma descent_last_not_done s : forall rxns chems from,
  descent s from rxns chems -> chems <> [] ->
  is_chemical_done s (last_or from chems) = Ok false.
Proof.
  induction rxns as [|r rxns IH]; intros [|c chems] from Hd Hne; simpl in Hd;
    try destruct Hd; try congruence.
  destruct H0 as (_ & H3 & H4).
  rewrite last_or_cons. destruct chems as [|c1 chems]; [exact H3|].
  apply (IH _ c); [exact H4 | discriminate].
Qed.

Lemma last_or_in root chems : In (last_or root chems) (root :: chems).
Proof.
  revert root. induction chems as [|c chems IH]; intros root; [left; reflexivity|].
  rewrite last_or_cons. right. apply IH.
Qed.

Lemma with_tree_with_tree g g' s : with_tree g (with_tree g' s) = with_tree g s.
Proof. reflexivity. Qed.

Lemma with_tree_id s : with_tree (tree s) s = s.
Proof. destruct s. reflexivity. Qed.

Lemma template_prob_In (tpl : list (Z * float)) t p :
  template_prob tpl t = Ok p -> In t (dict_keys tpl).
Proof.
  unfold template_prob. intros H.
  destruct (dict_get t tpl) as [q|] eqn:Hget; [|discriminate]. clear H.
  induction tpl as [|[k v] tpl IH]; simpl in *; [discriminate|].
  destruct (t =? k)%Z eqn:Hk.
  - left. symmetry. apply Z.eqb_eq. exact Hk.
  - right. apply IH. exact Hget.
Qed.

(** The loop over the reactants: creations only, none of them on the path;
    when it runs to its end every reactant is a registered chemical. *)
Lemma register_reactants_steps rl path : forall s b s1,
  (forall x, In x rl -> reactant (adapters s) x) ->
  register_reactants s rl path = Ok (b, s1) ->
  rtc step s s1
  /\ (forall m, In m path -> g_nodes (tree s1) !! m = g_nodes (tree s) !! m)
  /\ (forall x, In x (chemicals s) -> In x (chemicals s1))
  /\ (b = true -> forall x, In x rl -> In x (chemicals s1) /\ ~ In x path).
Proof.
  induction rl as [|x rl IH]; intros s b s1 Hrl H; simpl in H.
  - inversion H; subst. split; [apply rtc_refl|]. split; [reflexivity|].
    split; [auto|]. intros _ y [].
  - destruct (mem_str x path) eqn:Hpath.
    + inversion H; subst. split; [apply rtc_refl|]. split; [reflexivity|].
      split; [auto|]. discriminate.
    + bind_inv H as s0 Hs0.
      assert (Hrl0 : forall y, In y rl -> reactant (adapters s0) y).
      { intros y Hy. destruct (mem_str x (chemicals s)).
        - inversion Hs0; subst s0. apply Hrl. right. exact Hy.
        - apply create_chemical_node_frame in Hs0. destruct Hs0 as (_ & _ & -> & _).
          apply Hrl. right. exact Hy. }
      destruct (IH _ _ _ Hrl0 H) as (Hsteps & Hnodes & Hgrow & Hall).
      destruct (mem_str x (chemicals s)) eqn:Hmem.
      * inversion Hs0; subst s0. split; [assumption|]. split; [assumption|].
        split; [assumption|].
        intros Hb y [<-|Hy]; [|apply Hall; assumption].
        split; [|apply mem_str_false; exact Hpath].
        apply Hgrow. apply mem_str_In. exact Hmem.
      * pose proof (create_chemical_node_frame _ _ _ Hs0)
          as (_ & _ & _ & _ & Hch & _ & Hn0).
        split.
        { eapply rtc_l; [|exact Hsteps].
          eapply step_create; [apply Hrl; left; reflexivity | exact Hmem | exact Hs0]. }
        split.
        { intros m Hm. rewrite Hnodes by exact Hm. apply Hn0.
          intros ->. apply mem_str_false in Hpath. contradiction. }
        split.
        { intros y Hy. apply Hgrow. rewrite Hch. apply in_or_app. left. exact Hy. }
        intros Hb y [<-|Hy]; [|apply Hall; assumption].
        split; [|apply mem_str_false; exact Hpath].
        apply Hgrow. rewrite Hch. apply in_or_app. right. left. reflexivity.
Qed.

Lemma edges_in_steps rid r root : forall l s,
  rxn_data s rid = Ok r -> (forall x, In x l -> In x (chemicals s) /\ x <> root) ->
  target s = Some root -> rtc (edge s) root rid ->
  rtc step s (with_tree (fold_left (fun g' x => add_edge g' rid x) l (tree s)) s).
Proof.
  induction l as [|x l IH]; intros s Hr Hl Ht Hreach; simpl.
  - rewrite with_tree_id. apply rtc_refl.
  - eapply rtc_l.
    + eapply (step_edge_in s rid x); try eassumption; apply Hl; left; reflexivity.
    + set (s1 := with_tree (add_edge (tree s) rid x) s).
      change (fold_left (fun g' x0 => add_edge g' rid x0) l (add_edge (tree s) rid x))
        with (fold_left (fun g' x0 => add_edge g' rid x0) l (tree s1)).
      rewrite <- (with_tree_with_tree _ (add_edge (tree s) rid x) s). fold s1.
      apply IH.
      * unfold rxn_data, s1. simpl. rewrite add_edge_nodes. exact Hr.
      * intros y Hy. apply Hl. right. exact Hy.
      * exact Ht.
      * eapply reach_mono; [|exact Hreach].
        intros u v Huv. unfold edge, g_edge, s1. simpl. apply add_edge_keeps. exact Huv.
Qed.

Lemma expandable_keep s s' root tgt :
  expandable s root tgt ->
  target s' = target s ->
  g_nodes (tree s') !! tgt = g_nodes (tree s) !! tgt ->
  (forall u v, edge s u v -> edge s' u v) ->
  expandable s' root tgt.
Proof.
  intros (Hroot & Hleaf & Hreach) Ht Hn Hsub. split; [congruence|]. split.
  - destruct Hleaf as [Hl|Hl]; [left; exact Hl|]. right.
    unfold is_chemical_done, chem_data in *. rewrite Hn. exact Hl.
  - eapply reach_mono; eassumption.
Qed.

Lemma process_outcome_steps root tgt template path s rl s' :
  (forall x, In x rl -> reactant (adapters s) x) ->
  In root path -> In tgt path -> expandable s root tgt ->
  process_outcome tgt template path s rl = Ok s' ->
  rtc step s s'
  /\ g_nodes (tree s') !! tgt = g_nodes (tree s) !! tgt.
Proof.
  intros Hrl Hrpath Hpath Hexp H. unfold process_outcome in H. cbv zeta in H.
  destruct (_ <? _)%float; [inversion H; subst; split; [apply rtc_refl | reflexivity]|].
  set (rid := String.concat "." rl +:+ ">>" +:+ tgt) in *.
  bind_inv H as registered Hreg. destruct registered as [completed s1].
  destruct (register_reactants_steps _ _ _ _ _ Hrl Hreg)
    as (Hsteps1 & Hnodes1 & Hgrow1 & Hall1).
  destruct completed; [|inversion H; subst; split; [exact Hsteps1 | apply Hnodes1; exact Hpath]].
  bind_inv H as tdata Htd. bind_inv H as tscore Hts. bind_inv H as s2 Hs2.
  inversion H; subst s'; clear H.
  pose proof (rtc_step_frame _ _ Hsteps1) as (Hcfg1 & Had1 & Htg1).
  assert (Hexp1 : expandable s1 root tgt).
  { eapply expandable_keep; [exact Hexp | exact Htg1 | apply Hnodes1; exact Hpath |].
    apply rtc_step_succ. exact Hsteps1. }
  assert (Hparent : parent_of s1 rid template).
  { exists (String.concat "." rl), tgt, tdata. split; [reflexivity|]. split; [exact Htd|].
    apply template_prob_In in Hts. exact Hts. }
  assert (Hstep2 : step s1 s2
                   /\ g_nodes (tree s2) !! tgt = g_nodes (tree s1) !! tgt
                   /\ (exists r, rxn_data s2 rid = Ok r)
                   /\ chemicals s2 = chemicals s1
                   /\ g_succ (tree s2) = g_succ (tree s1)
                   /\ target s2 = target s1).
  { destruct (mem_str rid (reactions s1)) eqn:Hmem.
    - split; [eapply step_merge; eassumption|].
      unfold merge_reaction in Hs2. bind_inv Hs2 as rd Hrd. inversion Hs2; subst s2.
      simpl. rewrite lookup_insert_ne by apply target_not_reaction_smiles.
      repeat split; try reflexivity. eexists. apply rxn_data_put_eq.
    - inversion Hs2; subst s2.
      split; [apply step_new_reaction;
                [eexists; eexists; reflexivity | exact Hmem | exact Hparent]|].
      unfold new_reaction. simpl.
      rewrite lookup_insert_ne by apply target_not_reaction_smiles.
      repeat split; try reflexivity. eexists.
      unfold rxn_data. simpl. rewrite lookup_insert_eq. reflexivity. }
  destruct Hstep2 as (Hstep2 & Hn2 & (r & Hr2) & Hch2 & Hsucc2 & Htg2).
  assert (Hexp2 : expandable s2 root tgt).
  { eapply expandable_keep; [exact Hexp1 | exact Htg2 | exact Hn2 |].
    intros u v. unfold edge, g_edge, successors. rewrite Hsucc2. auto. }
  destruct Hexp2 as (Hroot2 & Hleaf2 & Hreach2).
  assert (Htd2 : chem_data s2 tgt = Ok tdata).
  { unfold chem_data in *. rewrite Hn2. exact Htd. }
  split.
  - eapply rtc_transitive_step; [exact Hsteps1|].
    eapply rtc_l; [exact Hstep2|].
    unfold connect.
    eapply rtc_l.
    { eapply (step_edge_out s2 tgt rid); try eassumption.
      - destruct Hleaf2 as [<-|Hl]; [left; exact Hroot2 | right; exact Hl].
      - eexists. reflexivity. }
    set (s3 := with_tree (add_edge (tree s2) tgt rid) s2).
    change (fold_left (fun g' reactant => add_edge g' rid reactant) rl
              (add_edge (tree s2) tgt rid))
      with (fold_left (fun g' reactant => add_edge g' rid reactant) rl (tree s3)).
    rewrite <- (with_tree_with_tree _ (add_edge (tree s2) tgt rid) s2). fold s3.
    apply (edges_in_steps rid r root).
    + unfold rxn_data, s3. simpl. rewrite add_edge_nodes. exact Hr2.
    + intros x Hx. unfold s3. simpl. rewrite Hch2.
      destruct (Hall1 eq_refl x Hx) as [Hin Hnp]. split; [exact Hin|].
      intros ->. contradiction.
    + exact Hroot2.
    + eapply rtc_r.
      * eapply reach_mono; [|exact Hreach2].
        intros u v Huv. unfold edge, g_edge, s3. simpl. apply add_edge_keeps. exact Huv.
      * unfold edge, g_edge, s3. simpl. apply add_edge_adds.
  - simpl. rewrite connect_nodes. rewrite Hn2. apply Hnodes1. exact Hpath.
Qed.

Lemma process_precursors_steps root tgt template path : forall precursors s s',
  (forall rl x, In rl precursors -> In x rl -> reactant (adapters s) x) ->
  In root path -> In tgt path -> expandable s root tgt ->
  _process_precursors s tgt template precursors path = Ok s' ->
  rtc step s s'.
Proof.
  unfold _process_precursors.
  induction precursors as [|rl rest IH]; intros s s' Hpre Hrpath Hpath Hexp H; simpl in H.
  - inversion H; subst. apply rtc_refl.
  - bind_inv H as s1 Hs1.
    assert (Hrl : forall x, In x rl -> reactant (adapters s) x)
      by (intros x Hx; apply (Hpre rl x); [left; reflexivity | exact Hx]).
    destruct (process_outcome_steps _ _ _ _ _ _ _ Hrl Hrpath Hpath Hexp Hs1) as [Hsteps Hn].
    eapply rtc_transitive_step; [exact Hsteps|].
    pose proof (rtc_step_frame _ _ Hsteps) as (_ & Had & Htg).
    apply IH; [| exact Hrpath | exact Hpath | | exact H].
    { intros rl' x Hrl' Hx. rewrite Had. apply (Hpre rl' x); [right; exact Hrl' | exact Hx]. }
    eapply expandable_keep; [exact Hexp | exact Htg | exact Hn |].
    apply rtc_step_succ. exact Hsteps.
Qed.

Lemma update_steps : forall items s s',
  fold_m update_step items s = Ok s' -> rtc step s s'.
Proof.
  induction items as [|item items IH]; intros s s' H; simpl in H.
  - inversion H; subst. apply rtc_refl.
  - bind_inv H as s1 Hs1. eapply rtc_transitive_step; [|apply IH; exact H].
    unfold update_step in Hs1. destruct (fst item) as [[i chem]|]; [|discriminate].
    bind_inv Hs1 as c Hc. bind_inv Hs1 as updated Hupd. destruct updated as [d s2].
    eapply rtc_l; [apply (step_visit s chem c i); exact Hc|].
    eapply rtc_l; [eapply step_done; exact Hupd|].
    destruct (snd item) as [rxn|].
    + eapply rtc_l; [eapply step_bump; exact Hs1 | apply rtc_refl].
    + inversion Hs1; subst. apply rtc_refl.
Qed.

(** What [_select] returns, in the state it ran in. *)
Lemma select_spec s chem_path rxn_path template :
  _select s = Ok (chem_path, rxn_path, template) ->
  exists root chems c,
    target s = Some root
    /\ chem_path = root :: chems
    /\ length rxn_path = length chems
    /\ List.NoDup (root :: chems)
    /\ descent s root rxn_path chems
    /\ chem_data s (last_or root chems) = Ok c
    /\ In template (dict_keys (templates c))
    /\ mem_Z template (explored c) = false
    /\ out_degree (tree s) (last_or root chems) < max_branching (config s).
Proof.
  unfold _select. destruct (target s) as [root|]; [|discriminate].
  intros H. apply select_loop_spec in H.
  - destruct H as (chems & c & H). exists root, chems, c. split; [reflexivity | exact H].
  - constructor; [intros [] | constructor].
  - reflexivity.
  - exact I.
Qed.

Lemma rollout_steps s s' : _rollout s = Ok s' -> rtc step s s'.
Proof.
  unfold _rollout. intros H. bind_inv H as selected Hsel.
  destruct selected as [[chem_path rxn_path] template]. simpl in H.
  bind_inv H as s1 Hexp.
  destruct (select_spec _ _ _ _ Hsel)
    as (root & chems & c & Hroot & -> & Hlen & Hnd & Hdesc & Hc & Hkey & Hnew & Hdeg).
  eapply rtc_transitive_step.
  - unfold _expand in Hexp. rewrite last_of_cons in Hexp. simpl in Hexp.
    rewrite Hc in Hexp. simpl in Hexp. rewrite Hnew in Hexp.
    assert (Hleaf : root = last_or root chems
                    \/ is_chemical_done s (last_or root chems) = Ok false).
    { destruct chems as [|c0 chems]; [left; reflexivity|].
      right. apply (descent_last_not_done _ _ _ _ Hdesc). discriminate. }
    eapply rtc_l.
    { apply (step_explore s (last_or root chems) c template); try assumption.
      destruct Hleaf as [Hl|Hl]; [left; congruence | right; exact Hl]. }
    refine (process_precursors_steps root (last_or root chems) template (root :: chems)
              _ _ _ _ (or_introl eq_refl) (last_or_in root chems) _ Hexp).
    { intros rl x Hrl Hx. unfold _get_precursors in Hrl.
      destruct (template_ok _ _); [|destruct Hrl].
      eexists. eexists. exists rl. split; [exact Hrl | exact Hx]. }
    split; [exact Hroot|]. split.
    + destruct Hleaf as [Hl|Hl]; [left; exact Hl|]. right.
      unfold is_chemical_done in *. rewrite chem_data_put_eq. rewrite Hc in Hl. exact Hl.
    + apply descent_reach in Hdesc. exact Hdesc.
  - unfold _update in H. destruct (negb _); [discriminate|].
    apply update_steps in H. exact H.
Qed.


(** ** Steps by their shape *)

Lemma step_shape s s' : step s s' -> shape s s'.
Proof.
  destruct 1.
  - eapply sh_chem; [eassumption|]. apply cw_explore; assumption.
  - unfold create_chemical_node in H1.
    pose proof (eq_refl (fresh_chemical s n)) as Hfc. unfold fresh_chemical at 2 in Hfc.
    destruct (predict _ _ _ _) as [probs indices]. cbv zeta in H1.
    cbn [fst snd] in Hfc. rewrite <- Hfc in H1. clear Hfc.
    bind_inv H1 as updated Hupd. destruct updated as [d s3]. inversion H1; subst s3.
    apply is_chemical_done_update_ok in Hupd. destruct Hupd as (c & Hc & Hd & ->).
    rewrite chem_data_put_eq in Hc. inversion Hc; subst c; clear Hc.
    rewrite put_node_put_node. apply (sh_create s n d H H0). exact Hd.
  - apply sh_new; assumption.
  - unfold merge_reaction in H0. bind_inv H0 as rd Hrd. inversion H0; subst s'.
    eapply sh_rxn; [exact Hrd|]. apply rw_merge. assumption.
  - eapply sh_edge_out; eassumption.
  - eapply sh_edge_in; eassumption.
  - eapply sh_chem; [eassumption|]. apply cw_visit.
  - apply is_chemical_done_update_ok in H. destruct H as (c & Hc & Hd & ->).
    eapply sh_chem; [exact Hc|]. apply cw_done. exact Hd.
  - unfold bump_visit_count in H.
    destruct (g_nodes (tree s) !! n) as [[c|r]|] eqn:Hn; inversion H; subst s'.
    + eapply sh_chem; [|apply cw_bump]. unfold chem_data. rewrite Hn. reflexivity.
    + eapply sh_rxn; [|apply rw_bump]. unfold rxn_data. rewrite Hn. reflexivity.
Qed.

Lemma nodes_put s n d m :
  g_nodes (tree (put_node s n d)) !! m
  = if decide (n = m) then Some d else g_nodes (tree s) !! m.
Proof.
  unfold put_node. simpl. destruct (decide (n = m)) as [->|Hne].
  - apply lookup_insert_eq.
  - apply lookup_insert_ne. exact Hne.
Qed.

Lemma chem_write_static s n c c' :
  chem_write s n c c' ->
  purchase_price c' = purchase_price c /\ templates c' = templates c
  /\ terminal c' = terminal c
  /\ reward_avg c' = reward_avg c /\ reward_tot c' = reward_tot c.
Proof. destruct 1; repeat split; reflexivity. Qed.

Lemma rxn_write_static s rid r r' :
  rxn_write s rid r r' ->
  rxn_reward_avg r' = rxn_reward_avg r /\ rxn_reward_tot r' = rxn_reward_tot r.
Proof. destruct 1; split; reflexivity. Qed.

Lemma add_edge_inv g a b u v :
  In v (successors (add_edge g a b) u) ->
  In v (successors g u) \/ (u = a /\ v = b).
Proof.
  unfold add_edge. destruct (mem_str b (successors g a)); [left; assumption|].
  unfold successors at 1. simpl. destruct (decide (a = u)) as [->|Hne].
  - rewrite lookup_insert_eq. simpl. intros Hin. apply in_app_or in Hin.
    destruct Hin as [Hin|[<-|[]]]; [left; exact Hin | right; split; reflexivity].
  - rewrite lookup_insert_ne by exact Hne. left. assumption.
Qed.

Lemma add_edge_other g a b u :
  a <> u -> successors (add_edge g a b) u = successors g u.
Proof.
  intros Hne. unfold add_edge. destruct (mem_str b (successors g a)); [reflexivity|].
  unfold successors at 1. simpl. rewrite lookup_insert_ne by exact Hne. reflexivity.
Qed.

Lemma fresh_chemical_frame s s' n :
  config s' = config s -> adapters s' = adapters s ->
  fresh_chemical s' n = fresh_chemical s n.
Proof.
  intros Hc Ha. unfold fresh_chemical, is_terminal. rewrite Hc, Ha. reflexivity.
Qed.

(** ** The registry *)

Lemma registry_put_chem s n c :
  registry s -> In n (chemicals s) -> (exists c0, chem_data s n = Ok c0) ->
  registry (put_node s n (Chemical c)).
Proof.
  intros [H1 H2 H3 H4 H5 H6 H7] Hin [c0 Hc0]. apply chem_data_inv in Hc0.
  split; try assumption.
  - intros m. rewrite nodes_put. destruct (decide (n = m)) as [<-|Hne]; [|apply H3].
    split; [intros _; left; exact Hin | intros _; eexists; reflexivity].
  - intros u v Huv. destruct (H4 u v Huv) as [Hu Hv]. rewrite !nodes_put.
    split; [destruct (decide (n = u)) | destruct (decide (n = v))];
      try assumption; eexists; reflexivity.
  - intros m c1. rewrite nodes_put. destruct (decide (n = m)) as [<-|Hne]; [|apply H5].
    intros _. exact Hin.
  - intros m r. rewrite nodes_put. destruct (decide (n = m)) as [<-|Hne]; [|apply H6].
    discriminate.
Qed.

Lemma registry_put_rxn s n r :
  registry s -> (exists r0, rxn_data s n = Ok r0) ->
  registry (put_node s n (Reaction r)).
Proof.
  intros [H1 H2 H3 H4 H5 H6 H7] [r0 Hr0]. apply rxn_data_inv in Hr0.
  pose proof (H6 _ _ Hr0) as Hin.
  split; try assumption.
  - intros m. rewrite nodes_put. destruct (decide (n = m)) as [<-|Hne]; [|apply H3].
    split; [intros _; right; exact Hin | intros _; eexists; reflexivity].
  - intros u v Huv. destruct (H4 u v Huv) as [Hu Hv]. rewrite !nodes_put.
    split; [destruct (decide (n = u)) | destruct (decide (n = v))];
      try assumption; eexists; reflexivity.
  - intros m c1. rewrite nodes_put. destruct (decide (n = m)) as [<-|Hne]; [|apply H5].
    discriminate.
  - intros m r1. rewrite nodes_put. destruct (decide (n = m)) as [<-|Hne]; [|apply H6].
    intros _. exact Hin.
Qed.

Lemma NoDup_snoc {A : Type} (l : list A) (x : A) :
  List.NoDup l -> ~ In x l -> List.NoDup (l ++ [x]).
Proof.
  intros Hnd Hx. apply List.NoDup_rev in Hnd.
  rewrite <- (rev_involutive (l ++ [x])). apply List.NoDup_rev.
  rewrite rev_app_distr. simpl. constructor; [|exact Hnd].
  rewrite <- in_rev. exact Hx.
Qed.

Lemma registry_new_chem s n c :
  registry s -> ~ In n (chemicals s) ->
  registry (put_node (with_chemicals (chemicals s ++ [n]) s) n (Chemical c)).
Proof.
  intros [H1 H2 H3 H4 H5 H6 H7] Hn.
  split.
  - simpl. apply NoDup_snoc; assumption.
  - exact H2.
  - intros m. rewrite nodes_put. simpl. rewrite in_app_iff. simpl.
    destruct (decide (n = m)) as [<-|Hne].
    + split; [intros _; left; right; left; reflexivity | intros _; eexists; reflexivity].
    + rewrite H3. tauto.
  - intros u v Huv. destruct (H4 u v Huv) as [Hu Hv]. rewrite !nodes_put. simpl.
    split; [destruct (decide (n = u)) | destruct (decide (n = v))];
      try assumption; eexists; reflexivity.
  - intros m c1. rewrite nodes_put. simpl. rewrite in_app_iff. simpl.
    destruct (decide (n = m)) as [<-|Hne]; [tauto|].
    intros Hm. left. eapply H5. exact Hm.
  - intros m r. rewrite nodes_put. simpl.
    destruct (decide (n = m)) as [<-|Hne]; [discriminate | apply H6].
  - intros r Hr. simpl. apply in_or_app. left. apply H7. exact Hr.
Qed.

Lemma registry_new_rxn s n r :
  registry s -> ~ In n (reactions s) ->
  registry (put_node (with_reactions (reactions s ++ [n]) s) n (Reaction r)).
Proof.
  intros [H1 H2 H3 H4 H5 H6 H7] Hn.
  split.
  - exact H1.
  - simpl. apply NoDup_snoc; assumption.
  - intros m. rewrite nodes_put. simpl. rewrite in_app_iff. simpl.
    destruct (decide (n = m)) as [<-|Hne].
    + split; [intros _; right; right; left; reflexivity | intros _; eexists; reflexivity].
    + rewrite H3. tauto.
  - intros u v Huv. destruct (H4 u v Huv) as [Hu Hv]. rewrite !nodes_put. simpl.
    split; [destruct (decide (n = u)) | destruct (decide (n = v))];
      try assumption; eexists; reflexivity.
  - intros m c1. rewrite nodes_put. simpl.
    destruct (decide (n = m)) as [<-|Hne]; [discriminate | apply H5].
  - intros m r1. rewrite nodes_put. simpl. rewrite in_app_iff. simpl.
    destruct (decide (n = m)) as [<-|Hne]; [tauto|].
    intros Hm. left. eapply H6. exact Hm.
  - exact H7.
Qed.

Lemma registry_add_edge s u v :
  registry s -> is_Some (g_nodes (tree s) !! u) -> is_Some (g_nodes (tree s) !! v) ->
  registry (with_tree (add_edge (tree s) u v) s).
Proof.
  intros [H1 H2 H3 H4 H5 H6 H7] Hu Hv. split; simpl; try assumption.
  - intros m. rewrite add_edge_nodes. apply H3.
  - intros a b Hab. rewrite add_edge_nodes. unfold edge, g_edge in Hab. simpl in Hab.
    apply add_edge_inv in Hab. destruct Hab as [Hab|[-> ->]];
      [apply H4; exact Hab | split; assumption].
  - intros m c. rewrite add_edge_nodes. apply H5.
  - intros m r. rewrite add_edge_nodes. apply H6.
Qed.

Lemma registry_shape s s' : registry s -> shape s s' -> registry s'.
Proof.
  intros Hr Hs. destruct Hs.
  - apply registry_put_chem; [exact Hr | | eauto].
    eapply reg_chem; [exact Hr|]. apply chem_data_inv. eassumption.
  - apply registry_new_chem; [exact Hr | apply mem_str_false; assumption].
  - unfold new_reaction. apply registry_new_rxn; [exact Hr | apply mem_str_false; assumption].
  - apply registry_put_rxn; eauto.
  - apply registry_add_edge; [exact Hr | |].
    + rewrite (chem_data_inv _ _ _ H). eexists; reflexivity.
    + rewrite (rxn_data_inv _ _ _ H0). eexists; reflexivity.
  - apply registry_add_edge; [exact Hr | |].
    + rewrite (rxn_data_inv _ _ _ H). eexists; reflexivity.
    + apply (reg_nodes s Hr). left. assumption.
Qed.

(** ** Rewards *)

Lemma rewards_zero_shape s s' : rewards_zero s -> shape s s' -> rewards_zero s'.
Proof.
  intros Hz Hs m. destruct Hs.
  - rewrite nodes_put. destruct (decide (n = m)) as [<-|Hne]; [|apply Hz].
    specialize (Hz n). rewrite (chem_data_inv _ _ _ H) in Hz.
    destruct (chem_write_static _ _ _ _ H0) as (_ & _ & _ & -> & ->). exact Hz.
  - rewrite nodes_put. destruct (decide (n = m)) as [<-|Hne]; [|apply Hz].
    split; reflexivity.
  - unfold new_reaction. rewrite nodes_put.
    destruct (decide (rid = m)) as [<-|Hne]; [|apply Hz]. split; reflexivity.
  - rewrite nodes_put. destruct (decide (rid = m)) as [<-|Hne]; [|apply Hz].
    specialize (Hz rid). rewrite (rxn_data_inv _ _ _ H) in Hz.
    destruct (rxn_write_static _ _ _ _ H0) as (-> & ->). exact Hz.
  - simpl. rewrite add_edge_nodes. apply Hz.
  - simpl. rewrite add_edge_nodes. apply Hz.
Qed.

(** ** Explored templates *)

Lemma mem_Z_false x l : mem_Z x l = false -> ~ In x l.
Proof.
  unfold mem_Z. intros H Hin.
  assert (Ht : existsb (Z.eqb x) l = true).
  { apply existsb_exists. exists x. split; [exact Hin | apply Z.eqb_refl]. }
  congruence.
Qed.

Lemma dict_set_keys {V : Type} (k : Z) (v : V) : forall d x,
  In x (dict_keys (dict_set k v d)) -> x = k \/ In x (dict_keys d).
Proof.
  induction d as [|[k' v'] d IH]; intros x Hin; simpl in *.
  - destruct Hin as [<-|[]]. left. reflexivity.
  - destruct (k =? k')%Z eqn:Hk; simpl in Hin.
    + destruct Hin as [<-|Hin]; [left; reflexivity | right; right; exact Hin].
    + destruct Hin as [<-|Hin]; [right; left; reflexivity|].
      destruct (IH _ Hin) as [->|H]; [left; reflexivity | right; right; exact H].
Qed.

Lemma dict_set_NoDup {V : Type} (k : Z) (v : V) : forall d,
  List.NoDup (dict_keys d) -> List.NoDup (dict_keys (dict_set k v d)).
Proof.
  induction d as [|[k' v'] d IH]; intros Hnd; simpl in *.
  - constructor; [intros [] | constructor].
  - inversion Hnd as [|? ? Hnot Hnd']; subst.
    destruct (k =? k')%Z eqn:Hk; simpl.
    + apply Z.eqb_eq in Hk. subst k'. constructor; assumption.
    + constructor; [|apply IH; exact Hnd'].
      intros Hin. apply dict_set_keys in Hin. destruct Hin as [->|Hin].
      * rewrite Z.eqb_refl in Hk. discriminate.
      * contradiction.
Qed.

Lemma dict_of_pairs_NoDup {V : Type} (pairs : list (Z * V)) :
  List.NoDup (dict_keys (dict_of_pairs pairs)).
Proof.
  unfold dict_of_pairs.
  assert (H : forall l (d : list (Z * V)), List.NoDup (dict_keys d) ->
            List.NoDup (dict_keys (fold_left (fun d kv => dict_set (fst kv) (snd kv) d) l d))).
  { induction l as [|kv l IH]; intros d Hd; simpl; [exact Hd|].
    apply IH. apply dict_set_NoDup. exact Hd. }
  apply H. simpl. constructor.
Qed.

Lemma explored_ok_shape s s' : explored_ok s -> shape s s' -> explored_ok s'.
Proof.
  intros He Hs m c1. destruct Hs.
  - rewrite nodes_put. destruct (decide (n = m)) as [<-|Hne]; [|apply He].
    intros Heq. inversion Heq; subst c1; clear Heq.
    destruct (He n c (chem_data_inv _ _ _ H)) as (Hnd & Hincl & Hk).
    destruct H0; simpl; repeat split; try assumption.
    + apply NoDup_snoc; [exact Hnd | apply mem_Z_false; assumption].
    + intros x Hx. apply in_app_or in Hx. destruct Hx as [Hx|[<-|[]]];
        [apply Hincl; exact Hx | assumption].
  - rewrite nodes_put. destruct (decide (n = m)) as [<-|Hne]; [|apply He].
    intros Heq. inversion Heq; subst c1; clear Heq. simpl.
    split; [constructor|]. split; [intros x []|]. apply dict_of_pairs_NoDup.
  - unfold new_reaction. rewrite nodes_put.
    destruct (decide (rid = m)) as [<-|Hne]; [discriminate | apply He].
  - rewrite nodes_put.
    destruct (decide (rid = m)) as [<-|Hne]; [discriminate | apply He].
  - simpl. rewrite add_edge_nodes. apply He.
  - simpl. rewrite add_edge_nodes. apply He.
Qed.

(** ** Attributes fixed at creation *)

Lemma attrs_ok_shape s s' : registry s -> attrs_ok s -> shape s s' -> attrs_ok s'.
Proof.
  intros Hr Ha Hs m c1. destruct Hs.
  - rewrite nodes_put. destruct (decide (n = m)) as [<-|Hne]; [|apply Ha].
    intros Heq. inversion Heq; subst c1; clear Heq.
    destruct (chem_write_static _ _ _ _ H0) as (-> & -> & -> & _).
    apply (Ha n c). apply chem_data_inv. exact H.
  - rewrite nodes_put. destruct (decide (n = m)) as [<-|Hne]; [|apply Ha].
    intros Heq. inversion Heq; subst c1; clear Heq.
    split; [reflexivity|]. split; [reflexivity|]. split; [|reflexivity].
    simpl. intros Ht. apply (reg_target s Hr) in Ht.
    apply mem_str_false in H0. contradiction.
  - unfold new_reaction. rewrite nodes_put.
    destruct (decide (rid = m)) as [<-|Hne]; [discriminate | apply Ha].
  - rewrite nodes_put.
    destruct (decide (rid = m)) as [<-|Hne]; [discriminate | apply Ha].
  - simpl. rewrite add_edge_nodes. apply Ha.
  - simpl. rewrite add_edge_nodes. apply Ha.
Qed.

(** ** Terminal chemicals *)

Lemma compute_done_terminal s n c d :
  truthy (terminal c) = true -> compute_done s n c = Ok d -> d = true.
Proof.
  unfold compute_done. intros ->. intros H. inversion H. reflexivity.
Qed.

Lemma not_expandable_terminal s n c :
  attrs_ok s -> terminal_leaf s ->
  g_nodes (tree s) !! n = Some (Chemical c) ->
  ~ In n (reactions s) -> truthy (terminal c) = true ->
  ~ (target s = Some n \/ is_chemical_done s n = Ok false).
Proof.
  intros Ha Ht Hn Hnr Htr [Htg|Hd].
  - destruct (Ha n c Hn) as (_ & _ & Hroot & _). rewrite (Hroot Htg) in Htr. discriminate.
  - destruct (Ht n c Hn Hnr Htr) as (Hdone & _).
    unfold is_chemical_done, chem_data in Hd. rewrite Hn in Hd. simpl in Hd.
    rewrite Hdone in Hd. discriminate.
Qed.

Lemma terminal_leaf_shape s s' :
  registry s -> attrs_ok s -> terminal_leaf s -> shape s s' -> terminal_leaf s'.
Proof.
  intros Hr Ha Ht Hs m c1. destruct Hs.
  - rewrite nodes_put. destruct (decide (n = m)) as [<-|Hne]; [|apply Ht].
    intros Heq Hnr Htr. inversion Heq; subst c1; clear Heq.
    pose proof (chem_data_inv _ _ _ H) as Hn.
    destruct (chem_write_static _ _ _ _ H0) as (_ & _ & Hterm & _).
    rewrite Hterm in Htr.
    destruct (Ht n c Hn Hnr Htr) as (Hd & Hsucc & Hex).
    destruct H0; simpl.
    + exfalso. eapply not_expandable_terminal; eassumption.
    + repeat split; assumption.
    + rewrite (compute_done_terminal _ _ _ _ Htr H0). repeat split; assumption.
    + repeat split; assumption.
  - rewrite nodes_put. destruct (decide (n = m)) as [<-|Hne]; [|apply Ht].
    intros Heq Hnr Htr. inversion Heq; subst c1; clear Heq.
    change (truthy (terminal (fresh_chemical s n)) = true) in Htr.
    rewrite (compute_done_terminal _ _ _ _ Htr H1). simpl in Hnr |- *.
    split; [reflexivity|]. split; [|reflexivity].
    change (successors (tree s) n = []).
    destruct (successors (tree s) n) as [|v l] eqn:Hsucc; [reflexivity|].
    exfalso. assert (He : edge s n v) by (unfold edge, g_edge; rewrite Hsucc; left; reflexivity).
    apply (reg_edges s Hr) in He. destruct He as [Hn _].
    apply (reg_nodes s Hr) in Hn. apply mem_str_false in H0. tauto.
  - unfold new_reaction. rewrite nodes_put.
    destruct (decide (rid = m)) as [<-|Hne]; [discriminate|].
    intros Hn Hnr. apply Ht; [exact Hn|]. simpl in Hnr.
    intros Hin. apply Hnr. apply in_or_app. left. exact Hin.
  - rewrite nodes_put.
    destruct (decide (rid = m)) as [<-|Hne]; [discriminate | apply Ht].
  - simpl. rewrite add_edge_nodes. intros Hn Hnr Htr.
    destruct (decide (u = m)) as [<-|Hne].
    + exfalso. eapply not_expandable_terminal; eassumption.
    + rewrite add_edge_other by exact Hne. apply Ht; assumption.
  - simpl. rewrite add_edge_nodes. intros Hn Hnr Htr.
    destruct (decide (rid = m)) as [<-|Hne].
    + rewrite (rxn_data_inv _ _ _ H) in Hn. discriminate.
    + rewrite add_edge_other by exact Hne. apply Ht; assumption.
Qed.

(** ** Reachability *)

Lemma parents_reachable_shape s s' :
  parents_reachable s -> shape s s' -> parents_reachable s'.
Proof.
  intros Hp Hs. destruct Hs; try exact Hp.
  - intros root' Ht a b Hab. simpl in Ht.
    assert (Hsub : forall x y, edge s x y -> edge (with_tree (add_edge (tree s) u rid) s) x y).
    { intros x y Hxy. unfold edge, g_edge. simpl. apply add_edge_keeps. exact Hxy. }
    unfold edge, g_edge in Hab. simpl in Hab. apply add_edge_inv in Hab.
    destruct Hab as [Hab|[-> ->]].
    + eapply reach_mono; [exact Hsub|]. eapply Hp; eassumption.
    + eapply reach_mono; [exact Hsub|]. congruence.
  - intros root' Ht a b Hab. simpl in Ht.
    assert (Hsub : forall x y, edge s x y -> edge (with_tree (add_edge (tree s) rid v) s) x y).
    { intros x y Hxy. unfold edge, g_edge. simpl. apply add_edge_keeps. exact Hxy. }
    unfold edge, g_edge in Hab. simpl in Hab. apply add_edge_inv in Hab.
    destruct Hab as [Hab|[-> ->]].
    + eapply reach_mono; [exact Hsub|]. eapply Hp; eassumption.
    + eapply reach_mono; [exact Hsub|]. congruence.
Qed.

Lemma root_no_parent_shape s s' :
  registry s -> root_no_parent s -> shape s s' -> root_no_parent s'.
Proof.
  intros Hr Hp Hs root' c1 Ht. destruct Hs.
  - rewrite nodes_put. destruct (decide (n = root')) as [<-|Hne].
    + intros _. apply (Hp n c Ht). apply chem_data_inv. exact H.
    + apply (Hp root' c1 Ht).
  - rewrite nodes_put. destruct (decide (n = root')) as [<-|Hne].
    + simpl in Ht. apply (reg_target s Hr) in Ht. apply mem_str_false in H0. contradiction.
    + apply (Hp root' c1 Ht).
  - unfold new_reaction. rewrite nodes_put.
    destruct (decide (rid = root')) as [<-|Hne]; [discriminate | apply (Hp root' c1 Ht)].
  - rewrite nodes_put.
    destruct (decide (rid = root')) as [<-|Hne]; [discriminate | apply (Hp root' c1 Ht)].
  - simpl. rewrite add_edge_nodes. intros Hn a Hab.
    unfold edge, g_edge in Hab. simpl in Hab. apply add_edge_inv in Hab.
    destruct Hab as [Hab|[-> ->]]; [exact (Hp root' c1 Ht Hn a Hab)|].
    rewrite (rxn_data_inv _ _ _ H0) in Hn. discriminate.
  - simpl. rewrite add_edge_nodes. intros Hn a Hab.
    unfold edge, g_edge in Hab. simpl in Hab. apply add_edge_inv in Hab.
    destruct Hab as [Hab|[-> ->]]; [exact (Hp root' c1 Ht Hn a Hab)|].
    simpl in Ht. congruence.
Qed.

(** ** All of them *)

Lemma inv_shape s s' : inv s -> shape s s' -> inv s'.
Proof.
  intros [H1 H2 H3 H4 H5 H6 H7] Hs. split.
  - eapply registry_shape; eassumption.
  - eapply rewards_zero_shape; eassumption.
  - eapply explored_ok_shape; eassumption.
  - eapply attrs_ok_shape; eassumption.
  - eapply terminal_leaf_shape; eassumption.
  - eapply parents_reachable_shape; eassumption.
  - eapply root_no_parent_shape; eassumption.
Qed.

Lemma inv_steps s s' : rtc step s s' -> inv s -> inv s'.
Proof.
  induction 1 as [|s s1 s2 H1 _ IH]; intros Hi; [exact Hi|].
  apply IH. eapply inv_shape; [exact Hi | apply step_shape; exact H1].
Qed.

(** ** The state after initialisation *)

Lemma initialize_state cfg ad tgt s :
  _initialize (MCTS_init cfg ad) tgt = Ok s ->
  exists c,
    s = Engine cfg ad (Graph (<[tgt := Chemical c]> ∅) ∅) (Some tgt) [tgt] []
    /\ c = set_visit_count 1
             (set_done (Some false)
                (set_terminal (PyBool false)
                   (fresh_chemical (MCTS_init cfg ad) tgt))).
Proof.
  unfold _initialize. intros H. bind_inv H as s1 Hs1. bind_inv H as c Hc.
  inversion H; subst s; clear H.
  unfold create_chemical_node in Hs1.
  pose proof (eq_refl (fresh_chemical (MCTS_init cfg ad) tgt)) as Hfc.
  unfold fresh_chemical at 2 in Hfc. simpl in Hs1, Hfc.
  destruct (predict _ _ _ _) as [probs indices].
  cbn [fst snd] in Hfc.
  bind_inv Hs1 as updated Hupd. destruct updated as [d s3]. inversion Hs1; subst s3.
  apply is_chemical_done_update_ok in Hupd. destruct Hupd as (c0 & Hc0 & Hd & ->).
  rewrite chem_data_put_eq in Hc0. inversion Hc0; subst c0; clear Hc0.
  rewrite chem_data_put_eq in Hc. inversion Hc; subst c; clear Hc.
  eexists. split; [|reflexivity].
  rewrite !put_node_put_node. unfold put_node, with_tree, add_node. simpl.
  rewrite Hfc. reflexivity.
Qed.

Lemma inv_initialize cfg ad tgt s :
  _initialize (MCTS_init cfg ad) tgt = Ok s ->
  inv s /\ config s = cfg /\ adapters s = ad /\ target s = Some tgt
  /\ exists c, chem_data s tgt = Ok c.
Proof.
  intros H. apply initialize_state in H. destruct H as (c & -> & Hc).
  assert (Hnode : forall m c1,
            (<[tgt := Chemical c]> (∅ : gmap string node)) !! m = Some (Chemical c1) ->
            m = tgt /\ c1 = c).
  { intros m c1 Hm. destruct (decide (tgt = m)) as [<-|Hne].
    - rewrite lookup_insert_eq in Hm. inversion Hm. split; reflexivity.
    - rewrite lookup_insert_ne in Hm by exact Hne. rewrite lookup_empty in Hm. discriminate. }
  assert (Hedge : forall u v,
            ~ edge (Engine cfg ad (Graph (<[tgt := Chemical c]> ∅) ∅) (Some tgt) [tgt] []) u v).
  { intros u v. unfold edge, g_edge, successors. simpl. rewrite lookup_empty. simpl. tauto. }
  split; [|repeat split; try reflexivity;
            exists c; unfold chem_data; simpl; rewrite lookup_insert_eq; reflexivity].
  split.
  - split; simpl.
    + constructor; [intros [] | constructor].
    + constructor.
    + intros m. destruct (decide (tgt = m)) as [<-|Hne].
      * rewrite lookup_insert_eq. split; [intros _; left; left; reflexivity|].
        intros _. eexists; reflexivity.
      * rewrite lookup_insert_ne by exact Hne. rewrite lookup_empty.
        split; [intros [x Hx]; discriminate|]. intros [[Hm|[]]|[]]. contradiction.
    + intros u v Huv. destruct (Hedge u v Huv).
    + intros m c1 Hm. apply Hnode in Hm. destruct Hm as [-> _]. left. reflexivity.
    + intros m r Hm. destruct (decide (tgt = m)) as [<-|Hne].
      * rewrite lookup_insert_eq in Hm. discriminate.
      * rewrite lookup_insert_ne in Hm by exact Hne. rewrite lookup_empty in Hm. discriminate.
    + intros r Hr. inversion Hr. left. reflexivity.
  - intros m. simpl. destruct (decide (tgt = m)) as [<-|Hne].
    + rewrite lookup_insert_eq. subst c. split; reflexivity.
    + rewrite lookup_insert_ne by exact Hne. rewrite lookup_empty. exact I.
  - intros m c1 Hm. simpl in Hm. apply Hnode in Hm. destruct Hm as [-> ->]. subst c. simpl.
    split; [constructor|]. split; [intros x []|]. apply dict_of_pairs_NoDup.
  - intros m c1 Hm. simpl in Hm. apply Hnode in Hm. destruct Hm as [-> ->]. subst c.
    split; [reflexivity|]. split; [reflexivity|]. split; [reflexivity|].
    simpl. intros Hne. congruence.
  - intros m c1 Hm _ Htr. simpl in Hm. apply Hnode in Hm. destruct Hm as [-> ->].
    subst c. simpl in Htr. discriminate.
  - intros root _ u v Huv. destruct (Hedge u v Huv).
  - intros root c1 _ _ u Hu. destruct (Hedge u root Hu).
Qed.

(** ** The root after a rollout *)

Lemma fold_m_app {A B : Type} (f : A -> B -> result A) : forall l1 l2 a,
  fold_m f (l1 ++ l2) a = (a' <- fold_m f l1 a ;; fold_m f l2 a').
Proof.
  induction l1 as [|x l1 IH]; intros l2 a; simpl; [reflexivity|].
  destruct (f a x) as [a1|e]; simpl; [apply IH | reflexivity].
Qed.

Lemma combine_snoc {A B : Type} : forall (l1 : list A) (l2 : list B) x y,
  length l1 = length l2 ->
  combine (l1 ++ [x]) (l2 ++ [y]) = combine l1 l2 ++ [(x, y)].
Proof.
  induction l1 as [|a l1 IH]; intros [|b l2] x y Hlen; simpl in *; try discriminate;
    [reflexivity|]. f_equal. apply IH. lia.
Qed.

Lemma zip_longest_snoc {A B : Type} : forall (l1 : list A) (l2 : list B) x,
  length l1 = length l2 ->
  zip_longest (l1 ++ [x]) l2 = zip_longest l1 l2 ++ [(Some x, None)].
Proof.
  induction l1 as [|a l1 IH]; intros [|b l2] x Hlen; simpl in *; try discriminate;
    [reflexivity|]. f_equal. apply IH. lia.
Qed.

Lemma update_items (root : string) (chems rxn_path : list string) :
  length rxn_path = length chems ->
  zip_longest (combine (rev (seq 0 (length (root :: chems)))) (rev (root :: chems)))
              (rev rxn_path)
  = zip_longest (combine (rev (seq 1 (length chems))) (rev chems)) (rev rxn_path)
    ++ [(Some (0, root), None)].
Proof.
  intros Hlen. simpl.
  rewrite combine_snoc by (rewrite !length_rev, length_seq; reflexivity).
  apply zip_longest_snoc.
  rewrite length_combine, !length_rev, length_seq. lia.
Qed.

Lemma update_root s root chems rxn_path s' :
  length rxn_path = length chems ->
  _update s (root :: chems) rxn_path = Ok s' ->
  exists c, chem_data s' root = Ok c /\ min_depth c = Some 0.
Proof.
  intros Hlen H. unfold _update in H. destruct (negb _); [discriminate|].
  rewrite (update_items _ _ _ Hlen) in H. rewrite fold_m_app in H.
  bind_inv H as s1 Hs1. simpl in H. bind_inv H as s2 Hs2. inversion H; subst s2; clear H.
  unfold update_step in Hs2. simpl in Hs2.
  bind_inv Hs2 as c Hc. bind_inv Hs2 as updated Hupd. destruct updated as [d s3].
  inversion Hs2; subst s3; clear Hs2.
  apply is_chemical_done_update_ok in Hupd. destruct Hupd as (c0 & Hc0 & _ & ->).
  rewrite chem_data_put_eq in Hc0. inversion Hc0; subst c0; clear Hc0.
  eexists. split; [apply chem_data_put_eq|]. simpl.
  destruct (min_depth c) as [d0|]; [|reflexivity]. rewrite Nat.min_0_r. reflexivity.
Qed.

Lemma rollout_root s s' root :
  target s = Some root -> _rollout s = Ok s' ->
  exists c, chem_data s' root = Ok c /\ min_depth c = Some 0.
Proof.
  intros Ht H. unfold _rollout in H. bind_inv H as selected Hsel.
  destruct selected as [[chem_path rxn_path] template]. simpl in H.
  bind_inv H as s1 Hexp.
  destruct (select_spec _ _ _ _ Hsel)
    as (root' & chems & c & Hroot & -> & Hlen & _).
  assert (root' = root) by congruence. subst root'.
  eapply update_root; eassumption.
Qed.


Lemma engine_after_inv cfg ad tgt : forall n s,
  engine_after cfg ad tgt n = Ok s ->
  inv s /\ config s = cfg /\ adapters s = ad /\ target s = Some tgt
  /\ exists c, chem_data s tgt = Ok c.
Proof.
  unfold engine_after. induction n as [|n IH]; intros s H; simpl in H.
  - bind_inv H as s0 Hs0. inversion H; subst. apply inv_initialize. exact Hs0.
  - bind_inv H as s0 Hs0. bind_inv H as s1 Hs1.
    assert (He : (s0' <- _initialize (MCTS_init cfg ad) tgt ;; run_rollouts n s0') = Ok s1)
      by (rewrite Hs0; exact Hs1).
    destruct (IH s1 He) as (Hi & Hc & Ha & Ht & _).
    pose proof (rollout_steps _ _ H) as Hsteps.
    pose proof (rtc_step_frame _ _ Hsteps) as (Hc' & Ha' & Ht').
    split; [eapply inv_steps; eassumption|].
    repeat split; try congruence.
    destruct (rollout_root _ _ _ Ht H) as (c & Hcd & _). exists c. exact Hcd.
Qed.

(** X1.  What [_select] returns: a path that starts at the target, meets no
    chemical twice and goes down through reactions and chemicals that are
    not done; and a template of the last chemical that was not applied to it
    yet, this chemical being below the branching cap. *)
Theorem select_returns_untried_template s chem_path rxn_path template
    (H : _select s = Ok (chem_path, rxn_path, template)) :
  exists root chems c,
    target s = Some root
    /\ chem_path = root :: chems
    /\ length rxn_path = length chems
    /\ List.NoDup chem_path
    /\ descent s root rxn_path chems
    /\ chem_data s (last_or root chems) = Ok c
    /\ In template (dict_keys (templates c))
    /\ mem_Z template (explored c) = false
    /\ out_degree (tree s) (last_or root chems) < max_branching (config s).
Proof.
  destruct (select_spec _ _ _ _ H)
    as (root & chems & c & H1 & H2 & H3 & H4 & H5 & H6 & H7 & H8 & H9).
  exists root, chems, c. subst chem_path. repeat split; assumption.
Qed.

Lemma select_returns_untried_template_witness :
  _select two_templates_state = Ok (["X"], [], 8%Z)
  /\ exists root chems c,
       target two_templates_state = Some root
       /\ ["X"] = root :: chems
       /\ length (@nil string) = length chems
       /\ List.NoDup ["X"]
       /\ descent two_templates_state root [] chems
       /\ chem_data two_templates_state (last_or root chems) = Ok c
       /\ In 8%Z (dict_keys (templates c))
       /\ mem_Z 8%Z (explored c) = false
       /\ out_degree (tree two_templates_state) (last_or root chems)
          < max_branching (config two_templates_state).
Proof.
  assert (H : _select two_templates_state = Ok (["X"], [], 8%Z))
    by (vm_compute; reflexivity).
  split; [exact H|].
  exact (select_returns_untried_template _ _ _ _ H).
Defined.

(** X2.  The two registries and the graph agree in every state a new engine
    reaches: no identifier is registered twice, the nodes of the graph are
    the registered identifiers, a chemical node is a registered chemical and
    a reaction node a registered reaction, both ends of every edge are nodes,
    and the target is a registered chemical. *)
Theorem registries_match_graph cfg ad tgt n s
    (H : engine_after cfg ad tgt n = Ok s) :
  List.NoDup (chemicals s) /\ List.NoDup (reactions s)
  /\ (forall m, is_Some (g_nodes (tree s) !! m)
                <-> In m (chemicals s) \/ In m (reactions s))
  /\ (forall m c, chem_data s m = Ok c -> In m (chemicals s))
  /\ (forall m r, rxn_data s m = Ok r -> In m (reactions s))
  /\ (forall u v, edge s u v ->
        is_Some (g_nodes (tree s) !! u) /\ is_Some (g_nodes (tree s) !! v))
  /\ In tgt (chemicals s).
Proof.
  destruct (engine_after_inv _ _ _ _ _ H) as ([Hr _ _ _ _ _ _] & _ & _ & Ht & _).
  destruct Hr as [H1 H2 H3 H4 H5 H6 H7].
  split; [exact H1|]. split; [exact H2|]. split; [exact H3|].
  split; [intros m c Hc; eapply H5; apply chem_data_inv; exact Hc|].
  split; [intros m r Hr; eapply H6; apply rxn_data_inv; exact Hr|].
  split; [exact H4|]. apply H7. exact Ht.
Qed.

Lemma registries_match_graph_witness :
  exists s,
    engine_after default_config ad_two_templates "X" 2 = Ok s
    /\ List.NoDup (chemicals s) /\ List.NoDup (reactions s)
    /\ (forall m, is_Some (g_nodes (tree s) !! m)
                  <-> In m (chemicals s) \/ In m (reactions s))
    /\ (forall m c, chem_data s m = Ok c -> In m (chemicals s))
    /\ (forall m r, rxn_data s m = Ok r -> In m (reactions s))
    /\ (forall u v, edge s u v ->
          is_Some (g_nodes (tree s) !! u) /\ is_Some (g_nodes (tree s) !! v))
    /\ In "X" (chemicals s).
Proof.
  eexists.
  match goal with
  | |- ?P /\ _ => assert (H : P) by (vm_compute; reflexivity)
  end.
  split; [exact H|].
  exact (registries_match_graph _ _ _ _ _ H).
Defined.

(** X3.  No reward is ever recorded: in every state a new engine reaches,
    [reward_avg] and [reward_tot] of every chemical and of every reaction
    are the 0.0 they were created with. *)
Theorem rewards_stay_zero cfg ad tgt n s
    (H : engine_after cfg ad tgt n = Ok s) :
  (forall m c, chem_data s m = Ok c ->
     reward_avg c = 0%float /\ reward_tot c = 0%float)
  /\ (forall m r, rxn_data s m = Ok r ->
        rxn_reward_avg r = 0%float /\ rxn_reward_tot r = 0%float).
Proof.
  destruct (engine_after_inv _ _ _ _ _ H) as ([_ Hz _ _ _ _ _] & _).
  split.
  - intros m c Hc. specialize (Hz m). rewrite (chem_data_inv _ _ _ Hc) in Hz. exact Hz.
  - intros m r Hr. specialize (Hz m). rewrite (rxn_data_inv _ _ _ Hr) in Hz. exact Hz.
Qed.

Lemma rewards_stay_zero_witness :
  exists s,
    engine_after default_config ad_two_templates "X" 2 = Ok s
    /\ (forall m c, chem_data s m = Ok c ->
          reward_avg c = 0%float /\ reward_tot c = 0%float)
    /\ (forall m r, rxn_data s m = Ok r ->
          rxn_reward_avg r = 0%float /\ rxn_reward_tot r = 0%float).
Proof.
  eexists.
  match goal with
  | |- ?P /\ _ => assert (H : P) by (vm_compute; reflexivity)
  end.
  split; [exact H|].
  exact (rewards_stay_zero _ _ _ _ _ H).
Defined.

(** X4.  The templates recorded as explored on a chemical are templates that
    were predicted for it, each recorded once; there are never more of them
    than predicted templates. *)
Theorem explored_within_templates cfg ad tgt n s
    (H : engine_after cfg ad tgt n = Ok s) :
  forall m c, chem_data s m = Ok c ->
    List.NoDup (explored c)
    /\ (forall t, In t (explored c) -> In t (dict_keys (templates c)))
    /\ length (explored c) <= length (templates c).
Proof.
  destruct (engine_after_inv _ _ _ _ _ H) as ([_ _ He _ _ _ _] & _).
  intros m c Hc. destruct (He m c (chem_data_inv _ _ _ Hc)) as (Hnd & Hincl & _).
  split; [exact Hnd|]. split; [exact Hincl|].
  pose proof (List.NoDup_incl_length Hnd Hincl) as Hlen.
  unfold dict_keys in Hlen. rewrite length_map in Hlen. exact Hlen.
Qed.

Lemma explored_within_templates_witness :
  exists s,
    engine_after default_config ad_two_templates "X" 2 = Ok s
    /\ forall m c, chem_data s m = Ok c ->
         List.NoDup (explored c)
         /\ (forall t, In t (explored c) -> In t (dict_keys (templates c)))
         /\ length (explored c) <= length (templates c).
Proof.
  eexists.
  match goal with
  | |- ?P /\ _ => assert (H : P) by (vm_compute; reflexivity)
  end.
  split; [exact H|].
  exact (explored_within_templates _ _ _ _ _ H).
Defined.

(** X5.  The attributes a chemical gets from the collaborators never change:
    in every state a new engine reaches, [purchase_price] is what the pricer
    quotes for the identifier, [templates] is the dictionary made of the
    prediction for it, and [terminal] is the value of [is_terminal], except
    on the target, where it is [False]. *)
Theorem chemical_attributes_fixed cfg ad tgt n s
    (H : engine_after cfg ad tgt n = Ok s) :
  forall m c, chem_data s m = Ok c ->
    purchase_price c = lookup_smiles ad m
    /\ templates c
       = dict_of_pairs
           (combine (snd (predict ad m (template_max_count cfg) (template_max_cum_prob cfg)))
                    (fst (predict ad m (template_max_count cfg) (template_max_cum_prob cfg))))
    /\ terminal c = if String.eqb m tgt then PyBool false
                    else is_terminal s m (lookup_smiles ad m).
Proof.
  destruct (engine_after_inv _ _ _ _ _ H) as ([_ _ _ Ha _ _ _] & Hcfg & Had & Ht & _).
  intros m c Hc. destruct (Ha m c (chem_data_inv _ _ _ Hc)) as (Hp & Htpl & Hroot & Hother).
  unfold fresh_chemical in Hp, Htpl, Hother. simpl in Hp, Htpl, Hother.
  rewrite Hcfg, Had in Htpl. rewrite Had in Hp, Hother.
  split; [exact Hp|]. split; [exact Htpl|].
  destruct (String.eqb_spec m tgt) as [->|Hne].
  - apply Hroot. exact Ht.
  - apply Hother. rewrite Ht. congruence.
Qed.

Lemma chemical_attributes_fixed_witness :
  exists s,
    engine_after default_config ad_two_templates "X" 2 = Ok s
    /\ forall m c, chem_data s m = Ok c ->
         purchase_price c = lookup_smiles ad_two_templates m
         /\ templates c
            = dict_of_pairs
                (combine (snd (predict ad_two_templates m
                                       (template_max_count default_config)
                                       (template_max_cum_prob default_config)))
                         (fst (predict ad_two_templates m
                                       (template_max_count default_config)
                                       (template_max_cum_prob default_config))))
         /\ terminal c = if String.eqb m "X" then PyBool false
                         else is_terminal s m (lookup_smiles ad_two_templates m).
Proof.
  eexists.
  match goal with
  | |- ?P /\ _ => assert (H : P) by (vm_compute; reflexivity)
  end.
  split; [exact H|].
  exact (chemical_attributes_fixed _ _ _ _ _ H).
Defined.

(** X6.  A terminal chemical is never expanded: in every state a new engine
    reaches, a chemical whose [terminal] attribute is true (and whose
    identifier is not also that of a reaction) is done, has no successor and
    no explored template; it is not the target. *)
Theorem terminal_chemicals_are_leaves cfg ad tgt n s
    (H : engine_after cfg ad tgt n = Ok s) :
  forall m c, chem_data s m = Ok c -> ~ In m (reactions s) ->
    truthy (terminal c) = true ->
    done c = Some true /\ successors (tree s) m = [] /\ explored c = [] /\ m <> tgt.
Proof.
  destruct (engine_after_inv _ _ _ _ _ H) as ([_ _ _ Ha Htl _ _] & _ & _ & Ht & _).
  intros m c Hc Hnr Htr. apply chem_data_inv in Hc.
  destruct (Htl m c Hc Hnr Htr) as (H1 & H2 & H3).
  repeat split; try assumption.
  intros ->. destruct (Ha tgt c Hc) as (_ & _ & Hroot & _).
  rewrite (Hroot Ht) in Htr. discriminate.
Qed.

Lemma terminal_chemicals_are_leaves_witness :
  exists s c,
    engine_after default_config ad_two_templates "X" 2 = Ok s
    /\ chem_data s "A" = Ok c
    /\ done c = Some true /\ successors (tree s) "A" = [] /\ explored c = []
    /\ "A" <> "X".
Proof.
  eexists. eexists.
  match goal with
  | |- ?P /\ _ => assert (H : P) by (vm_compute; reflexivity)
  end.
  split; [exact H|].
  match goal with
  | |- ?P /\ _ => assert (Hc : P) by (vm_compute; reflexivity)
  end.
  split; [exact Hc|].
  apply (terminal_chemicals_are_leaves _ _ _ _ _ H "A" _ Hc).
  - vm_compute. intros [Heq|[]]. discriminate Heq.
  - vm_compute. reflexivity.
Defined.

(** X7.  Every edge hangs on the tree: in every state a new engine reaches,
    both ends of every edge can be reached from the target. *)
Theorem edges_reachable_from_target cfg ad tgt n s
    (H : engine_after cfg ad tgt n = Ok s) :
  forall u v, edge s u v -> reachable s tgt u /\ reachable s tgt v.
Proof.
  destruct (engine_after_inv _ _ _ _ _ H) as ([_ _ _ _ _ Hp _] & _ & _ & Ht & _).
  intros u v Huv. pose proof (Hp tgt Ht u v Huv) as Hu.
  split; [exact Hu|]. unfold reachable. eapply rtc_r; eassumption.
Qed.

Lemma edges_reachable_from_target_witness :
  exists s,
    engine_after default_config ad_cross "A" 3 = Ok s
    /\ edge s "C" "B>>C"
    /\ reachable s "A" "C" /\ reachable s "A" "B>>C".
Proof.
  eexists.
  match goal with
  | |- ?P /\ _ => assert (H : P) by (vm_compute; reflexivity)
  end.
  split; [exact H|].
  match goal with
  | |- ?P /\ _ => assert (He : P) by (vm_compute; left; reflexivity)
  end.
  split; [exact He|].
  exact (edges_reachable_from_target _ _ _ _ _ H "C" "B>>C" He).
Defined.


(** ** The visits of the target *)

(** Expansion leaves the chemicals that were registered before it as they
    are, unless a reaction takes the identifier of one. *)
Lemma register_reactants_old rl path : forall s b s1,
  register_reactants s rl path = Ok (b, s1) ->
  forall m, In m (chemicals s) ->
    In m (chemicals s1) /\ g_nodes (tree s1) !! m = g_nodes (tree s) !! m.
Proof.
  induction rl as [|x rl IH]; intros s b s1 H m Hm; simpl in H.
  - inversion H; subst. split; [exact Hm | reflexivity].
  - destruct (mem_str x path); [inversion H; subst; split; [exact Hm | reflexivity]|].
    bind_inv H as s0 Hs0.
    destruct (mem_str x (chemicals s)) eqn:Hmem.
    + inversion Hs0; subst s0. apply (IH _ _ _ H m Hm).
    + apply create_chemical_node_frame in Hs0.
      destruct Hs0 as (_ & _ & _ & _ & Hch & _ & Hn).
      assert (Hm0 : In m (chemicals s0)) by (rewrite Hch; apply in_or_app; left; exact Hm).
      destruct (IH _ _ _ H m Hm0) as [Hin Heq]. split; [exact Hin|].
      rewrite Heq. apply Hn. intros ->. apply mem_str_false in Hmem. contradiction.
Qed.

Lemma old_kept_trans s1 s2 s3 : old_kept s1 s2 -> old_kept s2 s3 -> old_kept s1 s3.
Proof.
  intros H12 H23 m Hm. destruct (H12 m Hm) as [Hin2 H2].
  destruct (H23 m Hin2) as [Hin3 H3]. split; [exact Hin3|].
  destruct H3 as [H3|H3]; [|right; exact H3].
  rewrite H3. exact H2.
Qed.

Lemma process_outcome_old tgt template path s rl s' :
  process_outcome tgt template path s rl = Ok s' -> old_kept s s'.
Proof.
  intros H. unfold process_outcome in H. cbv zeta in H.
  destruct (_ <? _)%float; [inversion H; subst; intros m Hm; split; [exact Hm | left; reflexivity]|].
  set (rid := String.concat "." rl +:+ ">>" +:+ tgt) in *.
  bind_inv H as registered Hreg. destruct registered as [completed s1].
  pose proof (register_reactants_old _ _ _ _ _ Hreg) as Hold.
  destruct completed.
  2:{ inversion H; subst. intros m Hm. destruct (Hold m Hm) as [Hin Heq].
      split; [exact Hin | left; exact Heq]. }
  bind_inv H as tdata Htd. bind_inv H as tscore Hts. bind_inv H as s2 Hs2.
  inversion H; subst s'; clear H.
  intros m Hm. destruct (Hold m Hm) as [Hin Heq]. simpl. rewrite connect_nodes.
  destruct (mem_str rid (reactions s1)).
  - unfold merge_reaction in Hs2. bind_inv Hs2 as rd Hrd. inversion Hs2; subst s2. simpl.
    split; [exact Hin|]. destruct (decide (rid = m)) as [<-|Hne].
    + right. rewrite lookup_insert_eq. eauto.
    + left. rewrite lookup_insert_ne by exact Hne. exact Heq.
  - inversion Hs2; subst s2. simpl.
    split; [exact Hin|]. destruct (decide (rid = m)) as [<-|Hne].
    + right. rewrite lookup_insert_eq. eauto.
    + left. rewrite lookup_insert_ne by exact Hne. exact Heq.
Qed.

Lemma process_precursors_old tgt template path : forall precursors s s',
  _process_precursors s tgt template precursors path = Ok s' -> old_kept s s'.
Proof.
  unfold _process_precursors.
  induction precursors as [|rl rest IH]; intros s s' H; simpl in H.
  - inversion H; subst. intros m Hm. split; [exact Hm | left; reflexivity].
  - bind_inv H as s1 Hs1. eapply old_kept_trans; [|apply IH; exact H].
    eapply process_outcome_old. exact Hs1.
Qed.

(** What expansion leaves of a chemical that was registered before it. *)
Lemma expand_old s chem_path template s1 m c c1 :
  _expand s chem_path template = Ok s1 ->
  In m (chemicals s) -> chem_data s m = Ok c -> chem_data s1 m = Ok c1 ->
  visit_count c1 = visit_count c /\ min_depth c1 = min_depth c /\ done c1 = done c
  /\ terminal c1 = terminal c.
Proof.
  intros H Hm Hc Hc1. unfold _expand in H. bind_inv H as leaf Hleaf. bind_inv H as cl Hcl.
  destruct (mem_Z template (explored cl)).
  { inversion H; subst s1. rewrite Hc in Hc1. inversion Hc1. repeat split; reflexivity. }
  apply process_precursors_old in H. destruct (H m Hm) as [_ [Heq|[r Hr]]].
  2:{ apply chem_data_inv in Hc1. congruence. }
  apply chem_data_inv in Hc1. rewrite Heq in Hc1. rewrite nodes_put in Hc1.
  destruct (decide (leaf = m)) as [<-|Hne].
  - inversion Hc1; subst c1. rewrite Hc in Hcl. inversion Hcl; subst cl.
    repeat split; reflexivity.
  - apply chem_data_inv in Hc. rewrite Hc in Hc1. inversion Hc1. repeat split; reflexivity.
Qed.

Lemma zip_longest_In {A B : Type} : forall (l1 : list A) (l2 : list B) x y,
  In (x, y) (zip_longest l1 l2) ->
  (forall a, x = Some a -> In a l1) /\ (forall b, y = Some b -> In b l2).
Proof.
  induction l1 as [|a l1 IH]; intros l2 x y Hin; simpl in Hin.
  - apply in_map_iff in Hin. destruct Hin as (b & Heq & Hb). inversion Heq; subst.
    split; [discriminate|]. intros b0 Hb0. inversion Hb0; subst. exact Hb.
  - destruct l2 as [|b l2]; destruct Hin as [Heq|Hin].
    + inversion Heq; subst. split; [|discriminate].
      intros a0 Ha0. inversion Ha0. left. reflexivity.
    + destruct (IH [] x y Hin) as [H1 H2]. split; [|exact H2].
      intros a0 Ha0. right. apply H1. exact Ha0.
    + inversion Heq; subst. split; intros z Hz; inversion Hz; left; reflexivity.
    + destruct (IH l2 x y Hin) as [H1 H2].
      split; intros z Hz; right; [apply H1 | apply H2]; exact Hz.
Qed.

Lemma update_step_other s item s' root :
  update_step s item = Ok s' ->
  (forall i chem, fst item = Some (i, chem) -> chem <> root) ->
  (forall rxn, snd item = Some rxn -> rxn <> root) ->
  g_nodes (tree s') !! root = g_nodes (tree s) !! root.
Proof.
  intros H Hchem Hrxn. unfold update_step in H.
  destruct (fst item) as [[i chem]|]; [|discriminate].
  specialize (Hchem i chem eq_refl).
  bind_inv H as c Hc. bind_inv H as updated Hupd. destruct updated as [d s2].
  apply is_chemical_done_update_ok in Hupd. destruct Hupd as (c0 & _ & _ & ->).
  rewrite put_node_put_node in H.
  assert (H2 : g_nodes (tree (put_node s chem (Chemical (set_done (Some d) c0)))) !! root
               = g_nodes (tree s) !! root).
  { rewrite nodes_put. destruct (decide (chem = root)); [contradiction | reflexivity]. }
  destruct (snd item) as [rxn|]; [|inversion H; subst; exact H2].
  specialize (Hrxn rxn eq_refl). unfold bump_visit_count in H.
  destruct (g_nodes (tree (put_node s chem (Chemical (set_done (Some d) c0)))) !! rxn)
    as [[c1|r1]|]; inversion H; subst s'; rewrite nodes_put;
    (destruct (decide (rxn = root)); [contradiction | exact H2]).
Qed.

Lemma update_fold_other root : forall items s s',
  fold_m update_step items s = Ok s' ->
  (forall item, In item items ->
     (forall i chem, fst item = Some (i, chem) -> chem <> root)
     /\ (forall rxn, snd item = Some rxn -> rxn <> root)) ->
  g_nodes (tree s') !! root = g_nodes (tree s) !! root.
Proof.
  induction items as [|item items IH]; intros s s' H Hall; simpl in H.
  - inversion H. reflexivity.
  - bind_inv H as s1 Hs1. rewrite (IH _ _ H) by (intros it Hit; apply Hall; right; exact Hit).
    destruct (Hall item (or_introl eq_refl)) as [H1 H2].
    eapply update_step_other; eassumption.
Qed.

Lemma descent_rxn_edge s : forall rxns chems from r,
  descent s from rxns chems -> In r rxns -> exists u, edge s u r.
Proof.
  induction rxns as [|r0 rxns IH]; intros [|c chems] from r Hd Hr; simpl in Hd;
    try destruct Hr; try destruct Hd.
  - subst. eauto.
  - destruct H1 as (_ & _ & Hrest). eapply IH; eassumption.
Qed.

(** The back-update visits the target once, and last. *)
Lemma update_root_visit s root chems rxn_path s' c :
  length rxn_path = length chems ->
  ~ In root chems -> ~ In root rxn_path ->
  chem_data s root = Ok c ->
  _update s (root :: chems) rxn_path = Ok s' ->
  exists c', chem_data s' root = Ok c'
    /\ visit_count c' = visit_count c + 1 /\ min_depth c' = Some 0
    /\ terminal c' = terminal c.
Proof.
  intros Hlen Hchems Hrxns Hc H. unfold _update in H. destruct (negb _); [discriminate|].
  rewrite (update_items _ _ _ Hlen) in H. rewrite fold_m_app in H.
  bind_inv H as s1 Hs1. simpl in H. bind_inv H as s2 Hs2. inversion H; subst s2; clear H.
  assert (Hsame : g_nodes (tree s1) !! root = g_nodes (tree s) !! root).
  { eapply update_fold_other; [exact Hs1|].
    intros [x y] Hin. apply zip_longest_In in Hin. destruct Hin as [Hx Hy]. simpl. split.
    - intros i chem ->. specialize (Hx _ eq_refl). apply in_combine_r in Hx.
      apply in_rev in Hx. intros ->. contradiction.
    - intros rxn ->. specialize (Hy _ eq_refl). apply in_rev in Hy. intros ->. contradiction. }
  unfold update_step in Hs2. simpl in Hs2.
  bind_inv Hs2 as c1 Hc1. bind_inv Hs2 as updated Hupd. destruct updated as [d s3].
  inversion Hs2; subst s3; clear Hs2.
  apply is_chemical_done_update_ok in Hupd. destruct Hupd as (c0 & Hc0 & _ & ->).
  rewrite chem_data_put_eq in Hc0. inversion Hc0; subst c0; clear Hc0.
  assert (c1 = c).
  { unfold chem_data in Hc1, Hc. rewrite Hsame in Hc1. rewrite Hc1 in Hc. inversion Hc.
    reflexivity. }
  subst c1. eexists. split; [apply chem_data_put_eq|]. simpl.
  split; [reflexivity|]. split; [|reflexivity].
  destruct (min_depth c) as [d0|]; [|reflexivity]. rewrite Nat.min_0_r. reflexivity.
Qed.

Lemma rollout_root_visit s s' root c :
  inv s -> target s = Some root -> chem_data s root = Ok c ->
  _rollout s = Ok s' ->
  exists c', chem_data s' root = Ok c'
    /\ visit_count c' = visit_count c + 1 /\ min_depth c' = Some 0
    /\ terminal c' = terminal c.
Proof.
  intros Hi Ht Hc H. pose proof H as Hroll.
  unfold _rollout in H. bind_inv H as selected Hsel.
  destruct selected as [[chem_path rxn_path] template]. simpl in H.
  bind_inv H as s1 Hexp.
  destruct (select_spec _ _ _ _ Hsel)
    as (root' & chems & cl & Hroot & -> & Hlen & Hnd & Hdesc & _).
  assert (root' = root) by congruence. subst root'.
  inversion Hnd as [|? ? Hnotin _]; subst.
  assert (Hrxn : ~ In root rxn_path).
  { intros Hin. destruct (descent_rxn_edge _ _ _ _ _ Hdesc Hin) as [u Hu].
    apply (inv_root s Hi root c Ht (chem_data_inv _ _ _ Hc) u Hu). }
  destruct (_update s1 (root :: chems) rxn_path) as [s2|e] eqn:Hupd; [|discriminate].
  inversion H; subst s2; clear H.
  assert (Hc1 : exists c1, chem_data s1 root = Ok c1).
  { unfold _update in Hupd. destruct (negb _); [discriminate|].
    rewrite (update_items _ _ _ Hlen) in Hupd. rewrite fold_m_app in Hupd.
    bind_inv Hupd as s3 Hs3.
    assert (Hsame : g_nodes (tree s3) !! root = g_nodes (tree s1) !! root).
    { eapply update_fold_other; [exact Hs3|].
      intros [x y] Hin. apply zip_longest_In in Hin. destruct Hin as [Hx Hy]. simpl. split.
      - intros i chem ->. specialize (Hx _ eq_refl). apply in_combine_r in Hx.
        apply in_rev in Hx. intros ->. contradiction.
      - intros rxn ->. specialize (Hy _ eq_refl). apply in_rev in Hy. intros ->.
        contradiction. }
    simpl in Hupd. bind_inv Hupd as s4 Hs4. unfold update_step in Hs4. simpl in Hs4.
    bind_inv Hs4 as c3 Hc3. exists c3. unfold chem_data in *. rewrite <- Hsame. exact Hc3. }
  destruct Hc1 as [c1 Hc1].
  assert (Hroot_in : In root (chemicals s))
    by (apply (reg_target s (inv_registry s Hi)); exact Ht).
  destruct (expand_old _ _ _ _ _ _ _ Hexp Hroot_in Hc Hc1) as (Hv & _ & _ & Hterm).
  destruct (update_root_visit _ _ _ _ _ _ Hlen Hnotin Hrxn Hc1 Hupd)
    as (c' & Hc' & Hv' & Hmin & Hterm').
  exists c'. split; [exact Hc'|]. split; [lia|]. split; [exact Hmin | congruence].
Qed.

(** X8.  The target stays the root: in the state a new engine reaches with
    [n] rollouts it is a chemical node with [visit_count] [n + 1], not
    terminal, without a predecessor, and from the first rollout on its
    [min_depth] is 0. *)
Theorem target_stays_root cfg ad tgt n s
    (H : engine_after cfg ad tgt n = Ok s) :
  exists c,
    chem_data s tgt = Ok c
    /\ visit_count c = n + 1
    /\ terminal c = PyBool false
    /\ (forall u, ~ edge s u tgt)
    /\ (0 < n -> min_depth c = Some 0).
Proof.
  assert (Hvis : forall k s0, engine_after cfg ad tgt k = Ok s0 ->
            exists c, chem_data s0 tgt = Ok c /\ visit_count c = k + 1
                      /\ (0 < k -> min_depth c = Some 0)).
  { unfold engine_after. induction k as [|k IH]; intros s0 H0; simpl in H0.
    - bind_inv H0 as s1 Hs1. inversion H0; subst s1.
      apply initialize_state in Hs1. destruct Hs1 as (c & -> & ->).
      eexists. split; [unfold chem_data; simpl; rewrite lookup_insert_eq; reflexivity|].
      split; [reflexivity | lia].
    - bind_inv H0 as s1 Hs1. bind_inv H0 as s2 Hs2.
      assert (He : engine_after cfg ad tgt k = Ok s2)
        by (unfold engine_after; rewrite Hs1; exact Hs2).
      destruct (IH s2 He) as (c & Hc & Hv & _).
      destruct (engine_after_inv _ _ _ _ _ He) as (Hi & _ & _ & Ht & _).
      destruct (rollout_root_visit _ _ _ _ Hi Ht Hc H0) as (c' & Hc' & Hv' & Hmin & _).
      exists c'. split; [exact Hc'|]. split; [lia | intros _; exact Hmin]. }
  destruct (Hvis n s H) as (c & Hc & Hv & Hmin).
  destruct (engine_after_inv _ _ _ _ _ H) as ([_ _ _ Ha _ _ Hroot] & _ & _ & Ht & _).
  exists c. split; [exact Hc|]. pose proof (chem_data_inv _ _ _ Hc) as Hn.
  split; [exact Hv|].
  split; [destruct (Ha tgt c Hn) as (_ & _ & Hr & _); apply Hr; exact Ht|].
  split; [apply (Hroot tgt c Ht Hn) | exact Hmin].
Qed.

Lemma target_stays_root_witness :
  exists s,
    engine_after default_config ad_two_templates "X" 2 = Ok s
    /\ exists c,
         chem_data s "X" = Ok c
         /\ visit_count c = 2 + 1
         /\ terminal c = PyBool false
         /\ (forall u, ~ edge s u "X")
         /\ (0 < 2 -> min_depth c = Some 0).
Proof.
  eexists.
  match goal with
  | |- ?P /\ _ => assert (H : P) by (vm_compute; reflexivity)
  end.
  split; [exact H|].
  exact (target_stays_root _ _ _ _ _ H).
Defined.


(** ** Rollouts only add *)

Lemma add_edge_appends g a b u :
  exists l, successors (add_edge g a b) u = successors g u ++ l.
Proof.
  unfold add_edge. destruct (mem_str b (successors g a)).
  - exists []. rewrite app_nil_r. reflexivity.
  - unfold successors at 1. simpl. destruct (decide (a = u)) as [->|Hne].
    + rewrite lookup_insert_eq. simpl. exists [b]. reflexivity.
    + rewrite lookup_insert_ne by exact Hne. exists []. rewrite app_nil_r. reflexivity.
Qed.

Lemma grows_refl s : grows s s.
Proof.
  repeat split; try (intros; exists []; rewrite app_nil_r; reflexivity);
    try (exists []; rewrite app_nil_r; reflexivity). auto.
Qed.

Lemma grows_trans s1 s2 s3 : grows s1 s2 -> grows s2 s3 -> grows s1 s3.
Proof.
  intros (Hn & Hs & [lc Hc] & [lr Hr]) (Hn' & Hs' & [lc' Hc'] & [lr' Hr']).
  repeat split.
  - auto.
  - intros u. destruct (Hs u) as [l Hl], (Hs' u) as [l' Hl'].
    exists (l ++ l'). rewrite Hl', Hl, app_assoc. reflexivity.
  - exists (lc ++ lc'). rewrite Hc', Hc, app_assoc. reflexivity.
  - exists (lr ++ lr'). rewrite Hr', Hr, app_assoc. reflexivity.
Qed.

Lemma grows_put s n d : grows s (put_node s n d).
Proof.
  repeat split; try (intros; exists []; rewrite app_nil_r; reflexivity);
    try (exists []; rewrite app_nil_r; reflexivity).
  intros m Hm. rewrite nodes_put. destruct (decide (n = m)); [eexists; reflexivity | exact Hm].
Qed.

Lemma shape_grows s s' : shape s s' -> grows s s'.
Proof.
  destruct 1.
  - apply grows_put.
  - repeat split.
    + intros m Hm. rewrite nodes_put.
      destruct (decide (n = m)); [eexists; reflexivity | exact Hm].
    + intros u. exists []. rewrite app_nil_r. reflexivity.
    + exists [n]. reflexivity.
    + exists []. rewrite app_nil_r. reflexivity.
  - repeat split.
    + intros m Hm. unfold new_reaction. rewrite nodes_put.
      destruct (decide (rid = m)); [eexists; reflexivity | exact Hm].
    + intros u. exists []. rewrite app_nil_r. reflexivity.
    + exists []. rewrite app_nil_r. reflexivity.
    + exists [rid]. reflexivity.
  - apply grows_put.
  - repeat split.
    + intros m Hm. simpl. rewrite add_edge_nodes. exact Hm.
    + intros u0. apply add_edge_appends.
    + exists []. rewrite app_nil_r. reflexivity.
    + exists []. rewrite app_nil_r. reflexivity.
  - repeat split.
    + intros m Hm. simpl. rewrite add_edge_nodes. exact Hm.
    + intros u0. apply add_edge_appends.
    + exists []. rewrite app_nil_r. reflexivity.
    + exists []. rewrite app_nil_r. reflexivity.
Qed.

Lemma steps_grow s s' : rtc step s s' -> grows s s'.
Proof.
  induction 1 as [|s s1 s2 H1 _ IH]; [apply grows_refl|].
  eapply grows_trans; [apply shape_grows, step_shape; exact H1 | exact IH].
Qed.

(** X9.  A rollout only adds: it keeps the configuration, the collaborators
    and the target, removes no node, and appends to the successors of every
    node and to the two registries. *)
Theorem rollout_only_adds s s' (H : _rollout s = Ok s') :
  config s' = config s /\ adapters s' = adapters s /\ target s' = target s
  /\ (forall m, is_Some (g_nodes (tree s) !! m) -> is_Some (g_nodes (tree s') !! m))
  /\ (forall u, exists l, successors (tree s') u = successors (tree s) u ++ l)
  /\ (exists l, chemicals s' = chemicals s ++ l)
  /\ (exists l, reactions s' = reactions s ++ l).
Proof.
  pose proof (rollout_steps _ _ H) as Hsteps.
  destruct (rtc_step_frame _ _ Hsteps) as (H1 & H2 & H3).
  destruct (steps_grow _ _ Hsteps) as (H4 & H5 & H6 & H7).
  repeat split; assumption.
Qed.

Lemma rollout_only_adds_witness :
  exists s',
    _rollout two_templates_state = Ok s'
    /\ config s' = config two_templates_state
    /\ adapters s' = adapters two_templates_state
    /\ target s' = target two_templates_state
    /\ (forall m, is_Some (g_nodes (tree two_templates_state) !! m) ->
                  is_Some (g_nodes (tree s') !! m))
    /\ (forall u, exists l,
          successors (tree s') u = successors (tree two_templates_state) u ++ l)
    /\ (exists l, chemicals s' = chemicals two_templates_state ++ l)
    /\ (exists l, reactions s' = reactions two_templates_state ++ l).
Proof.
  eexists.
  match goal with
  | |- ?P /\ _ => assert (H : P) by (vm_compute; reflexivity)
  end.
  split; [exact H|].
  exact (rollout_only_adds _ _ H).
Defined.

(** ** The driver *)

Lemma run_rollouts_first : forall n s,
  run_rollouts (S n) s = (s1 <- _rollout s ;; run_rollouts n s1).
Proof.
  induction n as [|n IH]; intros s.
  - simpl. destruct (_rollout s); reflexivity.
  - change (run_rollouts (S (S n)) s) with (s' <- run_rollouts (S n) s ;; _rollout s').
    rewrite IH. destruct (_rollout s) as [s1|e]; reflexivity.
Qed.

Lemma run_rollouts_config : forall n s s',
  run_rollouts n s = Ok s' -> config s' = config s.
Proof.
  induction n as [|n IH]; intros s s' H; simpl in H.
  - inversion H. reflexivity.
  - bind_inv H as s1 Hs1. apply IH in Hs1.
    apply rollout_steps, rtc_step_frame in H. destruct H as (Hc & _). congruence.
Qed.

(** The loop returns after [m] rollouts that all returned, when the time
    read before the next one is up or when the engine is done. *)
Lemma expansion_loop_ok clock st : forall fuel j el s n k s',
  expansion_loop fuel clock j st el s n = (k, Ok s') ->
  exists m,
    k = n + m /\ run_rollouts m s = Ok s'
    /\ (((match m with
          | O => el
          | S _ => (clock (j + m - 1)%nat - st)%float
          end <? expansion_time (config s'))%float = false)
        \/ MCTS_done s' = Ok true).
Proof.
  induction fuel as [|fuel IH]; intros j el s n k s' H; simpl in H; [discriminate|].
  destruct (el <? expansion_time (config s))%float eqn:Hel.
  - destruct (MCTS_done s) as [[|]|e] eqn:Hdone; try discriminate.
    + inversion H; subst. exists 0. split; [lia|]. split; [reflexivity|]. right. exact Hdone.
    + destruct (_rollout s) as [s1|e] eqn:Hroll; [|discriminate].
      apply IH in H. destruct H as (m & -> & Hrun & Hstop).
      exists (S m). split; [lia|]. split.
      * rewrite run_rollouts_first, Hroll. exact Hrun.
      * destruct Hstop as [Hstop|Hstop]; [left | right; exact Hstop].
        destruct m as [|m].
        -- replace (j + 1 - 1) with j by lia. exact Hstop.
        -- replace (j + S (S m) - 1) with (S j + S m - 1) by lia. exact Hstop.
  - inversion H; subst. exists 0. split; [lia|]. split; [reflexivity|]. left. exact Hel.
Qed.

(** X10.  When [build_tree] returns on a new engine it has run as many
    rollouts as it counted, every one of them to its end, and it stopped
    because the time read after the last one was not below [expansion_time]
    or because the engine was done (the target done, or a cap on chemicals
    or reactions reached). *)
Theorem build_tree_runs_rollouts_until_stop fuel clock cfg ad tgt k s
    (H : build_tree fuel clock (MCTS_init cfg ad) tgt = (k, Ok s)) :
  engine_after cfg ad tgt k = Ok s
  /\ (((clock (S k) - clock 0%nat)%float <? expansion_time cfg)%float = false
      \/ MCTS_done s = Ok true).
Proof.
  unfold build_tree in H. unfold engine_after.
  destruct (_initialize (MCTS_init cfg ad) tgt) as [s0|e] eqn:Hinit; [|discriminate].
  apply expansion_loop_ok in H. destruct H as (m & Hk & Hrun & Hstop).
  simpl in Hk. subst m. simpl. split; [exact Hrun|].
  assert (Hcfg : config s = cfg).
  { rewrite (run_rollouts_config _ _ _ Hrun).
    destruct (inv_initialize _ _ _ _ Hinit) as (_ & Hc & _). exact Hc. }
  rewrite Hcfg in Hstop. destruct Hstop as [Hstop|Hstop]; [left | right; exact Hstop].
  destruct k as [|k]; [exact Hstop|].
  replace (2 + S k - 1) with (S (S k)) in Hstop by lia. exact Hstop.
Qed.

Lemma build_tree_runs_rollouts_until_stop_witness :
  exists s,
    build_tree 10 clock_ticks (MCTS_init default_config ad_one_step) "X" = (1, Ok s)
    /\ engine_after default_config ad_one_step "X" 1 = Ok s
    /\ (((clock_ticks 2%nat - clock_ticks 0%nat)%float <? expansion_time default_config)%float
        = false
        \/ MCTS_done s = Ok true).
Proof.
  eexists.
  match goal with
  | |- ?P /\ _ => assert (H : P) by (vm_compute; reflexivity)
  end.
  split; [exact H|].
  exact (build_tree_runs_rollouts_until_stop _ _ _ _ _ _ _ H).
Defined.

(** ** Using an engine again *)

(** X11.  [clear] makes an engine as good as new for [build_tree]: whatever
    was built before, building after [clear] gives what a new engine with the
    same configuration and collaborators gives.  Without [clear] the old
    graph stays: [_initialize] keeps every other node, every edge (those that
    leave the target too) and both registries, and registers the target once
    more. *)
Theorem clear_makes_engine_new s tgt :
  (forall fuel clock,
     build_tree fuel clock (clear s) tgt
     = build_tree fuel clock (MCTS_init (config s) (adapters s)) tgt)
  /\ (forall s', _initialize s tgt = Ok s' ->
        chemicals s' = chemicals s ++ [tgt]
        /\ reactions s' = reactions s
        /\ (forall u, successors (tree s') u = successors (tree s) u)
        /\ (forall m, m <> tgt -> g_nodes (tree s') !! m = g_nodes (tree s) !! m)
        /\ (In tgt (chemicals s) -> ~ List.NoDup (chemicals s'))).
Proof.
  split; [reflexivity|].
  intros s' H. unfold _initialize in H. bind_inv H as s1 Hs1. bind_inv H as c Hc.
  inversion H; subst s'; clear H.
  apply create_chemical_node_frame in Hs1.
  destruct Hs1 as (_ & _ & _ & Hr & Hch & Hsucc & Hn). simpl in *.
  split; [exact Hch|]. split; [exact Hr|]. split.
  { intros u. unfold successors. simpl. rewrite Hsucc. reflexivity. }
  split.
  { intros m Hm. rewrite lookup_insert_ne by congruence. apply Hn. exact Hm. }
  intros Hin Hnd. rewrite Hch in Hnd. apply List.NoDup_remove_2 in Hnd.
  apply Hnd. rewrite app_nil_r. exact Hin.
Qed.

Lemma clear_makes_engine_new_witness :
  exists s',
    _initialize two_templates_state "X" = Ok s'
    /\ chemicals s' = chemicals two_templates_state ++ ["X"]
    /\ ~ List.NoDup (chemicals s').
Proof.
  eexists.
  match goal with
  | |- ?P /\ _ => assert (H : P) by (vm_compute; reflexivity)
  end.
  split; [exact H|].
  destruct (clear_makes_engine_new two_templates_state "X") as [_ Hre].
  destruct (Hre _ H) as (Hch & _ & _ & _ & Hdup).
  split; [exact Hch|]. apply Hdup. vm_compute. left. reflexivity.
Defined.

(** ** Paths *)

Lemma to_branching_target_root s root :
  to_branching_target s = Ok root ->
  exists t d cs,
    target s = Some t /\ g_nodes (tree s) !! t = Some d /\ root = BNode t d cs
    /\ (successors (tree s) t = [] -> cs = []).
Proof.
  unfold to_branching_target. destruct (has_cycle (tree s)); [discriminate|].
  destruct (target s) as [t|]; [|discriminate].
  destruct (g_nodes (tree s) !! t) as [d|] eqn:Hd; [|discriminate].
  destruct (size (g_nodes (tree s))) as [|fuel]; simpl; [discriminate|].
  rewrite Hd. intros H. bind_inv H as cs Hcs. inversion H; subst root.
  exists t, d, cs. split; [reflexivity|]. split; [exact Hd|]. split; [reflexivity|].
  intros Hs. rewrite Hs in Hcs. simpl in Hcs. inversion Hcs. reflexivity.
Qed.

Lemma get_chem_paths_root md src d cs dep p :
  In p (fst (get_chem_paths md (BNode src d cs) dep)) ->
  exists qs, p = BNode src d qs /\ (cs = [] -> qs = []).
Proof.
  rewrite get_chem_paths_eq.
  destruct ((length cs =? 0)%nat || depth_reached md dep) eqn:Hleaf.
  - intros [<-|[]]. exists []. split; [reflexivity | auto].
  - intros Hin. apply In_gen_chain in Hin. destruct Hin as (g & Hg & Hp).
    apply in_map_iff in Hg. destruct Hg as (rxn & <- & Hrxn).
    simpl in Hp. apply in_map_iff in Hp. destruct Hp as (sub & <- & Hsub).
    exists [sub]. split; [reflexivity|]. intros ->. destruct Hrxn.
Qed.

(** X12.  The target alone is never a path: in every state a new engine
    reaches, each path [get_buyable_paths] returns starts at the target and
    has a reaction under it; when the target has no successor, as right after
    initialisation, no path is returned. *)
Theorem buyable_paths_start_with_a_reaction cfg ad tgt n s fmt out
    (H : engine_after cfg ad tgt n = Ok s)
    (Hout : get_buyable_paths s fmt = Ok out) :
  exists l,
    (out = GraphPaths l \/ out = JsonPaths (map tree_data l))
    /\ (forall p, In p l -> bsource p = tgt /\ bchildren p <> [])
    /\ (successors (tree s) tgt = [] -> l = []).
Proof.
  destruct (engine_after_inv _ _ _ _ _ H) as ([_ _ _ Ha _ _ _] & _ & _ & Ht & c & Hc).
  apply chem_data_inv in Hc.
  destruct (Ha tgt c Hc) as (_ & _ & Hterm & _). specialize (Hterm Ht).
  apply get_buyable_paths_ok in Hout. destruct Hout as (root & l & Hroot & Hrun & Hfmt).
  exists l. split; [destruct Hfmt as [[_ ->]|[_ ->]]; auto|].
  apply to_branching_target_root in Hroot.
  destruct Hroot as (t & d & cs & Ht' & Hd & -> & Hcs).
  assert (t = tgt) by congruence. subst t.
  rewrite Hc in Hd. inversion Hd; subst d; clear Hd.
  assert (Hall : forall p, In p l -> bsource p = tgt /\ bchildren p <> []).
  { intros p Hp. destruct (run_validated_ok _ _ _ Hrun p Hp) as [Hin Hval].
    unfold get_paths in Hin. apply get_chem_paths_root in Hin.
    destruct Hin as (qs & -> & _). split; [reflexivity|].
    simpl. intros ->.
    destruct (validated_leaves_terminal _ Hval (BNode tgt (Chemical c) []))
      as (c' & Hc' & Htr); [left; reflexivity|].
    simpl in Hc'. inversion Hc'; subst c'. rewrite Hterm in Htr. discriminate. }
  split; [exact Hall|].
  intros Hs. destruct l as [|p l]; [reflexivity|]. exfalso.
  destruct (Hall p (or_introl eq_refl)) as [_ Hne].
  destruct (run_validated_ok _ _ _ Hrun p (or_introl eq_refl)) as [Hin _].
  unfold get_paths in Hin. apply get_chem_paths_root in Hin.
  destruct Hin as (qs & -> & Hqs). apply Hne. simpl. apply Hqs. apply Hcs. exact Hs.
Qed.

Lemma buyable_paths_start_with_a_reaction_witness :
  exists s out,
    engine_after default_config ad_one_step "X" 1 = Ok s
    /\ get_buyable_paths s "graph" = Ok out
    /\ exists l,
         (out = GraphPaths l \/ out = JsonPaths (map tree_data l))
         /\ (forall p, In p l -> bsource p = "X" /\ bchildren p <> [])
         /\ (successors (tree s) "X" = [] -> l = []).
Proof.
  eexists. eexists.
  match goal with
  | |- ?P /\ _ => assert (H : P) by (vm_compute; reflexivity)
  end.
  split; [exact H|].
  match goal with
  | |- ?P /\ _ => assert (Hout : P) by (vm_compute; reflexivity)
  end.
  split; [exact Hout|].
  exact (buyable_paths_start_with_a_reaction _ _ _ _ _ _ _ H Hout).
Defined.

(** ** Cycles *)

Lemma connect_keeps g tgt rid rl u v :
  In v (successors g u) -> In v (successors (connect g tgt rid rl) u).
Proof.
  unfold connect. intros Hin.
  assert (H : forall l g0, In v (successors g0 u) ->
            In v (successors (fold_left (fun g' x => add_edge g' rid x) l g0) u)).
  { induction l as [|x l IH]; intros g0 H0; simpl; [exact H0|].
    apply IH. apply add_edge_keeps. exact H0. }
  apply H. apply add_edge_keeps. exact Hin.
Qed.

Lemma connect_has_reactant g tgt rid rl x :
  In x rl -> In x (successors (connect g tgt rid rl) rid).
Proof.
  unfold connect. generalize (add_edge g tgt rid).
  induction rl as [|y rl IH]; intros g0 Hin; simpl; [destruct Hin|].
  destruct Hin as [->|Hin]; [|apply IH; exact Hin].
  assert (H : forall l g1, In x (successors g1 rid) ->
            In x (successors (fold_left (fun g' z => add_edge g' rid z) l g1) rid)).
  { induction l as [|z l IHl]; intros g1 H1; simpl; [exact H1|].
    apply IHl. apply add_edge_keeps. exact H1. }
  apply H. apply add_edge_adds.
Qed.

Lemma process_outcome_accepted tgt template path s rl s' :
  (fast_filter (adapters s) (String.concat "." rl) tgt
   <? fast_filter_threshold (config s))%float = false ->
  (forall x, In x rl -> mem_str x path = false) ->
  process_outcome tgt template path s rl = Ok s' ->
  (forall u v, edge s u v -> edge s' u v)
  /\ edge s' tgt (String.concat "." rl +:+ ">>" +:+ tgt)
  /\ (forall x, In x rl -> edge s' (String.concat "." rl +:+ ">>" +:+ tgt) x).
Proof.
  intros Hacc Hnc H. unfold process_outcome in H. cbv zeta in H. rewrite Hacc in H.
  bind_inv H as registered Hreg. destruct registered as [completed s1].
  pose proof (register_reactants_completed _ _ _ _ _ Hnc Hreg) as ->.
  apply register_reactants_frame in Hreg. destruct Hreg as (_ & _ & _ & _ & Hsucc & _).
  bind_inv H as tdata Htd. bind_inv H as tscore Hts. bind_inv H as s2 Hs2.
  inversion H; subst s'; clear H.
  assert (Hs : g_succ (tree s2) = g_succ (tree s)).
  { rewrite <- Hsucc. destruct (mem_str _ (reactions s1)).
    - unfold merge_reaction in Hs2. bind_inv Hs2 as rd Hrd. inversion Hs2; subst s2.
      reflexivity.
    - inversion Hs2; subst s2. reflexivity. }
  unfold edge, g_edge. simpl. split; [|split].
  - intros u v Huv. apply connect_keeps. unfold successors in *. rewrite Hs. exact Huv.
  - apply connect_has_edge.
  - intros x Hx. apply connect_has_reactant. exact Hx.
Qed.

(** X13.  The test that avoids cycles only looks at the path of the current
    rollout.  When an accepted outcome has a reactant that is not on this
    path but from which the expanded chemical can be reached, linking the
    outcome closes a cycle through the expanded chemical; on a graph whose
    edges end on nodes [get_buyable_paths] then raises the exception of
    [dag_to_branching], whatever the format. *)
Theorem expansion_can_close_cycle tgt template path s rl s' x
    (Hscore : (fast_filter (adapters s) (String.concat "." rl) tgt
               <? fast_filter_threshold (config s))%float = false)
    (Hpath : forall y, In y rl -> mem_str y path = false)
    (H : process_outcome tgt template path s rl = Ok s')
    (Hx : In x rl)
    (Hreach : reachable s x tgt) :
  tc (edge s') tgt tgt
  /\ (closed (tree s') -> forall fmt, get_buyable_paths s' fmt = Raise HasACycle).
Proof.
  destruct (process_outcome_accepted _ _ _ _ _ _ Hscore Hpath H) as (Hkeep & Hout & Hin).
  assert (Hcyc : tc (edge s') tgt tgt).
  { eapply tc_l; [exact Hout|].
    eapply tc_rtc_r; [apply tc_once; apply Hin; exact Hx|].
    eapply reach_mono; [exact Hkeep | exact Hreach]. }
  split; [exact Hcyc|].
  intros Hclosed fmt. unfold get_buyable_paths, to_branching_target.
  destruct (has_cycle (tree s')) eqn:Hhc; [reflexivity|].
  exfalso. apply (proj1 (has_cycle_false_iff _ Hclosed) Hhc tgt). exact Hcyc.
Qed.

Lemma expansion_can_close_cycle_witness :
  engine_after default_config ad_cross "A" 2 = Ok cross_state
  /\ (exists s3,
        engine_after default_config ad_cross "A" 3 = Ok s3
        /\ get_buyable_paths s3 "json" = Raise HasACycle)
  /\ exists s',
       process_outcome "C" 3%Z ["A"; "C"] cross_state ["B"] = Ok s'
       /\ tc (edge s') "C" "C"
       /\ (closed (tree s') -> forall fmt, get_buyable_paths s' fmt = Raise HasACycle).
Proof.
  split; [vm_compute; reflexivity|].
  split; [eexists; split; vm_compute; reflexivity|].
  eexists.
  match goal with
  | |- ?P /\ _ => assert (Hp : P) by (vm_compute; reflexivity)
  end.
  split; [exact Hp|].
  assert (Hscore : (fast_filter (adapters cross_state) (String.concat "." ["B"]) "C"
                    <? fast_filter_threshold (config cross_state))%float = false)
    by (vm_compute; reflexivity).
  assert (Hpath : forall y, In y ["B"] -> mem_str y ["A"; "C"] = false)
    by (intros y [<-|[]]; vm_compute; reflexivity).
  assert (Hx : In "B" ["B"]) by (left; reflexivity).
  assert (Hreach : reachable cross_state "B" "C").
  { unfold reachable. apply (rtc_l _ _ "C>>B"); [vm_compute; left; reflexivity|].
    apply (rtc_l _ _ "C"); [vm_compute; left; reflexivity | apply rtc_refl]. }
  exact (expansion_can_close_cycle "C" 3%Z ["A"; "C"] cross_state ["B"] _ "B"
           Hscore Hpath Hp Hx Hreach).
Defined.


Lemma product_In {A : Type} (pools : list (list A)) : forall combo,
  Forall2 (fun x pool => In x pool) combo pools -> In combo (product pools).
Proof.
  induction pools as [|p pools IH]; intros combo H; inversion H; subst; simpl.
  - left. reflexivity.
  - apply in_flat_map. exists x. split; [assumption|].
    apply in_map. apply IH. assumption.
Qed.

Lemma gen_chain_In {A : Type} (x : A) (gs : list (gen A)) g :
  (forall g', In g' gs -> snd g' = None) ->
  In g gs -> In x (fst g) -> In x (fst (gen_chain gs)).
Proof.
  induction gs as [|[items [e|]] gs IH]; simpl; intros Hnone Hg Hx.
  - destruct Hg.
  - specialize (Hnone _ (or_introl eq_refl)). discriminate.
  - apply in_or_app. destruct Hg as [<-|Hg]; [left; exact Hx|].
    right. apply IH; [|exact Hg | exact Hx].
    intros g' Hg'. apply Hnone. right. exact Hg'.
Qed.

Lemma pools_routes {P : btree -> Prop} (f : btree -> list btree)
    (R : btree -> btree -> Prop) : forall cs combo,
  Forall P cs ->
  (forall c x, P c -> (In x (f c) <-> R c x)) ->
  (Forall2 (fun x pool => In x pool) combo (map f cs) <-> Forall2 R cs combo).
Proof.
  induction cs as [|c cs IH]; intros combo HP Hiff; simpl.
  - split; intros H; inversion H; constructor.
  - inversion HP as [|? ? Hc Hcs]; subst. split; intros H; inversion H; subst.
    + constructor; [apply (Hiff c); assumption|]. apply IH; assumption.
    + constructor; [apply (Hiff c); assumption|]. apply IH; assumption.
Qed.

Lemma get_paths_routes md : forall t,
  (chem_tree t -> forall dep p,
     In p (fst (get_chem_paths md t dep)) <-> chem_route md dep t p)
  /\ (rxn_tree t -> forall dep p,
        In p (fst (get_rxn_paths md t dep)) <-> rxn_route md dep t p).
Proof.
  apply btree_ind_forall. intros src d cs IH. split.
  - intros Ht dep p. inversion Ht as [src' c rs Hrs]; subst.
    rewrite get_chem_paths_eq. rewrite List.Forall_forall in IH, Hrs.
    destruct ((length cs =? 0)%nat || depth_reached md dep) eqn:Hleaf.
    + split.
      * intros [<-|[]]. apply route_leaf. exact Hleaf.
      * intros Hr. inversion Hr; subst; [left; reflexivity|]. congruence.
    + assert (Hnone : forall g,
                In g (map (fun rxn =>
                             let sub := get_rxn_paths md rxn (dep + 1) in
                             (map (fun sub_path => BNode src (Chemical c) [sub_path]) (fst sub),
                              snd sub)) cs) -> snd g = None).
      { intros g Hg. apply in_map_iff in Hg. destruct Hg as (rxn & <- & Hrxn). simpl.
        apply (proj2 (get_paths_total md rxn) (Hrs rxn Hrxn)). }
      split.
      * intros Hin. apply In_gen_chain in Hin. destruct Hin as (g & Hg & Hp).
        apply in_map_iff in Hg. destruct Hg as (rxn & <- & Hrxn).
        simpl in Hp. apply in_map_iff in Hp. destruct Hp as (sub & <- & Hsub).
        apply (proj2 (IH rxn Hrxn) (Hrs rxn Hrxn)) in Hsub.
        destruct Hsub as (qs & -> & Hne & Hall).
        destruct rxn as [rsrc rd rcs]. simpl in *.
        eapply route_step; eassumption.
      * intros Hr. inversion Hr; subst; [congruence|].
        eapply gen_chain_In; [exact Hnone | |].
        -- apply in_map_iff. exists (BNode rsrc rd rcs). split; [reflexivity | eassumption].
        -- simpl. apply in_map_iff. exists (BNode rsrc rd qs). split; [reflexivity|].
           match goal with Hin : In (BNode rsrc rd rcs) cs |- _ =>
             apply (proj2 (IH _ Hin) (Hrs _ Hin)) end.
           exists qs. simpl. repeat split; assumption.
  - intros Ht dep p. inversion Ht as [src' r cs' Hne Hcs]; subst.
    rewrite get_rxn_paths_eq. rewrite List.Forall_forall in IH, Hcs.
    rewrite pools_of_none.
    2:{ intros g Hg. apply in_map_iff in Hg. destruct Hg as (c & <- & Hc).
        apply (proj1 (get_paths_total md c) (Hcs c Hc)). }
    rewrite map_map.
    assert (Hiff : forall combo,
              Forall2 (fun x pool => In x pool) combo
                      (map (fun c => fst (get_chem_paths md c dep)) cs)
              <-> Forall2 (chem_route md dep) cs combo).
    { intros combo.
      apply (pools_routes (P := fun c => In c cs)
               (fun c => fst (get_chem_paths md c dep)) (chem_route md dep)).
      - apply List.Forall_forall. auto.
      - intros c x Hc. apply (proj1 (IH c Hc) (Hcs c Hc)). }
    remember (map (fun c => fst (get_chem_paths md c dep)) cs) as pools eqn:Hpools.
    destruct cs as [|c0 cs]; [congruence|]. cbn [fst]. split.
    + intros Hin. apply in_map_iff in Hin. destruct Hin as (combo & <- & Hcombo).
      exists combo. simpl. split; [reflexivity|]. split; [exact Hne|].
      apply Hiff. apply In_product. exact Hcombo.
    + intros (qs & -> & _ & Hall). simpl in *. apply in_map.
      apply product_In. apply Hiff. exact Hall.
Qed.

(** X14.  What [get_paths] enumerates on a layered tree: exactly the routes
    that keep, under every chemical above the depth bound that has
    reactions, one of its reactions, and under every reaction all of its
    reactants; nothing is raised. *)
Theorem get_paths_enumerates_routes md t (H : chem_tree t) :
  snd (get_paths t md) = None
  /\ forall p, In p (fst (get_paths t md)) <-> chem_route md 0 t p.
Proof.
  unfold get_paths. split.
  - apply (proj1 (get_paths_total md t) H).
  - apply (proj1 (get_paths_routes md t) H).
Qed.

Lemma get_paths_enumerates_routes_witness :
  let a := Chemical (Chem [] None (Some 5%float) 0%float 0%float [] (PyBool true)
                          (Some true) 0) in
  let x := Chemical (Chem [7%Z] (Some 0) None 0%float 0%float [(7%Z, 1%float)]
                          (PyBool false) (Some false) 2) in
  let r := Reaction (Rxn 0.9%float 0%float 0%float 1%float [7%Z] 0) in
  let t := BNode "X" x [BNode "A>>X" r [BNode "A" a []]] in
  chem_tree t
  /\ snd (get_paths t (Some 3)) = None
  /\ forall p, In p (fst (get_paths t (Some 3))) <-> chem_route (Some 3) 0 t p.
Proof.
  intros a x r t.
  assert (H : chem_tree t).
  { repeat constructor. discriminate. }
  split; [exact H|].
  exact (get_paths_enumerates_routes (Some 3) t H).
Defined.


(** ** Kinds *)

Lemma arrowless_not_reaction_id n : arrowless n -> reaction_id n -> False.
Proof. intros Ha (a & b & ->). exact (Ha a b eq_refl). Qed.

Lemma short_arrowless x : String.length x < 2 -> arrowless x.
Proof.
  intros Hlen a b ->. rewrite !string_length_app in Hlen. simpl in Hlen. lia.
Qed.

Lemma typed_shape s s' :
  registry s -> typed s ->
  (forall n, reactant (adapters s) n -> arrowless n) ->
  shape s s' -> typed s'.
Proof.
  intros Hr [H1 H2 H3] Hwf Hs. destruct Hs.
  - split; assumption.
  - split; simpl.
    + intros m Hm. apply in_app_or in Hm. destruct Hm as [Hm|[<-|[]]]; auto.
    + exact H2.
    + intros a b Hab. destruct (H3 a b Hab) as [[Ha Hb]|[Ha Hb]]; [left | right];
        (split; [try assumption; apply in_or_app; left; assumption
                | try assumption; apply in_or_app; left; assumption]).
  - split; simpl.
    + exact H1.
    + intros m Hm. apply in_app_or in Hm. destruct Hm as [Hm|[<-|[]]]; auto.
    + intros a b Hab. destruct (H3 a b Hab) as [[Ha Hb]|[Ha Hb]]; [left | right];
        (split; [try assumption; apply in_or_app; left; assumption
                | try assumption; apply in_or_app; left; assumption]).
  - split; assumption.
  - split; simpl; try assumption.
    intros a b Hab. unfold edge, g_edge in Hab. simpl in Hab. apply add_edge_inv in Hab.
    destruct Hab as [Hab|[-> ->]]; [apply H3; exact Hab|]. left. split.
    + eapply (reg_chem s Hr). apply chem_data_inv. eassumption.
    + eapply (reg_rxn s Hr). apply rxn_data_inv. eassumption.
  - split; simpl; try assumption.
    intros a b Hab. unfold edge, g_edge in Hab. simpl in Hab. apply add_edge_inv in Hab.
    destruct Hab as [Hab|[-> ->]]; [apply H3; exact Hab|]. right. split.
    + eapply (reg_rxn s Hr). apply rxn_data_inv. eassumption.
    + assumption.
Qed.

Lemma typed_steps s s' :
  rtc step s s' -> inv s -> typed s ->
  (forall n, reactant (adapters s) n -> arrowless n) ->
  typed s'.
Proof.
  induction 1 as [|s s1 s2 H1 _ IH]; intros Hi Ht Hwf; [exact Ht|].
  pose proof (step_shape _ _ H1) as Hsh.
  apply IH.
  - eapply inv_shape; eassumption.
  - eapply typed_shape; [apply (inv_registry s Hi) | exact Ht | exact Hwf | exact Hsh].
  - destruct (step_frame _ _ H1) as (_ & -> & _). exact Hwf.
Qed.

Lemma typed_initialize cfg ad tgt s :
  arrowless tgt -> _initialize (MCTS_init cfg ad) tgt = Ok s -> typed s.
Proof.
  intros Ha H. apply initialize_state in H. destruct H as (c & -> & _).
  split; simpl.
  - intros n [<-|[]]. exact Ha.
  - intros n [].
  - intros u v Huv. unfold edge, g_edge, successors in Huv. simpl in Huv.
    rewrite lookup_empty in Huv. destruct Huv.
Qed.

Lemma typed_chemical s n :
  registry s -> typed s -> In n (chemicals s) ->
  exists c, g_nodes (tree s) !! n = Some (Chemical c).
Proof.
  intros Hr Ht Hn.
  destruct (proj2 (reg_nodes s Hr n) (or_introl Hn)) as [[c|r] Hd]; [eauto|].
  exfalso. apply (arrowless_not_reaction_id n).
  - apply (ty_chem s Ht). exact Hn.
  - apply (ty_rxn s Ht). eapply (reg_rxn s Hr). exact Hd.
Qed.

Lemma typed_reaction s n :
  registry s -> typed s -> In n (reactions s) ->
  exists r, g_nodes (tree s) !! n = Some (Reaction r).
Proof.
  intros Hr Ht Hn.
  destruct (proj2 (reg_nodes s Hr n) (or_intror Hn)) as [[c|r] Hd]; [|eauto].
  exfalso. apply (arrowless_not_reaction_id n).
  - apply (ty_chem s Ht). eapply (reg_chem s Hr). exact Hd.
  - apply (ty_rxn s Ht). exact Hn.
Qed.

Lemma typed_layered s :
  registry s -> typed s -> rxn_linked s -> layered (tree s).
Proof.
  intros Hr Ht Hl n. destruct (g_nodes (tree s) !! n) as [[c|r]|] eqn:Hn; [| |exact I].
  - intros m Hm. destruct (ty_edges s Ht n m Hm) as [[_ Hb]|[Ha _]].
    + destruct (typed_reaction s m Hr Ht Hb) as [rd Hrd]. eauto.
    + exfalso. apply (arrowless_not_reaction_id n).
      * apply (ty_chem s Ht). eapply (reg_chem s Hr). exact Hn.
      * apply (ty_rxn s Ht). exact Ha.
  - split.
    + apply (Hl n r). unfold rxn_data. rewrite Hn. reflexivity.
    + intros m Hm. destruct (ty_edges s Ht n m Hm) as [[Ha _]|[_ Hb]].
      * exfalso. apply (arrowless_not_reaction_id n).
        -- apply (ty_chem s Ht). exact Ha.
        -- apply (ty_rxn s Ht). eapply (reg_rxn s Hr). exact Hn.
      * destruct (typed_chemical s m Hr Ht Hb) as [cd Hcd]. eauto.
Qed.

(** ** Reactions are linked *)

Lemma register_reactants_rxn rl path : forall s b s1 m r,
  register_reactants s rl path = Ok (b, s1) ->
  rxn_data s1 m = Ok r -> rxn_data s m = Ok r.
Proof.
  induction rl as [|x rl IH]; intros s b s1 m r H Hm; simpl in H.
  - inversion H; subst. exact Hm.
  - destruct (mem_str x path); [inversion H; subst; exact Hm|].
    bind_inv H as s0 Hs0. pose proof (IH _ _ _ _ _ H Hm) as Hm0.
    destruct (mem_str x (chemicals s)); [inversion Hs0; subst; exact Hm0|].
    destruct (create_chemical_node_data _ _ _ Hs0) as (c & Hc & _).
    apply create_chemical_node_frame in Hs0. destruct Hs0 as (_ & _ & _ & _ & _ & _ & Hn).
    destruct (decide (m = x)) as [->|Hne].
    + apply chem_data_inv in Hc. apply rxn_data_inv in Hm0. congruence.
    + unfold rxn_data in *. rewrite <- (Hn m Hne). exact Hm0.
Qed.

Lemma process_outcome_linked tgt template path s rl s' :
  rl <> [] -> rxn_linked s ->
  process_outcome tgt template path s rl = Ok s' -> rxn_linked s'.
Proof.
  intros Hne Hl H. unfold process_outcome in H. cbv zeta in H.
  destruct (_ <? _)%float; [inversion H; subst; exact Hl|].
  set (rid := String.concat "." rl +:+ ">>" +:+ tgt) in *.
  bind_inv H as registered Hreg. destruct registered as [completed s1].
  pose proof (register_reactants_frame _ _ _ _ _ Hreg) as (_ & _ & _ & _ & Hsucc1 & _).
  assert (Hl1 : rxn_linked s1).
  { intros m r Hm. unfold successors. rewrite Hsucc1.
    apply (Hl m r). eapply register_reactants_rxn; eassumption. }
  destruct completed; [|inversion H; subst; exact Hl1].
  bind_inv H as tdata Htd. bind_inv H as tscore Hts. bind_inv H as s2 Hs2.
  inversion H; subst s'; clear H.
  assert (H2 : g_succ (tree s2) = g_succ (tree s1)
               /\ forall m, m <> rid -> g_nodes (tree s2) !! m = g_nodes (tree s1) !! m).
  { destruct (mem_str rid (reactions s1)).
    - unfold merge_reaction in Hs2. bind_inv Hs2 as rd Hrd. inversion Hs2; subst s2.
      split; [reflexivity|]. intros m Hm. simpl. apply lookup_insert_ne. congruence.
    - inversion Hs2; subst s2. split; [reflexivity|].
      intros m Hm. simpl. apply lookup_insert_ne. congruence. }
  destruct H2 as [Hsucc2 Hn2].
  intros m r Hm. unfold rxn_data in Hm. simpl in Hm. rewrite connect_nodes in Hm. simpl.
  destruct (decide (m = rid)) as [->|Hmr].
  - destruct rl as [|x rl]; [congruence|].
    intros Hnil.
    pose proof (connect_has_reactant (tree s2) tgt rid (x :: rl) x (or_introl eq_refl)) as Hin.
    rewrite Hnil in Hin. destruct Hin.
  - rewrite (Hn2 m Hmr) in Hm.
    pose proof (Hl1 m r Hm) as Hs1.
    destruct (successors (tree s1) m) as [|v l] eqn:Hsm; [congruence|].
    intros Hnil.
    assert (Hin : In v (successors (connect (tree s2) tgt rid rl) m)).
    { apply connect_keeps. unfold successors in *. rewrite Hsucc2, Hsm. left. reflexivity. }
    rewrite Hnil in Hin. destruct Hin.
Qed.

Lemma process_precursors_linked tgt template path : forall precursors s s',
  (forall rl, In rl precursors -> rl <> []) -> rxn_linked s ->
  _process_precursors s tgt template precursors path = Ok s' -> rxn_linked s'.
Proof.
  unfold _process_precursors.
  induction precursors as [|rl rest IH]; intros s s' Hne Hl H; simpl in H.
  - inversion H; subst. exact Hl.
  - bind_inv H as s1 Hs1. eapply IH; [| |exact H].
    + intros rl' Hrl'. apply Hne. right. exact Hrl'.
    + eapply process_outcome_linked; [apply Hne; left; reflexivity | exact Hl | exact Hs1].
Qed.

Lemma rxn_linked_put_chem s n c :
  rxn_linked s -> rxn_linked (put_node s n (Chemical c)).
Proof.
  intros Hl m r Hm. unfold rxn_data in Hm. rewrite nodes_put in Hm.
  destruct (decide (n = m)); [discriminate|]. exact (Hl m r Hm).
Qed.

Lemma rxn_linked_put_rxn s n r0 r1 :
  rxn_data s n = Ok r0 -> rxn_linked s -> rxn_linked (put_node s n (Reaction r1)).
Proof.
  intros Hr Hl m r Hm. unfold rxn_data in Hm. rewrite nodes_put in Hm.
  destruct (decide (n = m)) as [<-|Hne]; [exact (Hl n r0 Hr) | exact (Hl m r Hm)].
Qed.

Lemma update_linked : forall items s s',
  rxn_linked s -> fold_m update_step items s = Ok s' -> rxn_linked s'.
Proof.
  induction items as [|item items IH]; intros s s' Hl H; simpl in H.
  - inversion H; subst. exact Hl.
  - bind_inv H as s1 Hs1. eapply IH; [|exact H].
    unfold update_step in Hs1. destruct (fst item) as [[i chem]|]; [|discriminate].
    bind_inv Hs1 as c Hc. bind_inv Hs1 as updated Hupd. destruct updated as [d s2].
    apply is_chemical_done_update_ok in Hupd. destruct Hupd as (c0 & _ & _ & ->).
    rewrite put_node_put_node in Hs1.
    pose proof (rxn_linked_put_chem s chem (set_done (Some d) c0) Hl) as Hl2.
    destruct (snd item) as [rxn|]; [|inversion Hs1; subst; exact Hl2].
    unfold bump_visit_count in Hs1.
    destruct (g_nodes (tree (put_node s chem (Chemical (set_done (Some d) c0)))) !! rxn)
      as [[c1|r1]|] eqn:Hn; inversion Hs1; subst s1.
    + apply rxn_linked_put_chem. exact Hl2.
    + eapply rxn_linked_put_rxn; [|exact Hl2]. unfold rxn_data. rewrite Hn. reflexivity.
Qed.

Lemma rollout_linked s s' :
  (forall chem t rl, In rl (apply_one_template (adapters s) chem t) -> rl <> []) ->
  rxn_linked s -> _rollout s = Ok s' -> rxn_linked s'.
Proof.
  intros Hne Hl H. unfold _rollout in H. bind_inv H as selected Hsel.
  destruct selected as [[chem_path rxn_path] template]. simpl in H.
  bind_inv H as s1 Hexp.
  assert (Hl1 : rxn_linked s1).
  { unfold _expand in Hexp. bind_inv Hexp as leaf Hleaf. bind_inv Hexp as c Hc.
    destruct (mem_Z template (explored c)); [inversion Hexp; subst; exact Hl|].
    eapply process_precursors_linked; [| |exact Hexp].
    - intros rl Hrl. unfold _get_precursors in Hrl. simpl in Hrl.
      destruct (template_ok _ _); [|destruct Hrl]. eapply Hne. exact Hrl.
    - apply rxn_linked_put_chem. exact Hl. }
  unfold _update in H. destruct chem_path as [|root chems]; [discriminate|].
  destruct (negb _); [discriminate|].
  eapply update_linked; eassumption.
Qed.

(** ** New engines *)

Lemma engine_after_typed cfg ad tgt :
  arrowless tgt ->
  (forall chem t rl x, In rl (apply_one_template ad chem t) -> In x rl -> arrowless x) ->
  (forall chem t rl, In rl (apply_one_template ad chem t) -> rl <> []) ->
  forall n s, engine_after cfg ad tgt n = Ok s -> typed s /\ rxn_linked s.
Proof.
  intros Htgt Hreact Hne. unfold engine_after.
  induction n as [|n IH]; intros s H; simpl in H.
  - bind_inv H as s0 Hs0. inversion H; subst s0. split.
    + eapply typed_initialize; eassumption.
    + apply initialize_state in Hs0. destruct Hs0 as (c & -> & _).
      intros m r Hm. unfold rxn_data in Hm. simpl in Hm.
      destruct (decide (tgt = m)) as [<-|Hd].
      * rewrite lookup_insert_eq in Hm. discriminate.
      * rewrite lookup_insert_ne in Hm by exact Hd. rewrite lookup_empty in Hm. discriminate.
  - bind_inv H as s0 Hs0. bind_inv H as s1 Hs1.
    assert (He : engine_after cfg ad tgt n = Ok s1)
      by (unfold engine_after; rewrite Hs0; exact Hs1).
    destruct (IH s1 He) as [Ht Hl].
    destruct (engine_after_inv _ _ _ _ _ He) as (Hi & _ & Had & _).
    split.
    + eapply typed_steps; [apply rollout_steps; exact H | exact Hi | exact Ht |].
      rewrite Had. intros x (chem & t & rl & Hrl & Hx). eapply Hreact; eassumption.
    + eapply rollout_linked; [|exact Hl | exact H]. rewrite Had. exact Hne.
Qed.

(** X15.  When the target and the reactants the templates give are not of
    the form [a>>b], and no outcome is an empty list of reactants, every
    state a new engine reaches has a graph of two layers: no identifier is
    both a chemical and a reaction, the edges end on nodes, the successors of
    a chemical are reactions, every reaction has successors and they are
    chemicals.  If moreover the graph has no cycle, [get_buyable_paths]
    returns in both formats. *)
Theorem engine_graph_has_two_layers cfg ad tgt n s
    (Htgt : arrowless tgt)
    (Hreact : forall chem t rl x,
        In rl (apply_one_template ad chem t) -> In x rl -> arrowless x)
    (Hne : forall chem t rl, In rl (apply_one_template ad chem t) -> rl <> [])
    (H : engine_after cfg ad tgt n = Ok s) :
  (forall m, ~ (In m (chemicals s) /\ In m (reactions s)))
  /\ closed (tree s)
  /\ layered (tree s)
  /\ ((forall m, ~ tc (edge s) m m) ->
      exists l,
        get_buyable_paths s "json" = Ok (JsonPaths (map tree_data l))
        /\ get_buyable_paths s "graph" = Ok (GraphPaths l)).
Proof.
  destruct (engine_after_typed cfg ad tgt Htgt Hreact Hne n s H) as [Ht Hl].
  destruct (engine_after_inv _ _ _ _ _ H) as (Hi & _ & _ & Htg & c & Hc).
  pose proof (inv_registry s Hi) as Hr.
  assert (Hclosed : closed (tree s)).
  { intros u v Huv. apply (reg_edges s Hr u v Huv). }
  pose proof (typed_layered s Hr Ht Hl) as Hlay.
  split.
  { intros m [Hm1 Hm2]. apply (arrowless_not_reaction_id m).
    - apply (ty_chem s Ht). exact Hm1.
    - apply (ty_rxn s Ht). exact Hm2. }
  split; [exact Hclosed|]. split; [exact Hlay|].
  intros Hacyc.
  destruct (extraction_total s tgt c Hclosed Hlay Hacyc Htg (chem_data_inv _ _ _ Hc))
    as (root & l & Hroot & Hrun).
  exists l. unfold get_buyable_paths. rewrite Hroot. simpl. rewrite Hrun. simpl.
  split; reflexivity.
Qed.

Lemma engine_graph_has_two_layers_witness :
  exists s,
    engine_after default_config ad_two_templates "X" 2 = Ok s
    /\ (forall m, ~ (In m (chemicals s) /\ In m (reactions s)))
    /\ closed (tree s)
    /\ layered (tree s)
    /\ ((forall m, ~ tc (edge s) m m) ->
        exists l,
          get_buyable_paths s "json" = Ok (JsonPaths (map tree_data l))
          /\ get_buyable_paths s "graph" = Ok (GraphPaths l)).
Proof.
  eexists.
  match goal with
  | |- ?P /\ _ => assert (H : P) by (vm_compute; reflexivity)
  end.
  split; [exact H|].
  assert (Htgt : arrowless "X") by (apply short_arrowless; simpl; lia).
  assert (Hreact : forall chem t rl x,
             In rl (apply_one_template ad_two_templates chem t) -> In x rl -> arrowless x).
  { intros chem t rl x Hrl Hx. simpl in Hrl. destruct (String.eqb chem "X"); [|destruct Hrl].
    destruct Hrl as [<-|[]]. destruct Hx as [<-|[]]. apply short_arrowless. simpl. lia. }
  assert (Hne : forall chem t rl,
             In rl (apply_one_template ad_two_templates chem t) -> rl <> []).
  { intros chem t rl Hrl. simpl in Hrl. destruct (String.eqb chem "X"); [|destruct Hrl].
    destruct Hrl as [<-|[]]. discriminate. }
  exact (engine_graph_has_two_layers _ _ _ _ _ Htgt Hreact Hne H).
Defined.


(** ** Selection without rewards *)

Lemma ucb_reaction_zero s tpl vc path w :
  rewards_zero s ->
  forall rxns acc acc',
    fold_m (ucb_reaction s tpl vc path w) rxns acc = Ok acc' ->
    fst acc = 0%float ->
    fst acc' = 0%float
    /\ forall o, In o (snd acc') ->
         In o (snd acc)
         \/ exists rd probs,
              rxn_data s (snd o) = Ok rd
              /\ map_m (template_prob tpl) (rxn_templates rd) = Ok probs
              /\ fst o = (- 0 + w * (py_sum probs * float_of_nat vc
                                     / float_of_nat (1 + rxn_visit_count rd)))%float.
Proof.
  intros Hz. induction rxns as [|rxn rest IH]; intros acc acc' H Hacc; simpl in H.
  - inversion H; subst. split; [exact Hacc | auto].
  - bind_inv H as acc1 Ha. unfold ucb_reaction in Ha.
    bind_inv Ha as rd Hrd. bind_inv Ha as skip Hskip. destruct skip.
    + inversion Ha; subst acc1. apply (IH _ _ H Hacc).
    + bind_inv Ha as probs Hprobs. inversion Ha; subst acc1; clear Ha.
      pose proof (Hz rxn) as Hzr. rewrite (rxn_data_inv _ _ _ Hrd) in Hzr.
      destruct Hzr as [Havg _].
      assert (H0 : fst (py_max (fst acc) (rxn_reward_avg rd), snd acc ++
                        [((- rxn_reward_avg rd
                           + w * (py_sum probs * float_of_nat vc
                                  / float_of_nat (1 + rxn_visit_count rd)))%float, rxn)])
                   = 0%float).
      { simpl. rewrite Hacc, Havg. reflexivity. }
      destruct (IH _ _ H H0) as [Hfst Hopts]. split; [exact Hfst|].
      intros o Ho. destruct (Hopts o Ho) as [Hin|Hnew]; [|right; exact Hnew].
      simpl in Hin. apply in_app_or in Hin. destruct Hin as [Hin|[<-|[]]]; [left; exact Hin|].
      right. exists rd, probs. simpl. rewrite Havg. repeat split; assumption.
Qed.

(** X16.  Selection never sees a reward: in every state a new engine
    reaches, [ucb] scores a new template with [max_average_reward] 0, that
    is [-(0 + 0.1) + w * (p * (1 + sqrt(visit_count)))], and a reaction with
    an average reward of 0, that is
    [-0 + w * (sum of its template probabilities * visit_count of the
    chemical / (1 + visit_count of the reaction))]. *)
Theorem selection_is_pure_exploration cfg ad tgt n s node path w
    reaction_options template_options
    (H : engine_after cfg ad tgt n = Ok s)
    (Hucb : ucb s node path w = Ok (reaction_options, template_options)) :
  exists c,
    chem_data s node = Ok c
    /\ (forall score t,
          In (score, t) template_options <->
          exists p, In (t, p) (templates c) /\ mem_Z t (explored c) = false
                    /\ score = template_score_ucb 0 w p (visit_count c))
    /\ (forall score rxn,
          In (score, rxn) reaction_options ->
          exists rd probs,
            rxn_data s rxn = Ok rd
            /\ map_m (template_prob (templates c)) (rxn_templates rd) = Ok probs
            /\ score = (- 0 + w * (py_sum probs * float_of_nat (visit_count c)
                                   / float_of_nat (1 + rxn_visit_count rd)))%float).
Proof.
  destruct (engine_after_inv _ _ _ _ _ H) as ([_ Hz _ _ _ _ _] & _).
  unfold ucb in Hucb. bind_inv Hucb as c Hc. bind_inv Hucb as acc Hacc.
  inversion Hucb; subst reaction_options template_options; clear Hucb.
  destruct (ucb_reaction_zero s _ _ _ _ Hz _ _ _ Hacc eq_refl) as [Hfst Hopts].
  exists c. split; [exact Hc|]. split.
  - intros score t. rewrite In_sort_desc, In_ucb_templates, Hfst. reflexivity.
  - intros score rxn Hin. apply (proj1 (In_sort_desc _ _)) in Hin.
    destruct (Hopts _ Hin) as [[]|Hnew]. exact Hnew.
Qed.

Lemma selection_is_pure_exploration_witness :
  exists s ropts topts,
    engine_after default_config ad_two_templates "X" 1 = Ok s
    /\ ucb s "X" ["X"] 1%float = Ok (ropts, topts)
    /\ exists c,
         chem_data s "X" = Ok c
         /\ (forall score t,
               In (score, t) topts <->
               exists p, In (t, p) (templates c) /\ mem_Z t (explored c) = false
                         /\ score = template_score_ucb 0 1%float p (visit_count c))
         /\ (forall score rxn,
               In (score, rxn) ropts ->
               exists rd probs,
                 rxn_data s rxn = Ok rd
                 /\ map_m (template_prob (templates c)) (rxn_templates rd) = Ok probs
                 /\ score = (- 0 + 1 * (py_sum probs * float_of_nat (visit_count c)
                                        / float_of_nat (1 + rxn_visit_count rd)))%float).
Proof.
  eexists. eexists. eexists.
  match goal with
  | |- ?P /\ _ => assert (H : P) by (vm_compute; reflexivity)
  end.
  split; [exact H|].
  match goal with
  | |- ?P /\ _ => assert (Hu : P) by (vm_compute; reflexivity)
  end.
  split; [exact Hu|].
  exact (selection_is_pure_exploration _ _ _ _ _ _ _ _ _ _ H Hu).
Defined.

(** ** The score of a new template, in the words of the specification *)





(** ** Expansions that give nothing *)

Lemma process_precursors_rejected tgt template path : forall precursors s,
  (forall rl, In rl precursors ->
     (fast_filter (adapters s) (String.concat "." rl) tgt
      <? fast_filter_threshold (config s))%float = true) ->
  _process_precursors s tgt template precursors path = Ok s.
Proof.
  unfold _process_precursors.
  induction precursors as [|rl rest IH]; intros s Hrej; simpl; [reflexivity|].
  unfold process_outcome at 1. cbv zeta. rewrite (Hrej rl (or_introl eq_refl)). simpl.
  apply IH. intros rl' Hrl'. apply Hrej. right. exact Hrl'.
Qed.

(** X17.  An expansion that gives nothing still uses up its template: when
    every outcome of the template is below the fast-filter threshold (as
    when the template gives no outcome, or is rejected when it is loaded),
    [_expand] records the template as explored on the chemical and changes
    nothing else. *)
Theorem fruitless_expansion_only_marks_template s chem_path leaf c template
    (Hleaf : last_of chem_path = Ok leaf)
    (Hc : chem_data s leaf = Ok c)
    (Hnew : mem_Z template (explored c) = false)
    (Hrej : forall rl, In rl (_get_precursors s leaf template) ->
       (fast_filter (adapters s) (String.concat "." rl) leaf
        <? fast_filter_threshold (config s))%float = true) :
  _expand s chem_path template
  = Ok (put_node s leaf (Chemical (set_explored (explored c ++ [template]) c))).
Proof.
  unfold _expand. rewrite Hleaf. simpl. rewrite Hc. simpl. rewrite Hnew.
  apply process_precursors_rejected. exact Hrej.
Qed.

Lemma fruitless_expansion_only_marks_template_witness :
  exists s c,
    engine_after default_config ad_buyable "CC" 0 = Ok s
    /\ chem_data s "CC" = Ok c
    /\ _expand s ["CC"] 7%Z
       = Ok (put_node s "CC" (Chemical (set_explored (explored c ++ [7%Z]) c))).
Proof.
  eexists. eexists.
  match goal with
  | |- ?P /\ _ => assert (H : P) by (vm_compute; reflexivity)
  end.
  split; [exact H|].
  match goal with
  | |- ?P /\ _ => assert (Hc : P) by (vm_compute; reflexivity)
  end.
  split; [exact Hc|].
  apply (fruitless_expansion_only_marks_template _ ["CC"] "CC" _ 7%Z).
  - reflexivity.
  - exact Hc.
  - vm_compute. reflexivity.
  - intros rl Hrl. vm_compute in Hrl. destruct Hrl.
Defined.


(** ** Attributes only move one way *)

Lemma chem_mono_refl c : chem_mono c c.
Proof.
  repeat split; try reflexivity; try lia.
  - exists []. rewrite app_nil_r. reflexivity.
  - intros d Hd. exists d. split; [exact Hd | lia].
Qed.

Lemma chem_mono_trans c1 c2 c3 : chem_mono c1 c2 -> chem_mono c2 c3 -> chem_mono c1 c3.
Proof.
  intros (Hv & [l He] & Hm & Hp & Ht & Htr) (Hv' & [l' He'] & Hm' & Hp' & Ht' & Htr').
  repeat split; try congruence; try lia.
  - exists (l ++ l'). rewrite He', He, app_assoc. reflexivity.
  - intros d Hd. destruct (Hm d Hd) as (d1 & Hd1 & Hle).
    destruct (Hm' d1 Hd1) as (d2 & Hd2 & Hle'). exists d2. split; [exact Hd2 | lia].
Qed.

Lemma chem_write_mono s n c c' : chem_write s n c c' -> chem_mono c c'.
Proof.
  destruct 1; repeat split; simpl; try reflexivity; try lia.
  - eexists. reflexivity.
  - intros d Hd. exists d. split; [exact Hd | lia].
  - exists []. rewrite app_nil_r. reflexivity.
  - intros d Hd. rewrite Hd. eexists. split; [reflexivity | lia].
  - exists []. rewrite app_nil_r. reflexivity.
  - intros d0 Hd. exists d0. split; [exact Hd | lia].
  - exists []. rewrite app_nil_r. reflexivity.
  - intros d Hd. exists d. split; [exact Hd | lia].
Qed.

Lemma shape_mono s s' m c c' :
  registry s -> shape s s' ->
  chem_data s m = Ok c -> chem_data s' m = Ok c' -> chem_mono c c'.
Proof.
  intros Hr Hs Hc Hc'. apply chem_data_inv in Hc'. destruct Hs.
  - rewrite nodes_put in Hc'. destruct (decide (n = m)) as [<-|Hne].
    + inversion Hc'; subst c'. rewrite H in Hc. inversion Hc; subst c0.
      eapply chem_write_mono. eassumption.
    + apply chem_data_inv in Hc. rewrite Hc in Hc'. inversion Hc'. apply chem_mono_refl.
  - rewrite nodes_put in Hc'. destruct (decide (n = m)) as [<-|Hne].
    + exfalso. apply mem_str_false in H0. apply H0.
      eapply (reg_chem s Hr). apply chem_data_inv. exact Hc.
    + simpl in Hc'. apply chem_data_inv in Hc. rewrite Hc in Hc'. inversion Hc'.
      apply chem_mono_refl.
  - unfold new_reaction in Hc'. rewrite nodes_put in Hc'.
    destruct (decide (rid = m)) as [<-|Hne]; [discriminate|].
    simpl in Hc'. apply chem_data_inv in Hc. rewrite Hc in Hc'. inversion Hc'.
    apply chem_mono_refl.
  - rewrite nodes_put in Hc'. destruct (decide (rid = m)) as [<-|Hne]; [discriminate|].
    apply chem_data_inv in Hc. rewrite Hc in Hc'. inversion Hc'. apply chem_mono_refl.
  - simpl in Hc'. rewrite add_edge_nodes in Hc'.
    apply chem_data_inv in Hc. rewrite Hc in Hc'. inversion Hc'. apply chem_mono_refl.
  - simpl in Hc'. rewrite add_edge_nodes in Hc'.
    apply chem_data_inv in Hc. rewrite Hc in Hc'. inversion Hc'. apply chem_mono_refl.
Qed.

(** A registered chemical that is a chemical node after a step was one
    before it. *)
Lemma shape_chem_back s s' m c' :
  shape s s' -> In m (chemicals s) -> chem_data s' m = Ok c' ->
  exists c, chem_data s m = Ok c.
Proof.
  intros Hs Hm Hc'. apply chem_data_inv in Hc'. destruct Hs.
  - rewrite nodes_put in Hc'. destruct (decide (n = m)) as [<-|Hne]; [eauto|].
    exists c'. unfold chem_data. rewrite Hc'. reflexivity.
  - rewrite nodes_put in Hc'. destruct (decide (n = m)) as [<-|Hne].
    + apply mem_str_false in H0. contradiction.
    + exists c'. unfold chem_data. simpl in Hc'. rewrite Hc'. reflexivity.
  - unfold new_reaction in Hc'. rewrite nodes_put in Hc'.
    destruct (decide (rid = m)) as [<-|Hne]; [discriminate|].
    exists c'. unfold chem_data. simpl in Hc'. rewrite Hc'. reflexivity.
  - rewrite nodes_put in Hc'. destruct (decide (rid = m)) as [<-|Hne]; [discriminate|].
    exists c'. unfold chem_data. rewrite Hc'. reflexivity.
  - simpl in Hc'. rewrite add_edge_nodes in Hc'.
    exists c'. unfold chem_data. rewrite Hc'. reflexivity.
  - simpl in Hc'. rewrite add_edge_nodes in Hc'.
    exists c'. unfold chem_data. rewrite Hc'. reflexivity.
Qed.

Lemma steps_mono m : forall s s',
  rtc step s s' -> inv s ->
  forall c c', chem_data s m = Ok c -> chem_data s' m = Ok c' -> chem_mono c c'.
Proof.
  intros s s' Hsteps. apply rtc_nsteps in Hsteps. destruct Hsteps as [k Hk].
  revert s s' Hk. induction k as [|k IH]; intros s s' Hk Hi c c' Hc Hc'.
  - inversion Hk; subst. rewrite Hc in Hc'. inversion Hc'. apply chem_mono_refl.
  - apply nsteps_inv_r in Hk. destruct Hk as (s1 & Hk & Hlast).
    assert (Hsteps1 : rtc step s s1) by (eapply rtc_nsteps_2; exact Hk).
    pose proof (inv_steps _ _ Hsteps1 Hi) as Hi1.
    pose proof (step_shape _ _ Hlast) as Hsh.
    assert (Hm1 : In m (chemicals s1)).
    { destruct (steps_grow _ _ Hsteps1) as (_ & _ & [l Hl] & _). rewrite Hl.
      apply in_or_app. left. eapply (reg_chem s (inv_registry s Hi)).
      apply chem_data_inv. exact Hc. }
    destruct (shape_chem_back _ _ _ _ Hsh Hm1 Hc') as [c1 Hc1].
    eapply chem_mono_trans; [eapply IH; eassumption|].
    eapply shape_mono; [apply (inv_registry s1 Hi1) | exact Hsh | exact Hc1 | exact Hc'].
Qed.

(** X18.  The attributes of a chemical only move one way.  Across a rollout
    from a state a new engine reached, a chemical that is a node before and
    after has at least the visits it had, its explored templates with
    possibly more appended, a [min_depth] that is not larger once it was
    known, and the same [purchase_price], [templates] and [terminal]. *)
Theorem chemical_attributes_monotone cfg ad tgt n s s'
    (H : engine_after cfg ad tgt n = Ok s)
    (Hroll : _rollout s = Ok s') :
  forall m c c', chem_data s m = Ok c -> chem_data s' m = Ok c' ->
    visit_count c <= visit_count c'
    /\ (exists l, explored c' = explored c ++ l)
    /\ (forall d, min_depth c = Some d -> exists d', min_depth c' = Some d' /\ d' <= d)
    /\ purchase_price c' = purchase_price c
    /\ templates c' = templates c
    /\ terminal c' = terminal c.
Proof.
  destruct (engine_after_inv _ _ _ _ _ H) as (Hi & _).
  intros m c c' Hc Hc'.
  exact (steps_mono m s s' (rollout_steps _ _ Hroll) Hi c c' Hc Hc').
Qed.

Lemma chemical_attributes_monotone_witness :
  exists s s',
    engine_after default_config ad_two_templates "X" 1 = Ok s
    /\ _rollout s = Ok s'
    /\ forall m c c', chem_data s m = Ok c -> chem_data s' m = Ok c' ->
         visit_count c <= visit_count c'
         /\ (exists l, explored c' = explored c ++ l)
         /\ (forall d, min_depth c = Some d ->
               exists d', min_depth c' = Some d' /\ d' <= d)
         /\ purchase_price c' = purchase_price c
         /\ templates c' = templates c
         /\ terminal c' = terminal c.
Proof.
  eexists. eexists.
  match goal with
  | |- ?P /\ _ => assert (H : P) by (vm_compute; reflexivity)
  end.
  split; [exact H|].
  match goal with
  | |- ?P /\ _ => assert (Hr : P) by (vm_compute; reflexivity)
  end.
  split; [exact Hr|].
  exact (chemical_attributes_monotone _ _ _ _ _ _ H Hr).
Defined.


(** ** The depth bound *)

Lemma register_reactants_new rl path : forall s b s1,
  register_reactants s rl path = Ok (b, s1) -> fresh_kept path s s1.
Proof.
  induction rl as [|x rl IH]; intros s b s1 H m Hm1 Hm; simpl in H.
  - inversion H; subst. contradiction.
  - destruct (mem_str x path) eqn:Hpath; [inversion H; subst; contradiction|].
    bind_inv H as s0 Hs0.
    destruct (mem_str x (chemicals s)) eqn:Hmem.
    + inversion Hs0; subst s0. exact (IH _ _ _ H m Hm1 Hm).
    + destruct (mem_str m (chemicals s0)) eqn:Hm0.
      * apply mem_str_In in Hm0.
        destruct (create_chemical_node_data _ _ _ Hs0) as (c & Hc & _ & _ & He & Hmin & _).
        apply create_chemical_node_frame in Hs0.
        destruct Hs0 as (_ & _ & _ & _ & Hch & _ & _).
        rewrite Hch in Hm0. apply in_app_or in Hm0.
        destruct Hm0 as [Hm0|[<-|[]]]; [contradiction|].
        split; [apply mem_str_false; exact Hpath|].
        intros c' Hc'.
        assert (Hx0 : In x (chemicals s0))
          by (rewrite Hch; apply in_or_app; right; left; reflexivity).
        destruct (register_reactants_old _ _ _ _ _ H x Hx0) as [_ Heq].
        unfold chem_data in Hc', Hc. rewrite Heq in Hc'. rewrite Hc' in Hc.
        inversion Hc; subst c'. split; assumption.
      * apply mem_str_false in Hm0. exact (IH _ _ _ H m Hm1 Hm0).
Qed.

Lemma process_outcome_new tgt template path s rl s' :
  process_outcome tgt template path s rl = Ok s' -> fresh_kept path s s'.
Proof.
  intros H. unfold process_outcome in H. cbv zeta in H.
  destruct (_ <? _)%float; [inversion H; subst; intros m Hm1 Hm; contradiction|].
  set (rid := String.concat "." rl +:+ ">>" +:+ tgt) in *.
  bind_inv H as registered Hreg. destruct registered as [completed s1].
  pose proof (register_reactants_new _ _ _ _ _ Hreg) as Hnew.
  destruct completed; [|inversion H; subst; exact Hnew].
  bind_inv H as tdata Htd. bind_inv H as tscore Hts. bind_inv H as s2 Hs2.
  inversion H; subst s'; clear H.
  assert (H2 : chemicals s2 = chemicals s1
               /\ forall m c, g_nodes (tree s2) !! m = Some (Chemical c) ->
                              g_nodes (tree s1) !! m = Some (Chemical c)).
  { destruct (mem_str rid (reactions s1)).
    - unfold merge_reaction in Hs2. bind_inv Hs2 as rd Hrd. inversion Hs2; subst s2.
      split; [reflexivity|]. intros m c. simpl.
      destruct (decide (rid = m)) as [<-|Hne].
      + rewrite lookup_insert_eq. discriminate.
      + rewrite lookup_insert_ne by exact Hne. auto.
    - inversion Hs2; subst s2. split; [reflexivity|]. intros m c. simpl.
      destruct (decide (rid = m)) as [<-|Hne].
      + rewrite lookup_insert_eq. discriminate.
      + rewrite lookup_insert_ne by exact Hne. auto. }
  destruct H2 as [Hch2 Hn2].
  intros m Hm1 Hm. simpl in Hm1. rewrite Hch2 in Hm1.
  destruct (Hnew m Hm1 Hm) as [Hnp Hdata]. split; [exact Hnp|].
  intros c' Hc'. apply chem_data_inv in Hc'. simpl in Hc'. rewrite connect_nodes in Hc'.
  apply Hn2 in Hc'. apply Hdata. unfold chem_data. rewrite Hc'. reflexivity.
Qed.

Lemma fresh_kept_trans path s1 s2 s3 :
  old_kept s2 s3 -> fresh_kept path s1 s2 -> fresh_kept path s2 s3 ->
  fresh_kept path s1 s3.
Proof.
  intros Hold H12 H23 m Hm3 Hm1.
  destruct (mem_str m (chemicals s2)) eqn:Hm2.
  - apply mem_str_In in Hm2. destruct (H12 m Hm2 Hm1) as [Hnp Hdata].
    split; [exact Hnp|]. intros c' Hc'. apply Hdata.
    destruct (Hold m Hm2) as [_ [Heq|[r Hr]]].
    + unfold chem_data in *. rewrite <- Heq. exact Hc'.
    + apply chem_data_inv in Hc'. congruence.
  - apply mem_str_false in Hm2. exact (H23 m Hm3 Hm2).
Qed.

Lemma process_precursors_new tgt template path : forall precursors s s',
  _process_precursors s tgt template precursors path = Ok s' -> fresh_kept path s s'.
Proof.
  unfold _process_precursors.
  induction precursors as [|rl rest IH]; intros s s' H; simpl in H.
  - inversion H; subst. intros m Hm1 Hm. contradiction.
  - bind_inv H as s1 Hs1.
    eapply fresh_kept_trans;
      [| eapply process_outcome_new; exact Hs1 | apply IH; exact H].
    apply (process_precursors_old tgt template path rest). exact H.
Qed.

Lemma compute_done_depth s n c d flag :
  min_depth c = Some d -> max_depth (config s) <= d ->
  compute_done s n c = Ok flag -> flag = true.
Proof.
  intros Hmin Hle H. unfold compute_done in H.
  destruct (truthy (terminal c)); [inversion H; reflexivity|].
  destruct (length (templates c) =? 0)%nat; [inversion H; reflexivity|].
  rewrite Hmin in H. apply Nat.leb_le in Hle. rewrite Hle in H.
  inversion H. reflexivity.
Qed.

Lemma same3_refl c : same3 c c.
Proof. repeat split. Qed.

Lemma same3_touched cfg c1 c2 c3 : same3 c1 c2 -> touched cfg c2 c3 -> touched cfg c1 c3.
Proof.
  intros (Hm & _ & He) (He' & d & Hd & Hle & Hdone). split; [congruence|].
  exists d. split; [exact Hd|]. split; [|exact Hdone].
  intros d0 Hd0. apply Hle. congruence.
Qed.

Lemma touched_same3 cfg c1 c2 c3 : touched cfg c1 c2 -> same3 c2 c3 -> touched cfg c1 c3.
Proof.
  intros (He & d & Hd & Hle & Hdone) (Hm & Hdn & He'). split; [congruence|].
  exists d. split; [congruence|]. split; [exact Hle|].
  intros Hmax. rewrite Hdn. apply Hdone. exact Hmax.
Qed.

Lemma same3_trans c1 c2 c3 : same3 c1 c2 -> same3 c2 c3 -> same3 c1 c3.
Proof. intros (? & ? & ?) (? & ? & ?). repeat split; congruence. Qed.

Lemma touch_min_depth c i :
  let c1 := set_min_depth
              (match min_depth (set_visit_count (visit_count c + 1) c) with
               | Some d => Some (Nat.min d i)
               | None => Some i
               end) (set_visit_count (visit_count c + 1) c) in
  explored c1 = explored c
  /\ exists d, min_depth c1 = Some d /\ forall d0, min_depth c = Some d0 -> d <= d0.
Proof.
  simpl. split; [reflexivity|].
  destruct (min_depth c) as [d0|]; eexists; (split; [reflexivity|]); intros d1 Hd1.
  - inversion Hd1; subst. lia.
  - discriminate.
Qed.

(** One turn of the back-update. *)
Lemma update_step_effect s item s' i chem :
  fst item = Some (i, chem) -> update_step s item = Ok s' ->
  config s' = config s /\ chemicals s' = chemicals s /\ target s' = target s
  /\ forall m c', chem_data s' m = Ok c' ->
       exists c, chem_data s m = Ok c
         /\ (m <> chem -> same3 c c')
         /\ (m = chem -> touched (config s) c c').
Proof.
  intros Hfst H. unfold update_step in H. rewrite Hfst in H.
  bind_inv H as c Hc. bind_inv H as updated Hupd. destruct updated as [flag s2].
  apply is_chemical_done_update_ok in Hupd. destruct Hupd as (c0 & Hc0 & Hflag & ->).
  rewrite chem_data_put_eq in Hc0. inversion Hc0; subst c0; clear Hc0.
  rewrite put_node_put_node in H.
  match type of H with
  | context [put_node s chem (Chemical ?X)] => set (c2 := X) in H
  end.
  assert (Htouched : touched (config s) c c2).
  { destruct (touch_min_depth c i) as (He & d & Hd & Hle).
    split; [exact He|]. exists d. split; [exact Hd|]. split; [exact Hle|].
    intros Hmax. unfold c2. simpl. f_equal.
    refine (compute_done_depth _ _ _ d flag _ _ Hflag); [exact Hd | exact Hmax]. }
  assert (Hbase : forall m c', chem_data (put_node s chem (Chemical c2)) m = Ok c' ->
            exists c1, chem_data s m = Ok c1
              /\ (m <> chem -> same3 c1 c') /\ (m = chem -> touched (config s) c1 c')).
  { intros m c' Hc'. apply chem_data_inv in Hc'. rewrite nodes_put in Hc'.
    destruct (decide (chem = m)) as [<-|Hne].
    - inversion Hc'; subst c'. exists c. split; [exact Hc|].
      split; [congruence | intros _; exact Htouched].
    - exists c'. split; [unfold chem_data; rewrite Hc'; reflexivity|].
      split; [intros _; apply same3_refl | congruence]. }
  destruct (snd item) as [rxn|].
  2:{ injection H as <-. repeat split; try reflexivity. exact Hbase. }
  unfold bump_visit_count in H.
  destruct (g_nodes (tree (put_node s chem (Chemical c2))) !! rxn) as [[c1|r1]|] eqn:Hn;
    [injection H as <- | injection H as <- | discriminate H].
  - repeat split; try reflexivity.
    intros m c' Hc'. apply chem_data_inv in Hc'. rewrite nodes_put in Hc'.
    destruct (decide (rxn = m)) as [<-|Hne].
    + inversion Hc'; subst c'.
      destruct (Hbase rxn c1) as (c0 & Hc0 & Hs3 & Ht3);
        [unfold chem_data; rewrite Hn; reflexivity|].
      exists c0. split; [exact Hc0|]. split.
      * intros Hm. eapply same3_trans; [apply Hs3; exact Hm|]. repeat split.
      * intros Hm. eapply touched_same3; [apply Ht3; exact Hm|]. repeat split.
    + apply Hbase. unfold chem_data. rewrite Hc'. reflexivity.
  - repeat split; try reflexivity.
    intros m c' Hc'. apply chem_data_inv in Hc'. rewrite nodes_put in Hc'.
    destruct (decide (rxn = m)) as [<-|Hne]; [discriminate|].
    apply Hbase. unfold chem_data. rewrite Hc'. reflexivity.
Qed.

Lemma update_fold_effect : forall items s s',
  fold_m update_step items s = Ok s' ->
  List.NoDup (chems_of items) ->
  config s' = config s /\ chemicals s' = chemicals s /\ target s' = target s
  /\ forall m c', chem_data s' m = Ok c' ->
       exists c, chem_data s m = Ok c
         /\ (~ In m (chems_of items) -> same3 c c')
         /\ (In m (chems_of items) -> touched (config s) c c').
Proof.
  induction items as [|item items IH]; intros s s' H Hnd; simpl in H.
  - inversion H; subst. repeat split; try reflexivity.
    intros m c' Hc'. exists c'. split; [exact Hc'|].
    split; [intros _; apply same3_refl | intros []].
  - bind_inv H as s1 Hs1.
    destruct (fst item) as [[i chem]|] eqn:Hfst.
    2:{ unfold update_step in Hs1. rewrite Hfst in Hs1. discriminate. }
    assert (Hco : chems_of (item :: items) = chem :: chems_of items)
      by (unfold chems_of; simpl; rewrite Hfst; reflexivity).
    rewrite Hco in Hnd |- *. inversion Hnd as [|? ? Hnotin Hnd']; subst.
    destruct (update_step_effect _ _ _ _ _ Hfst Hs1) as (Hc1 & Hch1 & Ht1 & Heff1).
    destruct (IH _ _ H Hnd') as (Hc2 & Hch2 & Ht2 & Heff2).
    split; [congruence|]. split; [congruence|]. split; [congruence|].
    intros m c' Hc'. destruct (Heff2 m c' Hc') as (c1 & Hcd1 & Hsame2 & Htouched2).
    destruct (Heff1 m c1 Hcd1) as (c & Hcd & Hsame1 & Htouched1).
    exists c. split; [exact Hcd|]. split.
    + intros Hnot. eapply same3_trans.
      * apply Hsame1. intros ->. apply Hnot. left. reflexivity.
      * apply Hsame2. intros Hin. apply Hnot. right. exact Hin.
    + intros [->|Hin].
      * eapply touched_same3; [apply Htouched1; reflexivity|]. apply Hsame2. exact Hnotin.
      * rewrite Hc1 in Htouched2. eapply same3_touched; [|apply Htouched2; exact Hin].
        apply Hsame1. intros ->. contradiction.
Qed.

Lemma chems_of_zip (pairs : list (nat * string)) : forall rxns,
  length rxns <= length pairs ->
  chems_of (zip_longest pairs rxns) = map snd pairs.
Proof.
  induction pairs as [|[i chem] pairs IH]; intros rxns Hlen; simpl in *.
  - destruct rxns; [reflexivity | simpl in Hlen; lia].
  - destruct rxns as [|r rxns]; simpl.
    + unfold chems_of in *. simpl. f_equal. apply (IH []). simpl. lia.
    + unfold chems_of in *. simpl. f_equal. apply IH. simpl in Hlen. lia.
Qed.

Lemma map_snd_combine {A B : Type} : forall (l1 : list A) (l2 : list B),
  length l1 = length l2 -> map snd (combine l1 l2) = l2.
Proof.
  induction l1 as [|a l1 IH]; intros [|b l2] Hlen; simpl in *; try discriminate;
    [reflexivity|]. f_equal. apply IH. lia.
Qed.

Lemma update_effect s root chems rxn_path s' :
  List.NoDup (root :: chems) -> length rxn_path = length chems ->
  _update s (root :: chems) rxn_path = Ok s' ->
  config s' = config s /\ chemicals s' = chemicals s /\ target s' = target s
  /\ forall m c', chem_data s' m = Ok c' ->
       exists c, chem_data s m = Ok c
         /\ (~ In m (root :: chems) -> same3 c c')
         /\ (In m (root :: chems) -> touched (config s) c c').
Proof.
  intros Hnd Hlen H. unfold _update in H. destruct (negb _); [discriminate|].
  assert (Hco : chems_of (zip_longest
                            (combine (rev (seq 0 (length (root :: chems))))
                                     (rev (root :: chems)))
                            (rev rxn_path))
                = rev (root :: chems)).
  { rewrite chems_of_zip.
    - apply map_snd_combine. rewrite !length_rev, length_seq. reflexivity.
    - rewrite length_combine, !length_rev, length_seq. simpl. lia. }
  apply update_fold_effect in H.
  2:{ rewrite Hco. apply List.NoDup_rev. exact Hnd. }
  rewrite Hco in H. destruct H as (H1 & H2 & H3 & Heff).
  split; [exact H1|]. split; [exact H2|]. split; [exact H3|].
  intros m c' Hc'. destruct (Heff m c' Hc') as (c & Hc & Hs & Ht).
  exists c. split; [exact Hc|]. split.
  - intros Hnot. apply Hs. intros Hin. apply Hnot. apply in_rev. exact Hin.
  - intros Hin. apply Ht. apply in_rev in Hin. exact Hin.
Qed.

Lemma descent_not_done s : forall rxns chems from m,
  descent s from rxns chems -> In m chems -> is_chemical_done s m = Ok false.
Proof.
  induction rxns as [|r rxns IH]; intros [|c chems] from m Hd Hm; simpl in Hd;
    try destruct Hm; try destruct Hd.
  - subst. tauto.
  - destruct H1 as (_ & _ & Hrest). eapply IH; eassumption.
Qed.

Lemma last_or_cases root chems :
  (chems = [] /\ last_or root chems = root) \/ In (last_or root chems) chems.
Proof.
  destruct chems as [|c chems]; [left; split; reflexivity|].
  right. rewrite last_or_cons. apply last_or_in.
Qed.

Lemma rollout_depth_ok s s' :
  inv s -> depth_ok s -> _rollout s = Ok s' -> depth_ok s'.
Proof.
  intros Hi Hd Hroll.
  pose proof (inv_steps _ _ (rollout_steps _ _ Hroll) Hi) as Hi'.
  pose proof Hroll as H. unfold _rollout in H. bind_inv H as selected Hsel.
  destruct selected as [[chem_path rxn_path] template]. simpl in H.
  bind_inv H as s1 Hexp.
  destruct (select_spec _ _ _ _ Hsel)
    as (root & chems & cl & Hroot & -> & Hlen & Hnd & Hdesc & Hcl & Hkey & Hnew & _).
  destruct (update_effect _ _ _ _ _ Hnd Hlen H) as (Hcfg2 & Hch2 & Htg2 & Heff).
  unfold _expand in Hexp. rewrite last_of_cons in Hexp. simpl in Hexp.
  rewrite Hcl in Hexp. simpl in Hexp. rewrite Hnew in Hexp.
  set (leaf := last_or root chems) in *.
  set (s0 := put_node s leaf (Chemical (set_explored (explored cl ++ [template]) cl))) in *.
  pose proof (process_precursors_old _ _ _ _ _ _ Hexp) as Hold.
  pose proof (process_precursors_new _ _ _ _ _ _ Hexp) as Hfresh.
  assert (Hcfg1 : config s1 = config s /\ target s1 = target s).
  { assert (Hsteps : rtc step s0 s1).
    { refine (process_precursors_steps root leaf template (root :: chems)
                _ _ _ _ (or_introl eq_refl) (last_or_in root chems) _ Hexp).
      - intros rl x Hrl Hx. unfold _get_precursors in Hrl.
        destruct (template_ok _ _); [|destruct Hrl].
        eexists. eexists. exists rl. split; [exact Hrl | exact Hx].
      - split; [exact Hroot|]. split.
        + destruct (last_or_cases root chems) as [[_ Hl]|Hin]; [left; symmetry; exact Hl|].
          right. unfold is_chemical_done, s0. rewrite chem_data_put_eq.
          pose proof (descent_not_done _ _ _ _ _ Hdesc Hin) as Hnd0.
          unfold is_chemical_done in Hnd0. fold leaf in Hnd0. rewrite Hcl in Hnd0. exact Hnd0.
        + apply descent_reach in Hdesc. exact Hdesc. }
    apply rtc_step_frame in Hsteps. destruct Hsteps as (Hc & _ & Ht). split; assumption. }
  destruct Hcfg1 as [Hcfg1 Htg1].
  intros m c' Hc'.
  destruct (Heff m c' Hc') as (c1 & Hc1 & Hsame & Htouched).
  assert (Hm' : In m (chemicals s1)).
  { rewrite <- Hch2. eapply (reg_chem s' (inv_registry s' Hi')).
    apply chem_data_inv. exact Hc'. }
  rewrite Hcfg2, Hcfg1, Htg2, Htg1.
  destruct (mem_str m (chemicals s)) eqn:Hmold.
  - (* a chemical that was registered before the rollout *)
    apply mem_str_In in Hmold.
    destruct (Hold m Hmold) as [_ [Heq|[r Hr]]].
    2:{ apply chem_data_inv in Hc1. congruence. }
    apply chem_data_inv in Hc1. rewrite Heq in Hc1. unfold s0 in Hc1.
    rewrite nodes_put in Hc1.
    destruct (mem_str m (root :: chems)) eqn:Hpath.
    + apply mem_str_In in Hpath. specialize (Htouched Hpath).
      rewrite Hcfg1 in Htouched.
      destruct Htouched as (Hexpl & d & Hmin & Hle & Hdone).
      split; [rewrite Hmin; discriminate|].
      intros d1 Hd1 Hmax. rewrite Hmin in Hd1. inversion Hd1; subst d1.
      split; [apply Hdone; exact Hmax|].
      intros Hnotroot. rewrite Hexpl.
      destruct (decide (leaf = m)) as [Hleaf|Hnl].
      * inversion Hc1; subst c1. simpl in *. rewrite <- Hleaf in *.
        destruct (last_or_cases root chems) as [[_ Hl]|Hin].
        { exfalso. apply Hnotroot. fold leaf in Hl. congruence. }
        pose proof (descent_not_done _ _ _ _ _ Hdesc Hin) as Hnd0.
        fold leaf in Hnd0. unfold is_chemical_done in Hnd0. rewrite Hcl in Hnd0.
        simpl in Hnd0.
        destruct (Hd leaf cl Hcl) as [HE HD].
        destruct (min_depth cl) as [d0|] eqn:Hd0.
        -- specialize (Hle d0 eq_refl).
           destruct (HD d0 eq_refl) as [Hdn _]; [lia|].
           rewrite Hdn in Hnd0. discriminate.
        -- rewrite (HE eq_refl). simpl. lia.
      * assert (Hcm : chem_data s m = Ok c1)
          by (unfold chem_data; rewrite Hc1; reflexivity).
        destruct (Hd m c1 Hcm) as [HE HD].
        destruct (min_depth c1) as [d0|] eqn:Hd0.
        -- specialize (Hle d0 eq_refl).
           destruct (HD d0 eq_refl) as [_ Hlen1]; [lia|]. apply Hlen1. exact Hnotroot.
        -- rewrite (HE eq_refl). simpl. lia.
    + apply mem_str_false in Hpath. specialize (Hsame Hpath).
      destruct Hsame as (Hmin & Hdn & Hexpl).
      destruct (decide (leaf = m)) as [Hleaf|Hnl].
      { exfalso. apply Hpath. rewrite <- Hleaf. apply last_or_in. }
      assert (Hcm : chem_data s m = Ok c1)
        by (unfold chem_data; rewrite Hc1; reflexivity).
      destruct (Hd m c1 Hcm) as [HE HD].
      rewrite Hmin, Hdn, Hexpl. split; [exact HE | exact HD].
  - (* a chemical this rollout created *)
    apply mem_str_false in Hmold.
    destruct (Hfresh m Hm' Hmold) as [Hnp Hdata].
    destruct (Hdata c1 Hc1) as [Hmin1 Hexpl1].
    destruct (Hsame Hnp) as (Hmin & Hdn & Hexpl).
    rewrite Hmin, Hexpl, Hmin1, Hexpl1. split; [reflexivity | discriminate].
Qed.

Lemma engine_after_depth_ok cfg ad tgt : forall n s,
  engine_after cfg ad tgt n = Ok s -> depth_ok s.
Proof.
  unfold engine_after. induction n as [|n IH]; intros s H; simpl in H.
  - bind_inv H as s0 Hs0. inversion H; subst s0.
    apply initialize_state in Hs0. destruct Hs0 as (c & -> & ->).
    intros m c' Hc'. apply chem_data_inv in Hc'. simpl in Hc'.
    destruct (decide (tgt = m)) as [<-|Hne].
    + rewrite lookup_insert_eq in Hc'. inversion Hc'; subst c'. simpl.
      split; [reflexivity | discriminate].
    + rewrite lookup_insert_ne in Hc' by exact Hne. rewrite lookup_empty in Hc'.
      discriminate.
  - bind_inv H as s0 Hs0. bind_inv H as s1 Hs1.
    assert (He : engine_after cfg ad tgt n = Ok s1)
      by (unfold engine_after; rewrite Hs0; exact Hs1).
    destruct (engine_after_inv _ _ _ _ _ He) as (Hi & _).
    eapply rollout_depth_ok; [exact Hi | apply IH; exact He | exact H].
Qed.

(** X19.  How [max_depth] bounds the expansion.  In every state a new engine
    reaches, a chemical whose [min_depth] is still unknown was never expanded;
    a chemical whose [min_depth] is at least [max_depth] is done and, unless
    it is the target, has at most one explored template: the one applied in
    the rollout that first reached it, before its depth was recorded. *)
Theorem depth_cap_allows_one_expansion cfg ad tgt n s
    (H : engine_after cfg ad tgt n = Ok s) :
  forall m c, chem_data s m = Ok c ->
    (min_depth c = None -> explored c = [])
    /\ (forall d, min_depth c = Some d -> max_depth cfg <= d ->
          done c = Some true /\ (m <> tgt -> length (explored c) <= 1)).
Proof.
  pose proof (engine_after_depth_ok _ _ _ _ _ H) as Hd.
  destruct (engine_after_inv _ _ _ _ _ H) as (_ & Hcfg & _ & Ht & _).
  intros m c Hc. destruct (Hd m c Hc) as [HE HD]. split; [exact HE|].
  intros d Hmin Hmax. rewrite Hcfg in HD. destruct (HD d Hmin Hmax) as [Hdone Hlen].
  split; [exact Hdone|]. intros Hne. apply Hlen. rewrite Ht. congruence.
Qed.

Lemma depth_cap_allows_one_expansion_witness :
  exists s c,
    engine_after shallow_config ad_cross "A" 2 = Ok s
    /\ chem_data s "B" = Ok c
    /\ min_depth c = Some 1
    /\ explored c = [2%Z]
    /\ successors (tree s) "B" = ["C>>B"]
    /\ done c = Some true
    /\ ("B" <> "A" -> length (explored c) <= 1).
Proof.
  eexists. eexists.
  match goal with
  | |- ?P /\ _ => assert (H : P) by (vm_compute; reflexivity)
  end.
  split; [exact H|].
  match goal with
  | |- ?P /\ _ => assert (Hc : P) by (vm_compute; reflexivity)
  end.
  split; [exact Hc|].
  match goal with
  | |- ?P /\ _ => assert (Hmin : P) by (vm_compute; reflexivity)
  end.
  split; [exact Hmin|].
  split; [vm_compute; reflexivity|].
  split; [vm_compute; reflexivity|].
  destruct (depth_cap_allows_one_expansion _ _ _ _ _ H "B" _ Hc) as [_ HD].
  apply (HD 1 Hmin). vm_compute. apply le_n.
Defined.


(** ** Identifiers *)

Lemma gt_free_arrowless x : gt_free x -> arrowless x.
Proof. intros H a b. exact (H a (">" +:+ b)). Qed.

Lemma no_gt_sound x : no_gt x = true -> gt_free x.
Proof.
  intros H a b ->. induction a as [|c a IH]; simpl in H; [discriminate|].
  apply andb_prop in H. destruct H as [_ H]. apply IH. exact H.
Qed.

Lemma product_unique t t' : gt_free t -> gt_free t' ->
  forall a a', a +:+ ">>" +:+ t = a' +:+ ">>" +:+ t' -> t = t'.
Proof.
  intros Ht Ht'.
  assert (Hbase : forall (u u' x : string), gt_free u ->
            ">" +:+ u = x +:+ ">>" +:+ u' -> False).
  { intros u u' x Hu Heq. destruct x as [|c x]; simpl in Heq.
    - injection Heq as Heq. apply (Hu "" u'). exact Heq.
    - injection Heq as _ Heq. apply (Hu x (">" +:+ u')). exact Heq. }
  induction a as [|c a IH]; intros [|c' a'] Heq.
  - simpl in Heq. injection Heq as Heq. exact Heq.
  - exfalso. simpl in Heq. injection Heq as _ Heq.
    eapply (Hbase t t' a'); [exact Ht | exact Heq].
  - exfalso. simpl in Heq. injection Heq as _ Heq.
    eapply (Hbase t' t a); [exact Ht' | symmetry; exact Heq].
  - simpl in Heq. injection Heq as _ Heq. apply (IH a'). exact Heq.
Qed.

(** ** Kinds of nodes *)

Lemma chemical_node s n :
  registry s -> typed s -> In n (chemicals s) -> exists c, chem_data s n = Ok c.
Proof.
  intros Hr Ht Hn. destruct (typed_chemical s n Hr Ht Hn) as [c Hc].
  exists c. unfold chem_data. rewrite Hc. reflexivity.
Qed.

Lemma reaction_node s n :
  registry s -> typed s -> In n (reactions s) -> exists r, rxn_data s n = Ok r.
Proof.
  intros Hr Ht Hn. destruct (typed_reaction s n Hr Ht Hn) as [r Hrd].
  exists r. unfold rxn_data. rewrite Hrd. reflexivity.
Qed.

Lemma not_both s n : typed s -> In n (chemicals s) -> In n (reactions s) -> False.
Proof.
  intros Ht H1 H2. apply (arrowless_not_reaction_id n).
  - apply (ty_chem s Ht). exact H1.
  - apply (ty_rxn s Ht). exact H2.
Qed.

Lemma under_chemical s u v :
  typed s -> In u (chemicals s) -> edge s u v -> In v (reactions s).
Proof.
  intros Ht Hu Huv. destruct (ty_edges s Ht u v Huv) as [[_ Hv]|[Hu' _]]; [exact Hv|].
  exfalso. eapply not_both; eassumption.
Qed.

Lemma under_reaction s u v :
  typed s -> In u (reactions s) -> edge s u v -> In v (chemicals s).
Proof.
  intros Ht Hu Huv. destruct (ty_edges s Ht u v Huv) as [[Hu' _]|[_ Hv]]; [|exact Hv].
  exfalso. eapply not_both; eassumption.
Qed.

(** ** The invariant *)

Lemma parent_of_keep s s' rid t :
  (forall tgt c, chem_data s tgt = Ok c ->
     exists c', chem_data s' tgt = Ok c' /\ templates c' = templates c) ->
  parent_of s rid t -> parent_of s' rid t.
Proof.
  intros Hk (joined & tgt & c & Hrid & Hc & Ht).
  destruct (Hk tgt c Hc) as (c' & Hc' & Htpl).
  exists joined, tgt, c'. rewrite Htpl. repeat split; assumption.
Qed.

Lemma sound_shape s s' :
  registry s -> typed s -> sound s ->
  (forall n, reactant (adapters s) n -> gt_free n) ->
  shape s s' -> sound s'.
Proof.
  intros Hr Ht [Hgt Hdone Hedge Hpar] Hwf Hs. destruct Hs.
  - (* a write to a chemical *)
    assert (Hkeep : forall tgt c0, chem_data s tgt = Ok c0 ->
              exists c1, chem_data (put_node s n (Chemical c')) tgt = Ok c1
                         /\ templates c1 = templates c0).
    { intros tgt c0 Hc0. destruct (decide (n = tgt)) as [<-|Hne].
      - exists c'. split; [apply chem_data_put_eq|].
        rewrite H in Hc0. inversion Hc0; subst c0.
        apply (chem_write_static _ _ _ _ H0).
      - exists c0. split; [|reflexivity]. rewrite chem_data_put_ne by exact Hne. exact Hc0. }
    split.
    + exact Hgt.
    + intros m c0. rewrite nodes_put. destruct (decide (n = m)) as [<-|Hne]; [|apply Hdone].
      intros Heq. inversion Heq; subst c0. apply chem_data_inv in H.
      pose proof (Hdone n c H) as Hd. destruct H0; simpl; try exact Hd. eexists. reflexivity.
    + exact Hedge.
    + intros rid rd t Hrd Hin. apply (parent_of_keep s); [exact Hkeep|].
      apply (Hpar rid rd t); [|exact Hin].
      unfold rxn_data in *. rewrite nodes_put in Hrd.
      destruct (decide (n = rid)); [discriminate | exact Hrd].
  - (* a new chemical *)
    assert (Hfresh : ~ In n (chemicals s)) by (apply mem_str_false; assumption).
    assert (Hnot : g_nodes (tree s) !! n = None).
    { destruct (g_nodes (tree s) !! n) as [d0|] eqn:Hn; [|reflexivity]. exfalso.
      destruct (proj1 (reg_nodes s Hr n)) as [Hc|Hc]; [rewrite Hn; eexists; reflexivity | |].
      - contradiction.
      - apply (arrowless_not_reaction_id n); [|apply (ty_rxn s Ht); exact Hc].
        apply gt_free_arrowless. apply Hwf. assumption. }
    split; simpl.
    + intros m Hm. apply in_app_or in Hm. destruct Hm as [Hm|[<-|[]]]; auto.
    + intros m c0. rewrite lookup_insert_Some. intros [[<- Heq]|[_ Hm]].
      * inversion Heq; subst c0. simpl. eexists. reflexivity.
      * apply (Hdone m c0 Hm).
    + intros u rid Hu Hur. apply in_app_or in Hu. destruct Hu as [Hu|[<-|[]]].
      * apply (Hedge u rid Hu Hur).
      * exfalso. destruct (reg_edges s Hr n rid Hur) as [[d0 Hd0] _]. congruence.
    + intros rid rd t Hrd Hin.
      assert (Hne : n <> rid).
      { intros <-. unfold rxn_data in Hrd. simpl in Hrd. rewrite lookup_insert_eq in Hrd.
        discriminate. }
      eapply (parent_of_keep s).
      * intros tgt c0 Hc0. exists c0. split; [|reflexivity].
        unfold chem_data in *. simpl. rewrite lookup_insert_ne; [exact Hc0|].
        intros <-. rewrite Hnot in Hc0. discriminate.
      * apply (Hpar rid rd t); [|exact Hin].
        unfold rxn_data in *. simpl in Hrd. rewrite lookup_insert_ne in Hrd by exact Hne.
        exact Hrd.
  - (* a new reaction *)
    assert (Hkeep : forall tgt c0, chem_data s tgt = Ok c0 ->
              exists c1, chem_data (new_reaction s rid t tscore score) tgt = Ok c1
                         /\ templates c1 = templates c0).
    { intros tgt c0 Hc0. exists c0. split; [|reflexivity].
      unfold chem_data, new_reaction in *. simpl. rewrite lookup_insert_ne; [exact Hc0|].
      intros <-. apply (arrowless_not_reaction_id rid); [|assumption].
      apply (ty_chem s Ht). apply (reg_chem s Hr rid c0). apply chem_data_inv.
      unfold chem_data. exact Hc0. }
    split; simpl.
    + exact Hgt.
    + intros m c0. rewrite lookup_insert_Some. intros [[_ Heq]|[_ Hm]]; [discriminate|].
      apply (Hdone m c0 Hm).
    + exact Hedge.
    + intros r0 rd t0 Hrd Hin. apply (parent_of_keep s); [exact Hkeep|].
      unfold rxn_data, new_reaction in Hrd. simpl in Hrd.
      destruct (decide (rid = r0)) as [<-|Hne].
      * rewrite lookup_insert_eq in Hrd. inversion Hrd; subst rd. simpl in Hin.
        destruct Hin as [<-|[]]. assumption.
      * rewrite lookup_insert_ne in Hrd by exact Hne. apply (Hpar r0 rd t0); assumption.
  - (* a write to a reaction *)
    assert (Hkeep : forall tgt c0, chem_data s tgt = Ok c0 ->
              exists c1, chem_data (put_node s rid (Reaction r')) tgt = Ok c1
                         /\ templates c1 = templates c0).
    { intros tgt c0 Hc0. exists c0. split; [|reflexivity].
      rewrite chem_data_put_ne; [exact Hc0|]. intros <-.
      apply chem_data_inv in Hc0. apply rxn_data_inv in H. congruence. }
    split.
    + exact Hgt.
    + intros m c0. rewrite nodes_put. destruct (decide (rid = m)); [discriminate|].
      apply Hdone.
    + exact Hedge.
    + intros r0 rd t Hrd Hin. apply (parent_of_keep s); [exact Hkeep|].
      unfold rxn_data in Hrd. rewrite nodes_put in Hrd.
      destruct (decide (rid = r0)) as [<-|Hne]; [|apply (Hpar r0 rd t); assumption].
      inversion Hrd; subst rd. destruct H0; simpl in Hin.
      * apply in_app_or in Hin. destruct Hin as [Hin|[<-|[]]]; [|assumption].
        apply (Hpar rid r t); assumption.
      * apply (Hpar rid r t); assumption.
  - (* an edge from a chemical to a reaction *)
    split; simpl.
    + exact Hgt.
    + intros m c0. rewrite add_edge_nodes. apply Hdone.
    + intros u0 r0 Hu0 He. unfold edge, g_edge in He. simpl in He.
      apply add_edge_inv in He. destruct He as [He|[-> ->]]; [|assumption].
      apply (Hedge u0 r0 Hu0 He).
    + intros r0 rd t Hrd Hin. eapply (parent_of_keep s).
      * intros tgt c0 Hc0. exists c0. split; [|reflexivity].
        unfold chem_data in *. simpl. rewrite add_edge_nodes. exact Hc0.
      * apply (Hpar r0 rd t); [|exact Hin].
        unfold rxn_data in *. simpl in Hrd. rewrite add_edge_nodes in Hrd. exact Hrd.
  - (* an edge from a reaction to a chemical *)
    split; simpl.
    + exact Hgt.
    + intros m c0. rewrite add_edge_nodes. apply Hdone.
    + intros u0 r0 Hu0 He. unfold edge, g_edge in He. simpl in He.
      apply add_edge_inv in He. destruct He as [He|[-> ->]]; [apply (Hedge u0 r0 Hu0 He)|].
      exfalso. destruct (typed_chemical s rid Hr Ht Hu0) as [c0 Hc0].
      apply rxn_data_inv in H. congruence.
    + intros r0 rd t Hrd Hin. eapply (parent_of_keep s).
      * intros tgt c0 Hc0. exists c0. split; [|reflexivity].
        unfold chem_data in *. simpl. rewrite add_edge_nodes. exact Hc0.
      * apply (Hpar r0 rd t); [|exact Hin].
        unfold rxn_data in *. simpl in Hrd. rewrite add_edge_nodes in Hrd. exact Hrd.
Qed.

Lemma good_steps s s' :
  rtc step s s' -> good s ->
  (forall n, reactant (adapters s) n -> gt_free n) ->
  good s'.
Proof.
  induction 1 as [|s s1 s2 H1 _ IH]; intros (Hi & Ht & Hso) Hwf; [exact (conj Hi (conj Ht Hso))|].
  pose proof (step_shape _ _ H1) as Hsh.
  apply IH.
  - split; [eapply inv_shape; eassumption|]. split.
    + eapply typed_shape; [apply (inv_registry s Hi) | exact Ht | | exact Hsh].
      intros n Hn. apply gt_free_arrowless. apply Hwf. exact Hn.
    + eapply sound_shape; [apply (inv_registry s Hi) | exact Ht | exact Hso | exact Hwf | exact Hsh].
  - destruct (step_frame _ _ H1) as (_ & -> & _). exact Hwf.
Qed.

Lemma plain_reactant ad n : plain_outcomes ad -> reactant ad n -> gt_free n.
Proof. intros Hp (chem & t & rl & Hrl & Hn). apply (proj2 (Hp chem t rl Hrl)). exact Hn. Qed.

Lemma sound_initialize cfg ad tgt s :
  gt_free tgt -> _initialize (MCTS_init cfg ad) tgt = Ok s -> sound s.
Proof.
  intros Hg H. apply initialize_state in H. destruct H as (c & -> & Hc).
  split; simpl.
  - intros n [<-|[]]. exact Hg.
  - intros n c0. rewrite lookup_insert_Some. intros [[_ Heq]|[_ Hm]].
    + inversion Heq; subst c0. rewrite Hc. simpl. eexists. reflexivity.
    + rewrite lookup_empty in Hm. discriminate.
  - intros u rid _ Hur. unfold edge, g_edge, successors in Hur. simpl in Hur.
    rewrite lookup_empty in Hur. destruct Hur.
  - intros rid rd t Hrd. unfold rxn_data in Hrd. simpl in Hrd.
    destruct (decide (tgt = rid)) as [<-|Hne].
    + rewrite lookup_insert_eq in Hrd. discriminate.
    + rewrite lookup_insert_ne in Hrd by exact Hne. rewrite lookup_empty in Hrd. discriminate.
Qed.

Lemma engine_after_good cfg ad tgt :
  gt_free tgt -> plain_outcomes ad ->
  forall n s, engine_after cfg ad tgt n = Ok s -> good s /\ rxn_linked s.
Proof.
  intros Htgt Hp n s H.
  destruct (engine_after_inv _ _ _ _ _ H) as (Hi & _ & Had & _).
  destruct (engine_after_typed cfg ad tgt (gt_free_arrowless _ Htgt)) with (n := n) (s := s)
    as [Ht Hl]; try assumption.
  { intros chem t rl x Hrl Hx. apply gt_free_arrowless. apply (proj2 (Hp chem t rl Hrl)). exact Hx. }
  { intros chem t rl Hrl. apply (proj1 (Hp chem t rl Hrl)). }
  split; [|exact Hl]. split; [exact Hi|]. split; [exact Ht|].
  clear Hi Had Ht Hl. revert s H. unfold engine_after.
  induction n as [|n IH]; intros s H; simpl in H.
  - bind_inv H as s0 Hs0. inversion H; subst s0. eapply sound_initialize; eassumption.
  - bind_inv H as s0 Hs0. bind_inv H as s1 Hs1.
    assert (He : engine_after cfg ad tgt n = Ok s1)
      by (unfold engine_after; rewrite Hs0; exact Hs1).
    destruct (engine_after_inv _ _ _ _ _ He) as (Hi & _ & Had & _).
    destruct (engine_after_typed cfg ad tgt (gt_free_arrowless _ Htgt)) with (n := n) (s := s1)
      as [Ht Hl]; try assumption.
    { intros chem t rl x Hrl Hx. apply gt_free_arrowless. apply (proj2 (Hp chem t rl Hrl)). exact Hx. }
    { intros chem t rl Hrl. apply (proj1 (Hp chem t rl Hrl)). }
    assert (Hg : good s1).
    { split; [exact Hi|]. split; [exact Ht|]. apply IH. unfold engine_after in He.
      rewrite Hs0 in He. simpl in He. rewrite Hs0. simpl. exact He. }
    apply (good_steps s1 s (rollout_steps _ _ H) Hg).
    rewrite Had. intros x Hx. eapply plain_reactant; eassumption.
Qed.

(** ** Reads that cannot fail *)

Lemma template_prob_total (tpl : list (Z * float)) t :
  In t (dict_keys tpl) -> exists p, template_prob tpl t = Ok p.
Proof.
  unfold template_prob. induction tpl as [|[k v] tpl IH]; simpl; intros H; [destruct H|].
  destruct (t =? k)%Z eqn:Hk; [eauto|].
  destruct H as [H|H]; [subst k; rewrite Z.eqb_refl in Hk; discriminate|].
  apply IH. exact H.
Qed.

Lemma map_m_total {A B : Type} (f : A -> result B) l :
  (forall x, In x l -> exists y, f x = Ok y) -> exists ys, map_m f l = Ok ys.
Proof.
  induction l as [|x l IH]; simpl; intros H; [eauto|].
  destruct (H x (or_introl eq_refl)) as [y ->]. simpl.
  destruct IH as [ys ->]; [intros z Hz; apply H; right; exact Hz|]. simpl. eauto.
Qed.

Lemma all_m_false_In {A : Type} (f : A -> result bool) l :
  all_m f l = Ok false -> exists x, In x l /\ f x = Ok false.
Proof.
  induction l as [|y l IH]; simpl; intros H; [discriminate|].
  destruct (f y) as [[|]|e] eqn:Hy; simpl in H; try discriminate.
  - destruct (IH H) as (x & Hx & Hfx). exists x. split; [right|]; assumption.
  - exists y. split; [left; reflexivity | exact Hy].
Qed.

Lemma no_node_no_successor s n :
  registry s -> g_nodes (tree s) !! n = None -> successors (tree s) n = [].
Proof.
  intros Hr Hn. destruct (successors (tree s) n) as [|v l] eqn:Hs; [reflexivity|]. exfalso.
  destruct (reg_edges s Hr n v) as [[d Hd] _]; [|congruence].
  unfold edge, g_edge. rewrite Hs. left. reflexivity.
Qed.

Lemma is_chemical_done_total s n :
  registry s -> typed s -> sound s -> In n (chemicals s) ->
  exists b, is_chemical_done s n = Ok b.
Proof.
  intros Hr Ht Hso Hn. destruct (typed_chemical s n Hr Ht Hn) as [c Hc].
  destruct (so_done s Hso n c Hc) as [b Hb].
  exists b. unfold is_chemical_done, chem_data. rewrite Hc. simpl. rewrite Hb. reflexivity.
Qed.

Lemma is_reaction_done_total s rxn :
  registry s -> typed s -> sound s -> In rxn (reactions s) ->
  exists b, is_reaction_done s rxn = Ok b.
Proof.
  intros Hr Ht Hso Hn. unfold is_reaction_done. destruct (0 <? _)%nat; [|eauto].
  apply all_m_defined. intros x Hx. apply is_chemical_done_total; try assumption.
  eapply under_reaction; [exact Ht | exact Hn | exact Hx].
Qed.

Lemma compute_done_total s n c :
  registry s -> typed s -> sound s ->
  (forall r, In r (successors (tree s) n) -> In r (reactions s)) ->
  exists d, compute_done s n c = Ok d.
Proof.
  intros Hr Ht Hso Hsucc. unfold compute_done.
  destruct (truthy _); [eauto|]. destruct (_ =? 0)%nat; [eauto|].
  destruct (match min_depth c with Some d => _ | None => false end); [eauto|].
  destruct (_ || _); [|eauto].
  apply all_m_defined. intros x Hx. apply is_reaction_done_total; auto.
Qed.

Lemma node_visit_count_total s n :
  is_Some (g_nodes (tree s) !! n) -> exists v, node_visit_count s n = Ok v.
Proof.
  intros [d Hd]. unfold node_visit_count. rewrite Hd. destruct d; eauto.
Qed.

(** ** The node factory and the expansion *)

Lemma create_chemical_node_total s n :
  registry s -> typed s -> ~ In n (chemicals s) -> arrowless n ->
  exists s', create_chemical_node s n = Ok s'.
Proof.
  intros Hr Ht Hn Ha. unfold create_chemical_node.
  destruct (predict _ _ _ _) as [probs indices]. cbv zeta.
  unfold is_chemical_done_update. rewrite chem_data_put_eq. simpl.
  match goal with
  | |- context [compute_done ?s2 n ?c] =>
      destruct (compute_done_no_successors s2 n c) as [d Hd]
  end.
  - rewrite successors_put. simpl. apply no_node_no_successor; [exact Hr|].
    destruct (g_nodes (tree s) !! n) as [d0|] eqn:Hd0; [|reflexivity]. exfalso.
    destruct (proj1 (reg_nodes s Hr n)) as [Hc|Hc]; [rewrite Hd0; eexists; reflexivity | |].
    + contradiction.
    + apply (arrowless_not_reaction_id n Ha). apply (ty_rxn s Ht). exact Hc.
  - rewrite Hd. simpl. eauto.
Qed.

Lemma good_step s s' :
  step s s' -> inv s -> typed s ->
  (forall n, reactant (adapters s) n -> gt_free n) ->
  inv s' /\ typed s'.
Proof.
  intros Hst Hi Ht Hwf. pose proof (step_shape _ _ Hst) as Hsh. split.
  - eapply inv_shape; eassumption.
  - eapply typed_shape; [apply (inv_registry s Hi) | exact Ht | | exact Hsh].
    intros n Hn. apply gt_free_arrowless. apply Hwf. exact Hn.
Qed.

Lemma good_rtc s s' :
  rtc step s s' -> inv s -> typed s ->
  (forall n, reactant (adapters s) n -> gt_free n) ->
  inv s' /\ typed s'.
Proof.
  induction 1 as [|s s1 s2 H1 _ IH]; intros Hi Ht Hwf; [split; assumption|].
  destruct (good_step _ _ H1 Hi Ht Hwf) as [Hi1 Ht1].
  apply IH; try assumption.
  destruct (step_frame _ _ H1) as (_ & -> & _). exact Hwf.
Qed.

Lemma register_reactants_total rl path : forall s,
  inv s -> typed s ->
  (forall n, reactant (adapters s) n -> gt_free n) ->
  (forall x, In x rl -> reactant (adapters s) x) ->
  exists b s1, register_reactants s rl path = Ok (b, s1).
Proof.
  induction rl as [|x rl IH]; intros s Hi Ht Hwf Hrl; simpl; [eauto|].
  destruct (mem_str x path); [eauto|].
  destruct (mem_str x (chemicals s)) eqn:Hmem; simpl.
  - apply IH; try assumption. intros y Hy. apply Hrl. right. exact Hy.
  - assert (Hx : reactant (adapters s) x) by (apply Hrl; left; reflexivity).
    destruct (create_chemical_node_total s x) as [s0 Hs0].
    + apply (inv_registry s Hi).
    + exact Ht.
    + apply mem_str_false. exact Hmem.
    + apply gt_free_arrowless. apply Hwf. exact Hx.
    + rewrite Hs0. simpl.
      assert (Hst : step s s0) by (eapply step_create; eassumption).
      destruct (good_step _ _ Hst Hi Ht Hwf) as [Hi0 Ht0].
      destruct (step_frame _ _ Hst) as (_ & Had & _).
      apply IH; try assumption.
      * rewrite Had. exact Hwf.
      * rewrite Had. intros y Hy. apply Hrl. right. exact Hy.
Qed.

Lemma process_outcome_total tgt template path s rl c :
  inv s -> typed s ->
  (forall n, reactant (adapters s) n -> gt_free n) ->
  (forall x, In x rl -> reactant (adapters s) x) ->
  In tgt path -> chem_data s tgt = Ok c -> In template (dict_keys (templates c)) ->
  exists s', process_outcome tgt template path s rl = Ok s'.
Proof.
  intros Hi Ht Hwf Hrl Hpath Hc Hkey. unfold process_outcome. cbv zeta.
  destruct (_ <? _)%float; [eauto|].
  destruct (register_reactants_total rl path s Hi Ht Hwf Hrl) as (b & s1 & Hreg).
  rewrite Hreg. simpl. destruct b; [|eauto].
  destruct (register_reactants_steps _ _ _ _ _ Hrl Hreg) as (Hsteps & Hnodes & _ & _).
  destruct (good_rtc _ _ Hsteps Hi Ht Hwf) as [Hi1 Ht1].
  assert (Hc1 : chem_data s1 tgt = Ok c).
  { unfold chem_data in *. rewrite (Hnodes tgt Hpath). exact Hc. }
  rewrite Hc1. simpl.
  destruct (template_prob_total _ _ Hkey) as [p Hp]. rewrite Hp. simpl.
  destruct (mem_str _ (reactions s1)) eqn:Hmem; simpl; [|eauto].
  apply mem_str_In in Hmem.
  destruct (reaction_node s1 _ (inv_registry s1 Hi1) Ht1 Hmem) as [rd Hrd].
  unfold merge_reaction. rewrite Hrd. simpl. eauto.
Qed.

Lemma process_precursors_total root tgt template path c : forall precursors s,
  inv s -> typed s ->
  (forall n, reactant (adapters s) n -> gt_free n) ->
  (forall rl x, In rl precursors -> In x rl -> reactant (adapters s) x) ->
  In root path -> In tgt path -> expandable s root tgt ->
  chem_data s tgt = Ok c -> In template (dict_keys (templates c)) ->
  exists s', _process_precursors s tgt template precursors path = Ok s'.
Proof.
  unfold _process_precursors.
  induction precursors as [|rl rest IH]; intros s Hi Ht Hwf Hpre Hrpath Hpath Hexp Hc Hkey;
    simpl; [eauto|].
  assert (Hrl : forall x, In x rl -> reactant (adapters s) x)
    by (intros x Hx; apply (Hpre rl x); [left; reflexivity | exact Hx]).
  destruct (process_outcome_total tgt template path s rl c Hi Ht Hwf Hrl Hpath Hc Hkey)
    as [s1 Hs1].
  rewrite Hs1. simpl.
  destruct (process_outcome_steps _ _ _ _ _ _ _ Hrl Hrpath Hpath Hexp Hs1) as [Hsteps Hn].
  destruct (good_rtc _ _ Hsteps Hi Ht Hwf) as [Hi1 Ht1].
  pose proof (rtc_step_frame _ _ Hsteps) as (_ & Had & Htg).
  apply IH; try assumption.
  - rewrite Had. exact Hwf.
  - rewrite Had. intros rl' x Hrl' Hx. apply (Hpre rl' x); [right; exact Hrl' | exact Hx].
  - eapply expandable_keep; [exact Hexp | exact Htg | exact Hn |].
    apply rtc_step_succ. exact Hsteps.
  - unfold chem_data in *. rewrite Hn. exact Hc.
Qed.

(** ** The back-update *)

Lemma update_step_total s i chem orxn :
  good s -> (forall n, reactant (adapters s) n -> gt_free n) ->
  In chem (chemicals s) ->
  (forall rxn, orxn = Some rxn -> is_Some (g_nodes (tree s) !! rxn)) ->
  exists s', update_step s (Some (i, chem), orxn) = Ok s'.
Proof.
  intros (Hi & Ht & Hso) Hwf Hchem Hrxn. unfold update_step. cbn [fst snd].
  destruct (chemical_node s chem (inv_registry s Hi) Ht Hchem) as [c Hc].
  rewrite Hc. simpl.
  match goal with
  | |- context [is_chemical_done_update ?st chem] => set (s1 := st)
  end.
  assert (Hst : rtc step s s1).
  { eapply rtc_l; [apply (step_visit s chem c i); exact Hc | apply rtc_refl]. }
  destruct (good_steps _ _ Hst (conj Hi (conj Ht Hso)) Hwf) as (Hi1 & Ht1 & Hso1).
  unfold is_chemical_done_update.
  assert (Hc1 : exists c1, chem_data s1 chem = Ok c1) by (eexists; apply chem_data_put_eq).
  destruct Hc1 as [c1 Hc1]. rewrite Hc1. simpl.
  destruct (compute_done_total s1 chem c1 (inv_registry s1 Hi1) Ht1 Hso1) as [d Hd].
  { intros r Hr. eapply under_chemical; [exact Ht1 | | exact Hr]. exact Hchem. }
  rewrite Hd. simpl.
  destruct orxn as [rxn|]; [|eauto].
  destruct (Hrxn rxn eq_refl) as [d0 Hd0].
  unfold bump_visit_count. rewrite nodes_put.
  destruct (decide (chem = rxn)) as [<-|Hne]; [eauto|].
  unfold s1. rewrite nodes_put. destruct (decide (chem = rxn)); [contradiction|].
  rewrite Hd0. destruct d0; eauto.
Qed.

Lemma update_total : forall items s,
  good s -> (forall n, reactant (adapters s) n -> gt_free n) ->
  (forall item, In item items ->
     exists i chem, fst item = Some (i, chem) /\ In chem (chemicals s)
       /\ forall rxn, snd item = Some rxn -> is_Some (g_nodes (tree s) !! rxn)) ->
  exists s', fold_m update_step items s = Ok s'.
Proof.
  induction items as [|item items IH]; intros s Hg Hwf Hitems; simpl; [eauto|].
  destruct (Hitems item (or_introl eq_refl)) as (i & chem & Hfst & Hchem & Hrxn).
  destruct item as [x orxn]. simpl in Hfst, Hrxn. subst x.
  destruct (update_step_total s i chem orxn Hg Hwf Hchem Hrxn) as [s1 Hs1].
  rewrite Hs1. simpl.
  assert (Hst : rtc step s s1).
  { apply (update_steps [(Some (i, chem), orxn)]). simpl. rewrite Hs1. reflexivity. }
  pose proof (good_steps _ _ Hst Hg Hwf) as Hg1.
  pose proof (rtc_step_frame _ _ Hst) as (_ & Had & _).
  destruct (steps_grow _ _ Hst) as (Hnodes & _ & (l & Hl) & _).
  apply IH; [exact Hg1 | rewrite Had; exact Hwf |].
  intros item Hitem.
  destruct (Hitems item (or_intror Hitem)) as (i' & chem' & Hf' & Hc' & Hr').
  exists i', chem'. split; [exact Hf'|]. split.
  - rewrite Hl. apply in_or_app. left. exact Hc'.
  - intros rxn Hrxn'. apply Hnodes. apply Hr'. exact Hrxn'.
Qed.

Lemma zip_longest_left {A B : Type} : forall (l1 : list A) (l2 : list B) x y,
  length l2 <= length l1 -> In (x, y) (zip_longest l1 l2) -> exists a, x = Some a.
Proof.
  induction l1 as [|a l1 IH]; intros l2 x y Hlen Hin; simpl in *.
  - destruct l2; [destruct Hin | simpl in Hlen; lia].
  - destruct l2 as [|b l2]; destruct Hin as [Heq|Hin].
    + inversion Heq; subst. eauto.
    + apply (IH [] x y); [simpl; lia | exact Hin].
    + inversion Heq; subst. eauto.
    + apply (IH l2 x y); [simpl in Hlen; lia | exact Hin].
Qed.

(** ** Selection *)

Lemma ucb_reaction_total s leaf c path w acc rxn :
  registry s -> typed s -> sound s ->
  In leaf (chemicals s) -> chem_data s leaf = Ok c -> edge s leaf rxn ->
  exists acc', ucb_reaction s (templates c) (visit_count c) path w acc rxn = Ok acc'.
Proof.
  intros Hr Ht Hso Hleaf Hc He. unfold ucb_reaction.
  pose proof (under_chemical s leaf rxn Ht Hleaf He) as Hrxn.
  destruct (reaction_node s rxn Hr Ht Hrxn) as [rd Hrd]. rewrite Hrd. simpl.
  unfold ucb_skips.
  destruct (is_reaction_done_total s rxn Hr Ht Hso Hrxn) as [b Hb]. rewrite Hb. simpl.
  destruct (b || _); [eauto|].
  destruct (map_m_total (template_prob (templates c)) (rxn_templates rd)) as [probs Hprobs].
  { intros t Hin. apply template_prob_total.
    destruct (so_parent s Hso rxn rd t Hrd Hin) as (joined & tgt & c' & Hid & Hc' & Hkey).
    destruct (so_edge s Hso leaf rxn Hleaf He) as [joined' Hid'].
    assert (Heq : tgt = leaf).
    { apply (product_unique tgt leaf) with (a := joined) (a' := joined').
      - apply (so_gt s Hso). eapply (reg_chem s Hr). apply chem_data_inv. exact Hc'.
      - apply (so_gt s Hso). exact Hleaf.
      - congruence. }
    subst tgt. rewrite Hc in Hc'. inversion Hc'; subst c'. exact Hkey. }
  rewrite Hprobs. simpl. eauto.
Qed.

Lemma ucb_total s leaf path w :
  registry s -> typed s -> sound s -> In leaf (chemicals s) ->
  exists r, ucb s leaf path w = Ok r.
Proof.
  intros Hr Ht Hso Hleaf. unfold ucb.
  destruct (chemical_node s leaf Hr Ht Hleaf) as [c Hc]. rewrite Hc. simpl.
  assert (Hfold : forall rxns acc,
            (forall rxn, In rxn rxns -> edge s leaf rxn) ->
            exists acc',
              fold_m (ucb_reaction s (templates c) (visit_count c) path w) rxns acc = Ok acc').
  { induction rxns as [|rxn rxns IH]; intros acc Hrx; simpl; [eauto|].
    destruct (ucb_reaction_total s leaf c path w acc rxn Hr Ht Hso Hleaf Hc) as [acc1 Ha].
    { apply Hrx. left. reflexivity. }
    rewrite Ha. simpl. apply IH. intros r0 Hr0. apply Hrx. right. exact Hr0. }
  destruct (Hfold (successors (tree s) leaf) (0%float, [])) as [acc Hacc]; [auto|].
  rewrite Hacc. simpl. eauto.
Qed.

Lemma min_precursor_total s : forall cands best,
  registry s -> typed s -> sound s ->
  (forall c, In c cands -> In c (chemicals s)) ->
  exists r, min_precursor s cands best = Ok r
    /\ (best <> None \/ (exists c, In c cands /\ is_chemical_done s c = Ok false) ->
        r <> None).
Proof.
  induction cands as [|c rest IH]; intros best Hr Ht Hso Hc; simpl.
  - exists best. split; [reflexivity|]. intros [Hb|(c & [] & _)]. exact Hb.
  - assert (Hrest : forall x, In x rest -> In x (chemicals s))
      by (intros x Hx; apply Hc; right; exact Hx).
    destruct (is_chemical_done_total s c Hr Ht Hso (Hc c (or_introl eq_refl))) as [d Hd].
    rewrite Hd. simpl. destruct d.
    + destruct (IH best Hr Ht Hso Hrest) as (r & Hmin & Hsome).
      exists r. split; [exact Hmin|]. intros [Hb|(x & [<-|Hx] & Hdx)].
      * apply Hsome. left. exact Hb.
      * congruence.
      * apply Hsome. right. exists x. split; assumption.
    + destruct (node_visit_count_total s c) as [v Hv].
      { apply (reg_nodes s Hr). left. apply Hc. left. reflexivity. }
      rewrite Hv. simpl.
      assert (Hnew : exists r, min_precursor s rest (Some (c, v)) = Ok r /\ r <> None).
      { destruct (IH (Some (c, v)) Hr Ht Hso Hrest) as (r & Hmin & Hsome).
        exists r. split; [exact Hmin|]. apply Hsome. left. discriminate. }
      destruct best as [[b vb]|].
      * destruct (v <? vb)%nat.
        -- destruct Hnew as (r & Hmin & Hne). exists r. split; [exact Hmin|]. intros _. exact Hne.
        -- destruct (IH (Some (b, vb)) Hr Ht Hso Hrest) as (r & Hmin & Hsome).
           exists r. split; [exact Hmin|]. intros _. apply Hsome. left. discriminate.
      * destruct Hnew as (r & Hmin & Hne). exists r. split; [exact Hmin|]. intros _. exact Hne.
Qed.

Lemma select_loop_total : forall fuel s root pre rxn_path,
  registry s -> typed s -> sound s -> rxn_linked s ->
  (forall x, In x (root :: pre) -> In x (chemicals s)) ->
  match select_loop fuel s (root :: pre) rxn_path with
  | Ok _ => True
  | Raise e => e = IndexError \/ e = OutOfFuel
  end.
Proof.
  induction fuel as [|fuel IH]; intros s root pre rxn_path Hr Ht Hso Hl Hpath; simpl;
    [right; reflexivity|].
  rewrite last_of_cons. simpl.
  assert (Hleaf : In (last_or root pre) (chemicals s)) by (apply Hpath; apply last_or_in).
  destruct (ucb_total s (last_or root pre) (root :: pre) (exploration_weight (config s))
              Hr Ht Hso Hleaf) as [[options template_opt] Hucb].
  rewrite Hucb. simpl.
  destruct (sort_desc (select_options s (last_or root pre) options template_opt))
    as [|[score [rxn|t]] rest] eqn:Hsort; [left; reflexivity| |exact I].
  apply sort_desc_head in Hsort.
  apply (proj1 (In_select_options_descend _ _ _ _ _ _)) in Hsort.
  unfold ucb in Hucb. bind_inv Hucb as c Hc. bind_inv Hucb as acc Hacc.
  inversion Hucb; subst options template_opt; clear Hucb.
  apply (proj1 (In_sort_desc _ _)) in Hsort.
  destruct (ucb_reaction_sources _ _ _ _ _ _ _ _ Hacc _ Hsort) as [[]|[Hsucc Hskip]].
  cbn [snd] in Hsucc, Hskip.
  pose proof (under_chemical s _ rxn Ht Hleaf Hsucc) as Hrxn.
  unfold ucb_skips in Hskip. bind_inv Hskip as dn Hdn. injection Hskip as Hs.
  apply orb_false_elim in Hs. destruct Hs as [-> Hint].
  assert (Hopen : exists x, In x (successors (tree s) rxn) /\ is_chemical_done s x = Ok false).
  { unfold is_reaction_done in Hdn.
    destruct (reaction_node s rxn Hr Ht Hrxn) as [rd Hrd].
    pose proof (Hl rxn rd Hrd) as Hne.
    unfold out_degree in Hdn. destruct (successors (tree s) rxn) as [|v l] eqn:Hsuc; [congruence|].
    simpl in Hdn. apply (all_m_false_In (is_chemical_done s) (v :: l)). exact Hdn. }
  destruct (min_precursor_total s (successors (tree s) rxn) None Hr Ht Hso) as (r & Hmin & Hsome).
  { intros x Hx. eapply under_reaction; [exact Ht | exact Hrxn | exact Hx]. }
  rewrite Hmin. simpl.
  destruct r as [[precursor v]|]; [|exfalso; apply Hsome; [right; exact Hopen | reflexivity]].
  destruct (min_precursor_some _ _ _ _ _ Hmin) as [Hb|[Hin Hd]]; [discriminate|].
  change ((root :: pre) ++ [precursor]) with (root :: (pre ++ [precursor])).
  apply IH; try assumption.
  intros x [<-|Hx]; [apply Hpath; left; reflexivity|].
  apply in_app_or in Hx. destruct Hx as [Hx|[<-|[]]]; [apply Hpath; right; exact Hx|].
  eapply under_reaction; [exact Ht | exact Hrxn | exact Hin].
Qed.

Lemma select_total s root :
  registry s -> typed s -> sound s -> rxn_linked s -> target s = Some root ->
  ok_or_index (_select s).
Proof.
  intros Hr Ht Hso Hl Htg.
  pose proof (select_never_out_of_fuel s) as Hfuel. unfold _select in *. rewrite Htg in *.
  pose proof (select_loop_total (S (size (g_nodes (tree s)))) s root [] [] Hr Ht Hso Hl) as H.
  destruct (select_loop _ s [root] []) as [r|e]; [exact I|]. simpl.
  destruct H as [->| ->]; [| reflexivity | discriminate].
  intros x [<-|[]]. apply (reg_target s Hr). exact Htg.
Qed.

Lemma descent_kinds s : forall rxns chems from,
  typed s -> In from (chemicals s) -> descent s from rxns chems ->
  (forall c, In c chems -> In c (chemicals s))
  /\ (forall r, In r rxns -> In r (reactions s)).
Proof.
  induction rxns as [|r rxns IH]; intros [|c chems] from Ht Hfrom Hd; simpl in Hd;
    try destruct Hd; [split; intros x []|].
  destruct H0 as (H2 & _ & H4).
  pose proof (under_chemical s from r Ht Hfrom H) as Hr.
  pose proof (under_reaction s r c Ht Hr H2) as Hc.
  destruct (IH chems c Ht Hc H4) as [IH1 IH2].
  split; intros x [<-|Hx]; auto.
Qed.

(** ** A rollout *)

Lemma rollout_total s root :
  good s -> rxn_linked s -> plain_outcomes (adapters s) -> target s = Some root ->
  (exists s', _rollout s = Ok s')
  \/ (_select s = Raise IndexError /\ _rollout s = Raise IndexError).
Proof.
  intros (Hi & Ht & Hso) Hl Hp Htg.
  pose proof (inv_registry s Hi) as Hr.
  assert (Hwf : forall n, reactant (adapters s) n -> gt_free n)
    by (intros n Hn; eapply plain_reactant; eassumption).
  pose proof (select_total s root Hr Ht Hso Hl Htg) as Hsel.
  unfold _rollout.
  destruct (_select s) as [[[chem_path rxn_path] template]|e] eqn:Hselect; simpl in Hsel.
  2:{ right. subst e. split; reflexivity. }
  left. simpl.
  destruct (select_spec _ _ _ _ Hselect)
    as (root' & chems & c & Hroot & -> & Hlen & Hnd & Hdesc & Hc & Hkey & Hnew & Hdeg).
  assert (root' = root) as -> by congruence.
  pose proof (reg_target s Hr root Htg) as Hrootc.
  destruct (descent_kinds s rxn_path chems root Ht Hrootc Hdesc) as [Hchems Hrxns].
  (* expansion *)
  assert (Hexp : exists s1, _expand s (root :: chems) template = Ok s1 /\ rtc step s s1).
  { unfold _expand. rewrite last_of_cons. simpl. rewrite Hc. simpl. rewrite Hnew.
    set (leaf := last_or root chems) in *.
    set (s0 := put_node s leaf (Chemical (set_explored (explored c ++ [template]) c))).
    assert (Hleaf : root = leaf \/ is_chemical_done s leaf = Ok false).
    { destruct chems as [|c0 chems]; [left; reflexivity|].
      right. apply (descent_last_not_done _ _ _ _ Hdesc). discriminate. }
    assert (Hst0 : step s s0).
    { apply (step_explore s leaf c template); try assumption.
      destruct Hleaf as [Hle|Hle]; [left; congruence | right; exact Hle]. }
    destruct (good_step _ _ Hst0 Hi Ht Hwf) as [Hi0 Ht0].
    assert (Hpre : forall rl x, In rl (_get_precursors s0 leaf template) -> In x rl ->
                     reactant (adapters s0) x).
    { intros rl x Hrl Hx. unfold _get_precursors in Hrl.
      destruct (template_ok _ _); [|destruct Hrl].
      eexists. eexists. exists rl. split; [exact Hrl | exact Hx]. }
    assert (Hexp0 : expandable s0 root leaf).
    { split; [exact Hroot|]. split.
      - destruct Hleaf as [Hle|Hle]; [left; exact Hle|]. right.
        unfold is_chemical_done in *. unfold s0. rewrite chem_data_put_eq.
        rewrite Hc in Hle. exact Hle.
      - apply descent_reach in Hdesc. exact Hdesc. }
    destruct (process_precursors_total root leaf template (root :: chems)
                (set_explored (explored c ++ [template]) c)
                (_get_precursors s0 leaf template) s0 Hi0 Ht0) as [s1 Hs1].
    - exact Hwf.
    - exact Hpre.
    - left. reflexivity.
    - apply last_or_in.
    - exact Hexp0.
    - apply chem_data_put_eq.
    - exact Hkey.
    - exists s1. split; [exact Hs1|].
      eapply rtc_l; [exact Hst0|].
      refine (process_precursors_steps root leaf template (root :: chems)
                _ _ _ Hpre (or_introl eq_refl) (last_or_in root chems) Hexp0 Hs1). }
  destruct Hexp as (s1 & Hs1 & Hsteps). rewrite Hs1. simpl.
  pose proof (good_steps _ _ Hsteps (conj Hi (conj Ht Hso)) Hwf) as Hg1.
  pose proof (rtc_step_frame _ _ Hsteps) as (_ & Had & Htg1).
  destruct (steps_grow _ _ Hsteps) as (Hnodes & _ & (l & Hlc) & _).
  (* back-update *)
  unfold _update. rewrite Htg1, Htg. rewrite String.eqb_refl. simpl negb. cbv iota.
  apply update_total; [exact Hg1 | rewrite Had; exact Hwf |].
  intros [x y] Hitem.
  match type of Hitem with
  | In _ (zip_longest ?l1 ?l2) => assert (Hlen2 : length l2 <= length l1)
  end.
  { rewrite length_combine, !length_app, !length_rev, length_seq. simpl. lia. }
  destruct (zip_longest_left _ _ x y Hlen2 Hitem) as [[i chem] ->].
  destruct (zip_longest_In _ _ _ _ Hitem) as [Hx Hy].
  exists i, chem. split; [reflexivity|]. split.
  - specialize (Hx (i, chem) eq_refl). apply in_combine_r in Hx.
    rewrite Hlc. apply in_or_app. left.
    apply in_app_or in Hx. destruct Hx as [Hx|[<-|[]]]; [|exact Hrootc].
    apply in_rev in Hx. apply Hchems. exact Hx.
  - intros rxn Hrxn. simpl in Hrxn. subst y.
    specialize (Hy rxn eq_refl). apply in_rev in Hy.
    apply Hnodes. apply (reg_nodes s Hr). right. apply Hrxns. exact Hy.
Qed.

Lemma MCTS_done_total s root :
  good s -> target s = Some root -> exists b, MCTS_done s = Ok b.
Proof.
  intros (Hi & Ht & Hso) Htg. unfold MCTS_done. rewrite Htg.
  destruct (is_chemical_done_total s root (inv_registry s Hi) Ht Hso) as [b Hb].
  { apply (reg_target s (inv_registry s Hi)). exact Htg. }
  rewrite Hb. simpl. eauto.
Qed.

(** How the loop of [build_tree] fails: on its own fuel, on the [done]
    property, or on a rollout that was started while the engine was not
    done. *)
Lemma expansion_loop_raise clock st : forall fuel j el s n k e,
  expansion_loop fuel clock j st el s n = (k, Raise e) ->
  (e = OutOfFuel /\ k = n + fuel)
  \/ exists m s', run_rollouts m s = Ok s'
       /\ ((k = n + m /\ MCTS_done s' = Raise e)
           \/ (k = n + m + 1 /\ MCTS_done s' = Ok false /\ _rollout s' = Raise e)).
Proof.
  induction fuel as [|fuel IH]; intros j el s n k e H; simpl in H.
  - inversion H; subst. left. split; [reflexivity | lia].
  - destruct (el <? expansion_time (config s))%float; [|discriminate].
    destruct (MCTS_done s) as [[|]|e0] eqn:Hdone; try discriminate.
    + destruct (_rollout s) as [s1|e1] eqn:Hroll.
      * apply IH in H. destruct H as [[-> ->]|(m & s' & Hrun & Hcase)].
        { left. split; [reflexivity | lia]. }
        right. exists (S m), s'. split; [rewrite run_rollouts_first, Hroll; exact Hrun|].
        destruct Hcase as [[-> Hd]|(-> & Hd & Hr)]; [left | right]; repeat split;
          try assumption; lia.
      * inversion H; subst. right. exists 0, s. split; [reflexivity|].
        right. repeat split; try assumption. lia.
    + inversion H; subst. right. exists 0, s. split; [reflexivity|].
      left. split; [lia | exact Hdone].
Qed.

(** X20.  With a target and reactants named without [>] and no empty
    outcome, in every state a new engine reaches the [done] property reads a
    value, and a rollout either returns or fails in [_select] on an empty
    list of options, with [IndexError]: no lookup in [_select], [_expand] or
    [_update] fails. *)
Theorem rollout_fails_only_in_selection cfg ad tgt n s
    (Htgt : gt_free tgt) (Hp : plain_outcomes ad)
    (H : engine_after cfg ad tgt n = Ok s) :
  (exists b, MCTS_done s = Ok b)
  /\ ((exists s', _rollout s = Ok s')
      \/ (_select s = Raise IndexError /\ _rollout s = Raise IndexError)).
Proof.
  destruct (engine_after_good cfg ad tgt Htgt Hp n s H) as [Hg Hl].
  destruct (engine_after_inv _ _ _ _ _ H) as (_ & _ & Had & Htg & _).
  split.
  - eapply MCTS_done_total; eassumption.
  - apply (rollout_total s tgt Hg Hl); [rewrite Had; exact Hp | exact Htg].
Qed.

Lemma plain_cross : plain_outcomes ad_cross.
Proof.
  intros chem t rl Hrl. simpl in Hrl.
  destruct (String.eqb chem "A");
    [|destruct (String.eqb chem "B"); [|destruct (String.eqb chem "C"); [|destruct Hrl]]].
  - destruct Hrl as [<-|[<-|[]]]; (split; [discriminate|]);
      intros x [<-|[]]; apply no_gt_sound; reflexivity.
  - destruct Hrl as [<-|[]]. split; [discriminate|].
    intros x [<-|[]]; apply no_gt_sound; reflexivity.
  - destruct Hrl as [<-|[]]. split; [discriminate|].
    intros x [<-|[]]; apply no_gt_sound; reflexivity.
Qed.

Lemma rollout_fails_only_in_selection_witness :
  exists s,
    engine_after default_config ad_cross "A" 3 = Ok s
    /\ MCTS_done s = Ok false
    /\ _rollout s = Raise IndexError
    /\ (exists b, MCTS_done s = Ok b)
    /\ ((exists s', _rollout s = Ok s')
        \/ (_select s = Raise IndexError /\ _rollout s = Raise IndexError)).
Proof.
  eexists.
  match goal with
  | |- ?P /\ _ => assert (H : P) by (vm_compute; reflexivity)
  end.
  split; [exact H|].
  split; [vm_compute; reflexivity|].
  split; [vm_compute; reflexivity|].
  exact (rollout_fails_only_in_selection _ _ _ _ _
           (no_gt_sound "A" eq_refl) plain_cross H).
Defined.

(** X21.  With a target and reactants named without [>] and no empty
    outcome, [build_tree] on a new engine fails in one way only: a rollout
    that it started while the engine was not done found no option in
    [_select], which raises [IndexError].  (The other failure of the model is
    that of its own loop counter, after as many rollouts as it allows.) *)
Theorem build_tree_fails_only_in_selection fuel clock cfg ad tgt k e
    (Htgt : gt_free tgt) (Hp : plain_outcomes ad)
    (H : build_tree fuel clock (MCTS_init cfg ad) tgt = (k, Raise e)) :
  (e = OutOfFuel /\ k = fuel)
  \/ (e = IndexError
      /\ exists m s, k = S m
           /\ engine_after cfg ad tgt m = Ok s
           /\ MCTS_done s = Ok false
           /\ _select s = Raise IndexError).
Proof.
  unfold build_tree in H.
  destruct (_initialize (MCTS_init cfg ad) tgt) as [s0|e0] eqn:Hinit.
  2:{ destruct (initialize_fresh cfg ad tgt) as (s1 & c1 & Hs1 & _). congruence. }
  apply expansion_loop_raise in H. destruct H as [[-> ->]|(m & s & Hrun & Hcase)].
  { left. split; reflexivity. }
  right.
  assert (He : engine_after cfg ad tgt m = Ok s)
    by (unfold engine_after; rewrite Hinit; exact Hrun).
  destruct (engine_after_good cfg ad tgt Htgt Hp m s He) as [Hg Hl].
  destruct (engine_after_inv _ _ _ _ _ He) as (_ & _ & Had & Htg & _).
  destruct Hcase as [[-> Hd]|(-> & Hd & Hr)].
  - destruct (MCTS_done_total s tgt Hg Htg) as [b Hb]. congruence.
  - destruct (rollout_total s tgt Hg Hl) as [[s' Hs']|[Hsel Hroll]];
      [rewrite Had; exact Hp | exact Htg | congruence |].
    assert (e = IndexError) as -> by congruence.
    split; [reflexivity|]. exists m, s. repeat split; try assumption. lia.
Qed.

Lemma build_tree_fails_only_in_selection_witness :
  build_tree 100 (fun _ => 0%float) (MCTS_init default_config ad_cross) "A"
    = (4, Raise IndexError)
  /\ ((IndexError = OutOfFuel /\ 4 = 100)
      \/ (IndexError = IndexError
          /\ exists m s, 4 = S m
               /\ engine_after default_config ad_cross "A" m = Ok s
               /\ MCTS_done s = Ok false
               /\ _select s = Raise IndexError)).
Proof.
  assert (H : build_tree 100 (fun _ => 0%float) (MCTS_init default_config ad_cross) "A"
              = (4, Raise IndexError)) by (vm_compute; reflexivity).
  split; [exact H|].
  exact (build_tree_fails_only_in_selection _ _ _ _ _ _ _
           (no_gt_sound "A" eq_refl) plain_cross H).
Defined.


(** ** What a rollout does not touch *)

Lemma connect_other g tgt rid rl u :
  u <> tgt -> u <> rid -> successors (connect g tgt rid rl) u = successors g u.
Proof.
  intros H1 H2. unfold connect.
  assert (H : forall l g0,
            successors (fold_left (fun g' x => add_edge g' rid x) l g0) u = successors g0 u).
  { induction l as [|x l IH]; intros g0; simpl; [reflexivity|].
    rewrite IH. apply add_edge_other. congruence. }
  rewrite H. apply add_edge_other. congruence.
Qed.

(** An outcome of the chemical [tgt] leaves the other registered chemicals
    and their successors as they are. *)
Lemma process_outcome_frozen tgt template path s rl s' m :
  process_outcome tgt template path s rl = Ok s' ->
  In m (chemicals s) -> arrowless m -> m <> tgt ->
  In m (chemicals s')
  /\ g_nodes (tree s') !! m = g_nodes (tree s) !! m
  /\ successors (tree s') m = successors (tree s) m.
Proof.
  intros H Hm Ha Hne. unfold process_outcome in H. cbv zeta in H.
  destruct (_ <? _)%float; [inversion H; subst; repeat split; [exact Hm|..]; reflexivity|].
  set (rid := String.concat "." rl +:+ ">>" +:+ tgt) in *.
  assert (Hrid : m <> rid) by (intros ->; exact (Ha _ _ eq_refl)).
  bind_inv H as registered Hreg. destruct registered as [completed s1].
  destruct (register_reactants_old _ _ _ _ _ Hreg m Hm) as [Hin1 Hn1].
  pose proof (register_reactants_frame _ _ _ _ _ Hreg) as (_ & _ & _ & _ & Hsucc1 & _).
  assert (Hs1 : successors (tree s1) m = successors (tree s) m)
    by (unfold successors; rewrite Hsucc1; reflexivity).
  destruct completed; [|inversion H; subst; repeat split; assumption].
  bind_inv H as tdata Htd. bind_inv H as tscore Hts. bind_inv H as s2 Hs2.
  inversion H; subst s'; clear H.
  assert (H2 : chemicals s2 = chemicals s1
               /\ g_nodes (tree s2) !! m = g_nodes (tree s1) !! m
               /\ g_succ (tree s2) = g_succ (tree s1)).
  { destruct (mem_str rid (reactions s1)).
    - unfold merge_reaction in Hs2. bind_inv Hs2 as rd Hrd. inversion Hs2; subst s2.
      simpl. rewrite lookup_insert_ne by congruence. repeat split; reflexivity.
    - inversion Hs2; subst s2. simpl.
      rewrite lookup_insert_ne by congruence. repeat split; reflexivity. }
  destruct H2 as (Hch2 & Hn2 & Hsucc2). simpl. rewrite connect_nodes.
  split; [rewrite Hch2; exact Hin1|]. split; [rewrite Hn2; exact Hn1|].
  rewrite connect_other by assumption. unfold successors in *. rewrite Hsucc2. exact Hs1.
Qed.

Lemma process_precursors_frozen tgt template path m : forall precursors s s',
  _process_precursors s tgt template precursors path = Ok s' ->
  In m (chemicals s) -> arrowless m -> m <> tgt ->
  In m (chemicals s')
  /\ g_nodes (tree s') !! m = g_nodes (tree s) !! m
  /\ successors (tree s') m = successors (tree s) m.
Proof.
  unfold _process_precursors.
  induction precursors as [|rl rest IH]; intros s s' H Hm Ha Hne; simpl in H.
  - inversion H; subst. repeat split; [exact Hm|..]; reflexivity.
  - bind_inv H as s1 Hs1.
    destruct (process_outcome_frozen _ _ _ _ _ _ _ Hs1 Hm Ha Hne) as (Hin1 & Hn1 & Hsu1).
    destruct (IH _ _ H Hin1 Ha Hne) as (Hin & Hn & Hsu).
    split; [exact Hin|]. split; congruence.
Qed.

Lemma expand_frozen s root chems template s1 m :
  _expand s (root :: chems) template = Ok s1 ->
  In m (chemicals s) -> arrowless m -> m <> last_or root chems ->
  In m (chemicals s1)
  /\ g_nodes (tree s1) !! m = g_nodes (tree s) !! m
  /\ successors (tree s1) m = successors (tree s) m.
Proof.
  intros H Hm Ha Hne. unfold _expand in H. rewrite last_of_cons in H. simpl in H.
  bind_inv H as c Hc.
  destruct (mem_Z template (explored c));
    [inversion H; subst; repeat split; [exact Hm|..]; reflexivity|].
  apply process_precursors_frozen with (m := m) in H; try assumption.
  destruct H as (Hin & Hn & Hsu). split; [exact Hin|].
  rewrite Hn, Hsu, nodes_put, successors_put.
  destruct (decide (last_or root chems = m)); [congruence|]. split; reflexivity.
Qed.

Lemma update_step_succ s item s' :
  update_step s item = Ok s' -> g_succ (tree s') = g_succ (tree s).
Proof.
  intros H. unfold update_step in H. destruct (fst item) as [[i chem]|]; [|discriminate].
  bind_inv H as c Hc. bind_inv H as updated Hupd. destruct updated as [d s2].
  apply is_chemical_done_update_ok in Hupd. destruct Hupd as (c0 & _ & _ & ->).
  destruct (snd item) as [rxn|]; [|inversion H; subst; reflexivity].
  unfold bump_visit_count in H.
  destruct (g_nodes _ !! rxn) as [[c1|r1]|]; inversion H; subst; reflexivity.
Qed.

Lemma update_fold_succ : forall items s s',
  fold_m update_step items s = Ok s' -> g_succ (tree s') = g_succ (tree s).
Proof.
  induction items as [|item items IH]; intros s s' H; simpl in H.
  - inversion H. reflexivity.
  - bind_inv H as s1 Hs1. rewrite (IH _ _ H). eapply update_step_succ. exact Hs1.
Qed.

(** A rollout leaves a registered chemical that is not on its path, and the
    successors of this chemical, as they are. *)
Lemma rollout_frozen s s' chem_path rxn_path template m :
  inv s -> typed s ->
  _select s = Ok (chem_path, rxn_path, template) -> _rollout s = Ok s' ->
  In m (chemicals s) -> ~ In m chem_path ->
  In m (chemicals s')
  /\ g_nodes (tree s') !! m = g_nodes (tree s) !! m
  /\ successors (tree s') m = successors (tree s) m.
Proof.
  intros Hi Ht Hsel Hroll Hm Hpath.
  pose proof (inv_registry s Hi) as Hr.
  unfold _rollout in Hroll. rewrite Hsel in Hroll. simpl in Hroll.
  bind_inv Hroll as s1 Hexp.
  destruct (select_spec _ _ _ _ Hsel)
    as (root & chems & c & Hroot & -> & Hlen & Hnd & Hdesc & Hc & Hkey & Hnew & Hdeg).
  pose proof (reg_target s Hr root Hroot) as Hrootc.
  destruct (descent_kinds s rxn_path chems root Ht Hrootc Hdesc) as [Hchems Hrxns].
  assert (Ha : arrowless m) by (apply (ty_chem s Ht); exact Hm).
  destruct (expand_frozen _ _ _ _ _ m Hexp Hm Ha) as (Hin1 & Hn1 & Hsu1).
  { intros ->. apply Hpath. apply last_or_in. }
  destruct (update_effect _ _ _ _ _ Hnd Hlen Hroll) as (_ & Hch & _).
  unfold _update in Hroll. destruct (negb _); [discriminate|].
  pose proof (update_fold_succ _ _ _ Hroll) as Hsucc.
  split; [rewrite Hch; exact Hin1|]. split.
  - rewrite <- Hn1. apply (update_fold_other m _ _ _ Hroll).
    intros [x y] Hitem. destruct (zip_longest_In _ _ _ _ Hitem) as [Hx Hy]. split.
    + intros i chem Hfst. simpl in Hfst. subst x.
      specialize (Hx (i, chem) eq_refl). apply in_combine_r in Hx. apply in_rev in Hx.
      intros ->. contradiction.
    + intros rxn Hsnd. simpl in Hsnd. subst y.
      specialize (Hy rxn eq_refl). apply in_rev in Hy.
      intros ->. eapply not_both; [exact Ht | exact Hm | apply Hrxns; exact Hy].
  - unfold successors in *. rewrite Hsucc. exact Hsu1.
Qed.

Lemma engine_after_more cfg ad tgt n s : forall k s',
  engine_after cfg ad tgt n = Ok s -> run_rollouts k s = Ok s' ->
  engine_after cfg ad tgt (k + n) = Ok s'.
Proof.
  induction k as [|k IH]; intros s' H Hrun; simpl in Hrun.
  - inversion Hrun; subst. exact H.
  - bind_inv Hrun as s1 Hs1. specialize (IH s1 H Hs1).
    unfold engine_after in *. bind_inv IH as s0 Hs0. rewrite Hs0. simpl.
    rewrite IH. simpl. exact Hrun.
Qed.

Lemma engine_after_kinds cfg ad tgt :
  arrowless tgt ->
  (forall chem t rl x, In rl (apply_one_template ad chem t) -> In x rl -> arrowless x) ->
  forall n s, engine_after cfg ad tgt n = Ok s -> typed s.
Proof.
  intros Htgt Hreact. unfold engine_after.
  induction n as [|n IH]; intros s H; simpl in H.
  - bind_inv H as s0 Hs0. inversion H; subst s0. eapply typed_initialize; eassumption.
  - bind_inv H as s0 Hs0. bind_inv H as s1 Hs1.
    assert (He : engine_after cfg ad tgt n = Ok s1)
      by (unfold engine_after; rewrite Hs0; exact Hs1).
    destruct (engine_after_inv _ _ _ _ _ He) as (Hi & _ & Had & _).
    eapply typed_steps; [apply rollout_steps; exact H | exact Hi | apply IH; exact He |].
    rewrite Had. intros x (chem & t & rl & Hrl & Hx). eapply Hreact; eassumption.
Qed.

(** X22.  Done is final.  When neither the target nor a reactant has the
    form [a>>b], a chemical other than the target that is done in a state a
    new engine reached is never written again: after any number of further
    rollouts it has the same attributes and the same successors. *)
Theorem done_chemical_is_frozen cfg ad tgt n k s s' m c
    (Htgt : arrowless tgt)
    (Hreact : forall chem t rl x,
        In rl (apply_one_template ad chem t) -> In x rl -> arrowless x)
    (H : engine_after cfg ad tgt n = Ok s)
    (Hrun : run_rollouts k s = Ok s')
    (Hm : m <> tgt)
    (Hc : chem_data s m = Ok c)
    (Hd : done c = Some true) :
  chem_data s' m = Ok c /\ successors (tree s') m = successors (tree s) m.
Proof.
  revert s' Hrun. induction k as [|k IH]; intros s' Hrun; simpl in Hrun.
  - inversion Hrun; subst. split; [exact Hc | reflexivity].
  - bind_inv Hrun as s1 Hs1. destruct (IH s1 Hs1) as [Hc1 Hsu1].
    pose proof (engine_after_more _ _ _ _ _ _ _ H Hs1) as He1.
    destruct (engine_after_inv _ _ _ _ _ He1) as (Hi1 & _ & _ & Htg1 & _).
    pose proof (engine_after_kinds cfg ad tgt Htgt Hreact _ _ He1) as Ht1.
    pose proof Hrun as Hroll. unfold _rollout in Hroll.
    bind_inv Hroll as selected Hsel. destruct selected as [[chem_path rxn_path] template].
    destruct (rollout_frozen s1 s' chem_path rxn_path template m Hi1 Ht1 Hsel Hrun)
      as (_ & Hn & Hsu).
    + apply (reg_chem s1 (inv_registry s1 Hi1) m c). apply chem_data_inv. exact Hc1.
    + destruct (select_spec _ _ _ _ Hsel)
        as (root & chems & c0 & Hroot & -> & _ & _ & Hdesc & _).
      assert (root = tgt) as -> by congruence.
      intros [->|Hin]; [congruence|].
      pose proof (descent_not_done _ _ _ _ _ Hdesc Hin) as Hnd.
      unfold is_chemical_done in Hnd. rewrite Hc1 in Hnd. simpl in Hnd.
      rewrite Hd in Hnd. discriminate.
    + split; [|congruence]. unfold chem_data in *. rewrite Hn. exact Hc1.
Qed.

Lemma chain_reactants chem t rl x :
  In rl (apply_one_template ad_chain chem t) -> In x rl -> gt_free x.
Proof.
  intros Hrl Hx. simpl in Hrl.
  destruct (String.eqb chem "X").
  - destruct (t =? 1)%Z; destruct Hrl as [<-|[]]; destruct Hx as [<-|[]];
      apply no_gt_sound; reflexivity.
  - destruct (String.eqb chem "A").
    + destruct Hrl as [<-|[]]; destruct Hx as [<-|[]]; apply no_gt_sound; reflexivity.
    + destruct (String.eqb chem "D"); [|destruct Hrl].
      destruct Hrl as [<-|[]]; destruct Hx as [<-|[]]; apply no_gt_sound; reflexivity.
Qed.

Lemma done_chemical_is_frozen_witness :
  exists s s' c,
    engine_after default_config ad_chain "X" 2 = Ok s
    /\ run_rollouts 2 s = Ok s'
    /\ chem_data s "A" = Ok c
    /\ done c = Some true
    /\ successors (tree s) "A" = ["B>>A"]
    /\ chem_data s' "A" = Ok c
    /\ successors (tree s') "A" = successors (tree s) "A".
Proof.
  eexists. eexists. eexists.
  match goal with
  | |- ?P /\ _ => assert (H : P) by (vm_compute; reflexivity)
  end.
  split; [exact H|].
  match goal with
  | |- ?P /\ _ => assert (Hrun : P) by (vm_compute; reflexivity)
  end.
  split; [exact Hrun|].
  match goal with
  | |- ?P /\ _ => assert (Hc : P) by (vm_compute; reflexivity)
  end.
  split; [exact Hc|].
  match goal with
  | |- ?P /\ _ => assert (Hd : P) by (vm_compute; reflexivity)
  end.
  split; [exact Hd|].
  split; [vm_compute; reflexivity|].
  assert (Hm : "A" <> "X") by discriminate.
  exact (done_chemical_is_frozen _ _ _ _ _ _ _ _ _
           (gt_free_arrowless _ (no_gt_sound "X" eq_refl))
           (fun chem t rl x Hrl Hx => gt_free_arrowless _ (chain_reactants chem t rl x Hrl Hx))
           H Hrun Hm Hc Hd).
Defined.

(** ** Cached values of [done] *)

Lemma all_m_true_In_transfer {A : Type} (f f' : A -> result bool) l :
  (forall x, In x l -> f x = Ok true -> f' x = Ok true) ->
  all_m f l = Ok true -> all_m f' l = Ok true.
Proof.
  induction l as [|x l IH]; simpl; intros Hf; [reflexivity|].
  destruct (f x) as [[|]|e] eqn:Hx; simpl; try discriminate.
  intros Hl. rewrite (Hf x (or_introl eq_refl) Hx). simpl.
  apply IH; [|exact Hl]. intros y Hy. apply Hf. right. exact Hy.
Qed.

Lemma is_reaction_done_true_transfer s s' r :
  successors (tree s') r = successors (tree s) r ->
  (forall g, In g (successors (tree s) r) ->
     is_chemical_done s g = Ok true -> is_chemical_done s' g = Ok true) ->
  is_reaction_done s r = Ok true -> is_reaction_done s' r = Ok true.
Proof.
  intros Hsu Hg. unfold is_reaction_done, out_degree. rewrite Hsu.
  destruct (0 <? _)%nat; [|discriminate].
  apply all_m_true_In_transfer. exact Hg.
Qed.

Lemma compute_done_true_transfer s s' m c :
  config s' = config s ->
  successors (tree s') m = successors (tree s) m ->
  (forall r, In r (successors (tree s) m) ->
     is_reaction_done s r = Ok true -> is_reaction_done s' r = Ok true) ->
  compute_done s m c = Ok true -> compute_done s' m c = Ok true.
Proof.
  intros Hcfg Hsu Hr. unfold compute_done, out_degree. rewrite Hcfg, Hsu.
  destruct (truthy (terminal c)); [auto|].
  destruct (length (templates c) =? 0)%nat; [auto|].
  destruct (match min_depth c with Some d0 => _ | None => false end); [auto|].
  destruct (_ || _); [|auto].
  apply all_m_true_In_transfer. exact Hr.
Qed.

(** The cached values of [done] that are [True] stay right across a change
    that leaves the done chemicals, their reactions and the successors of
    both as they are, and gives the chemicals it makes done a value that is
    right. *)
Lemma flags_sound_frame s s' :
  root_no_parent s -> flags_sound s ->
  config s' = config s -> target s' = target s ->
  (forall g c, chem_data s g = Ok c -> done c = Some true -> target s <> Some g ->
     is_chemical_done s' g = Ok true) ->
  (forall m c', chem_data s' m = Ok c' -> done c' = Some true -> target s <> Some m ->
     (chem_data s m = Ok c'
      /\ successors (tree s') m = successors (tree s) m
      /\ forall r, In r (successors (tree s) m) ->
           successors (tree s') r = successors (tree s) r)
     \/ compute_done s' m c' = Ok true) ->
  flags_sound s'.
Proof.
  intros Hroot Hfs Hcfg Htg Hkeep Hcases m c' Hc' Hd Hm. rewrite Htg in Hm.
  destruct (Hcases m c' Hc' Hd Hm) as [(Hc & Hsu & Hrs)|Hnew]; [|exact Hnew].
  apply (compute_done_true_transfer s s' m c' Hcfg Hsu); [|apply (Hfs m c' Hc Hd Hm)].
  intros r Hr. apply is_reaction_done_true_transfer; [apply Hrs; exact Hr|].
  intros g Hg Hgd. unfold is_chemical_done in Hgd. bind_inv Hgd as cg Hcg.
  destruct (done cg) as [[|]|] eqn:Hdg; try discriminate.
  apply (Hkeep g cg Hcg Hdg).
  intros Htgt. apply chem_data_inv in Hcg. exact (Hroot g cg Htgt Hcg r Hg).
Qed.

Lemma done_not_live s g c :
  chem_data s g = Ok c -> done c = Some true -> target s <> Some g -> ~ live s g.
Proof.
  intros Hc Hd Hg [Ht|Hl]; [contradiction|].
  unfold is_chemical_done in Hl. rewrite Hc in Hl. simpl in Hl. rewrite Hd in Hl.
  discriminate.
Qed.

Lemma explore_sound s leaf c t :
  root_no_parent s -> flags_sound s -> chem_data s leaf = Ok c -> live s leaf ->
  flags_sound (put_node s leaf (Chemical (set_explored (explored c ++ [t]) c))).
Proof.
  intros Hroot Hfs Hc Hlive.
  apply (flags_sound_frame s); try assumption; try reflexivity.
  - intros g cg Hcg Hdg Hg.
    assert (Hne : leaf <> g)
      by (intros ->; exact (done_not_live _ _ _ Hcg Hdg Hg Hlive)).
    unfold is_chemical_done. rewrite chem_data_put_ne by exact Hne.
    rewrite Hcg. simpl. rewrite Hdg. reflexivity.
  - intros m c' Hc' Hd Hm. left.
    destruct (decide (leaf = m)) as [<-|Hne].
    + exfalso. rewrite chem_data_put_eq in Hc'. inversion Hc'; subst c'. simpl in Hd.
      exact (done_not_live _ _ _ Hc Hd Hm Hlive).
    + rewrite chem_data_put_ne in Hc' by exact Hne.
      split; [exact Hc'|]. split; [reflexivity|]. intros r _. reflexivity.
Qed.

Lemma create_chemical_node_shape s n s' :
  create_chemical_node s n = Ok s' ->
  exists d,
    compute_done (put_node (with_chemicals (chemicals s ++ [n]) s) n
                           (Chemical (fresh_chemical s n)))
                 n (fresh_chemical s n) = Ok d
    /\ s' = put_node (with_chemicals (chemicals s ++ [n]) s) n
                     (Chemical (set_done (Some d) (fresh_chemical s n))).
Proof.
  intros H. unfold create_chemical_node in H.
  pose proof (eq_refl (fresh_chemical s n)) as Hfc. unfold fresh_chemical at 2 in Hfc.
  destruct (predict _ _ _ _) as [probs indices]. cbv zeta in H.
  cbn [fst snd] in Hfc. rewrite <- Hfc in H. clear Hfc.
  bind_inv H as updated Hupd. destruct updated as [d s3]. inversion H; subst s3.
  apply is_chemical_done_update_ok in Hupd. destruct Hupd as (c & Hc & Hd & ->).
  rewrite chem_data_put_eq in Hc. inversion Hc; subst c; clear Hc.
  rewrite put_node_put_node. exists d. split; [exact Hd | reflexivity].
Qed.

Lemma create_sound s n s' :
  root_no_parent s -> flags_sound s -> g_nodes (tree s) !! n = None ->
  create_chemical_node s n = Ok s' -> flags_sound s'.
Proof.
  intros Hroot Hfs Hnot H.
  destruct (create_chemical_node_shape _ _ _ H) as (d & Hd & ->).
  apply (flags_sound_frame s); try assumption; try reflexivity.
  - intros g cg Hcg Hdg Hg.
    assert (Hne : n <> g) by (intros ->; apply chem_data_inv in Hcg; congruence).
    unfold is_chemical_done, chem_data in *. simpl. rewrite lookup_insert_ne by exact Hne.
    rewrite Hcg. simpl. rewrite Hdg. reflexivity.
  - intros m c' Hc' Hdc Hm. destruct (decide (n = m)) as [<-|Hne].
    + right. rewrite chem_data_put_eq in Hc'. inversion Hc'; subst c'. simpl in Hdc.
      inversion Hdc; subst d.
      pose proof (compute_done_stable _ _ _ _ Hd) as Hst.
      rewrite put_node_put_node in Hst. exact Hst.
    + left. unfold chem_data in *. simpl in Hc'. rewrite lookup_insert_ne in Hc' by exact Hne.
      split; [exact Hc'|]. split; [reflexivity|]. intros r _. reflexivity.
Qed.

Lemma not_a_node s n :
  registry s -> typed s -> ~ In n (chemicals s) -> arrowless n ->
  g_nodes (tree s) !! n = None.
Proof.
  intros Hr Ht Hn Ha.
  destruct (g_nodes (tree s) !! n) as [d0|] eqn:Hd0; [|reflexivity]. exfalso.
  destruct (proj1 (reg_nodes s Hr n)) as [Hc|Hc]; [rewrite Hd0; eexists; reflexivity | |].
  - contradiction.
  - apply (arrowless_not_reaction_id n Ha). apply (ty_rxn s Ht). exact Hc.
Qed.

Lemma register_reactants_sound rl path : forall s b s1,
  inv s -> typed s ->
  (forall n, reactant (adapters s) n -> gt_free n) ->
  (forall x, In x rl -> reactant (adapters s) x) ->
  flags_sound s ->
  register_reactants s rl path = Ok (b, s1) -> flags_sound s1.
Proof.
  induction rl as [|x rl IH]; intros s b s1 Hi Ht Hwf Hrl Hfs H; simpl in H.
  - inversion H; subst. exact Hfs.
  - destruct (mem_str x path); [inversion H; subst; exact Hfs|].
    bind_inv H as s0 Hs0.
    destruct (mem_str x (chemicals s)) eqn:Hmem.
    + inversion Hs0; subst s0. eapply IH; try eassumption.
      intros y Hy. apply Hrl. right. exact Hy.
    + assert (Hx : reactant (adapters s) x) by (apply Hrl; left; reflexivity).
      assert (Hst : step s s0) by (eapply step_create; eassumption).
      destruct (good_step _ _ Hst Hi Ht Hwf) as [Hi0 Ht0].
      destruct (step_frame _ _ Hst) as (_ & Had & _).
      eapply (IH s0); try eassumption.
      * rewrite Had. exact Hwf.
      * rewrite Had. intros y Hy. apply Hrl. right. exact Hy.
      * eapply create_sound; [apply (inv_root s Hi) | exact Hfs | | exact Hs0].
        apply not_a_node; [apply (inv_registry s Hi) | exact Ht | |].
        -- apply mem_str_false. exact Hmem.
        -- apply gt_free_arrowless. apply Hwf. exact Hx.
Qed.

(** The reaction of an accepted outcome: its node, the edge from the
    product and the edges to the reactants. *)
Lemma link_sound s1 s2 tgt rid rl :
  registry s1 -> typed s1 -> sound s1 -> root_no_parent s1 -> flags_sound s1 ->
  live s1 tgt -> In tgt (chemicals s1) ->
  (exists joined, rid = joined +:+ ">>" +:+ tgt) ->
  config s2 = config s1 -> target s2 = target s1 ->
  g_succ (tree s2) = g_succ (tree s1) ->
  (forall m, m <> rid -> g_nodes (tree s2) !! m = g_nodes (tree s1) !! m) ->
  (exists r, rxn_data s2 rid = Ok r) ->
  flags_sound (with_tree (connect (tree s2) tgt rid rl) s2).
Proof.
  intros Hr Ht Hso Hroot Hfs Hlive Htgt [joined Hrid] Hcfg Htg Hsucc Hn [r2 Hr2].
  assert (Harrow : forall g c, chem_data s1 g = Ok c -> g <> rid).
  { intros g c Hc Heq. apply (arrowless_not_reaction_id g).
    - apply (ty_chem s1 Ht). eapply (reg_chem s1 Hr). apply chem_data_inv. exact Hc.
    - rewrite Heq, Hrid. eexists. eexists. reflexivity. }
  apply (flags_sound_frame s1); try assumption.
  - intros g cg Hcg Hdg Hg. unfold is_chemical_done, chem_data in *. simpl.
    rewrite connect_nodes, Hn by (eapply Harrow; unfold chem_data; exact Hcg).
    rewrite Hcg. simpl. rewrite Hdg. reflexivity.
  - intros m c' Hc' Hd Hm. left.
    assert (Hmr : m <> rid).
    { intros ->. unfold chem_data in Hc'. simpl in Hc'. rewrite connect_nodes in Hc'.
      apply rxn_data_inv in Hr2. rewrite Hr2 in Hc'. discriminate. }
    assert (Hc1 : chem_data s1 m = Ok c').
    { unfold chem_data in *. simpl in Hc'. rewrite connect_nodes, Hn in Hc' by exact Hmr.
      exact Hc'. }
    assert (Hmt : m <> tgt) by (intros ->; exact (done_not_live _ _ _ Hc1 Hd Hm Hlive)).
    assert (Hmc : In m (chemicals s1))
      by (eapply (reg_chem s1 Hr); apply chem_data_inv; exact Hc1).
    split; [exact Hc1|]. simpl. split.
    + rewrite connect_other by assumption. unfold successors. rewrite Hsucc. reflexivity.
    + intros r Hrin.
      assert (Hr_rxn : In r (reactions s1)) by (eapply under_chemical; eassumption).
      rewrite connect_other.
      * unfold successors. rewrite Hsucc. reflexivity.
      * intros ->. exact (not_both s1 tgt Ht Htgt Hr_rxn).
      * intros ->. destruct (so_edge s1 Hso m _ Hmc Hrin) as [joined' Hid'].
        apply Hmt. apply (product_unique m tgt) with (a := joined') (a' := joined).
        -- apply (so_gt s1 Hso). exact Hmc.
        -- apply (so_gt s1 Hso). exact Htgt.
        -- congruence.
Qed.

Lemma process_outcome_sound tgt template path s rl s' :
  good s ->
  (forall n, reactant (adapters s) n -> gt_free n) ->
  (forall x, In x rl -> reactant (adapters s) x) ->
  flags_sound s -> live s tgt -> In tgt path -> In tgt (chemicals s) ->
  process_outcome tgt template path s rl = Ok s' -> flags_sound s'.
Proof.
  intros (Hi & Ht & Hso) Hwf Hrl Hfs Hlive Hpath Htgt H.
  pose proof H as H0. unfold process_outcome in H. cbv zeta in H.
  destruct (_ <? _)%float; [inversion H; subst; exact Hfs|].
  set (rid := String.concat "." rl +:+ ">>" +:+ tgt) in *.
  bind_inv H as registered Hreg. destruct registered as [completed s1].
  pose proof (register_reactants_sound _ _ _ _ _ Hi Ht Hwf Hrl Hfs Hreg) as Hfs1.
  destruct completed; [|inversion H; subst; exact Hfs1].
  destruct (register_reactants_steps _ _ _ _ _ Hrl Hreg) as (Hsteps & Hnodes & Hgrow & _).
  destruct (good_steps _ _ Hsteps (conj Hi (conj Ht Hso)) Hwf) as (Hi1 & Ht1 & Hso1).
  pose proof (rtc_step_frame _ _ Hsteps) as (_ & _ & Htg1).
  bind_inv H as tdata Htd. bind_inv H as tscore Hts. bind_inv H as s2 Hs2.
  inversion H; subst s'; clear H.
  assert (Hlive1 : live s1 tgt).
  { destruct Hlive as [Hl|Hl]; [left; congruence|]. right.
    unfold is_chemical_done, chem_data in *. rewrite (Hnodes tgt Hpath). exact Hl. }
  apply (link_sound s1 s2 tgt rid rl); try assumption.
  - apply (inv_registry s1 Hi1).
  - apply (inv_root s1 Hi1).
  - apply Hgrow. exact Htgt.
  - eexists. reflexivity.
  - destruct (mem_str rid (reactions s1)).
    + unfold merge_reaction in Hs2. bind_inv Hs2 as rd Hrd. inversion Hs2; subst. reflexivity.
    + inversion Hs2; subst. reflexivity.
  - destruct (mem_str rid (reactions s1)).
    + unfold merge_reaction in Hs2. bind_inv Hs2 as rd Hrd. inversion Hs2; subst. reflexivity.
    + inversion Hs2; subst. reflexivity.
  - destruct (mem_str rid (reactions s1)).
    + unfold merge_reaction in Hs2. bind_inv Hs2 as rd Hrd. inversion Hs2; subst. reflexivity.
    + inversion Hs2; subst. reflexivity.
  - intros m Hm. destruct (mem_str rid (reactions s1)).
    + unfold merge_reaction in Hs2. bind_inv Hs2 as rd Hrd. inversion Hs2; subst. simpl.
      apply lookup_insert_ne. congruence.
    + inversion Hs2; subst. simpl. apply lookup_insert_ne. congruence.
  - destruct (mem_str rid (reactions s1)).
    + unfold merge_reaction in Hs2. bind_inv Hs2 as rd Hrd. inversion Hs2; subst.
      eexists. apply rxn_data_put_eq.
    + inversion Hs2; subst. eexists. unfold rxn_data, new_reaction. simpl.
      rewrite lookup_insert_eq. reflexivity.
Qed.

Lemma process_precursors_sound root tgt template path : forall precursors s s',
  good s ->
  (forall n, reactant (adapters s) n -> gt_free n) ->
  (forall rl x, In rl precursors -> In x rl -> reactant (adapters s) x) ->
  In root path -> In tgt path -> expandable s root tgt -> In tgt (chemicals s) ->
  flags_sound s ->
  _process_precursors s tgt template precursors path = Ok s' -> flags_sound s'.
Proof.
  unfold _process_precursors.
  induction precursors as [|rl rest IH];
    intros s s' Hg Hwf Hpre Hrpath Hpath Hexp Htgt Hfs H; simpl in H.
  - inversion H; subst. exact Hfs.
  - bind_inv H as s1 Hs1.
    assert (Hrl : forall x, In x rl -> reactant (adapters s) x)
      by (intros x Hx; apply (Hpre rl x); [left; reflexivity | exact Hx]).
    assert (Hlive : live s tgt).
    { destruct Hexp as (Hroot & [->|Hl] & _); [left; exact Hroot | right; exact Hl]. }
    pose proof (process_outcome_sound _ _ _ _ _ _ Hg Hwf Hrl Hfs Hlive Hpath Htgt Hs1) as Hfs1.
    destruct (process_outcome_steps _ _ _ _ _ _ _ Hrl Hrpath Hpath Hexp Hs1) as [Hsteps Hn].
    pose proof (good_steps _ _ Hsteps Hg Hwf) as Hg1.
    pose proof (rtc_step_frame _ _ Hsteps) as (_ & Had & Htg).
    destruct (steps_grow _ _ Hsteps) as (_ & _ & (l & Hl) & _).
    eapply (IH s1); try eassumption.
    + rewrite Had. exact Hwf.
    + rewrite Had. intros rl' x Hrl' Hx. apply (Hpre rl' x); [right; exact Hrl' | exact Hx].
    + eapply expandable_keep; [exact Hexp | exact Htg | exact Hn |].
      apply rtc_step_succ. exact Hsteps.
    + rewrite Hl. apply in_or_app. left. exact Htgt.
Qed.

(** One turn of the back-update, on a chemical that selection could reach. *)
Lemma update_step_sound s i chem orxn s' :
  registry s -> typed s -> root_no_parent s -> flags_sound s ->
  live s chem -> In chem (chemicals s) ->
  (forall rxn, orxn = Some rxn -> In rxn (reactions s)) ->
  update_step s (Some (i, chem), orxn) = Ok s' -> flags_sound s'.
Proof.
  intros Hr Ht Hroot Hfs Hlive Hchem Hrxn H. unfold update_step in H. cbn [fst snd] in H.
  bind_inv H as c Hc. bind_inv H as updated Hupd. destruct updated as [d s2].
  apply is_chemical_done_update_ok in Hupd. destruct Hupd as (c0 & Hc0 & Hd & ->).
  rewrite chem_data_put_eq in Hc0. inversion Hc0; subst c0; clear Hc0.
  pose proof (compute_done_stable _ _ _ _ Hd) as Hst.
  rewrite put_node_put_node in Hst. rewrite put_node_put_node in H.
  match type of Hst with
  | compute_done (put_node s chem (Chemical ?X)) _ _ = _ => set (c2 := X) in *
  end.
  set (s2 := put_node s chem (Chemical c2)) in *.
  (* the state after the optional visit of the reaction *)
  assert (Hs' : config s' = config s /\ target s' = target s
                /\ g_succ (tree s') = g_succ (tree s)
                /\ g_nodes (tree s') !! chem = Some (Chemical c2)
                /\ (forall m, m <> chem -> (forall rxn, orxn = Some rxn -> m <> rxn) ->
                      g_nodes (tree s') !! m = g_nodes (tree s) !! m)
                /\ (forall m cm, chem_data s' m = Ok cm -> g_nodes (tree s2) !! m = Some (Chemical cm))).
  { destruct orxn as [rxn|].
    - destruct (typed_reaction s rxn Hr Ht (Hrxn rxn eq_refl)) as [rd Hrd].
      assert (Hne : chem <> rxn).
      { intros ->. apply (not_both s rxn Ht Hchem). apply Hrxn. reflexivity. }
      unfold bump_visit_count in H. unfold s2 in H. rewrite nodes_put in H.
      destruct (decide (chem = rxn)); [contradiction|]. rewrite Hrd in H.
      inversion H; subst s'; clear H. repeat split; try reflexivity.
      + rewrite !nodes_put. destruct (decide (rxn = chem)); [congruence|].
        destruct (decide (chem = chem)); [reflexivity | contradiction].
      + intros m Hm1 Hm2. rewrite !nodes_put.
        destruct (decide (rxn = m)) as [<-|_]; [exfalso; exact (Hm2 rxn eq_refl eq_refl)|].
        destruct (decide (chem = m)); [congruence | reflexivity].
      + intros m cm Hcm. apply chem_data_inv in Hcm. rewrite nodes_put in Hcm.
        destruct (decide (rxn = m)); [discriminate | exact Hcm].
    - inversion H; subst s'; clear H. repeat split; try reflexivity.
      + unfold s2. rewrite nodes_put. destruct (decide (chem = chem)); [reflexivity | contradiction].
      + intros m Hm1 _. unfold s2. rewrite nodes_put.
        destruct (decide (chem = m)); [congruence | reflexivity].
      + intros m cm Hcm. apply chem_data_inv in Hcm. exact Hcm. }
  destruct Hs' as (Hcfg & Htg & Hsucc & Hnchem & Hnother & Hback).
  assert (Hrxn_not : forall g cg, chem_data s g = Ok cg ->
                       forall rxn, orxn = Some rxn -> g <> rxn).
  { intros g cg Hcg rxn Hrx ->. apply (not_both s rxn Ht).
    - eapply (reg_chem s Hr). apply chem_data_inv. exact Hcg.
    - apply Hrxn. exact Hrx. }
  apply (flags_sound_frame s); try assumption.
  - intros g cg Hcg Hdg Hg.
    assert (Hne : g <> chem)
      by (intros ->; exact (done_not_live _ _ _ Hcg Hdg Hg Hlive)).
    unfold is_chemical_done, chem_data in *.
    rewrite (Hnother g Hne (Hrxn_not g cg ltac:(unfold chem_data; exact Hcg))).
    rewrite Hcg. simpl. rewrite Hdg. reflexivity.
  - intros m c' Hc' Hdc Hm. destruct (decide (m = chem)) as [->|Hne].
    + right. apply chem_data_inv in Hc'. rewrite Hnchem in Hc'. inversion Hc'; subst c'.
      unfold c2 in Hdc. simpl in Hdc. inversion Hdc; subst d.
      apply (compute_done_true_transfer s2 s' chem c2); [exact Hcfg | | | exact Hst].
      * unfold successors. rewrite Hsucc. reflexivity.
      * intros r _. apply is_reaction_done_true_transfer.
        { unfold successors. rewrite Hsucc. reflexivity. }
        intros g _ Hgd. unfold is_chemical_done in *. bind_inv Hgd as cg Hcg.
        apply chem_data_inv in Hcg.
        assert (Hg' : g_nodes (tree s') !! g = g_nodes (tree s2) !! g).
        { destruct (decide (g = chem)) as [->|Hgc].
          - rewrite Hnchem. unfold s2. rewrite nodes_put.
            destruct (decide (chem = chem)); [reflexivity | contradiction].
          - unfold s2 in *. rewrite nodes_put in *.
            destruct (decide (chem = g)); [congruence|].
            apply Hnother; [exact Hgc|].
            apply (Hrxn_not g cg). unfold chem_data. rewrite Hcg. reflexivity. }
        unfold chem_data. rewrite Hg', Hcg. simpl. exact Hgd.
    + left.
      assert (Hc1 : chem_data s m = Ok c').
      { pose proof (Hback m c' Hc') as Hb. unfold s2 in Hb. rewrite nodes_put in Hb.
        destruct (decide (chem = m)); [congruence|]. unfold chem_data. rewrite Hb. reflexivity. }
      split; [exact Hc1|]. unfold successors. rewrite Hsucc.
      split; [reflexivity|]. intros r _. reflexivity.
Qed.

Lemma update_sound : forall items s s',
  good s -> (forall n, reactant (adapters s) n -> gt_free n) ->
  flags_sound s -> List.NoDup (chems_of items) ->
  (forall item, In item items ->
     exists i chem, fst item = Some (i, chem) /\ In chem (chemicals s) /\ live s chem
       /\ forall rxn, snd item = Some rxn -> In rxn (reactions s)) ->
  fold_m update_step items s = Ok s' -> flags_sound s'.
Proof.
  induction items as [|item items IH]; intros s s' Hg Hwf Hfs Hnd Hitems H; simpl in H.
  - inversion H; subst. exact Hfs.
  - bind_inv H as s1 Hs1.
    destruct (Hitems item (or_introl eq_refl)) as (i & chem & Hfst & Hchem & Hlive & Hrxn).
    destruct item as [x orxn]. simpl in Hfst, Hrxn. subst x.
    destruct Hg as (Hi & Ht & Hso).
    pose proof (update_step_sound s i chem orxn s1 (inv_registry s Hi) Ht (inv_root s Hi)
                  Hfs Hlive Hchem Hrxn Hs1) as Hfs1.
    assert (Hst : rtc step s s1).
    { apply (update_steps [(Some (i, chem), orxn)]). simpl. rewrite Hs1. reflexivity. }
    pose proof (good_steps _ _ Hst (conj Hi (conj Ht Hso)) Hwf) as Hg1.
    pose proof (rtc_step_frame _ _ Hst) as (_ & Had & Htg).
    destruct (steps_grow _ _ Hst) as (_ & _ & (lc & Hlc) & (lr & Hlr)).
    unfold chems_of in Hnd. simpl in Hnd. fold (chems_of items) in Hnd.
    inversion Hnd as [|? ? Hnotin Hnd']; subst.
    apply (IH s1 s' Hg1); try assumption.
    + rewrite Had. exact Hwf.
    + intros item Hitem.
      destruct (Hitems item (or_intror Hitem)) as (i' & chem' & Hf' & Hc' & Hl' & Hr').
      exists i', chem'. split; [exact Hf'|].
      split; [rewrite Hlc; apply in_or_app; left; exact Hc'|]. split.
      * destruct Hl' as [Hl'|Hl']; [left; congruence|]. right.
        assert (Hne : chem <> chem').
        { intros ->. apply Hnotin. unfold chems_of. apply in_flat_map.
          exists item. split; [exact Hitem|]. rewrite Hf'. left. reflexivity. }
        unfold is_chemical_done, chem_data in *.
        rewrite (update_step_other s (Some (i, chem), orxn) s1 chem' Hs1); [exact Hl'| |].
        -- intros i0 chem0 Heq. simpl in Heq. inversion Heq; subst. exact Hne.
        -- intros rxn Heq. simpl in Heq. subst orxn. intros ->.
           apply (not_both s chem' Ht Hc'). apply Hrxn. reflexivity.
      * intros rxn Hrx. rewrite Hlr. apply in_or_app. left. apply Hr'. exact Hrx.
Qed.

Lemma rollout_sound s s' :
  good s -> (forall n, reactant (adapters s) n -> gt_free n) ->
  flags_sound s -> _rollout s = Ok s' -> flags_sound s'.
Proof.
  intros (Hi & Ht & Hso) Hwf Hfs Hroll.
  pose proof (inv_registry s Hi) as Hr.
  unfold _rollout in Hroll. bind_inv Hroll as selected Hsel.
  destruct selected as [[chem_path rxn_path] template]. simpl in Hroll.
  bind_inv Hroll as s1 Hexp.
  destruct (select_spec _ _ _ _ Hsel)
    as (root & chems & c & Hroot & -> & Hlen & Hnd & Hdesc & Hc & Hkey & Hnew & Hdeg).
  pose proof (reg_target s Hr root Hroot) as Hrootc.
  destruct (descent_kinds s rxn_path chems root Ht Hrootc Hdesc) as [Hchems Hrxns].
  set (leaf := last_or root chems) in *.
  assert (Hleaf : root = leaf \/ is_chemical_done s leaf = Ok false).
  { destruct chems as [|c0 chems]; [left; reflexivity|].
    right. apply (descent_last_not_done _ _ _ _ Hdesc). discriminate. }
  assert (Hlive : live s leaf).
  { destruct Hleaf as [Hle|Hle]; [left; congruence | right; exact Hle]. }
  assert (Hleafc : In leaf (chemicals s)).
  { destruct (last_or_in root chems) as [Heq|Hin]; [|apply Hchems; exact Hin].
    fold leaf in Heq. rewrite <- Heq. exact Hrootc. }
  (* expansion *)
  pose proof Hexp as Hexp0.
  unfold _expand in Hexp. rewrite last_of_cons in Hexp. simpl in Hexp. fold leaf in Hexp.
  rewrite Hc in Hexp. simpl in Hexp. rewrite Hnew in Hexp.
  set (s0 := put_node s leaf (Chemical (set_explored (explored c ++ [template]) c))) in *.
  assert (Hst0 : step s s0) by (apply (step_explore s leaf c template); assumption).
  assert (Hst0' : rtc step s s0) by (eapply rtc_l; [exact Hst0 | apply rtc_refl]).
  pose proof (good_steps _ _ Hst0' (conj Hi (conj Ht Hso)) Hwf) as Hg0.
  assert (Hpre : forall rl x, In rl (_get_precursors s0 leaf template) -> In x rl ->
                   reactant (adapters s0) x).
  { intros rl x Hrl Hx. unfold _get_precursors in Hrl.
    destruct (template_ok _ _); [|destruct Hrl].
    eexists. eexists. exists rl. split; [exact Hrl | exact Hx]. }
  assert (Hexpd : expandable s0 root leaf).
  { split; [exact Hroot|]. split.
    - destruct Hleaf as [Hle|Hle]; [left; exact Hle|]. right.
      unfold is_chemical_done in *. unfold s0. rewrite chem_data_put_eq.
      rewrite Hc in Hle. exact Hle.
    - apply descent_reach in Hdesc. exact Hdesc. }
  assert (Hfs1 : flags_sound s1).
  { refine (process_precursors_sound root leaf template (root :: chems) _ s0 s1 Hg0 Hwf Hpre
              (or_introl eq_refl) (last_or_in root chems) Hexpd Hleafc _ Hexp).
    apply explore_sound; try assumption. apply (inv_root s Hi). }
  assert (Hsteps : rtc step s s1).
  { eapply rtc_l; [exact Hst0|].
    refine (process_precursors_steps root leaf template (root :: chems)
              _ _ _ Hpre (or_introl eq_refl) (last_or_in root chems) Hexpd Hexp). }
  pose proof (good_steps _ _ Hsteps (conj Hi (conj Ht Hso)) Hwf) as Hg1.
  pose proof (rtc_step_frame _ _ Hsteps) as (_ & Had & Htg1).
  destruct (steps_grow _ _ Hsteps) as (_ & _ & (lc & Hlc) & (lr & Hlr)).
  (* back-update *)
  unfold _update in Hroll. destruct (negb _); [discriminate|].
  assert (Hco : chems_of (zip_longest
                            (combine (rev (seq 0 (length (root :: chems))))
                                     (rev (root :: chems)))
                            (rev rxn_path))
                = rev (root :: chems)).
  { rewrite chems_of_zip.
    - apply map_snd_combine. rewrite !length_rev, length_seq. reflexivity.
    - rewrite length_combine, !length_rev, length_seq. simpl. lia. }
  refine (update_sound _ s1 s' Hg1 _ Hfs1 _ _ Hroll).
  - rewrite Had. exact Hwf.
  - rewrite Hco. apply List.NoDup_rev. exact Hnd.
  - intros [x y] Hitem.
    assert (Hlen2 : length (rev rxn_path)
                    <= length (combine (rev (seq 0 (length (root :: chems))))
                                       (rev (root :: chems)))).
    { rewrite length_combine, !length_rev, length_seq. simpl. lia. }
    destruct (zip_longest_left _ _ x y Hlen2 Hitem) as [[i chem] ->].
    destruct (zip_longest_In _ _ _ _ Hitem) as [Hx Hy].
    specialize (Hx (i, chem) eq_refl). apply in_combine_r in Hx. apply in_rev in Hx.
    assert (Hchem : In chem (chemicals s))
      by (destruct Hx as [<-|Hx]; [exact Hrootc | apply Hchems; exact Hx]).
    exists i, chem. split; [reflexivity|].
    split; [rewrite Hlc; apply in_or_app; left; exact Hchem|]. split.
    + destruct Hx as [<-|Hx]; [left; congruence|]. right.
      pose proof (descent_not_done _ _ _ _ _ Hdesc Hx) as Hnd0.
      destruct Hg1 as (Hi1 & Ht1 & _).
      destruct (chemical_node s1 chem (inv_registry s1 Hi1) Ht1) as [c1 Hc1].
      { rewrite Hlc. apply in_or_app. left. exact Hchem. }
      unfold is_chemical_done in Hnd0. bind_inv Hnd0 as c0 Hc0.
      destruct (expand_old _ _ _ _ _ _ _ Hexp0 Hchem Hc0 Hc1) as (_ & _ & Hdn & _).
      unfold is_chemical_done. rewrite Hc1. simpl. rewrite Hdn. exact Hnd0.
    + intros rxn Hrx. simpl in Hrx. subst y. specialize (Hy rxn eq_refl).
      apply in_rev in Hy. rewrite Hlr. apply in_or_app. left. apply Hrxns. exact Hy.
Qed.

(** After the back-update the value of [done] of the target is the one that
    would be computed again. *)
Lemma update_root_exact s root chems rxn_path s' :
  length rxn_path = length chems ->
  _update s (root :: chems) rxn_path = Ok s' ->
  exists c d, chem_data s' root = Ok c /\ done c = Some d /\ compute_done s' root c = Ok d.
Proof.
  intros Hlen H. unfold _update in H. destruct (negb _); [discriminate|].
  rewrite (update_items _ _ _ Hlen) in H. rewrite fold_m_app in H.
  bind_inv H as s1 Hs1. simpl in H. bind_inv H as s2 Hs2. inversion H; subst s2; clear H.
  unfold update_step in Hs2. simpl in Hs2.
  bind_inv Hs2 as c Hc. bind_inv Hs2 as updated Hupd. destruct updated as [d s3].
  inversion Hs2; subst s3; clear Hs2.
  apply is_chemical_done_update_ok in Hupd. destruct Hupd as (c0 & Hc0 & Hd & ->).
  rewrite chem_data_put_eq in Hc0. inversion Hc0; subst c0; clear Hc0.
  eexists. exists d. split; [apply chem_data_put_eq|]. split; [reflexivity|].
  apply compute_done_stable. exact Hd.
Qed.

Lemma engine_after_sound_flags cfg ad tgt :
  gt_free tgt ->
  (forall chem t rl x, In rl (apply_one_template ad chem t) -> In x rl -> gt_free x) ->
  forall n s, engine_after cfg ad tgt n = Ok s -> good s /\ flags_sound s.
Proof.
  intros Htgt Hreact.
  assert (Hkinds : forall n s, engine_after cfg ad tgt n = Ok s -> typed s).
  { apply engine_after_kinds; [apply gt_free_arrowless; exact Htgt|].
    intros chem t rl x Hrl Hx. apply gt_free_arrowless. eapply Hreact; eassumption. }
  induction n as [|n IH]; intros s H.
  - destruct (engine_after_inv _ _ _ _ _ H) as (Hi & _ & _ & Htg & _).
    pose proof (Hkinds _ _ H) as Ht.
    unfold engine_after in H. simpl in H. bind_inv H as s0 Hs0. inversion H; subst s0.
    split; [split; [exact Hi|]; split; [exact Ht|]; eapply sound_initialize; eassumption|].
    intros m c Hc Hd Hm. exfalso.
    pose proof Hs0 as Hst. apply initialize_state in Hst. destruct Hst as (c0 & -> & _).
    unfold chem_data in Hc. simpl in Hc, Hm.
    destruct (decide (tgt = m)) as [<-|Hne]; [congruence|].
    rewrite lookup_insert_ne in Hc by exact Hne. rewrite lookup_empty in Hc. discriminate.
  - pose proof H as H0. unfold engine_after in H. simpl in H.
    bind_inv H as s0 Hs0. bind_inv H as s1 Hs1.
    assert (He : engine_after cfg ad tgt n = Ok s1)
      by (unfold engine_after; rewrite Hs0; exact Hs1).
    destruct (IH s1 He) as [Hg1 Hfs1].
    destruct (engine_after_inv _ _ _ _ _ He) as (_ & _ & Had & _).
    assert (Hwf : forall x, reactant (adapters s1) x -> gt_free x).
    { rewrite Had. intros x (chem & t & rl & Hrl & Hx). eapply Hreact; eassumption. }
    split.
    + apply (good_steps s1 s (rollout_steps _ _ H) Hg1 Hwf).
    + eapply rollout_sound; eassumption.
Qed.

(** X23.  The cached values of [done] can be trusted where they say [True].
    With a target and reactants named without [>], in every state a new
    engine reaches a chemical other than the target whose [done] is [True]
    would be found done if [is_chemical_done] computed it again; and after
    at least one rollout the [done] of the target, which the [done] property
    of the engine reads, is the value that would be computed again. *)
Theorem done_flags_are_sound cfg ad tgt n s
    (Htgt : gt_free tgt)
    (Hreact : forall chem t rl x,
        In rl (apply_one_template ad chem t) -> In x rl -> gt_free x)
    (H : engine_after cfg ad tgt n = Ok s) :
  (forall m c, m <> tgt -> chem_data s m = Ok c -> done c = Some true ->
     compute_done s m c = Ok true)
  /\ (0 < n ->
      exists c d, chem_data s tgt = Ok c /\ done c = Some d
                  /\ compute_done s tgt c = Ok d).
Proof.
  destruct (engine_after_sound_flags cfg ad tgt Htgt Hreact n s H) as [_ Hfs].
  destruct (engine_after_inv _ _ _ _ _ H) as (_ & _ & _ & Htg & _).
  split.
  - intros m c Hm Hc Hd. apply (Hfs m c Hc Hd). rewrite Htg. congruence.
  - intros Hn. destruct n as [|n]; [lia|].
    unfold engine_after in H. simpl in H. bind_inv H as s0 Hs0. bind_inv H as s1 Hs1.
    assert (He : engine_after cfg ad tgt n = Ok s1)
      by (unfold engine_after; rewrite Hs0; exact Hs1).
    destruct (engine_after_inv _ _ _ _ _ He) as (_ & _ & _ & Htg1 & _).
    unfold _rollout in H. bind_inv H as selected Hsel.
    destruct selected as [[chem_path rxn_path] template]. simpl in H.
    bind_inv H as s2 Hexp.
    destruct (select_spec _ _ _ _ Hsel)
      as (root & chems & c & Hroot & -> & Hlen & _).
    assert (root = tgt) as -> by congruence.
    eapply update_root_exact; eassumption.
Qed.

Lemma done_flags_are_sound_witness :
  exists s c,
    engine_after default_config ad_chain "X" 2 = Ok s
    /\ chem_data s "A" = Ok c
    /\ done c = Some true
    /\ (forall m c, m <> "X" -> chem_data s m = Ok c -> done c = Some true ->
          compute_done s m c = Ok true)
    /\ (0 < 2 ->
        exists c d, chem_data s "X" = Ok c /\ done c = Some d
                    /\ compute_done s "X" c = Ok d).
Proof.
  eexists. eexists.
  match goal with
  | |- ?P /\ _ => assert (H : P) by (vm_compute; reflexivity)
  end.
  split; [exact H|].
  split; [vm_compute; reflexivity|].
  split; [vm_compute; reflexivity|].
  exact (done_flags_are_sound _ _ _ _ _ (no_gt_sound "X" eq_refl) chain_reactants H).
Defined.

